(* ===== verification/_CoqProject ===== *)
-Q . S2P
Prelude.v
GoStrings.v
Json.v
JsonEncode.v
Float.v
Api.v
DeepCopy.v
Kube.v
Database.v
World.v
Mem.v
Strategy.v
Queue.v
Interleaving.v
Refinement.v
Allocation.v
JobWorker.v
UngateWorker.v
Retry.v
CancelWorkers.v
TaskErrors.v
Controller.v
Jobspec.v
Webhook.v
Scheduler.v
Pipeline.v
Calls.v
Concurrent.v
Progress.v
Lifecycle.v
Attempts.v
EndToEnd.v
Resources.v
Jgf.v
JgfJson.v
Cluster.v
ResourceText.v
Proto.v
Service.v
Transport.v
Flags.v
Manager.v
Group.v
