(* ===== verification/Prelude.v ===== *)
(** * fluxqueue: a verification development

    fluxqueue puts the workloads of a Kubernetes cluster under the control of
    the Flux scheduler.  A workload goes through these parts of the program:

    - the _webhook_ ([src/api/v1alpha1]) sees every pod, job, deployment,
      replica set and stateful set when it is created, gates or suspends it,
      and creates a FluxJob that wraps it;
    - the _controller_ ([src/internal/controller]) reconciles a FluxJob: it
      enqueues it, runs a scheduling cycle and writes the status.  It also
      gives Fluxion the graph of the cluster at start, and asks for a cancel
      when a pod is deleted;
    - the _queue_ ([src/pkg/fluxqueue]) keeps waiting jobs in the table
      [pending_queue]; a cycle of its _strategy_ (EASY) turns the table into
      tasks of river, a task queue on the same database;
    - the _workers_ ([src/pkg/fluxqueue/strategy/workers]) run the tasks: ask
      Fluxion for an allocation, unsuspend a job or ungate pods with their
      nodes in a label, cancel jobs and reservations in Fluxion;
    - the _scheduler plugin_ ([src/build/scheduler]) reads that label and
      restricts the pod to its node;
    - the _manager_ ([src/cmd/manager/main.go]) reads the command line, makes
      queue, clients and controller, and runs them; a small _service_
      ([src/pkg/service], with stubs generated in [src/pkg/service-grpc])
      shows the graph of the cluster to other plugins.

    The parts call each other seldom; they communicate through the database,
    river, the API server and Fluxion.  Labels and payload texts are the
    protocol between them, so these are modelled as the strings they are.

    ** Shape of the model

    Code with effects is a function in the monad [GoM] of this file: it takes
    the state of the world and gives an outcome, which is a value or a panic,
    with the state after it.  An [error] is an optional [goerr].  [try] is the
    early return on an error.  Integers are [Z] with [int32] and [int64] where
    the source converts or where a field has that width.  A Go map is a [gmap];
    a nil label map is kept apart from an empty one where the code tells them
    apart.

    Code that is not part of the repository is a class over an abstract state,
    and what the program relies on is a class of laws about the calls that
    reported success: the database connection ([DbConn], [DbLaws]; the tables
    and statements themselves are concrete), river ([RiverClient],
    [RiverLaws]), the API server ([FluxJobClient], [PodClient] and their laws),
    Fluxion ([FluxionClient], no laws: any answer is allowed), quantities
    ([QuantityOps], [QuantityLaws]), the order in which Go visits a map
    ([MapRange], [RangeLaws]), the admission decoder and encoder ([Codec]), the
    jobspec library ([JobspecLib]), nodes and files ([ClusterClient];
    [FileView] and [FileLaws] for the files), the gRPC connection and the wire
    format ([ClientConn], [Connected], [WireCodec]).  [Mem.v] gives an instance
    of each service of the world and proves its laws; the others have one in
    the file that uses them.  The witnesses run the program on these instances.

    ** Files

    - [Prelude]: errors, outcomes, the monad, machine integers, tactics, the
      hint database, lemmas on lists.
    - [GoStrings]: the functions of [strings], [strconv] and [fmt] in use, with
      the round trips [ParseInt] after printing and [Split] after [Join].
    - [Json]: JSON values, a parser and a printer, and their round trip.
    - [JsonEncode]: [json.MarshalIndent] with its escapes and layout, and that
      the parser reads its text back.
    - [Float]: the floating-point numbers of Go, on [SpecFloat]: conversion,
      division, [math.Ceil], and when their composition is exact.
    - [Api]: [fluxjob_types.go], [groupversion_info.go], [pkg/defaults],
      [pkg/fluxqueue/defaults].
    - [DeepCopy]: [zz_generated.deepcopy.go] on an explicit heap of arrays.
    - [Kube]: the Kubernetes objects and clients.
    - [Database]: [create-tables.sql], [queries.go], [pkg/fluxqueue/types].
    - [World]: the arguments of the four workers, river, Fluxion, the record of
      the whole world, and the way a statement runs on the database.
    - [Mem]: in-memory services.
    - [Strategy]: the interface of [strategy.go] with its laws, and
      [Module Easy] for [easy.go].
    - [Queue]: [fluxqueue.go] and [events.go]: [NewQueue], [Enqueue],
      [Schedule], [Stop] and the cleanup events.  The mutex is a flag.
    - [Interleaving]: [Enqueue] and [Schedule] as threads that take one call per
      step, pools of them, and their interleavings.
    - [Refinement]: an abstract at-least-once queue, and the simulation of the
      pools by it.
    - [Allocation]: [pkg/types] and [parseNodes] of [workers/job.go].
    - [JobWorker], [UngateWorker], [CancelWorkers]: [workers/job.go],
      [workers/ungate.go], [workers/cleanup.go] and [workers/reservation.go].
    - [TaskErrors]: which outcomes of a worker end its task.
    - [Retry]: what a second run of a task does to the state the first one left,
      and a change of the pod between the two calls of [removeGate].
    - [Controller]: [fluxjob_controller.go], [submit.go], [status.go],
      [events.go] of [internal/controller].
    - [Jobspec]: [pkg/jobspec/jobspec.go].
    - [Webhook]: [fluxjob_webhook.go], [fluxjob_enqueue.go], [submit.go] of
      [api/v1alpha1].
    - [Scheduler]: [build/scheduler]: the plugin and the command that runs it.
    - [Pipeline]: the parts together, one operation at a time.
    - [Calls]: every handler as a tree of single calls to the services, and what
      these calls may do to the tables, the lock and river.
    - [Concurrent]: the goroutines of the queue and the handlers of the other
      parts, interleaved at single calls.
    - [Progress], [Lifecycle]: infinite runs of the parts and what eventually
      happens, to the placement of a job and to its cancel.
    - [Attempts]: the attempts of river as marked steps of such a run, what river
      documents about them ([works_off]), and that a task which may fail as
      often as that is completed.
    - [EndToEnd]: the same from the admission of an object on.
    - [Resources], [ResourceText]: [internal/controller/resources.go].
    - [Jgf], [JgfJson], [Cluster]: [pkg/jgf] with its JSON, and
      [internal/controller/cluster.go].
    - [Proto]: the messages of [service.pb.go], its raw descriptor and type
      tables, and the wire format.
    - [Service]: [pkg/service/service.go].
    - [Transport]: [service_grpc.pb.go]: client stubs, handlers, service table.
    - [Flags], [Manager]: [cmd/manager/main.go], and the construction and
      registration of the controller.
    - [Group]: [pkg/fluxqueue/group/group.go] and [labels.go].

    ** What the theorems show

    _The queue._  A cycle of [Schedule] loses no job whichever of its calls
    fails, for any strategy that keeps the interface ([StrategyLaws]), and it
    respects the lock.  With the services up, a cycle of EASY sends every
    pending row to river, the latest row first.  [Enqueue] adds exactly the row
    of the job or reports an error; a job of the same original name and
    namespace is refused, whatever its type.

    _Concurrency._ [Interleaving] splits the two operations at their calls.
    The threads run alone are the operations of [Queue]; in every interleaving
    at most one of them is in its cycle, and no row is lost: it stays in the
    table until a task that carries it has been inserted.  An execution without
    the lock that loses a job is given as an example.  [Refinement] states what
    the queue promises as an abstract machine: a submission takes effect in one
    step, a waiting row is delivered any number of times and stops waiting only
    after that; every interleaving is simulated by it.  [Calls] takes an
    admission, the run of a worker and the event of a deleted pod apart into
    trees of single calls that compute the same, and proves of the calls in
    them that none touches the table or the lock and that every task they
    insert is one a worker serves; [Concurrent] runs any number of these trees,
    call by call, beside the goroutines of the queue: the system refines the
    machine, an acknowledged submission is never lost, and the invariants of
    the tasks hold in every interleaving.

    _The webhook._  The chain of handlers equals the specification [Handle_spec]
    (the first type that decodes is enqueued and encoded).  An admitted request
    stores at most one FluxJob; objects that went through once, and children of
    templates that did, pass unchanged; the selector label put on a template is
    the one the ungate worker looks for.

    _The workers._ A job task always returns; its effect is stated for an
    allocation (of gated types and of jobs), for no allocation and for an
    impossible job.  The payloads built by concatenation parse to the intended
    JSON; the proofs go from there to the pods the API server stores.  A
    successful ungate run labels each gated pod with the node of its position
    and changes nothing else; a gated pod without a node makes it panic.  Tasks
    may run again ([Retry]): a second run changes nothing for a group, but for
    a single pod removes the gate of another controller; a run whose release
    failed leaves its grant behind and the next one asks for another; a gate
    that disappears between the two calls of [removeGate] makes it remove the
    wrong one.

    _The controller and the plugin._  Reconciling a FluxJob ends with the job
    queued and the status submitted, or with no task and the status error; the
    error of writing the status is returned, and a job whose status was not
    written is submitted again.
    [PreFilter] allows exactly the node at the index of the pod, never one the
    label does not name.  [Less] is a strict total order on distinct pods.

    _The system._ [Pipeline] follows an allocation from the ungate task through
    the labels to the one node the plugin allows and to the id that is
    cancelled when the pod is deleted.  Its relation [step] has one rule per
    operation of each component, any order, each with any outcome (errors and
    panics included), and a rule for changes by others that leave the database
    and river alone; the invariants of the reachable states are proved by rule
    induction.  A step is a whole handler there and in the files that follow
    ([Concurrent] splits the handlers).  [Progress] adds runs: when a later
    cycle succeeds and river runs the tasks of a job until they succeed, a job
    in the pending table ends with its pods labelled, released and placed,
    whatever the other components do meanwhile.  [Lifecycle] continues the
    runs: the nodes and the id are those of Fluxion's answer, and the deletion
    of a pod with that id ends in the cancel of exactly that id.  The pods of
    one object share the id, so the first deletion cancels the nodes of all; an
    example run shows a pod that still runs then.  Both are proved first for
    runs in which the tasks are run until they succeed; [Attempts] derives that
    from what river documents: only tasks that wait are run, at most as often
    as their options allow, and until they end.  What is left to assume is that
    fewer runs fail than allowed, and sensible answers of Fluxion.  The other
    side is a run in which three cancels fail while Fluxion is down, and an
    allocation is never given back.  [EndToEnd] puts the webhook and the
    controller in front: from the request that is admitted, over the FluxJob
    that is created and picked up, to the nodes and the cancel.  [Manager]
    carries the invariants from the first instruction of [main] to the end of
    the process.

    _The cluster graph._  The graph given to Fluxion is a tree with pairwise
    different ids, with one vertex per node, GPU, free core and free GiB,
    where free is what is left by the pods that were listed for the node; the
    capacity it offers fits in what is allocatable minus what is requested.
    The requests of a pod follow the formula of Kubernetes, in any order of
    iteration over the maps.  The JSON text of the graph is modelled to the
    character: reading it the way a worker reads an allocation gives the names
    of the nodes back, and the service returns exactly the text Fluxion was
    given.  [Transport] has the way of a call: stub, name, table, handler,
    endpoint; a client whose call is served reads that very text.  The program
    itself registers no such server.  The raw descriptor, read as bytes of the
    wire format, describes the messages and methods of the tables.  The
    conversion of a resource to text computes in floating point; it is the
    exact ceiling below 2^53, and a name that is no resource is an error.

    _The process._ Every setting can be given on the command line and is read
    back as given; the servers offer neither HTTP/2 nor open metrics unless a
    flag asks for it; without a queue the manager is not started; the process
    exits after an error of the setup or of the manager, and after a clean stop
    the queue is stopped and the process does not end.  Deep copies of FluxJobs
    share no memory with the original.

    Where the code differs from what it means to do, the theorem states what
    the code does: the reservation depth has no effect, the reservation worker
    fails on any non-empty table, a job is rejected with name and namespace
    exchanged, a missing gate removes somebody else's.

    ** Fuel and bounds

    Loops over slices and maps are structural recursion or folds.  Only the
    JSON parser has fuel, [2 * length + 2]; [parse_value_fuel] shows that more
    gives the same answer.  [parse] of [Flags] recurs on the arguments.  The run
    of the manager is a parameter of [main], which need not be a terminating
    program: its result stands for the state at the signal.  No theorem bounds
    the number of jobs, pods or nodes except where a width of the code does.

    ** Not modelled

    Loggers, and test code.  Controller-runtime (caches, the work queue, leader
    election, the servers), the scheduler that runs the plugin, the flags that
    libraries add, the machinery of river, and the protobuf runtime
    (reflection, cached sizes, unknown fields) are parameters or left out.
    Go's limit on the nesting of JSON is not modelled, and texts are taken to
    be valid UTF-8.

    The hypotheses that remain about runs: the FluxJob of an admitted object
    is reconciled and enqueued, a later scheduling cycle succeeds while a job
    waits (nothing but another FluxJob makes it run), river keeps the promises
    of [works_off], and no insertion into river fails in [Lifecycle],
    [Attempts] and [EndToEnd], because the job worker drops that error.  The
    runs of these files and of [Progress] are made of whole handlers; the
    interleaving of their single calls is covered by [Concurrent] for the queue
    and the tasks, and by [Retry] for the two calls of [removeGate]. *)

From stdpp Require Import base option list strings gmap numbers.

(** ** Errors, panics and the effect monad *)

(** A Go [error] value.  [errors.IsNotFound] recognises the second form;
    [river.JobCancel] wraps an error so that the queue does not retry. *)
Inductive goerr : Type :=
  | Err (msg : string)
  | ErrNotFound (msg : string)
  | ErrJobCancel (e : goerr).

(** The Go type [error]: [None] is [nil]. *)
Abbreviation error := (option goerr).

Definition IsNotFound (e : goerr) : bool :=
  match e with ErrNotFound _ => true | _ => false end.

(** [err.Error()]; river prefixes the text of an error it wraps. *)
Fixpoint error_text (e : goerr) : string :=
  match e with
  | Err msg | ErrNotFound msg => msg
  | ErrJobCancel e => "JobCancelError: " +:+ error_text e
  end.

(** A call either returns or panics; in both cases the world it ran in
    persists. *)
Inductive outcome (A : Type) : Type :=
  | Ret (a : A)
  | Panic (why : string).
Arguments Ret {A} _.
Arguments Panic {A} _.

Definition GoM (W A : Type) : Type := W -> outcome A * W.

#[export] Instance GoM_ret {W} : MRet (GoM W) := fun _ a w => (Ret a, w).
#[export] Instance GoM_bind {W} : MBind (GoM W) :=
  fun _ _ k m w =>
    match m w with
    | (Ret a, w') => k a w'
    | (Panic why, w') => (Panic why, w')
    end.

Definition panic {W A} (why : string) : GoM W A := fun w => (Panic why, w).
Definition gets {W A} (f : W -> A) : GoM W A := fun w => (Ret (f w), w).
Definition modify {W} (f : W -> W) : GoM W unit := fun w => (Ret tt, f w).
Definition run {W A} (m : GoM W A) (w : W) : outcome A * W := m w.

Declare Scope go_scope.
Delimit Scope go_scope with go.

(** [if err := m; err != nil { return err }; k] for a function whose result
    is an [error]. *)
Notation "'try' m ;; k" :=
  (mbind (fun err : error => match err with Some _ => mret err | None => k end) m)
  (at level 100, m at next level, right associativity) : go_scope.
Open Scope go_scope.

(** ** Machine integers *)

(** Conversion to a signed [w]-bit integer: two's complement wrap-around. *)
Definition wrap (w z : Z) : Z := (z + 2 ^ (w - 1)) `mod` 2 ^ w - 2 ^ (w - 1).
Definition int32 (z : Z) : Z := wrap 32 z.
Definition int64 (z : Z) : Z := wrap 64 z.
Definition in_range (w z : Z) : Prop := (- 2 ^ (w - 1) <= z < 2 ^ (w - 1))%Z.

Lemma wrap_id w z : (0 < w)%Z -> in_range w z -> wrap w z = z.
Proof.
  unfold wrap, in_range. intros Hw Hz.
  assert (Hp : (2 ^ w = 2 * 2 ^ (w - 1))%Z) by (rewrite <- Z.pow_succ_r by lia; f_equal; lia).
  rewrite Z.mod_small; lia.
Qed.

Lemma wrap_range w z : (0 < w)%Z -> in_range w (wrap w z).
Proof.
  unfold wrap, in_range. intros Hw.
  assert (Hp : (2 ^ w = 2 * 2 ^ (w - 1))%Z) by (rewrite <- Z.pow_succ_r by lia; f_equal; lia).
  assert (0 < 2 ^ (w - 1))%Z by (apply Z.pow_pos_nonneg; lia).
  pose proof (Z.mod_pos_bound (z + 2 ^ (w - 1)) (2 ^ w)) as Hb. lia.
Qed.

(** Wrapping after every addition or only at the end gives the same value. *)
Lemma wrap_add_l w a b : (0 < w)%Z -> wrap w (wrap w a + b) = wrap w (a + b).
Proof.
  unfold wrap. intros Hw.
  assert (0 < 2 ^ w)%Z by (apply Z.pow_pos_nonneg; lia).
  f_equal.
  replace ((a + 2 ^ (w - 1)) `mod` 2 ^ w - 2 ^ (w - 1) + b + 2 ^ (w - 1))%Z
    with ((a + 2 ^ (w - 1)) `mod` 2 ^ w + b)%Z by lia.
  rewrite Z.add_mod_idemp_l by lia. f_equal. lia.
Qed.

Lemma wrap_add_r w a b : (0 < w)%Z -> wrap w (a + wrap w b) = wrap w (a + b).
Proof. intros. rewrite Z.add_comm, wrap_add_l, Z.add_comm by done. done. Qed.

(** ** Running monadic code *)

Lemma run_bind {W A B} (m : GoM W A) (k : A -> GoM W B) w :
  (m ≫= k) w = match m w with
               | (Ret a, w') => k a w'
               | (Panic why, w') => (Panic why, w')
               end.
Proof. reflexivity. Qed.

Lemma bind_ret_inv {W A B} (m : GoM W A) (k : A -> GoM W B) w b w' :
  (m ≫= k) w = (Ret b, w') ->
  exists a w1, m w = (Ret a, w1) /\ k a w1 = (Ret b, w').
Proof.
  rewrite run_bind. destruct (m w) as [[a|why] w1]; intros H; [eauto | done].
Qed.

Lemma GoM_left_id {W A B} (a : A) (k : A -> GoM W B) w : (mret a ≫= k) w = k a w.
Proof. reflexivity. Qed.

(** ** Proof automation *)

Create HintDb flux discriminated.
#[export] Hint Constants Opaque : flux.

(** Split a goal's or a hypothesis's record, pair and option equations. *)
Ltac go_simpl :=
  repeat match goal with
    | H : (_, _) = (_, _) |- _ => injection H; clear H; intros; subst
    | H : Ret _ = Ret _ |- _ => injection H; clear H; intros; subst
    | H : Some _ = Some _ |- _ => injection H; clear H; intros; subst
    | H : Ret _ = Panic _ |- _ => discriminate H
    | H : Panic _ = Ret _ |- _ => discriminate H
    | H : Some _ = None |- _ => discriminate H
    | H : None = Some _ |- _ => discriminate H
    | H : _ /\ _ |- _ => destruct H
    | H : exists _, _ |- _ => destruct H
    end.

(** Peel the binds of a run that returned, one hypothesis per call. *)
Ltac go_step :=
  match goal with
  | H : (_ ≫= _) _ = (Ret _, _) |- _ =>
      let a := fresh "a" in let w := fresh "w" in
      let H1 := fresh "Hrun" in let H2 := fresh "Hk" in
      apply bind_ret_inv in H as (a & w & H1 & H2)
  end.
