(* ===== verification/GoStrings.v ===== *)
(** * The parts of Go's [strings] and [strconv] packages the program uses

    [strings.Join], [strings.Split], [fmt.Sprintf] with [%d],
    [strconv.ParseInt] in base 10 and [strconv.Atoi], as executable
    functions on [string], with the round trips between printing and
    parsing that the label protocol between the queue and the scheduler
    plugin relies on. *)

From Stdlib Require Import Ascii.
From stdpp Require Import base option list strings numbers pretty.
From S2P Require Import Prelude.

(** ** Printing integers *)

(** [fmt.Sprintf("%d", z)]. *)
Definition Itoa (z : Z) : string := pretty z.

(** ** Joining and splitting *)

(** [strings.Join(elems, sep)]. *)
Fixpoint Join (sep : string) (elems : list string) : string :=
  match elems with
  | [] => ""
  | [e] => e
  | e :: es => e +:+ sep +:+ Join sep es
  end.

(** The scan of [strings.Split(s, sep)] for a non-empty [sep]: [cur] is the
    piece read so far, [skip] the characters of a found separator still to
    be passed over. *)
Fixpoint split_from (sep : string) (skip : nat) (cur s : string) : list string :=
  match s with
  | "" => [cur]
  | String c s' =>
      match skip with
      | S k => split_from sep k cur s'
      | O =>
          if String.prefix sep s
          then cur :: split_from sep (Nat.pred (String.length sep)) "" s'
          else split_from sep 0 (cur +:+ String c "") s'
      end
  end.
Definition Split (s sep : string) : list string := split_from sep 0 "" s.

(** [strings.Contains(s, substr)]. *)
Fixpoint Contains (s substr : string) : bool :=
  String.prefix substr s ||
  match s with
  | "" => false
  | String _ s' => Contains s' substr
  end.

(** ** Parsing integers *)

Definition digit_of (c : ascii) : option Z :=
  let n := Z.of_N (N_of_ascii c) in
  if ((48 <=? n) && (n <=? 57))%Z then Some (n - 48)%Z else None.

Inductive num_error := ErrSyntax | ErrRange.

(** The digit loop of [strconv.ParseUint]: overflow is reported as soon as
    it happens, before later characters are looked at. *)
Fixpoint parse_digits (maxVal n : Z) (s : string) : Z * option num_error :=
  match s with
  | "" => (n, None)
  | String c s' =>
      match digit_of c with
      | None => (0%Z, Some ErrSyntax)
      | Some d =>
          if (maxVal <? n * 10 + d)%Z then (maxVal, Some ErrRange)
          else parse_digits maxVal (n * 10 + d) s'
      end
  end.

Definition ParseUint (bits : Z) (s : string) : Z * option num_error :=
  match s with
  | "" => (0%Z, Some ErrSyntax)
  | _ => parse_digits (2 ^ bits - 1) 0 s
  end.

(** [strconv.ParseInt(s, 10, bits)]. *)
Definition ParseInt (s : string) (bits : Z) : Z * option num_error :=
  match s with
  | "" => (0%Z, Some ErrSyntax)
  | String c rest =>
      let neg := bool_decide (c = "-"%char) in
      let body := if bool_decide (c = "-"%char) || bool_decide (c = "+"%char) then rest else s in
      let '(un, err) := ParseUint bits body in
      match err with
      | Some ErrSyntax => (0%Z, Some ErrSyntax)
      | _ =>
          let cutoff := (2 ^ (bits - 1))%Z in
          if negb neg && (cutoff <=? un)%Z then ((cutoff - 1)%Z, Some ErrRange)
          else if neg && (cutoff <? un)%Z then ((- cutoff)%Z, Some ErrRange)
          else ((if neg then - un else un)%Z, None)
      end
  end.

(** [strconv.Atoi] on a 64-bit platform. *)
Definition Atoi (s : string) : Z * option num_error := ParseInt s 64.

Example Split_ex1 : Split "a__b__c" "__" = ["a"; "b"; "c"].
Proof. reflexivity. Qed.
Example Split_ex2 : Split "" "__" = [""].
Proof. reflexivity. Qed.
Example Split_ex3 : Split "a___b__" "__" = ["a"; "_b"; ""].
Proof. reflexivity. Qed.
Example ParseInt_ex1 : ParseInt "-42" 64 = ((-42)%Z, None).
Proof. vm_compute. reflexivity. Qed.
Example ParseInt_ex2 : ParseInt "2147483648" 32 = (2147483647%Z, Some ErrRange).
Proof. vm_compute. reflexivity. Qed.
Example ParseInt_ex3 : ParseInt "12a" 32 = (0%Z, Some ErrSyntax).
Proof. vm_compute. reflexivity. Qed.
Example Itoa_ex : Itoa (-120) = "-120".
Proof. vm_compute. reflexivity. Qed.

(** ** Characters of a string *)

(** [c] occurs in [s]. *)
Fixpoint has_char (c : ascii) (s : string) : bool :=
  match s with
  | "" => false
  | String a s' => bool_decide (a = c) || has_char c s'
  end.

Lemma has_char_app c s1 s2 : has_char c (s1 +:+ s2) = has_char c s1 || has_char c s2.
Proof.
  induction s1 as [|a s1 IH]; [done|].
  change (String a s1 +:+ s2) with (String a (s1 +:+ s2)). simpl.
  by rewrite IH, orb_assoc.
Qed.

Lemma string_app_nil_r s : s +:+ "" = s.
Proof. induction s as [|a s IH]; [done|]. change (String a (s +:+ "") = String a s). by rewrite IH. Qed.

Lemma string_app_assoc s1 s2 s3 : (s1 +:+ s2) +:+ s3 = s1 +:+ (s2 +:+ s3).
Proof.
  induction s1 as [|a s1 IH]; [done|].
  change (String a ((s1 +:+ s2) +:+ s3) = String a (s1 +:+ (s2 +:+ s3))). by rewrite IH.
Qed.

Lemma string_app_cons_comm s a t : (s +:+ String a "") +:+ t = s +:+ String a t.
Proof. by rewrite string_app_assoc. Qed.

Lemma string_app_cons a s t : String a s +:+ t = String a (s +:+ t).
Proof. done. Qed.

Lemma prefix_app sep s : String.prefix sep (sep +:+ s) = true.
Proof.
  induction sep as [|a sep IH]; [by destruct s|].
  rewrite string_app_cons. simpl. destruct (ascii_dec a a); [done|congruence].
Qed.

(** ** Join and Split are inverse on names without the separator's character *)

(** Reading a piece that does not contain the first character of the
    separator leaves the scan just after it. *)
Lemma split_from_piece a sep cur e s :
  has_char a e = false ->
  split_from (String a sep) 0 cur (e +:+ s) = split_from (String a sep) 0 (cur +:+ e) s.
Proof.
  revert cur. induction e as [|c e IH]; intros cur He.
  - by rewrite string_app_nil_r.
  - simpl in He. apply orb_false_iff in He as [Hc He].
    apply bool_decide_eq_false in Hc.
    rewrite string_app_cons. simpl.
    destruct (ascii_dec a c); [congruence|].
    rewrite IH by done. by rewrite string_app_cons_comm.
Qed.

Lemma split_from_skip sep cur s t k :
  String.length s = k -> split_from sep k cur (s +:+ t) = split_from sep 0 cur t.
Proof.
  intros <-. induction s as [|c s IH]; [done|].
  rewrite string_app_cons. simpl. exact IH.
Qed.

Lemma split_from_sep a sep cur s :
  split_from (String a sep) 0 cur (String a sep +:+ s) = cur :: split_from (String a sep) 0 "" s.
Proof.
  cbn [split_from]. rewrite string_app_cons. cbn [split_from].
  rewrite <- string_app_cons, prefix_app. f_equal. by apply split_from_skip.
Qed.

Lemma Split_Join_gen a sep elems :
  elems <> [] ->
  Forall (fun e => has_char a e = false) elems ->
  Split (Join (String a sep) elems) (String a sep) = elems.
Proof.
  intros Hne Hall. unfold Split.
  induction Hall as [|e es He Hes IH]; [done|].
  destruct es as [|e' es].
  - cbn [Join]. rewrite <- (string_app_nil_r e) at 1. by rewrite split_from_piece.
  - change (Join (String a sep) (e :: e' :: es))
      with (e +:+ String a sep +:+ Join (String a sep) (e' :: es)).
    rewrite split_from_piece by done. rewrite split_from_sep.
    change ("" +:+ e) with e. by rewrite IH.
Qed.

(** ** Printing then parsing an integer *)

Lemma digit_of_pretty n : (n < 10)%N -> digit_of (pretty_N_char n) = Some (Z.of_N n).
Proof.
  intros Hn. destruct n as [|p]; [done|].
  do 4 (destruct p as [p|p|]; try (exfalso; lia); try done).
Qed.

(** The parser reads back the digits [pretty_N_go] writes in front of [s]. *)
Lemma parse_digits_pretty maxVal (x : N) : forall s,
  (Z.of_N x <= maxVal)%Z ->
  parse_digits maxVal 0 (pretty_N_go x s) = parse_digits maxVal (Z.of_N x) s.
Proof.
  induction (N.lt_wf_0 x) as [x _ IH]; intros s Hx.
  destruct (decide (x = 0)%N) as [->|Hn]; [done|].
  rewrite pretty_N_go_step by lia.
  pose proof (N.div_mod x 10 ltac:(lia)) as Hdm.
  pose proof (N.mod_lt x 10 ltac:(lia)) as Hmod.
  assert (x `div` 10 < x)%N by (apply N.div_lt; lia).
  rewrite IH by lia.
  cbn [parse_digits]. rewrite digit_of_pretty by done.
  replace (Z.of_N (x `div` 10) * 10 + Z.of_N (x `mod` 10))%Z with (Z.of_N x) by lia.
  destruct (Z.ltb_spec maxVal (Z.of_N x)); [lia|done].
Qed.

Lemma pretty_N_not_sign (n : N) c s : pretty n = String c s -> c <> "-"%char /\ c <> "+"%char.
Proof.
  assert (Hgo : forall x t, (forall c s, t = String c s -> is_Some (digit_of c)) ->
            forall c s, pretty_N_go x t = String c s -> is_Some (digit_of c)).
  { intros x. induction (N.lt_wf_0 x) as [x _ IH]; intros t Ht c0 s0.
    destruct (decide (x = 0)%N) as [->|Hx]; [by apply Ht|].
    rewrite pretty_N_go_step by lia. apply IH; [apply N.div_lt; lia|].
    intros c1 s1 [= <- _]. rewrite digit_of_pretty; [eauto|]. apply N.mod_lt; lia. }
  intros Hp. assert (is_Some (digit_of c)) as [d Hd].
  { unfold pretty, pretty_N in Hp. destruct (decide (n = 0)%N).
    - injection Hp as <- _. by eexists.
    - by eapply (Hgo n "") in Hp. }
  split; intros ->; vm_compute in Hd; discriminate.
Qed.

Lemma ParseUint_pretty bits (n : N) :
  (Z.of_N n <= 2 ^ bits - 1)%Z -> ParseUint bits (pretty n) = (Z.of_N n, None).
Proof.
  intros Hn. unfold ParseUint.
  assert (Hd : parse_digits (2 ^ bits - 1) 0 (pretty n) = (Z.of_N n, None)).
  { unfold pretty, pretty_N. destruct (decide (n = 0)%N) as [->|Hz].
    - cbn [parse_digits]. change (digit_of "0") with (Some 0%Z). cbv iota.
      change (0 * 10 + 0)%Z with 0%Z.
      destruct (Z.ltb_spec (2 ^ bits - 1) 0); [lia|done].
    - by rewrite parse_digits_pretty. }
  destruct (pretty n) as [|c s] eqn:E; [|exact Hd].
  simpl in Hd. unfold pretty, pretty_N in E. destruct (decide (n = 0)%N) as [->|Hz]; [done|].
  injection Hd. lia.
Qed.

Lemma ParseInt_Itoa_gen bits z :
  (0 < bits)%Z -> in_range bits z -> ParseInt (Itoa z) bits = (z, None).
Proof.
  intros Hb [Hlo Hhi].
  assert (Hp : (2 ^ bits = 2 * 2 ^ (bits - 1))%Z) by (rewrite <- Z.pow_succ_r by lia; f_equal; lia).
  assert (Hpos : forall n : N, (Z.of_N n < 2 ^ (bits - 1))%Z -> ParseInt (pretty n) bits = (Z.of_N n, None)).
  { intros n Hn. pose proof (ParseUint_pretty bits n ltac:(lia)) as Hu.
    destruct (pretty n) as [|c s] eqn:E; [by vm_compute in Hu|].
    apply pretty_N_not_sign in E as [Hm Hpl]. unfold ParseInt.
    rewrite (bool_decide_eq_false_2 _ Hm), (bool_decide_eq_false_2 _ Hpl). simpl orb. cbv iota.
    rewrite Hu. simpl. destruct (Z.leb_spec (2 ^ (bits - 1)) (Z.of_N n)); [lia|done]. }
  unfold Itoa. destruct z as [|p|p].
  - apply (Hpos 0%N). lia.
  - apply (Hpos (Npos p)). lia.
  - change (pretty (Z.neg p)) with ("-" +:+ pretty (Npos p)).
    pose proof (ParseUint_pretty bits (Npos p) ltac:(lia)) as Hu.
    change ("-" +:+ pretty (Npos p)) with (String "-" (pretty (Npos p))).
    unfold ParseInt. change (bool_decide ("-"%char = "-"%char)) with true. simpl orb. cbv iota.
    rewrite Hu. simpl. destruct (Z.ltb_spec (2 ^ (bits - 1)) (Z.pos p)); [lia|done].
Qed.

(** Every result of [ParseInt] fits the requested width, also on error. *)
Lemma ParseInt_bounds bits s :
  (0 < bits)%Z -> in_range bits (fst (ParseInt s bits)).
Proof.
  intros Hb. assert (0 < 2 ^ (bits - 1))%Z by (apply Z.pow_pos_nonneg; lia).
  assert (Hdig : forall maxVal n t, (0 <= n <= maxVal)%Z ->
    (0 <= fst (parse_digits maxVal n t) <= maxVal)%Z).
  { intros maxVal n t. revert n. induction t as [|c t IH]; intros n Hn; [done|].
    simpl. unfold digit_of. set (k := Z.of_N (N_of_ascii c)).
    destruct (Z.leb_spec 48 k); destruct (Z.leb_spec k 57); simpl; try lia.
    destruct (Z.ltb_spec maxVal (n * 10 + (k - 48))); simpl; [lia|]. apply IH. lia. }
  unfold ParseInt, in_range. destruct s as [|c rest]; [simpl; lia|].
  set (body := if _ || _ then rest else _).
  assert (Hu : (0 <= fst (ParseUint bits body) <= 2 ^ bits - 1)%Z).
  { assert (0 < 2 ^ bits)%Z by (apply Z.pow_pos_nonneg; lia).
    unfold ParseUint. destruct body; [simpl; lia|]. apply Hdig. lia. }
  destruct (ParseUint bits body) as [un [[]|]]; simpl in *; try lia;
    destruct (bool_decide (c = "-"%char)); simpl;
    destruct (Z.leb_spec (2 ^ (bits - 1)) un); destruct (Z.ltb_spec (2 ^ (bits - 1)) un);
    simpl; lia.
Qed.

(** ** Which characters a printed integer and a search use *)

Lemma pretty_N_go_no_char c (x : N) : forall s,
  digit_of c = None -> has_char c s = false -> has_char c (pretty_N_go x s) = false.
Proof.
  induction (N.lt_wf_0 x) as [x _ IH]; intros s Hc Hs.
  destruct (decide (x = 0)%N) as [->|Hx]; [done|].
  rewrite pretty_N_go_step by lia. apply IH; [apply N.div_lt; lia|done|].
  simpl. rewrite Hs, orb_false_r. apply bool_decide_eq_false_2. intros <-.
  rewrite digit_of_pretty in Hc; [done|]. apply N.mod_lt; lia.
Qed.

Lemma Itoa_no_char c z :
  digit_of c = None -> c <> "-"%char -> has_char c (Itoa z) = false.
Proof.
  intros Hc Hm.
  assert (HN : forall n : N, has_char c (pretty n) = false).
  { intros n. unfold pretty, pretty_N. destruct (decide (n = 0)%N).
    - simpl. rewrite orb_false_r. apply bool_decide_eq_false_2. by intros <-.
    - by apply pretty_N_go_no_char. }
  unfold Itoa. destruct z as [|p|p]; [apply (HN 0%N)|apply (HN (Npos p))|].
  change (pretty (Z.neg p)) with (String "-" (pretty (Npos p))). simpl.
  rewrite (HN (Npos p)), orb_false_r. apply bool_decide_eq_false_2. by intros <-.
Qed.

Lemma Contains_first_char s c t : Contains s (String c t) = true -> has_char c s = true.
Proof.
  induction s as [|a s IH]; [done|]. cbn [Contains has_char].
  intros [H|H]%orb_true_iff; [|rewrite IH by done; apply orb_true_r].
  simpl in H. destruct (ascii_dec c a) as [->|]; [|done].
  by rewrite bool_decide_eq_true_2.
Qed.

(** A syntax error comes with the value 0. *)
Lemma ParseInt_syntax s bits v : ParseInt s bits = (v, Some ErrSyntax) -> v = 0%Z.
Proof.
  unfold ParseInt. destruct s as [|c rest]; [by intros [= <-]|].
  destruct (ParseUint _ _) as [un [[]|]]; [by intros [= <-]|..]; by repeat case_match.
Qed.
