(* ===== verification/Json.v ===== *)
(** * JSON text, as [encoding/json] and the Kubernetes API server read it

    The queue builds patch payloads by string concatenation and reads
    Fluxion's allocations with [json.Unmarshal].  This file holds the value
    type, an executable parser of the RFC 8259 grammar with the escapes as
    Go decodes them, and a printer in the layout the payloads use.  Numbers
    keep their literal.  Input strings are taken to be valid UTF-8 (a
    protobuf [string] field is), so bytes above 127 are copied.  Go's limit
    of 10000 nested values is not modelled.

    The parser recurses on fuel; [parse_value_fuel] shows that any two
    amounts of at least [2 * length + 2] give the same answer, so the fuel
    [json_parse] uses never cuts a text short. *)

From Stdlib Require Import Ascii Wf_nat.
From stdpp Require Import base option list strings numbers.
From S2P Require Import Prelude GoStrings.

#[warnings="-register-all"]
Inductive json : Type :=
  | JNull
  | JBool (b : bool)
  | JNum (lit : string)
  | JStr (s : string)
  | JArr (elems : list json)
  | JObj (members : list (string * json)).

(** ** Lexical elements *)

Definition dquote : ascii := "034".
Definition backslash : ascii := "092".

Definition is_ws (c : ascii) : bool :=
  match N_of_ascii c with 32%N | 9%N | 10%N | 13%N => true | _ => false end.
Definition is_digit (c : ascii) : bool :=
  match digit_of c with Some _ => true | None => false end.

Fixpoint skip_ws (s : string) : string :=
  match s with
  | String c s' => if is_ws c then skip_ws s' else s
  | "" => ""
  end.

Definition hex_of (c : ascii) : option N :=
  let n := N_of_ascii c in
  if ((48 <=? n) && (n <=? 57))%N then Some (n - 48)%N
  else if ((97 <=? n) && (n <=? 102))%N then Some (n - 87)%N
  else if ((65 <=? n) && (n <=? 70))%N then Some (n - 55)%N
  else None.

Definition hex4 (a b c d : ascii) : option N :=
  match hex_of a, hex_of b, hex_of c, hex_of d with
  | Some a, Some b, Some c, Some d => Some (((a * 16 + b) * 16 + c) * 16 + d)%N
  | _, _, _, _ => None
  end.

(** UTF-8 encoding of a code point. *)
Definition utf8 (r : N) : string :=
  (let b n := ascii_of_N n in
   if r <? 128 then String (b r) ""
   else if r <? 2048 then String (b (192 + r `div` 64)) (String (b (128 + r `mod` 64)) "")
   else if r <? 65536 then
     String (b (224 + r `div` 4096)) (String (b (128 + (r `div` 64) `mod` 64))
       (String (b (128 + r `mod` 64)) ""))
   else
     String (b (240 + r `div` 262144)) (String (b (128 + (r `div` 4096) `mod` 64))
       (String (b (128 + (r `div` 64) `mod` 64)) (String (b (128 + r `mod` 64)) ""))))%N.

Definition is_high (r : N) : bool := ((55296 <=? r) && (r <? 56320))%N.
Definition is_low (r : N) : bool := ((56320 <=? r) && (r <? 57344))%N.
Definition replacement_char : N := 65533.

Definition simple_escape (e : ascii) : option ascii :=
  match N_of_ascii e with
  | 34%N => Some dquote | 92%N => Some backslash | 47%N => Some "/"%char
  | 98%N => Some "008"%char | 102%N => Some "012"%char | 110%N => Some "010"%char
  | 114%N => Some "013"%char | 116%N => Some "009"%char
  | _ => None
  end.

Definition prepend (s : string) (r : option (string * string)) : option (string * string) :=
  match r with Some (t, rest) => Some (s +:+ t, rest) | None => None end.

(** The characters of a string literal up to its closing quote. *)
Fixpoint parse_chars (s : string) : option (string * string) :=
  match s with
  | "" => None
  | String c s1 =>
      if bool_decide (c = dquote) then Some ("", s1)
      else if bool_decide (c = backslash) then
        match s1 with
        | "" => None
        | String e s2 =>
            if bool_decide (e = "u"%char) then
              match s2 with
              | String h1 (String h2 (String h3 (String h4 s3))) =>
                  match hex4 h1 h2 h3 h4 with
                  | None => None
                  | Some r =>
                      let lone := prepend (utf8 (if is_high r || is_low r then replacement_char else r))
                                          (parse_chars s3) in
                      if is_high r then
                        match s3 with
                        | String b (String u (String l1 (String l2 (String l3 (String l4 s4))))) =>
                            match hex4 l1 l2 l3 l4 with
                            | Some r2 =>
                                if bool_decide (b = backslash) && bool_decide (u = "u"%char) && is_low r2
                                then prepend (utf8 (65536 + (r - 55296) * 1024 + (r2 - 56320))%N) (parse_chars s4)
                                else lone
                            | None => lone
                            end
                        | _ => lone
                        end
                      else lone
                  end
              | _ => None
              end
            else match simple_escape e with
                 | Some ch => prepend (String ch "") (parse_chars s2)
                 | None => None
                 end
        end
      else if (N_of_ascii c <? 32)%N then None
      else prepend (String c "") (parse_chars s1)
  end.

(** The longest run of digits at the front. *)
Fixpoint take_digits (s : string) : string * string :=
  match s with
  | String c s' => if is_digit c then let '(d, r) := take_digits s' in (String c d, r) else ("", s)
  | "" => ("", "")
  end.

(** [s] without its first character, when that is [c]. *)
Definition expect (c : ascii) (s : string) : option string :=
  match s with
  | String a s' => if bool_decide (a = c) then Some s' else None
  | "" => None
  end.

Definition some_digits (s : string) : option (string * string) :=
  match take_digits s with
  | ("", _) => None
  | (d, r) => Some (d, r)
  end.

Definition parse_int_part (s : string) : option (string * string) :=
  match expect "0" s with
  | Some s' => Some ("0", s')
  | None => some_digits s
  end.

Definition parse_frac (s : string) : option (string * string) :=
  match expect "." s with
  | Some s' => prepend "." (some_digits s')
  | None => Some ("", s)
  end.

Definition parse_sign (s : string) : string * string :=
  match expect "+" s, expect "-" s with
  | Some t, _ => ("+", t)
  | None, Some t => ("-", t)
  | None, None => ("", s)
  end.

Definition parse_exp (s : string) : option (string * string) :=
  match expect "e" s, expect "E" s with
  | Some s', _ => let '(sg, s2) := parse_sign s' in prepend ("e" +:+ sg) (some_digits s2)
  | None, Some s' => let '(sg, s2) := parse_sign s' in prepend ("E" +:+ sg) (some_digits s2)
  | None, None => Some ("", s)
  end.

Definition parse_number (s : string) : option (string * string) :=
  let '(sg, s0) := match expect "-" s with Some t => ("-", t) | None => ("", s) end in
  match parse_int_part s0 with
  | None => None
  | Some (i, s1) =>
      match parse_frac s1 with
      | None => None
      | Some (f, s2) => prepend (sg +:+ i +:+ f) (parse_exp s2)
      end
  end.

(** [s] without the prefix [lit]. *)
Fixpoint strip (lit s : string) : option string :=
  match lit with
  | "" => Some s
  | String c lit' => match expect c s with Some s' => strip lit' s' | None => None end
  end.

(** ** Values *)

Fixpoint parse_value (n : nat) (s : string) {struct n} : option (json * string) :=
  match n with
  | O => None
  | S n =>
      match skip_ws s with
      | "" => None
      | String c s1 =>
          if bool_decide (c = "{"%char) then
            match expect "}" (skip_ws s1) with
            | Some s2 => Some (JObj [], s2)
            | None => match parse_members n s1 with
                      | Some (m, r) => Some (JObj m, r) | None => None end
            end
          else if bool_decide (c = "["%char) then
            match expect "]" (skip_ws s1) with
            | Some s2 => Some (JArr [], s2)
            | None => match parse_elems n s1 with
                      | Some (l, r) => Some (JArr l, r) | None => None end
            end
          else if bool_decide (c = dquote) then
            match parse_chars s1 with Some (t, r) => Some (JStr t, r) | None => None end
          else if bool_decide (c = "t"%char) then
            match strip "rue" s1 with Some r => Some (JBool true, r) | None => None end
          else if bool_decide (c = "f"%char) then
            match strip "alse" s1 with Some r => Some (JBool false, r) | None => None end
          else if bool_decide (c = "n"%char) then
            match strip "ull" s1 with Some r => Some (JNull, r) | None => None end
          else
            match parse_number (String c s1) with
            | Some (l, r) => Some (JNum l, r) | None => None end
      end
  end
with parse_elems (n : nat) (s : string) {struct n} : option (list json * string) :=
  match n with
  | O => None
  | S n =>
      match parse_value n s with
      | None => None
      | Some (v, r) =>
          match expect "," (skip_ws r) with
          | Some r' =>
              match parse_elems n r' with Some (l, r2) => Some (v :: l, r2) | None => None end
          | None =>
              match expect "]" (skip_ws r) with
              | Some r' => Some ([v], r')
              | None => None
              end
          end
      end
  end
with parse_members (n : nat) (s : string) {struct n} : option (list (string * json) * string) :=
  match n with
  | O => None
  | S n =>
      match expect dquote (skip_ws s) with
      | None => None
      | Some s1 =>
          match parse_chars s1 with
          | None => None
          | Some (k, r) =>
              match expect ":" (skip_ws r) with
              | None => None
              | Some r1 =>
                  match parse_value n r1 with
                  | None => None
                  | Some (v, r2) =>
                      match expect "," (skip_ws r2) with
                      | Some r3 =>
                          match parse_members n r3 with
                          | Some (m, r4) => Some ((k, v) :: m, r4) | None => None end
                      | None =>
                          match expect "}" (skip_ws r2) with
                          | Some r3 => Some ([(k, v)], r3)
                          | None => None
                          end
                      end
                  end
              end
          end
      end
  end.

Definition json_parse (s : string) : option json :=
  match parse_value (2 * String.length s + 2) s with
  | Some (j, r) => match skip_ws r with "" => Some j | _ => None end
  | None => None
  end.

(** [json.Valid]. *)
Definition json_valid (s : string) : bool :=
  match json_parse s with Some _ => true | None => false end.

(** JSON text written with single quotes in place of double quotes. *)
Fixpoint dq (s : string) : string :=
  match s with
  | "" => ""
  | String c s' => String (if bool_decide (c = "'"%char) then dquote else c) (dq s')
  end.

Example json_ex1 : json_parse (dq "{'a': [1, -2.5e3, true, null], 'b':{}}")
  = Some (JObj [("a", JArr [JNum "1"; JNum "-2.5e3"; JBool true; JNull]); ("b", JObj [])]).
Proof. vm_compute. reflexivity. Qed.
Example json_ex2 : json_parse (dq "{'a': 1") = None.
Proof. vm_compute. reflexivity. Qed.
Example json_ex3 : json_parse (dq "'\u0041\n\ud83d\ude00'")
  = Some (JStr (String "A" (String "010" (utf8 128512)))).
Proof. vm_compute. reflexivity. Qed.

(** ** The parser consumes its input, and its fuel suffices *)

Abbreviation slen := String.length.

Lemma slen_app s t : slen (s +:+ t) = slen s + slen t.
Proof. induction s as [|a s IH]; [done|]. rewrite string_app_cons. simpl. by rewrite IH. Qed.

Lemma skip_ws_len s : slen (skip_ws s) <= slen s.
Proof. induction s as [|c s IH]; simpl; [done|]. destruct (is_ws c); simpl; lia. Qed.

Lemma skip_ws_cons_len s c s' : skip_ws s = String c s' -> slen s' < slen s.
Proof. intros H. pose proof (skip_ws_len s) as Hl. rewrite H in Hl. simpl in Hl. lia. Qed.

Lemma prepend_inv s r t rest :
  prepend s r = Some (t, rest) -> exists t', r = Some (t', rest) /\ t = s +:+ t'.
Proof. destruct r as [[t' r']|]; simpl; intros [= <- <-]; eauto. Qed.

Lemma parse_chars_len s t r : parse_chars s = Some (t, r) -> slen r < slen s.
Proof.
  revert t. induction s as [s IH] using (induction_ltof1 _ slen). unfold ltof in IH. intros t.
  destruct s as [|c s1]; [done|]. cbn [parse_chars].
  assert (Hrec : forall u v, slen u <= slen s1 -> prepend v (parse_chars u) = Some (t, r) ->
            slen r < slen (String c s1)).
  { intros u v Hu Hp. apply prepend_inv in Hp as (t' & Hp & _).
    apply IH in Hp; [|simpl; lia]. simpl. lia. }
  repeat case_match; subst; try done; intros Heq;
    try (eapply Hrec; [|exact Heq]; simpl; lia).
  injection Heq as <- <-. simpl. lia.
Qed.

Lemma take_digits_len s : slen (snd (take_digits s)) <= slen s.
Proof.
  induction s as [|c s IH]; simpl; [done|].
  destruct (is_digit c); simpl; [|done]. destruct (take_digits s); simpl in *. lia.
Qed.

Lemma expect_len c s s' : expect c s = Some s' -> slen s = S (slen s').
Proof. destruct s as [|a s]; simpl; [done|]. case_bool_decide; [|done]. by intros [= <-]. Qed.

Lemma expect_ws_len c s s' : expect c (skip_ws s) = Some s' -> slen s' < slen s.
Proof. intros H%expect_len. pose proof (skip_ws_len s). lia. Qed.

Lemma some_digits_len s d r : some_digits s = Some (d, r) -> slen r < slen s.
Proof.
  unfold some_digits. destruct s as [|a s]; simpl; [done|]. pose proof (take_digits_len s) as Hl.
  destruct (is_digit a); [|done]. destruct (take_digits s) as [d' r'].
  intros [= _ <-]. simpl in *. lia.
Qed.

Lemma parse_sign_len s sg r : parse_sign s = (sg, r) -> slen r <= slen s.
Proof.
  unfold parse_sign. destruct (expect "+" s) eqn:E1; [|destruct (expect "-" s) eqn:E2];
    intros [= _ <-]; try apply expect_len in E1; try apply expect_len in E2; lia.
Qed.

Lemma parse_frac_len s f r : parse_frac s = Some (f, r) -> slen r <= slen s.
Proof.
  unfold parse_frac. destruct (expect "." s) eqn:E; [|by intros [= _ <-]].
  intros (? & Hd & _)%prepend_inv. apply some_digits_len in Hd. apply expect_len in E. lia.
Qed.

Lemma parse_exp_len s f r : parse_exp s = Some (f, r) -> slen r <= slen s.
Proof.
  unfold parse_exp. destruct (expect "e" s) eqn:E; [|destruct (expect "E" s) eqn:E'];
    [| |by intros [= _ <-]]; destruct (parse_sign _) as [sg s2] eqn:Es;
    intros (? & Hd & _)%prepend_inv; apply some_digits_len in Hd; apply parse_sign_len in Es;
    [apply expect_len in E | apply expect_len in E']; lia.
Qed.

Lemma parse_number_len s l r : parse_number s = Some (l, r) -> slen r < slen s.
Proof.
  unfold parse_number.
  destruct (match expect "-" s with Some t => _ | None => _ end) as [sg s0] eqn:E0.
  assert (slen s0 <= slen s).
  { destruct (expect "-" s) eqn:E; injection E0 as _ <-; [apply expect_len in E|]; lia. }
  destruct (parse_int_part s0) as [[i s1]|] eqn:E1; [|done].
  assert (slen s1 < slen s0).
  { unfold parse_int_part in E1. destruct (expect "0" s0) eqn:E.
    - injection E1 as _ <-. apply expect_len in E. lia.
    - by eapply some_digits_len. }
  destruct (parse_frac s1) as [[f s2]|] eqn:E2; [|done]. apply parse_frac_len in E2.
  intros (? & Hx & _)%prepend_inv. apply parse_exp_len in Hx. lia.
Qed.

Lemma strip_len lit s r : strip lit s = Some r -> slen r <= slen s.
Proof.
  revert s. induction lit as [|c lit IH]; simpl; intros s; [by intros [= <-]|].
  destruct (expect c s) eqn:E; [|done]. intros H%IH. apply expect_len in E. lia.
Qed.

(** Case analysis on every [match] of a parser equation [H]. *)
Ltac parser_cases H :=
  repeat match type of H with
    | context [match ?x with _ => _ end] =>
        lazymatch x with
        | context [match _ with _ => _ end] => fail
        | _ => let E := fresh "E" in destruct x eqn:E
        end
    end; simplify_eq.

Lemma parse_len n :
  (forall s j r, parse_value n s = Some (j, r) -> slen r < slen s) /\
  (forall s l r, parse_elems n s = Some (l, r) -> slen r < slen s) /\
  (forall s m r, parse_members n s = Some (m, r) -> slen r < slen s).
Proof.
  induction n as [|n (IHv & IHe & IHm)]; [done|].
  split; [|split]; intros s x r H; cbn [parse_value parse_elems parse_members] in H.
  - destruct (skip_ws s) as [|c s1] eqn:Es; [done|]. apply skip_ws_cons_len in Es.
    parser_cases H;
      repeat match goal with
        | E : expect _ (skip_ws _) = Some _ |- _ => apply expect_ws_len in E
        | E : parse_members n _ = Some _ |- _ => apply IHm in E
        | E : parse_elems n _ = Some _ |- _ => apply IHe in E
        | E : parse_chars _ = Some _ |- _ => apply parse_chars_len in E
        | E : strip _ _ = Some _ |- _ => apply strip_len in E
        | E : parse_number _ = Some _ |- _ => apply parse_number_len in E; simpl in E
        end; lia.
  - parser_cases H;
      repeat match goal with
        | E : expect _ (skip_ws _) = Some _ |- _ => apply expect_ws_len in E
        | E : parse_value n _ = Some _ |- _ => apply IHv in E
        | E : parse_elems n _ = Some _ |- _ => apply IHe in E
        end; lia.
  - parser_cases H;
      repeat match goal with
        | E : expect _ (skip_ws _) = Some _ |- _ => apply expect_ws_len in E
        | E : parse_value n _ = Some _ |- _ => apply IHv in E
        | E : parse_members n _ = Some _ |- _ => apply IHm in E
        | E : parse_chars _ = Some _ |- _ => apply parse_chars_len in E
        end; lia.
Qed.

Lemma parse_value_len n s j r : parse_value n s = Some (j, r) -> slen r < slen s.
Proof. apply parse_len. Qed.

(** Fuel beyond twice the length of the text does not change the answer. *)
Lemma parse_fuel n :
  (forall s m, 2 * slen s + 1 <= n -> 2 * slen s + 1 <= m -> parse_value n s = parse_value m s) /\
  (forall s m, 2 * slen s + 2 <= n -> 2 * slen s + 2 <= m -> parse_elems n s = parse_elems m s) /\
  (forall s m, 2 * slen s + 2 <= n -> 2 * slen s + 2 <= m -> parse_members n s = parse_members m s).
Proof.
  induction n as [|n (IHv & IHe & IHm)]; [split; [|split]; intros; lia|].
  split; [|split]; intros s [|m] Hn Hm; try lia; cbn [parse_value parse_elems parse_members].
  - destruct (skip_ws s) as [|c s1] eqn:Es; [done|]. apply skip_ws_cons_len in Es.
    rewrite (IHm s1 m), (IHe s1 m) by lia. done.
  - rewrite (IHv s m) by lia. destruct (parse_value m s) as [[v r]|] eqn:Ev; [|done].
    apply parse_value_len in Ev. destruct (expect "," (skip_ws r)) as [r'|] eqn:E; [|done].
    apply expect_ws_len in E. rewrite (IHe r' m) by lia. done.
  - destruct (expect dquote (skip_ws s)) as [s1|] eqn:E1; [|done]. apply expect_ws_len in E1.
    destruct (parse_chars s1) as [[k r]|] eqn:E2; [|done]. apply parse_chars_len in E2.
    destruct (expect ":" (skip_ws r)) as [r1|] eqn:E3; [|done]. apply expect_ws_len in E3.
    rewrite (IHv r1 m) by lia. destruct (parse_value m r1) as [[v r2]|] eqn:Ev; [|done].
    apply parse_value_len in Ev. destruct (expect "," (skip_ws r2)) as [r3|] eqn:E4; [|done].
    apply expect_ws_len in E4. rewrite (IHm r3 m) by lia. done.
Qed.

Lemma parse_value_fuel n m s :
  2 * slen s + 2 <= n -> 2 * slen s + 2 <= m -> parse_value n s = parse_value m s.
Proof. intros. apply parse_fuel; lia. Qed.

(** ** Printing, in the layout of the patch payloads *)

Definition quote (s : string) : string := String dquote (s +:+ String dquote "").

Fixpoint print_json (j : json) : string :=
  match j with
  | JNull => "null"
  | JBool true => "true"
  | JBool false => "false"
  | JNum l => l
  | JStr s => quote s
  | JArr l => "[" +:+ Join ", " (print_json <$> l) +:+ "]"
  | JObj m => "{" +:+ Join ", " ((fun kv => quote kv.1 +:+ ": " +:+ print_json kv.2) <$> m) +:+ "}"
  end.

(** Strings that need no escape. *)
Definition plain_char (c : ascii) : bool :=
  negb (bool_decide (c = dquote)) && negb (bool_decide (c = backslash)) && negb (N_of_ascii c <? 32)%N.

Fixpoint plain (s : string) : bool :=
  match s with "" => true | String c s' => plain_char c && plain s' end.

Fixpoint plain_json (j : json) : bool :=
  match j with
  | JNum _ => false
  | JStr s => plain s
  | JArr l => forallb plain_json l
  | JObj m => forallb (fun kv => plain kv.1 && plain_json kv.2) m
  | _ => true
  end.

(** Fuel that is enough to read a printed value back. *)
Fixpoint jfuel (j : json) : nat :=
  match j with
  | JArr l => S (foldr (fun v n => S (jfuel v + n)) 0 l)
  | JObj m => S (foldr (fun kv n => S (jfuel kv.2 + n)) 0 m)
  | _ => 1
  end.

(** Induction on JSON values that reaches inside arrays and objects. *)
Lemma json_ind_nested (P : json -> Prop) :
  P JNull -> (forall b, P (JBool b)) -> (forall l, P (JNum l)) -> (forall s, P (JStr s)) ->
  (forall l, Forall P l -> P (JArr l)) ->
  (forall m, Forall (fun kv => P kv.2) m -> P (JObj m)) ->
  forall j, P j.
Proof.
  intros Hn Hb Hu Hs Ha Ho. fix IH 1.
  intros [|b|l|s|l|m]; [exact Hn|apply Hb|apply Hu|apply Hs| |].
  - apply Ha. induction l as [|v l IHl]; constructor; [apply IH|exact IHl].
  - apply Ho. induction m as [|[k v] m IHm]; constructor; [apply IH|exact IHm].
Qed.

Lemma plain_app s t : plain (s +:+ t) = plain s && plain t.
Proof.
  induction s as [|c s IH]; [done|]. rewrite string_app_cons. simpl. by rewrite IH, andb_assoc.
Qed.

Lemma parse_chars_plain s rest :
  plain s = true -> parse_chars (s +:+ String dquote rest) = Some (s, rest).
Proof.
  induction s as [|c s IH]; intros Hp; [done|].
  simpl in Hp. apply andb_true_iff in Hp as [Hc Hs]. unfold plain_char in Hc.
  rewrite string_app_cons. cbn [parse_chars].
  destruct (bool_decide (c = dquote)); [done|].
  destruct (bool_decide (c = backslash)); [done|].
  destruct (N_of_ascii c <? 32)%N; [done|]. by rewrite IH.
Qed.

Lemma quote_app s rest : quote s +:+ rest = String dquote (s +:+ String dquote rest).
Proof. unfold quote. by rewrite string_app_cons, string_app_assoc. Qed.

Lemma parse_value_space n s : parse_value n (String " " s) = parse_value n s.
Proof. by destruct n. Qed.
Lemma parse_elems_space n s : parse_elems n (String " " s) = parse_elems n s.
Proof. destruct n; [done|]. cbn [parse_elems]. by rewrite parse_value_space. Qed.
Lemma parse_members_space n s : parse_members n (String " " s) = parse_members n s.
Proof. by destruct n. Qed.

Lemma Join_cons2 sep e e' es rest :
  Join sep (e :: e' :: es) +:+ rest = e +:+ (sep +:+ (Join sep (e' :: es) +:+ rest)).
Proof. cbn [Join]. by rewrite !string_app_assoc. Qed.

Definition reads (j : json) : Prop :=
  forall n rest, jfuel j <= n -> parse_value n (print_json j +:+ rest) = Some (j, rest).

Lemma parse_elems_print l : l <> [] -> Forall reads l -> forall n rest,
  foldr (fun v n => S (jfuel v + n)) 0 l <= n ->
  parse_elems n (Join ", " (print_json <$> l) +:+ String "]" rest) = Some (l, rest).
Proof.
  intros Hne Hl. induction Hl as [|v l Hv Hl IH]; [done|]. intros [|n] rest Hn; simpl in Hn; [lia|].
  cbn [parse_elems]. destruct l as [|v' l].
  - cbn [fmap list_fmap Join]. rewrite Hv by lia. done.
  - cbn [fmap list_fmap] in *. rewrite Join_cons2, Hv by lia.
    change (", " +:+ ?x) with (String "," (String " " x)).
    change (expect "," (skip_ws (String "," ?x))) with (Some x). cbv iota beta.
    rewrite parse_elems_space, IH by (try done; lia). done.
Qed.

Lemma parse_members_print m : m <> [] -> Forall (fun kv => reads kv.2) m ->
  forallb (fun kv => plain kv.1 && plain_json kv.2) m = true -> forall n rest,
  foldr (fun kv n => S (jfuel kv.2 + n)) 0 m <= n ->
  parse_members n (Join ", " ((fun kv => quote kv.1 +:+ ": " +:+ print_json kv.2) <$> m)
                   +:+ String "}" rest) = Some (m, rest).
Proof.
  intros Hne Hm. induction Hm as [|[k v] m Hv Hm IH]; [done|]. intros Hp [|n] rest Hn; simpl in Hn; [lia|].
  simpl in Hp, Hv. apply andb_true_iff in Hp as [[Hk _]%andb_true_iff Hp].
  assert (Hkv : forall t, expect dquote (skip_ws ((quote k +:+ ": " +:+ print_json v) +:+ t))
    = Some (k +:+ String dquote (": " +:+ print_json v +:+ t))).
  { intros t. by rewrite string_app_assoc, quote_app, string_app_assoc. }
  cbn [parse_members]. destruct m as [|kv' m].
  - cbn [fmap list_fmap Join fst snd]. rewrite Hkv, parse_chars_plain by done.
    change (": " +:+ ?x) with (String ":" (String " " x)).
    change (expect ":" (skip_ws (String ":" ?x))) with (Some x). cbv iota beta.
    rewrite parse_value_space, Hv by lia. done.
  - cbn [fmap list_fmap fst snd] in *. rewrite Join_cons2, Hkv, parse_chars_plain by done.
    change (": " +:+ ?x) with (String ":" (String " " x)).
    change (expect ":" (skip_ws (String ":" ?x))) with (Some x). cbv iota beta.
    rewrite parse_value_space, Hv by lia.
    change (", " +:+ ?x) with (String "," (String " " x)).
    change (expect "," (skip_ws (String "," ?x))) with (Some x). cbv iota beta.
    rewrite parse_members_space, IH by (try done; lia). done.
Qed.

Lemma print_json_head j rest :
  plain_json j = true ->
  exists c s, print_json j +:+ rest = String c s /\ is_ws c = false /\ c <> "]"%char.
Proof.
  destruct j as [|[]|l|s|l|m]; intros Hp; try done; simpl;
    rewrite ?string_app_cons; eauto 6 with f_equal.
  all: eexists _, _; split; [reflexivity|done].
Qed.

(** Reading back a printed value gives the value and leaves what follows. *)
Lemma parse_print_value j : plain_json j = true -> reads j.
Proof.
  induction j as [|[]|l|s|l IH|m IH] using json_ind_nested; intros Hp [|n] rest Hn;
    simpl in Hn; try lia; try done.
  - cbn [print_json]. rewrite quote_app. cbn [parse_value]. 
    change (skip_ws (String dquote ?x)) with (String dquote x). cbv iota.
    by rewrite parse_chars_plain.
  - cbn [print_json]. rewrite string_app_assoc, string_app_cons, string_app_assoc.
    change ("" +:+ ?x) with x. change ("]" +:+ rest) with (String "]" rest).
    cbn [parse_value]. change (skip_ws (String "[" ?x)) with (String "[" x). cbv iota.
    change (bool_decide ("["%char = "{"%char)) with false.
    change (bool_decide ("["%char = "["%char)) with true. cbv iota.
    destruct l as [|v l]; [done|].
    assert (Hl : Forall reads (v :: l)).
    { cbn [plain_json] in Hp. clear Hn. induction IH as [|w k Hw Hk IHk]; [constructor|].
      simpl in Hp. apply andb_true_iff in Hp as [? ?]. auto. }
    rewrite parse_elems_print by (try done; lia).
    assert (Hh : expect "]" (skip_ws (Join ", " (print_json <$> v :: l) +:+ String "]" rest)) = None).
    { simpl in Hp. apply andb_true_iff in Hp as [Hv _].
      assert (Ht : exists t, Join ", " (print_json <$> v :: l) +:+ String "]" rest = print_json v +:+ t).
      { destruct l; cbn [fmap list_fmap]; [eauto|]. rewrite Join_cons2. eauto. }
      destruct Ht as [t ->]. destruct (print_json_head v t Hv) as (c & s & -> & Hws & Hc).
      simpl. rewrite Hws. simpl. by rewrite bool_decide_eq_false_2. }
    by rewrite Hh.
  - cbn [print_json]. rewrite string_app_assoc, string_app_cons, string_app_assoc.
    change ("" +:+ ?x) with x. change ("}" +:+ rest) with (String "}" rest).
    cbn [parse_value]. change (skip_ws (String "{" ?x)) with (String "{" x). cbv iota.
    change (bool_decide ("{"%char = "{"%char)) with true. cbv iota.
    destruct m as [|[k v] m]; [done|].
    assert (Hm : Forall (fun kv => reads kv.2) ((k, v) :: m)).
    { cbn [plain_json] in Hp. clear Hn. induction IH as [|w l Hw Hl IHl]; [constructor|].
      simpl in Hp. apply andb_true_iff in Hp as [[_ ?]%andb_true_iff ?]. auto. }
    rewrite parse_members_print by (try done; lia).
    set (body := Join _ _ +:+ _).
    assert (Hh : expect "}" (skip_ws body) = None).
    { subst body. destruct m; cbn [fmap list_fmap Join fst snd];
        rewrite ?string_app_assoc, quote_app; done. }
    by rewrite Hh.
Qed.

(** [json_parse] inverts [print_json]. *)
Lemma json_parse_print j : plain_json j = true -> json_parse (print_json j) = Some j.
Proof.
  intros Hp. unfold json_parse. set (s := print_json j).
  pose proof (parse_print_value j Hp (Nat.max (jfuel j) (2 * slen s + 2)) "" ltac:(lia)) as Hr.
  rewrite string_app_nil_r in Hr. fold s in Hr.
  rewrite (parse_value_fuel _ (Nat.max (jfuel j) (2 * slen s + 2))) by lia.
  by rewrite Hr.
Qed.
