(* ===== verification/JsonEncode.v ===== *)
(** * Writing JSON, as [json.MarshalIndent] does

    The escapes of strings and the indented layout of [encoding/json] (Go
    1.22), for texts that are valid UTF-8, and the round trip with the reader
    of [Json.v]: reading back an encoded value gives the value. *)

From Stdlib Require Import Ascii.
From stdpp Require Import base option list strings numbers pretty.
From S2P Require Import Prelude GoStrings Json.

(** ** Strings *)

Definition hex_digit (n : N) : ascii := ascii_of_N (if (n <? 10)%N then 48 + n else 87 + n)%N.

(** One byte, with [EscapeHTML] on. *)
Definition escape_char (c : ascii) : string :=
  let n := N_of_ascii c in
  match n with
  | 34%N | 92%N => String backslash (String c "")
  | 8%N => String backslash "b" | 12%N => String backslash "f" | 10%N => String backslash "n"
  | 13%N => String backslash "r" | 9%N => String backslash "t"
  | _ =>
      if (n <? 32)%N || bool_decide (c ∈ ["<"; ">"; "&"]%char)
      then String backslash ("u00" +:+ String (hex_digit (n `div` 16)%N) (String (hex_digit (n `mod` 16)%N) ""))
      else String c ""
  end.

(** The line separators U+2028 and U+2029 in UTF-8: their third byte. *)
Definition line_separator (c1 c2 c3 : ascii) : option string :=
  if bool_decide (c1 = "226"%char) && bool_decide (c2 = "128"%char) then
    if bool_decide (c3 = "168"%char) then Some "u2028"
    else if bool_decide (c3 = "169"%char) then Some "u2029" else None
  else None.

Fixpoint escape (s : string) : string :=
  match s with
  | "" => ""
  | String c1 s1 =>
      match s1 with
      | String c2 (String c3 s3) =>
          match line_separator c1 c2 c3 with
          | Some e => String backslash (e +:+ escape s3)
          | None => escape_char c1 +:+ escape s1
          end
      | _ => escape_char c1 +:+ escape s1
      end
  end.

Definition encode_string (s : string) : string := quote (escape s).

(** ** Layout *)

Section Layout.
Context (tab : string).

Fixpoint spaces (depth : nat) : string := match depth with O => "" | S d => tab +:+ spaces d end.
Definition newline (depth : nat) : string := String "010" (spaces depth).

(** The value at nesting depth [d]. *)
Fixpoint marshal_indent (d : nat) (j : json) : string :=
  match j with
  | JNull => "null"
  | JBool true => "true"
  | JBool false => "false"
  | JNum l => l
  | JStr s => encode_string s
  | JArr [] => "[]"
  | JArr l => "[" +:+ newline (S d) +:+ Join ("," +:+ newline (S d)) (marshal_indent (S d) <$> l) +:+
              newline d +:+ "]"
  | JObj [] => "{}"
  | JObj m => "{" +:+ newline (S d) +:+
              Join ("," +:+ newline (S d)) ((fun kv => encode_string kv.1 +:+ ": " +:+ marshal_indent (S d) kv.2) <$> m) +:+
              newline d +:+ "}"
  end.
End Layout.

(** [json.MarshalIndent(v, "", tab)]. *)
Definition MarshalIndent (tab : string) (j : json) : string := marshal_indent tab 0 j.

Example marshal_ex : MarshalIndent "  " (JObj [("a<b", JArr [JNum "-1"; JStr (String dquote "x")]); ("c", JObj [])]) =
  dq "{" +:+ newline "  " 1 +:+ dq "'a\u003cb': [" +:+ newline "  " 2 +:+ "-1," +:+ newline "  " 2 +:+ dq "'\'x'" +:+ newline "  " 1 +:+
  "]," +:+ newline "  " 1 +:+ dq "'c': {}" +:+ newline "  " 0 +:+ "}".
Proof. vm_compute. reflexivity. Qed.

(** ** Reading strings back *)

Lemma parse_escape_char c rest :
  parse_chars (escape_char c +:+ rest) = prepend (String c "") (parse_chars rest).
Proof. destruct c as [[] [] [] [] [] [] [] []]; reflexivity. Qed.

Lemma line_separator_parse c1 c2 c3 e rest :
  line_separator c1 c2 c3 = Some e ->
  parse_chars (String backslash (e +:+ rest)) = prepend (String c1 (String c2 (String c3 ""))) (parse_chars rest).
Proof.
  unfold line_separator. destruct (bool_decide_reflect (c1 = "226"%char)) as [->|]; [|done].
  destruct (bool_decide_reflect (c2 = "128"%char)) as [->|]; [|done]. cbn [andb].
  destruct (bool_decide_reflect (c3 = "168"%char)) as [->|]; [by intros [= <-]|].
  destruct (bool_decide_reflect (c3 = "169"%char)) as [->|]; [by intros [= <-]|done].
Qed.

(** An escaped string reads back as the string. *)
Lemma parse_chars_escape s rest : parse_chars (escape s +:+ String dquote rest) = Some (s, rest).
Proof.
  induction s as [s IH] using (well_founded_induction (Wf_nat.well_founded_ltof _ slen)). unfold Wf_nat.ltof in IH.
  destruct s as [|c1 s1]; [done|].
  assert (H1 : parse_chars ((escape_char c1 +:+ escape s1) +:+ String dquote rest) = Some (String c1 s1, rest)).
  { rewrite string_app_assoc, parse_escape_char, IH by (simpl; lia). done. }
  destruct s1 as [|c2 [|c3 s3]]; [exact H1..|]. cbn [escape]. fold (escape (String c2 (String c3 s3))).
  destruct (line_separator c1 c2 c3) as [e|] eqn:E; [|exact H1].
  rewrite string_app_cons, string_app_assoc, (line_separator_parse _ _ _ _ _ E), IH by (simpl; lia). done.
Qed.

(** ** Reading numbers back *)

(** What may follow a value in the layout. *)
Definition stops (rest : string) : bool :=
  match rest with "" => true | String c _ => bool_decide (c ∈ [","; "010"]%char) end.

(** A literal that is read to its end. *)
Definition num_lit (l : string) : Prop :=
  (exists c s, l = String c s /\ (c = "-"%char \/ is_digit c = true)) /\
  forall rest, stops rest = true -> parse_number (l +:+ rest) = Some (l, rest).

Fixpoint all_digits (s : string) : bool := match s with "" => true | String c s' => is_digit c && all_digits s' end.

Lemma is_digit_pretty n : (n < 10)%N -> is_digit (pretty_N_char n) = true.
Proof. intros Hn. unfold is_digit. by rewrite digit_of_pretty. Qed.

(** The digits [pretty] writes: at least one, no leading zero. *)
Lemma pretty_N_go_digits (x : N) : forall s, (0 < x)%N -> all_digits s = true ->
  exists c t, pretty_N_go x s = String c t /\ is_digit c = true /\ c <> "0"%char /\ all_digits t = true.
Proof.
  induction (N.lt_wf_0 x) as [x _ IH]; intros s Hx Hs. rewrite pretty_N_go_step by done.
  pose proof (N.mod_lt x 10 ltac:(lia)) as Hm.
  destruct (N.lt_ge_cases x 10) as [Hlt|Hge].
  - rewrite N.div_small, pretty_N_go_0, N.mod_small by done. eexists _, _. split; [done|].
    split; [by apply is_digit_pretty|]. split; [|done].
    intros H0. apply (pretty_N_char_inj x 0) in H0; lia.
  - apply IH; [apply N.div_lt; lia|apply N.div_str_pos; lia|]. cbn. by rewrite is_digit_pretty.
Qed.

Lemma take_digits_all s rest :
  all_digits s = true -> stops rest = true -> take_digits (s +:+ rest) = (s, rest).
Proof.
  intros Hs Hr. induction s as [|c s IH].
  - change ("" +:+ rest) with rest. destruct rest as [|c r]; [done|]. cbn in *.
    apply bool_decide_eq_true in Hr. by apply list_elem_of_In in Hr as [<-|[<-|[]]].
  - cbn in Hs. apply andb_true_iff in Hs as [Hc Hs]. rewrite string_app_cons. cbn. by rewrite Hc, IH.
Qed.

Lemma stops_no_tail rest : stops rest = true -> parse_frac rest = Some ("", rest) /\ parse_exp rest = Some ("", rest).
Proof.
  destruct rest as [|c r]; [done|]. cbn. intros Hr%bool_decide_eq_true.
  by apply list_elem_of_In in Hr as [<-|[<-|[]]].
Qed.

Lemma parse_int_part_pretty (n : N) rest :
  stops rest = true -> parse_int_part (pretty n +:+ rest) = Some (pretty n, rest).
Proof.
  intros Hr. unfold pretty, pretty_N. destruct (decide (n = 0)%N) as [->|Hn]; [done|].
  destruct (pretty_N_go_digits n "" ltac:(lia) eq_refl) as (c & t & -> & Hc & H0 & Ht).
  rewrite string_app_cons. unfold parse_int_part. cbn [expect]. rewrite bool_decide_eq_false_2 by done.
  unfold some_digits. rewrite <- string_app_cons, take_digits_all by (cbn; rewrite ?Hc; done). done.
Qed.

Lemma pretty_N_head (n : N) : exists c s, pretty n = String c s /\ is_digit c = true.
Proof.
  unfold pretty, pretty_N. destruct (decide (n = 0)%N); [by eexists _, _|].
  destruct (pretty_N_go_digits n "" ltac:(lia) eq_refl) as (c & t & -> & Hc & _). eauto.
Qed.

Lemma Itoa_num_lit z : num_lit (Itoa z).
Proof.
  assert (HN : forall n : N, num_lit (pretty n)).
  { intros n. destruct (pretty_N_head n) as (c & s & E & Hc). split; [eauto|]. intros rest Hr.
    unfold parse_number. assert (expect "-" (pretty n +:+ rest) = None) as ->.
    { rewrite E, string_app_cons. cbn. rewrite bool_decide_eq_false_2; [done|]. by intros ->. }
    rewrite parse_int_part_pretty by done. destruct (stops_no_tail rest Hr) as [-> ->]. cbn.
    by rewrite string_app_nil_r, string_app_nil_r. }
  unfold Itoa. destruct z as [|p|p]; [apply (HN 0%N)|apply (HN (Npos p))|].
  change (pretty (Z.neg p)) with (String "-" (pretty (Npos p))). split; [eauto|].
  intros rest Hr. rewrite string_app_cons. unfold parse_number. cbn [expect].
  change (bool_decide ("-"%char = "-"%char)) with true. cbv iota beta.
  rewrite parse_int_part_pretty by done. destruct (stops_no_tail rest Hr) as [-> ->]. cbn [prepend].
  by rewrite !string_app_nil_r.
Qed.

(** ** Reading values back *)

(** Every number literal is one the reader reads to its end. *)
Fixpoint wf_json (j : json) : Prop :=
  match j with
  | JNum l => num_lit l
  | JArr l => foldr (fun v P => wf_json v /\ P) True l
  | JObj m => foldr (fun kv P => wf_json kv.2 /\ P) True m
  | _ => True
  end.

Section Reading.
Context (tab : string).
Hypothesis tab_ws : forall s, skip_ws (tab +:+ s) = skip_ws s.
Local Abbreviation newline := (newline tab).
Local Abbreviation marshal_indent := (marshal_indent tab).

Lemma skip_newline d s : skip_ws (newline d +:+ s) = skip_ws s.
Proof.
  unfold newline. rewrite string_app_cons. cbn. induction d as [|d IH]; [done|].
  cbn [spaces]. rewrite string_app_assoc, tab_ws. exact IH.
Qed.
Lemma parse_value_newline n d s : parse_value n (newline d +:+ s) = parse_value n s.
Proof. destruct n; [done|]. cbn [parse_value]. by rewrite skip_newline. Qed.
Lemma parse_elems_newline n d s : parse_elems n (newline d +:+ s) = parse_elems n s.
Proof. destruct n; [done|]. cbn [parse_elems]. by rewrite parse_value_newline. Qed.
Lemma parse_members_newline n d s : parse_members n (newline d +:+ s) = parse_members n s.
Proof. destruct n; [done|]. cbn [parse_members]. by rewrite skip_newline. Qed.
Lemma expect_newline c d s : is_ws c = false -> expect c (skip_ws (newline d +:+ String c s)) = Some s.
Proof. intros Hc. rewrite skip_newline. cbn. rewrite Hc. cbn. by rewrite bool_decide_eq_true_2. Qed.

Definition reads_back (j : json) : Prop :=
  forall d n rest, jfuel j <= n -> stops rest = true -> parse_value n (marshal_indent d j +:+ rest) = Some (j, rest).

Lemma encode_string_app s rest : encode_string s +:+ rest = String dquote (escape s +:+ String dquote rest).
Proof. apply quote_app. Qed.

Lemma marshal_head d j rest :
  wf_json j -> exists c s, marshal_indent d j +:+ rest = String c s /\ is_ws c = false /\ c <> "]"%char.
Proof.
  destruct j as [|[]|l|s|[|v l]|[|kv m]]; intros Hw; cbn [JsonEncode.marshal_indent];
    rewrite ?string_app_assoc, ?encode_string_app, ?string_app_cons;
    try (eexists _, _; split; [reflexivity|done]).
  destruct Hw as [(c & s & -> & Hc) _]. exists c, (s +:+ rest). split; [done|].
  destruct Hc as [->|Hc]; [done|]. unfold is_digit, digit_of in Hc.
  destruct c as [[] [] [] [] [] [] [] []]; done.
Qed.

Lemma parse_elems_indent k d l : l <> [] -> Forall reads_back l -> forall n rest,
  foldr (fun v n => S (jfuel v + n)) 0 l <= n ->
  parse_elems n (Join ("," +:+ newline k) (marshal_indent k <$> l) +:+ newline d +:+ String "]" rest) = Some (l, rest).
Proof.
  intros Hne Hl. induction Hl as [|v l Hv Hl IH]; [done|]. intros [|n] rest Hn; simpl in Hn; [lia|].
  cbn [parse_elems]. destruct l as [|v' l].
  - cbn [fmap list_fmap Join]. rewrite Hv by (done || lia).
    assert (expect "," (skip_ws (newline d +:+ String "]" rest)) = None) as -> by by rewrite skip_newline.
    by rewrite expect_newline.
  - cbn [fmap list_fmap] in *. rewrite Join_cons2, Hv by (done || lia).
    rewrite string_app_assoc. change ("," +:+ ?x) with (String "," x).
    change (expect "," (skip_ws (String "," ?x))) with (Some x). cbv iota beta.
    rewrite parse_elems_newline, IH by (try done; lia). done.
Qed.

Lemma parse_members_indent k d m : m <> [] -> Forall (fun kv => reads_back kv.2) m -> forall n rest,
  foldr (fun kv n => S (jfuel kv.2 + n)) 0 m <= n ->
  parse_members n (Join ("," +:+ newline k) ((fun kv => encode_string kv.1 +:+ ": " +:+ marshal_indent k kv.2) <$> m)
                   +:+ newline d +:+ String "}" rest) = Some (m, rest).
Proof.
  intros Hne Hm. induction Hm as [|[key v] m Hv Hm IH]; [done|]. intros [|n] rest Hn; simpl in Hn, Hv; [lia|].
  assert (Hkv : forall t, stops t = true ->
    parse_members (S n) ((encode_string key +:+ ": " +:+ marshal_indent k v) +:+ t) =
    match expect "," (skip_ws t) with
    | Some r3 => match parse_members n r3 with Some (m, r4) => Some ((key, v) :: m, r4) | None => None end
    | None => match expect "}" (skip_ws t) with Some r3 => Some ([(key, v)], r3) | None => None end
    end).
  { intros t Ht. rewrite string_app_assoc, encode_string_app, string_app_assoc. cbn [parse_members].
    change (expect dquote (skip_ws (String dquote ?x))) with (Some x). cbv iota beta.
    rewrite parse_chars_escape. change (": " +:+ ?x) with (String ":" (String " " x)).
    change (expect ":" (skip_ws (String ":" ?x))) with (Some x). cbv iota beta.
    rewrite parse_value_space, Hv by (done || lia). done. }
  destruct m as [|kv' m].
  - cbn [fmap list_fmap Join fst snd]. rewrite Hkv by done.
    assert (expect "," (skip_ws (newline d +:+ String "}" rest)) = None) as -> by by rewrite skip_newline.
    by rewrite expect_newline.
  - cbn [fmap list_fmap fst snd] in *. rewrite Join_cons2, Hkv, string_app_assoc by done.
    change ("," +:+ ?x) with (String "," x).
    change (expect "," (skip_ws (String "," ?x))) with (Some x). cbv iota beta.
    rewrite parse_members_newline, IH by (try done; lia). done.
Qed.

Lemma parse_value_number n c s l r :
  c = "-"%char \/ is_digit c = true -> parse_number (String c s) = Some (l, r) ->
  parse_value (S n) (String c s) = Some (JNum l, r).
Proof.
  intros Hc Hp.
  assert (Hne : is_ws c = false /\ Forall (fun x => c <> x) ["{"; "["; dquote; "t"; "f"; "n"]%char).
  { destruct Hc as [->|Hc]; [split; [done|]; repeat constructor; done|].
    destruct c as [[] [] [] [] [] [] [] []]; try discriminate Hc; (split; [done|]; repeat constructor; done). }
  destruct Hne as [Hws Hne]. rewrite !Forall_cons in Hne. destruct Hne as (? & ? & ? & ? & ? & ? & _).
  cbn [parse_value skip_ws]. rewrite Hws. cbv iota. rewrite !bool_decide_eq_false_2 by done. cbv iota. by rewrite Hp.
Qed.

(** Reading back an encoded value gives the value and leaves what follows. *)
Lemma parse_marshal_indent j : wf_json j -> reads_back j.
Proof.
  induction j as [|[]|l|s|l IH|m IH] using json_ind_nested; intros Hw d [|n] rest Hn Hr;
    simpl in Hn; try lia; try done.
  - destruct Hw as [(c & s & El & Hc) Hp]. cbn [JsonEncode.marshal_indent]. specialize (Hp rest Hr).
    rewrite El, string_app_cons in *. by apply parse_value_number.
  - cbn [JsonEncode.marshal_indent]. rewrite encode_string_app. cbn [parse_value].
    change (skip_ws (String dquote ?x)) with (String dquote x). cbv iota. by rewrite parse_chars_escape.
  - destruct l as [|v l]; [done|]. cbn [JsonEncode.marshal_indent]. rewrite !string_app_assoc, string_app_cons.
    change ("" +:+ ?x) with x. change ("]" +:+ rest) with (String "]" rest).
    assert (Hl : Forall reads_back (v :: l)).
    { clear Hn. cbn [wf_json] in Hw. induction IH as [|w k Hk Hks IHk]; constructor; destruct Hw; auto. }
    assert (Hh : expect "]" (skip_ws (newline (S d) +:+ Join ("," +:+ newline (S d)) (marshal_indent (S d) <$> v :: l)
                              +:+ newline d +:+ String "]" rest)) = None).
    { rewrite skip_newline. destruct Hw as [Hv _].
      assert (Ht : exists t, Join ("," +:+ newline (S d)) (marshal_indent (S d) <$> v :: l) +:+ newline d +:+ String "]" rest
                     = marshal_indent (S d) v +:+ t).
      { destruct l; cbn [fmap list_fmap]; [eexists; reflexivity|]. rewrite Join_cons2. eauto. }
      destruct Ht as [t ->]. destruct (marshal_head (S d) v t Hv) as (c & s & -> & Hws & Hc).
      cbn. rewrite Hws. cbn. by rewrite bool_decide_eq_false_2. }
    cbn [parse_value]. change (skip_ws (String "[" ?x)) with (String "[" x). cbv iota.
    change (bool_decide ("["%char = "{"%char)) with false. change (bool_decide ("["%char = "["%char)) with true. cbv iota.
    rewrite Hh, parse_elems_newline, parse_elems_indent by (try done; cbn [foldr jfuel] in *; lia). done.
  - destruct m as [|kv m]; [done|]. cbn [JsonEncode.marshal_indent]. rewrite !string_app_assoc, string_app_cons.
    change ("" +:+ ?x) with x. change ("}" +:+ rest) with (String "}" rest).
    assert (Hm : Forall (fun kv => reads_back kv.2) (kv :: m)).
    { clear Hn. cbn [wf_json] in Hw. induction IH as [|w k Hk Hks IHk]; constructor; destruct Hw; auto. }
    cbn [parse_value]. change (skip_ws (String "{" ?x)) with (String "{" x). cbv iota.
    change (bool_decide ("{"%char = "{"%char)) with true. cbv iota. rewrite skip_newline, parse_members_newline.
    rewrite parse_members_indent by (try done; cbn [foldr jfuel] in *; lia).
    set (body := Join _ _ +:+ _). assert (Hh : expect "}" (skip_ws body) = None).
    { subst body. destruct m; cbn [fmap list_fmap Join]; rewrite ?string_app_assoc, encode_string_app; done. }
    by rewrite Hh.
Qed.

(** [json_parse] inverts [MarshalIndent]. *)
Lemma json_parse_MarshalIndent j : wf_json j -> json_parse (MarshalIndent tab j) = Some j.
Proof.
  intros Hw. unfold json_parse. set (s := MarshalIndent tab j).
  pose proof (parse_marshal_indent j Hw 0 (Nat.max (jfuel j) (2 * slen s + 2)) "" ltac:(lia) eq_refl) as Hr.
  rewrite string_app_nil_r in Hr. change (marshal_indent 0 j) with s in Hr.
  rewrite (parse_value_fuel _ (Nat.max (jfuel j) (2 * slen s + 2))) by lia. by rewrite Hr.
Qed.
End Reading.
