(* ===== verification/Float.v ===== *)
(** * [float64] arithmetic as [resources.go] uses it

    The four conversions of [internal/controller/resources.go] divide two
    integers as [float64] and round up.  Binary64 numbers and their division
    are those of [SpecFloat]; this file adds the conversions from and to
    integers and [math.Ceil], and shows when the whole computation is the
    exact ceiling of the quotient. *)

From Stdlib Require Import SpecFloat.
From stdpp Require Import base option numbers.
From S2P Require Import Prelude.
Open Scope Z_scope.

Definition prec : Z := 53.
Definition emax : Z := 1024.

(** [float64(z)]: round to nearest, ties to even. *)
Definition float64 (z : Z) : spec_float := binary_normalize prec emax z 0 false.

(** [x / y]. *)
Definition Div (x y : spec_float) : spec_float := SFdiv prec emax x y.

(** [math.Ceil]: zeros, infinities and NaN are returned as they are, and a
    number in (-1, 0) becomes the negative zero. *)
Definition Ceil (x : spec_float) : spec_float :=
  match x with
  | S754_finite s m e =>
      if 0 <=? e then x
      else let c := if s then - (Z.pos m / 2 ^ (- e)) else - (- Z.pos m / 2 ^ (- e)) in
           binary_normalize prec emax c 0 s
  | _ => x
  end.

(** [int64(x)]: truncation towards zero.  The language leaves the result open
    for NaN and for values outside the type: [undef] is what the platform
    gives. *)
Definition float_to_int64 (undef : Z) (x : spec_float) : Z :=
  match x with
  | S754_zero _ => 0
  | S754_finite s m e =>
      let t := if 0 <=? e then Z.pos m * 2 ^ e else Z.pos m / 2 ^ (- e) in
      let z := if s then - t else t in
      if (- 2 ^ 63 <=? z) && (z <? 2 ^ 63) then z else undef
  | _ => undef
  end.

(** [int64(math.Ceil(float64(a) / float64(b)))]. *)
Definition ceil_quotient (undef a b : Z) : Z :=
  float_to_int64 undef (Ceil (Div (float64 a) (float64 b))).

Example ceil_ex1 : ceil_quotient 0 1500 1000 = 2.
Proof. vm_compute. reflexivity. Qed.
Example ceil_ex2 : ceil_quotient 0 (-1500) 1000 = -1.
Proof. vm_compute. reflexivity. Qed.
Example ceil_ex3 : ceil_quotient (- 2 ^ 63) 5 0 = - 2 ^ 63.
Proof. vm_compute. reflexivity. Qed.
Example ceil_ex4 : ceil_quotient 0 (2 ^ 53 + 1) 1 = 2 ^ 53.
Proof. vm_compute. reflexivity. Qed.

(** ** Exact conversions *)

Definition digits (m : positive) : Z := Z.pos (digits2_pos m).

Lemma digits2_pos_size m : digits2_pos m = Pos.size m.
Proof. induction m as [m IH|m IH|]; simpl; [by rewrite IH..|done]. Qed.

Lemma digits_bounds m : 2 ^ (digits m - 1) <= Z.pos m < 2 ^ digits m.
Proof.
  unfold digits. rewrite digits2_pos_size.
  pose proof (Pos.size_gt m) as Hgt. pose proof (Pos.size_le m) as Hle.
  apply Pos2Z.pos_lt_pos in Hgt. apply Pos2Z.pos_le_pos in Hle.
  rewrite Pos2Z.inj_pow in Hgt, Hle. change (Z.pos m~0) with (2 * Z.pos m) in Hle.
  assert (H2 : 2 ^ Z.pos (Pos.size m) = 2 * 2 ^ (Z.pos (Pos.size m) - 1)).
  { rewrite <- Z.pow_succ_r by lia. f_equal. lia. }
  change (Z.pos 2) with 2 in *. lia.
Qed.

(** The number of digits is determined by the bounds. *)
Lemma digits_unique m d : 1 <= d -> 2 ^ (d - 1) <= Z.pos m < 2 ^ d -> digits m = d.
Proof.
  intros Hd Hm. pose proof (digits_bounds m) as Hb.
  assert (1 <= digits m) by (unfold digits; lia).
  destruct (Z.lt_trichotomy (digits m) d) as [Hlt|[?|Hlt]]; [|done|].
  - assert (2 ^ digits m <= 2 ^ (d - 1)) by (apply Z.pow_le_mono_r; lia). lia.
  - assert (2 ^ d <= 2 ^ (digits m - 1)) by (apply Z.pow_le_mono_r; lia). lia.
Qed.

Lemma iter_xO m d : Z.pos (Pos.iter xO m d) = Z.pos m * 2 ^ Z.pos d.
Proof.
  induction d as [|d IH] using Pos.peano_ind.
  - simpl Pos.iter. change (2 ^ 1) with 2. lia.
  - rewrite Pos.iter_succ. rewrite Pos2Z.inj_succ, Z.pow_succ_r by lia.
    change (Z.pos (Pos.iter xO m d)~0) with (2 * Z.pos (Pos.iter xO m d)). rewrite IH. lia.
Qed.

Lemma shl_align_eq m e e' :
  e' <= e -> exists m', shl_align m e e' = (m', e') /\ Z.pos m' = Z.pos m * 2 ^ (e - e').
Proof.
  intros He. unfold shl_align. destruct (e' - e) as [|d|d] eqn:Ed; [|lia|].
  - exists m. replace e' with e by lia. rewrite Z.sub_diag, Z.mul_1_r. done.
  - eexists. split; [done|]. rewrite iter_xO. f_equal. f_equal. lia.
Qed.

Lemma shr_fexp_id m e l :
  2 ^ 52 <= m < 2 ^ 53 -> -1074 <= e -> shr_fexp prec emax m e l = (shr_record_of_loc m l, e).
Proof.
  intros Hm He. unfold shr_fexp, fexp, SpecFloat.emin, prec, emax.
  destruct m as [|m|m]; [lia| |lia]. cbn [Zdigits2].
  change (Z.pos (digits2_pos m)) with (digits m). rewrite (digits_unique m 53) by lia.
  replace (Z.max (53 + e - 53) (3 - 1024 - 53) - e) with 0 by lia. done.
Qed.

(** A normalized mantissa needs no rounding. *)
Lemma round_exact s m e :
  2 ^ 52 <= Z.pos m < 2 ^ 53 -> -1074 <= e <= 971 ->
  binary_round_aux prec emax s (Z.pos m) e loc_Exact = S754_finite s m e.
Proof.
  intros Hm He. unfold binary_round_aux. rewrite shr_fexp_id by lia. cbn [shr_record_of_loc loc_of_shr_record shr_m].
  cbn [round_nearest_even]. rewrite shr_fexp_id by lia. cbn [shr_record_of_loc shr_m].
  destruct (Z.leb_spec e (emax - prec)) as [_|H]; [done|unfold prec, emax in H; lia].
Qed.

(** Integers below 2^53 are exact, with a mantissa of 53 bits. *)
Lemma float64_exact a :
  0 < a < 2 ^ 53 ->
  exists m s, float64 a = S754_finite false m (- s) /\ 0 <= s <= 52 /\ Z.pos m = a * 2 ^ s /\
    2 ^ 52 <= Z.pos m < 2 ^ 53.
Proof.
  intros Ha. destruct a as [|a|a]; [lia| |lia]. unfold float64, binary_normalize, binary_round.
  pose proof (digits_bounds a) as Hb. set (d := digits a) in *.
  assert (1 <= d) by (unfold d, digits; lia).
  assert (d <= 53).
  { destruct (Z.le_gt_cases d 53) as [|Hgt]; [done|].
    assert (2 ^ 53 <= 2 ^ (d - 1)) by (apply Z.pow_le_mono_r; lia). lia. }
  change (Z.pos (digits2_pos a)) with d.
  assert (Hf : fexp prec emax (d + 0) = d - 53) by (unfold fexp, SpecFloat.emin, prec, emax; lia).
  rewrite Hf. destruct (shl_align_eq a 0 (d - 53)) as (m & -> & Hm); [lia|].
  replace (0 - (d - 53)) with (53 - d) in Hm by lia.
  assert (Hmb : 2 ^ 52 <= Z.pos m < 2 ^ 53).
  { rewrite Hm. replace (2 ^ 52) with (2 ^ (d - 1) * 2 ^ (53 - d)) by (rewrite <- Z.pow_add_r by lia; f_equal; lia).
    replace (2 ^ 53) with (2 ^ d * 2 ^ (53 - d)) by (rewrite <- Z.pow_add_r by lia; f_equal; lia).
    assert (0 < 2 ^ (53 - d)) by (apply Z.pow_pos_nonneg; lia). nia. }
  exists m, (53 - d). split; [|split; [lia|split; [exact Hm|exact Hmb]]].
  rewrite round_exact by lia. f_equal. lia.
Qed.

(** Reading such a number back. *)
Lemma float64_back undef c : 0 < c < 2 ^ 53 -> float_to_int64 undef (float64 c) = c.
Proof.
  intros Hc. destruct (float64_exact c Hc) as (m & s & -> & Hs & Hm & _). unfold float_to_int64.
  assert (Ht : (if 0 <=? - s then Z.pos m * 2 ^ (- s) else Z.pos m / 2 ^ (- - s)) = c).
  { rewrite Hm. destruct (Z.leb_spec 0 (- s)).
    - replace s with 0 by lia. simpl. lia.
    - rewrite Z.opp_involutive. apply Z.div_mul. apply Z.pow_nonzero; lia. }
  rewrite Ht. destruct (Z.leb_spec (- 2 ^ 63) c); [|lia]. destruct (Z.ltb_spec c (2 ^ 63)); [done|lia].
Qed.

(** ** Division *)

(** [l] locates the remainder [r] of a division by [d]. *)
Definition located (l : location) (r d : Z) : Prop :=
  0 <= r < d /\
  match l with loc_Exact => r = 0 | loc_Inexact c => 0 < r /\ (2 * r ?= d) = c end.

Lemma new_location_located r d : 0 <= r < d -> located (new_location d r) r d.
Proof.
  intros Hr. unfold located, new_location, new_location_even, new_location_odd. split; [done|].
  destruct (Z.even d) eqn:Ev; destruct (Z.eqb_spec r 0) as [|Hr0]; try done.
  - split; [lia|done].
  - split; [lia|]. assert (Ho : exists h, d = 2 * h + 1).
    { apply Z.odd_spec. by rewrite <- Z.negb_even, Ev. }
    destruct Ho as [h ->].
    destruct (Z.compare_spec (2 * r + 1) (2 * h + 1)); destruct (Z.compare_spec (2 * r) (2 * h + 1)); (done || lia).
Qed.

(** The last bit of a mantissa joins the remainder. *)
Lemma shr_1_located h (o : bool) l r d :
  0 < h -> located l r d ->
  exists l', shr_1 (shr_record_of_loc (2 * h + Z.b2z o) l) = shr_record_of_loc h l' /\
    located l' (Z.b2z o * d + r) (2 * d).
Proof.
  intros Hh [Hr Hl]. destruct h as [|h|h]; [lia| |lia].
  exists (match o, l with
          | false, loc_Exact => loc_Exact | false, _ => loc_Inexact Lt
          | true, loc_Exact => loc_Inexact Eq | true, _ => loc_Inexact Gt end).
  split; [by destruct o, l as [|[]]|]. split; [destruct o; simpl; lia|].
  destruct o, l as [|c]; cbn [Z.b2z] in *; rewrite ?Z.mul_1_l, ?Z.mul_0_l, ?Z.add_0_l; [| |done|];
    (split; [lia|]);
    match goal with |- (?x ?= ?y) = _ => destruct (Z.compare_spec x y); (done || lia) end.
Qed.

(** Rounding to nearest moves by less than one unit, and by at most half. *)
Lemma round_located m l r d :
  located l r d ->
  exists u, round_nearest_even m l = m + u /\ (u = 0 /\ 2 * r <= d \/ u = 1 /\ 0 < r).
Proof.
  intros [Hr Hl]. destruct l as [|[]]; cbn [round_nearest_even].
  - exists 0. lia.
  - destruct Hl as [? Hc%Z.compare_eq]. destruct (Z.even m); [exists 0|exists 1]; lia.
  - destruct Hl as [? Hc]. change (2 * r < d) in Hc. exists 0. lia.
  - destruct Hl as [? _]. exists 1. lia.
Qed.

(** [m * 2^e], for an exponent that is not positive, as a fraction. *)
Definition has_value (x : spec_float) (num p : Z) : Prop :=
  exists m e, x = S754_finite false m e /\ 0 <= e + p /\ Z.pos m * 2 ^ (e + p) = num.

(** Rounding a normalized mantissa up to 2^53. *)
Lemma round_normalized m e l r d :
  2 ^ 52 <= m < 2 ^ 53 -> -1074 <= e <= 0 -> located l r d ->
  exists u, has_value (binary_round_aux prec emax false m e l) (m + u) (- e) /\
    (u = 0 /\ 2 * r <= d \/ u = 1 /\ 0 < r).
Proof.
  intros Hm He Hl. unfold binary_round_aux. rewrite shr_fexp_id by lia. 
  assert (Hloc : loc_of_shr_record (shr_record_of_loc m l) = l) by by destruct l as [|[]].
  assert (Hmm : shr_m (shr_record_of_loc m l) = m) by by destruct l as [|[]].
  rewrite Hloc, Hmm. destruct (round_located m l r d Hl) as (u & -> & Hu). exists u. split; [|done].
  destruct (Z.eq_dec (m + u) (2 ^ 53)) as [E|E].
  - rewrite E. unfold shr_fexp. change (Zdigits2 (2 ^ 53)) with 54.
    assert (Hf : fexp prec emax (54 + e) - e = 1) by (unfold fexp, SpecFloat.emin, prec, emax; lia).
    rewrite Hf. exists (2 ^ 52)%positive, (e + 1). split.
    + cbn. destruct (Z.leb_spec (e + 1) (emax - prec)) as [_|H]; [done|unfold prec, emax in H; lia].
    + split; [lia|]. replace (e + 1 + - e) with 1 by lia. done.
  - rewrite shr_fexp_id by lia. cbn [shr_record_of_loc shr_m].
    destruct (m + u) as [|n|n] eqn:En; [lia| |lia].
    destruct (Z.leb_spec e (emax - prec)) as [_|H]; [|unfold prec, emax in H; lia].
    exists n, e. split; [done|]. split; [lia|]. replace (e + - e) with 0 by lia. simpl. lia.
Qed.

(** The quotient of two normalized mantissas has 53 or 54 bits; it is cut to
    53 and rounded. *)
Lemma round_quotient q e l r d :
  2 ^ 52 <= q < 2 ^ 54 -> -1074 <= e -> e <= -1 -> located l r d ->
  exists k m0 r0 u, 0 <= k <= 1 /\ has_value (binary_round_aux prec emax false q e l) (m0 + u) (- e - k) /\
    2 ^ 52 <= m0 < 2 ^ 53 /\ q * d + r = m0 * (2 ^ k * d) + r0 /\ 0 <= r0 < 2 ^ k * d /\
    (u = 0 /\ 2 * r0 <= 2 ^ k * d \/ u = 1 /\ 0 < r0).
Proof.
  intros Hq He He' Hl. destruct (Z.lt_ge_cases q (2 ^ 53)) as [Hlt|Hge].
  - destruct (round_normalized q e l r d) as (u & Hv & Hu); [lia|lia|done|].
    destruct Hl as [Hr _]. exists 0, q, r, u. rewrite Z.sub_0_r. change (2 ^ 0) with 1. rewrite !Z.mul_1_l.
    split; [lia|]. split; [done|]. split; [lia|]. split; [lia|]. split; [lia|done].
  - pose proof (Z.div2_odd q) as Hdo. set (h := Z.div2 q) in *.
    assert (Hh : 2 ^ 52 <= h < 2 ^ 53) by (destruct (Z.odd q); simpl in Hdo; lia).
    destruct (shr_1_located h (Z.odd q) l r d) as (l' & Hs & Hl'); [lia|done|].
    destruct (round_normalized h (e + 1) l' (Z.b2z (Z.odd q) * d + r) (2 * d)) as (u & Hv & Hu); [lia|lia|done|].
    assert (Heq : binary_round_aux prec emax false q e l = binary_round_aux prec emax false h (e + 1) l').
    { unfold binary_round_aux. rewrite (shr_fexp_id h) by lia.
      assert (shr_fexp prec emax q e l = (shr_record_of_loc h l', e + 1)) as ->; [|done].
      unfold shr_fexp, fexp, SpecFloat.emin, prec, emax. destruct q as [|q|q]; [lia| |lia]. cbn [Zdigits2].
      change (Z.pos (digits2_pos q)) with (digits q). rewrite (digits_unique q 54) by lia.
      replace (Z.max (54 + e - 53) (3 - 1024 - 53) - e) with 1 by lia. cbn [shr iter_pos]. by rewrite <- Hs, <- Hdo. }
    destruct Hl' as [Hr' _]. exists 1, h, (Z.b2z (Z.odd q) * d + r), u. rewrite Heq.
    replace (- e - 1) with (- (e + 1)) by lia. change (2 ^ 1) with 2.
    split; [lia|]. split; [done|]. split; [done|]. split; [rewrite Hdo at 1; lia|]. split; [done|done].
Qed.

(** The quotient of two integers below 2^53, as a rounded fraction. *)
Lemma Div_value a b :
  0 < a < 2 ^ 53 -> 0 < b < 2 ^ 53 ->
  exists p m0 r u, 0 <= p /\ has_value (Div (float64 a) (float64 b)) (m0 + u) p /\ 2 ^ 52 <= m0 < 2 ^ 53 /\
    a * 2 ^ p = m0 * b + r /\ 0 <= r < b /\ (u = 0 /\ 2 * r <= b \/ u = 1 /\ 0 < r).
Proof.
  intros Ha Hb. destruct (float64_exact a Ha) as (m1 & s & -> & Hs & Hm1 & Hb1).
  destruct (float64_exact b Hb) as (m2 & t & -> & Ht & Hm2 & Hb2).
  unfold Div, SFdiv, SFdiv_core_binary. cbn [Zdigits2 xorb].
  change (Z.pos (digits2_pos m1)) with (digits m1). change (Z.pos (digits2_pos m2)) with (digits m2).
  rewrite (digits_unique m1 53), (digits_unique m2 53) by lia.
  assert (He : Z.min (fexp prec emax (53 + - s - (53 + - t))) (- s - - t) = t - s - 53)
    by (unfold fexp, SpecFloat.emin, prec, emax; lia).
  rewrite He. replace (- s - - t - (t - s - 53)) with 53 by lia. cbv iota zeta. rewrite Z.shiftl_mul_pow2 by lia.
  pose proof (Z_div_mod (Z.pos m1 * 2 ^ 53) (Z.pos m2) ltac:(lia)) as Hd.
  destruct (Z.div_eucl _ _) as [q r]. destruct Hd as [Hd Hr].
  destruct (round_quotient q (t - s - 53) (new_location (Z.pos m2) r) r (Z.pos m2))
    as (k & m0 & r0 & u & Hk & Hv & Hm0 & Hn & Hr0 & Hu); [nia|lia|lia|by apply new_location_located|].
  set (p := - (t - s - 53) - k) in *. set (T := 2 ^ (t + k)).
  assert (HT : 0 < T) by (apply Z.pow_pos_nonneg; lia).
  assert (HbT : 2 ^ k * Z.pos m2 = b * T) by (unfold T; rewrite Hm2, Z.pow_add_r by lia; lia).
  assert (HaT : a * 2 ^ p * T = Z.pos m1 * 2 ^ 53).
  { unfold T, p. rewrite Hm1, <- !Z.mul_assoc, <- !Z.pow_add_r by lia. do 2 f_equal. lia. }
  rewrite HbT in *. assert (Hrr : r0 = (a * 2 ^ p - m0 * b) * T) by nia.
  exists p, m0, (a * 2 ^ p - m0 * b), u. split; [lia|]. split; [done|]. split; [done|]. split; [lia|].
  split; [nia|]. destruct Hu as [[? ?]|[? ?]]; [left|right]; (split; [done|nia]).
Qed.

(** The ceiling of a fraction, by its bounds. *)
Lemma ceil_iff x d n : 0 < d -> - (- x / d) = n <-> (n - 1) * d < x <= n * d.
Proof.
  intros Hd. pose proof (Z.div_mod (- x) d ltac:(lia)) as E. pose proof (Z.mod_pos_bound (- x) d Hd) as B.
  split; [intros <-; nia|]. intros H. assert (- x / d = - n) as ->; [|lia]. nia.
Qed.

(** Rounding the quotient to 53 bits does not move it across an integer. *)
Lemma ceil_rounded a b p m0 r u :
  0 < a < 2 ^ 53 -> 0 < b -> 0 <= p -> 2 ^ 52 <= m0 -> a * 2 ^ p = m0 * b + r -> 0 <= r < b ->
  (u = 0 /\ 2 * r <= b \/ u = 1 /\ 0 < r) ->
  - (- (m0 + u) / 2 ^ p) = - (- a / b).
Proof.
  intros Ha Hb Hp Hm0 Heq Hr Hu. set (n := - (- a / b)). set (P := 2 ^ p) in *.
  assert (HP : 0 < P) by (apply Z.pow_pos_nonneg; lia).
  assert (Hn : (n - 1) * b < a <= n * b) by (by apply (ceil_iff a b n)).
  apply ceil_iff; [done|]. split.
  - assert (H1 : (n - 1) * P * b + P <= m0 * b + r) by nia.
    destruct Hu as [[-> H2]|[-> H2]]; [|nia].
    destruct (Z.lt_ge_cases ((n - 1) * P) m0) as [|Hge]; [lia|]. exfalso.
    assert (P <= r) by nia. assert ((n - 1) * (2 * P) <= (n - 1) * b) by nia. lia.
  - assert (H1 : m0 * b + r <= n * P * b) by nia. destruct Hu as [[-> H2]|[-> H2]]; nia.
Qed.

(** Rounding up a positive number whose ceiling is below 2^53. *)
Lemma Ceil_value undef x num p :
  has_value x num p -> 0 <= p -> 0 < num -> 0 < - (- num / 2 ^ p) < 2 ^ 53 ->
  float_to_int64 undef (Ceil x) = - (- num / 2 ^ p).
Proof.
  intros (m & e & -> & He & Hv) Hp Hnum. set (c := - (- num / 2 ^ p)). intros Hc. unfold Ceil.
  destruct (Z.leb_spec 0 e) as [H0|H0].
  - assert (Hz : Z.pos m * 2 ^ e = c).
    { unfold c. rewrite <- Hv, Z.pow_add_r by lia.
      rewrite <- Z.mul_opp_l, Z.mul_assoc.
      rewrite Z.div_mul by (apply Z.pow_nonzero; lia). lia. }
    unfold float_to_int64. destruct (Z.leb_spec 0 e); [|lia]. rewrite Hz.
    destruct (Z.leb_spec (- 2 ^ 63) c); [|lia]. destruct (Z.ltb_spec c (2 ^ 63)); [done|lia].
  - assert (Hz : - (- Z.pos m / 2 ^ (- e)) = c).
    { unfold c. rewrite <- Hv. assert (Hpe : 2 ^ p = 2 ^ (- e) * 2 ^ (e + p)) by (rewrite <- Z.pow_add_r by lia; f_equal; lia).
      rewrite Hpe, <- Z.mul_opp_l, Z.div_mul_cancel_r by (apply Z.pow_nonzero; lia). done. }
    cbv zeta iota. rewrite Hz. change (float_to_int64 undef (float64 c) = c). by apply float64_back.
Qed.

(** For integers below 2^53 the computation in floating point is the exact
    ceiling of the quotient. *)
Lemma ceil_quotient_exact undef a b :
  0 <= a < 2 ^ 53 -> 0 < b < 2 ^ 53 -> ceil_quotient undef a b = - (- a / b).
Proof.
  intros Ha Hb. unfold ceil_quotient. destruct (Z.eq_dec a 0) as [->|Ha0].
  { destruct (float64_exact b Hb) as (m & s & -> & _). simpl. by rewrite Z.div_0_l by lia. }
  destruct (Div_value a b) as (p & m0 & r & u & Hp & Hv & Hm0 & Heq & Hr & Hu); [lia|done|].
  pose proof (ceil_rounded a b p m0 r u ltac:(lia) ltac:(lia) Hp ltac:(lia) Heq Hr Hu) as Hc.
  rewrite <- Hc. apply Ceil_value; [done|done|lia|]. rewrite Hc.
  pose proof (ceil_iff a b (- (- a / b)) ltac:(lia)) as [Hi _]. specialize (Hi eq_refl). nia.
Qed.
