(* ===== verification/Api.v ===== *)
(** * The FluxJob API group: [api/v1alpha1/fluxjob_types.go]

    The enumeration of wrapped object kinds, the submit status, the FluxJob
    custom resource, and the name a FluxJob gets from the object it wraps.
    Also the shared constants of [pkg/defaults] and
    [pkg/fluxqueue/defaults]. *)

From Stdlib Require Import Ascii.
From stdpp Require Import base option list strings gmap numbers pretty.
From S2P Require Import Prelude GoStrings.

(** ** [pkg/defaults/defaults.go] *)

Definition SchedulingGateName : string := "fluxqueue".
Definition SchedulerName : string := "FluxionScheduler".
Definition FluxJobIdLabel : string := "fluxqueue/jobid".
Definition NodesLabel : string := "fluxqueue/fluxion-nodes".
Definition SeenLabel : string := "fluxqueue.seen".
Definition SelectorLabel : string := "fluxqueue.selector".
Definition UnschedulableLabel : string := "fluxqueue/unschedulable".

(** ** [pkg/fluxqueue/defaults/defaults.go] *)

(** [math.MaxInt16]. *)
Definition MaxAttempts : Z := 2 ^ 15 - 1.
Definition MaxCancelAttempts : Z := 3.

(** ** What a FluxJob wraps *)

(** [type JobWrapped int]: any integer is a value of the type, the named
    constants are 0 to 4. *)
Definition JobWrapped : Type := Z.
Definition JobWrappedPod : JobWrapped := 0%Z.
Definition JobWrappedJob : JobWrapped := 1%Z.
Definition JobWrappedDeployment : JobWrapped := 2%Z.
Definition JobWrappedReplicaSet : JobWrapped := 3%Z.
Definition JobWrappedStatefulSet : JobWrapped := 4%Z.

Definition SubmitStatus : Type := string.
Definition SubmitStatusNew : SubmitStatus := "statusNew".
Definition SubmitStatusSubmit : SubmitStatus := "statusSubmit".
Definition SubmitStatusError : SubmitStatus := "statusError".
Definition SubmitStatusCancel : SubmitStatus := "statusCancel".

(** [func (w JobWrapped) String() string]. *)
Definition JobWrapped_String (w : JobWrapped) : string := Itoa w.

(** [GetJobName]: the switch over the named constants, then the default. *)
Definition GetJobName (jobType : JobWrapped) (name : string) : string :=
  if bool_decide (jobType = JobWrappedJob) then name +:+ "-job"
  else if bool_decide (jobType = JobWrappedPod) then name +:+ "-pod"
  else if bool_decide (jobType = JobWrappedDeployment) then name +:+ "-deployment"
  else if bool_decide (jobType = JobWrappedReplicaSet) then name +:+ "-replicaset"
  else if bool_decide (jobType = JobWrappedStatefulSet) then name +:+ "-statefulset"
  else name +:+ "-unknown".

(** ** The custom resource *)

Record FluxJobSpec := mkFluxJobSpec {
  fs_JobSpec : string;
  fs_Type : JobWrapped;
  fs_Name : string;
  fs_Object : list Byte.byte;
  fs_Duration : Z;
  fs_Reservation : bool;
  fs_Nodes : Z;
  fs_ResourcesNodes : list string
}.

Record FluxJob := mkFluxJob {
  fj_Name : string;
  fj_Namespace : string;
  fj_Spec : FluxJobSpec;
  fj_Status : SubmitStatus
}.

Definition set_status (fj : FluxJob) (st : SubmitStatus) : FluxJob :=
  mkFluxJob (fj_Name fj) (fj_Namespace fj) (fj_Spec fj) st.

(** The API group: the kinds that [init] registers with the scheme builder of
    [GroupVersion], as the scheme names them. *)
Definition GroupVersion : string * string := ("jobs.converged-computing.org", "v1alpha1").
Definition SchemeBuilder : list string := ["FluxJob"; "FluxJobList"].
Definition AddToScheme (scheme : list string) : list string :=
  scheme ++ ((fun kind => GroupVersion.1 +:+ "/" +:+ GroupVersion.2 +:+ ", Kind=" +:+ kind) <$> SchemeBuilder).

(** ** Names determine the wrapped object *)

Definition known_type (t : JobWrapped) : Prop :=
  t = JobWrappedPod \/ t = JobWrappedJob \/ t = JobWrappedDeployment \/
  t = JobWrappedReplicaSet \/ t = JobWrappedStatefulSet.

Definition chars (s : string) : list ascii := String.list_ascii_of_string s.

Lemma chars_app s t : chars (s +:+ t) = chars s ++ chars t.
Proof.
  induction s as [|c s IH]; [done|]. rewrite string_app_cons. unfold chars in *. simpl. by rewrite IH.
Qed.

Lemma chars_inj s t : chars s = chars t -> s = t.
Proof.
  intros H. rewrite <- (String.string_of_list_ascii_of_string s).
  unfold chars in H. rewrite H. apply String.string_of_list_ascii_of_string.
Qed.

(** Comparing two suffixes from their last character decides the equation. *)
Lemma suffix_inv s1 s2 u1 u2 :
  s1 +:+ u1 = s2 +:+ u2 ->
  reverse (chars u1) ++ reverse (chars s1) = reverse (chars u2) ++ reverse (chars s2).
Proof. intros H. by rewrite <- !reverse_app, <- !chars_app, H. Qed.

(** The name of a FluxJob determines what it wraps: for the five wrapped types,
    two objects get the same FluxJob name only if they have the same type and
    the same name, even when a name itself ends in a suffix such as [-pod]. *)
Theorem GetJobName_injective t1 t2 n1 n2 :
  known_type t1 -> known_type t2 ->
  GetJobName t1 n1 = GetJobName t2 n2 -> t1 = t2 /\ n1 = n2.
Proof.
  intros H1 H2. repeat destruct H1 as [->|H1]; repeat destruct H2 as [->|H2]; subst;
    intros H; apply suffix_inv in H; cbv [chars reverse rev_append String.list_ascii_of_string app] in H;
    try discriminate H.
  all: split; [done|]; injection H as H; by apply chars_inj, (inj reverse).
Qed.

Lemma GetJobName_injective_witness :
  JobWrappedPod = JobWrappedPod /\ "a-job" = "a-job".
Proof. apply GetJobName_injective; [by left|by left|reflexivity]. Defined.
