(* ===== verification/DeepCopy.v ===== *)
(** * Deep copies of the custom resource: [zz_generated.deepcopy.go]

    The API machinery hands out shared objects and relies on [DeepCopy] for
    values of one's own.  Slices share their backing arrays when a struct is
    assigned, so this file models memory: a heap of arrays, structs that hold
    locations, and the functions as the generator wrote them.  The copies of
    [ObjectMeta] and [ListMeta] are library code: a class with its laws. *)

From stdpp Require Import base option strings gmap fin_maps fin_sets numbers list.
From S2P Require Import Prelude GoStrings Api.

(** ** Memory *)

Abbreviation loc := positive.

Section DeepCopy.
Context {M : Type}.

(** A slice is nil or the location of its backing array. *)
Abbreviation slice := (option loc).

(** [Resources], [FluxJobSpec] and [FluxJob] in memory; [M] is the type of
    [ObjectMeta]. *)
Record MemResources := mkMemResources { mr_Nodes : slice }.
Record MemSpec := mkMemSpec {
  ms_JobSpec : string;
  ms_Type : JobWrapped;
  ms_Name : string;
  ms_Object : slice;
  ms_Duration : Z;
  ms_Reservation : bool;
  ms_Nodes : Z;
  ms_Resources : MemResources
}.
Record MemStatus := mkMemStatus { mst_SubmitStatus : SubmitStatus }.
Record MemFluxJob := mkMemFluxJob {
  mj_TypeMeta : string * string;
  mj_ObjectMeta : M;
  mj_Spec : MemSpec;
  mj_Status : MemStatus
}.
Record MemFluxJobList := mkMemFluxJobList {
  ml_TypeMeta : string * string;
  ml_ListMeta : M;
  ml_Items : slice
}.

(** The arrays: bytes, strings, FluxJob structs, and the maps of the library's
    objects. *)
Inductive cell :=
  | CBytes (b : list Byte.byte)
  | CStrings (l : list string)
  | CJobs (l : list MemFluxJob)
  | CMap (m : gmap string string).
Abbreviation heap := (gmap loc cell).

(** [make] followed by [copy], or a fresh array. *)
Definition alloc (c : cell) (h : heap) : loc * heap := let l := fresh (dom h) in (l, <[l := c]> h).

(** [ObjectMeta.DeepCopyInto] and [ListMeta.DeepCopyInto]: the value after the
    call and the heap. *)
Class MetaCopy := {
  meta_DeepCopyInto : M -> heap -> M * heap;
  meta_zero : M;
  meta_reach : heap -> M -> gset loc;
  meta_text : heap -> M -> option (string * string)
}.
Context `{!MetaCopy}.

(** ** The generated functions *)

(** [if in.Object != nil { *out = make([]byte, len( *in)); copy( *out, *in) }]:
    reading a location that holds no such array does not happen in Go and
    leaves the slice alone. *)
Definition copy_slice (s : slice) (h : heap) : slice * heap :=
  match s with
  | None => (None, h)
  | Some l =>
      match h !! l with
      | Some (CBytes b) => let '(l', h') := alloc (CBytes b) h in (Some l', h')
      | Some (CStrings b) => let '(l', h') := alloc (CStrings b) h in (Some l', h')
      | _ => (Some l, h)
      end
  end.

(** [func (in *Resources) DeepCopyInto(out *Resources)]: the struct is assigned
    first, so what is not copied is shared. *)
Definition Resources_DeepCopyInto (in_ : MemResources) (h : heap) : MemResources * heap :=
  let out := in_ in
  let '(nodes, h) := copy_slice (mr_Nodes in_) h in
  (mkMemResources nodes, h).

Definition set_ms_Object (s : MemSpec) (o : slice) : MemSpec :=
  mkMemSpec (ms_JobSpec s) (ms_Type s) (ms_Name s) o (ms_Duration s) (ms_Reservation s) (ms_Nodes s) (ms_Resources s).
Definition set_ms_Resources (s : MemSpec) (r : MemResources) : MemSpec :=
  mkMemSpec (ms_JobSpec s) (ms_Type s) (ms_Name s) (ms_Object s) (ms_Duration s) (ms_Reservation s) (ms_Nodes s) r.

(** [func (in *FluxJobSpec) DeepCopyInto(out *FluxJobSpec)]. *)
Definition FluxJobSpec_DeepCopyInto (in_ : MemSpec) (h : heap) : MemSpec * heap :=
  let out := in_ in
  let '(object, h) := copy_slice (ms_Object in_) h in
  let out := set_ms_Object out object in
  let '(resources, h) := Resources_DeepCopyInto (ms_Resources in_) h in
  (set_ms_Resources out resources, h).

(** [func (in *FluxJobStatus) DeepCopyInto(out *FluxJobStatus)]. *)
Definition FluxJobStatus_DeepCopyInto (in_ : MemStatus) (h : heap) : MemStatus * heap := (in_, h).

(** [func (in *FluxJob) DeepCopyInto(out *FluxJob)]. *)
Definition FluxJob_DeepCopyInto (in_ : MemFluxJob) (h : heap) : MemFluxJob * heap :=
  let '(meta, h) := meta_DeepCopyInto (mj_ObjectMeta in_) h in
  let '(spec, h) := FluxJobSpec_DeepCopyInto (mj_Spec in_) h in
  (mkMemFluxJob (mj_TypeMeta in_) meta spec (mj_Status in_), h).

(** The zero value of the struct, as [make] and [new] give it. *)
Definition zero_job : MemFluxJob :=
  mkMemFluxJob ("", "") meta_zero (mkMemSpec "" 0%Z "" None 0 false 0 (mkMemResources None)) (mkMemStatus "").

(** [out[i] = y]. *)
Definition set_item (l : loc) (i : nat) (y : MemFluxJob) (h : heap) : heap :=
  match h !! l with Some (CJobs ys) => <[l := CJobs (<[i := y]> ys)]> h | _ => h end.

(** The loop of the list's [DeepCopyInto], from index [i]. *)
Fixpoint copy_items (l : loc) (i : nat) (items : list MemFluxJob) (h : heap) : heap :=
  match items with
  | [] => h
  | x :: rest => let '(y, h) := FluxJob_DeepCopyInto x h in copy_items l (S i) rest (set_item l i y h)
  end.

(** [func (in *FluxJobList) DeepCopyInto(out *FluxJobList)]. *)
Definition FluxJobList_DeepCopyInto (in_ : MemFluxJobList) (h : heap) : MemFluxJobList * heap :=
  let '(meta, h) := meta_DeepCopyInto (ml_ListMeta in_) h in
  match ml_Items in_ with
  | None => (mkMemFluxJobList (ml_TypeMeta in_) meta None, h)
  | Some src =>
      match h !! src with
      | Some (CJobs items) =>
          let '(l, h) := alloc (CJobs (replicate (length items) zero_job)) h in
          (mkMemFluxJobList (ml_TypeMeta in_) meta (Some l), copy_items l 0 items h)
      | _ => (mkMemFluxJobList (ml_TypeMeta in_) meta (Some src), h)
      end
  end.

(** [DeepCopy]: nil for nil, otherwise a new struct filled by [DeepCopyInto];
    [DeepCopyObject] is [DeepCopy] behind an interface. *)
Definition DeepCopy {A} (into : A -> heap -> A * heap) (in_ : option A) (h : heap) : option A * heap :=
  match in_ with
  | None => (None, h)
  | Some x => let '(out, h) := into x h in (Some out, h)
  end.
Definition FluxJob_DeepCopy : option MemFluxJob -> heap -> option MemFluxJob * heap := DeepCopy FluxJob_DeepCopyInto.
Definition FluxJobList_DeepCopy : option MemFluxJobList -> heap -> option MemFluxJobList * heap :=
  DeepCopy FluxJobList_DeepCopyInto.
Definition FluxJobSpec_DeepCopy : option MemSpec -> heap -> option MemSpec * heap := DeepCopy FluxJobSpec_DeepCopyInto.
Definition FluxJobStatus_DeepCopy : option MemStatus -> heap -> option MemStatus * heap :=
  DeepCopy FluxJobStatus_DeepCopyInto.
Definition Resources_DeepCopy : option MemResources -> heap -> option MemResources * heap :=
  DeepCopy Resources_DeepCopyInto.
Definition FluxJob_DeepCopyObject (in_ : option MemFluxJob) (h : heap) : option MemFluxJob * heap :=
  let '(c, h) := FluxJob_DeepCopy in_ h in
  match c with Some c => (Some c, h) | None => (None, h) end.
Definition FluxJobList_DeepCopyObject (in_ : option MemFluxJobList) (h : heap) : option MemFluxJobList * heap :=
  let '(c, h) := FluxJobList_DeepCopy in_ h in
  match c with Some c => (Some c, h) | None => (None, h) end.
End DeepCopy.

Arguments MemFluxJob : clear implicits.
Arguments MemFluxJobList : clear implicits.
Arguments cell : clear implicits.
Arguments MetaCopy : clear implicits.

(** ** What an object in memory is, and what it reaches *)

Section Objects.
Context {M : Type}.
Abbreviation heap := (gmap loc (cell M)).

(** The value of an object and the arrays it is spread over: both depend on
    these arrays only, and an object that has a value lies in the heap. *)
Class Object (A V : Type) := {
  value : heap -> A -> option V;
  reach : heap -> A -> gset loc
}.
Class ObjectLaws (A V : Type) `{!Object A V} : Prop := {
  object_frame (h h' : heap) (a : A) : (forall l, l ∈ reach h a -> h' !! l = h !! l) ->
    value h' a = value h a /\ reach h' a = reach h a;
  object_closed (h : heap) (a : A) : is_Some (value h a) -> reach h a ⊆ dom h
}.

(** [a'] in [h'] is a copy of [a] in [h] that shares nothing with [h]. *)
Definition copied {A V} `{!Object A V} (h : heap) (a : A) (h' : heap) (a' : A) : Prop :=
  h ⊆ h' /\ value h' a' = value h a /\ reach h' a' ## dom h.

(** A heap that keeps the old arrays keeps the objects on them. *)
Lemma object_extend {A V} `{!Object A V, !ObjectLaws A V} (h h' : heap) (a : A) :
  is_Some (value h a) -> h ⊆ h' -> value h' a = value h a /\ reach h' a = reach h a.
Proof.
  intros Ha Hs. apply object_frame. intros l Hl. apply object_closed in Ha. apply Ha in Hl.
  apply elem_of_dom in Hl as [c Hc]. rewrite Hc. by eapply lookup_weaken.
Qed.

(** Writing through a copy does not change the original, nor the reverse. *)
Lemma copied_independent {A V} `{!Object A V, !ObjectLaws A V} (h h' : heap) (a a' : A) v :
  value h a = Some v -> copied h a h' a' ->
  value h' a = Some v /\ value h' a' = Some v /\
  (forall l c, l ∈ reach h' a' -> value (<[l := c]> h') a = Some v) /\
  (forall l c, l ∈ reach h' a -> value (<[l := c]> h') a' = Some v).
Proof.
  intros Hv (Hs & Hc & Hd). assert (Ha : is_Some (value h a)) by eauto.
  destruct (object_extend h h' a Ha Hs) as [Hv' Hr'].
  assert (Hdis : reach h' a' ## reach h' a).
  { rewrite Hr'. apply object_closed in Ha. set_solver. }
  rewrite Hv', Hc. split; [done|]. split; [done|]. rewrite <- Hv. split; intros l c Hl.
  - rewrite <- Hv'. apply object_frame. intros l' Hl'. apply lookup_insert_ne. intros ->. set_solver.
  - rewrite <- Hc. apply object_frame. intros l' Hl'. apply lookup_insert_ne. intros ->. set_solver.
Qed.

(** A copy made first survives a copy made next. *)
Lemma copied_then {A V B U} `{!Object A V, !ObjectLaws A V, !Object B U, !ObjectLaws B U} (h h1 h2 : heap) (a a' : A) (b b' : B) :
  is_Some (value h a) -> is_Some (value h b) -> copied h a h1 a' -> copied h1 b h2 b' ->
  copied h a h2 a' /\ copied h b h2 b'.
Proof.
  intros Ha Hb (Hs1 & Hc1 & Hd1) (Hs2 & Hc2 & Hd2).
  destruct (object_extend h h1 b Hb Hs1) as [Hb1 _].
  destruct (object_extend h1 h2 a') as [Ha2 Hr2]; [by rewrite Hc1|done|].
  assert (Hdom : dom h ⊆ dom h1) by by apply subseteq_dom.
  split; (split; [by etrans|]); split; [congruence|by rewrite Hr2|congruence|set_solver].
Qed.
End Objects.

(** ** The structs as objects *)

Section Structs.
Context {M : Type} `{!MetaCopy M}.
Abbreviation heap := (gmap loc (cell M)).
Abbreviation slice := (option loc).

Definition slice_reach (s : slice) : gset loc := match s with Some l => {[ l ]} | None => ∅ end.

(** A slice of bytes or of strings: nil, or the array. *)
Definition read_bytes (h : heap) (s : slice) : option (option (list Byte.byte)) :=
  match s with
  | None => Some None
  | Some l => match h !! l with Some (CBytes b) => Some (Some b) | _ => None end
  end.
Definition read_strings (h : heap) (s : slice) : option (option (list string)) :=
  match s with
  | None => Some None
  | Some l => match h !! l with Some (CStrings b) => Some (Some b) | _ => None end
  end.

(** The spec as the controller sees it, with nil slices apart from empty
    ones. *)
Definition spec_value (h : heap) (s : MemSpec) : option (FluxJobSpec * (bool * bool)) :=
  match read_bytes h (ms_Object s), read_strings h (mr_Nodes (ms_Resources s)) with
  | Some o, Some n =>
      Some (mkFluxJobSpec (ms_JobSpec s) (ms_Type s) (ms_Name s) (default [] o) (ms_Duration s) (ms_Reservation s)
              (ms_Nodes s) (default [] n), (bool_decide (o = None), bool_decide (n = None)))
  | _, _ => None
  end.
Definition spec_reach (s : MemSpec) : gset loc := slice_reach (ms_Object s) ∪ slice_reach (mr_Nodes (ms_Resources s)).

#[export] Instance spec_object : Object MemSpec (FluxJobSpec * (bool * bool)) :=
  {| value := spec_value; reach := fun _ s => spec_reach s |}.

Lemma read_bytes_frame h h' s : (forall l, l ∈ slice_reach s -> h' !! l = h !! l) -> read_bytes h' s = read_bytes h s.
Proof. destruct s as [l|]; [|done]. cbn. intros H. rewrite H by set_solver. done. Qed.
Lemma read_strings_frame h h' s : (forall l, l ∈ slice_reach s -> h' !! l = h !! l) -> read_strings h' s = read_strings h s.
Proof. destruct s as [l|]; [|done]. cbn. intros H. rewrite H by set_solver. done. Qed.

#[export] Instance spec_laws : ObjectLaws MemSpec (FluxJobSpec * (bool * bool)).
Proof.
  split; cbn; unfold spec_value, spec_reach.
  - intros h h' s H. rewrite (read_bytes_frame h h'), (read_strings_frame h h') by set_solver. done.
  - intros h s [v Hv]. destruct (ms_Object s) as [l1|], (mr_Nodes (ms_Resources s)) as [l2|]; cbn in *;
      repeat case_match; try done; apply union_subseteq; split; try apply empty_subseteq;
      apply singleton_subseteq_l, elem_of_dom; eauto.
Qed.

(** [make] and [copy] of one slice. *)
Lemma alloc_fresh (c : cell M) (h : heap) : (alloc c h).1 ∉ dom h /\ h ⊆ (alloc c h).2.
Proof.
  cbn. pose proof (is_fresh (dom h)) as Hf. split; [done|]. apply insert_subseteq. by apply not_elem_of_dom.
Qed.

Lemma copy_slice_spec s (h : heap) s' h' :
  copy_slice s h = (s', h') -> (is_Some (read_bytes h s) \/ is_Some (read_strings h s)) ->
  h ⊆ h' /\ (is_Some (read_bytes h s) -> read_bytes h' s' = read_bytes h s) /\
  (is_Some (read_strings h s) -> read_strings h' s' = read_strings h s) /\ slice_reach s' ## dom h.
Proof.
  destruct s as [l|]; [|by intros [= <- <-]; cbn; repeat split; set_solver]. unfold copy_slice, read_bytes, read_strings.
  destruct (h !! l) as [[b|b|b|b]|] eqn:E; intros H Hr; try (destruct Hr as [[? ?]|[? ?]]; done);
    destruct (alloc_fresh (match h !! l with Some c => c | None => CBytes [] end) h) as [Hf Hs]; rewrite E in Hf, Hs;
    injection H as <- <-; cbn in *; rewrite lookup_insert_eq; repeat split; try done; try set_solver;
    by intros [? ?].
Qed.

Lemma FluxJobSpec_copied s (h : heap) s' h' :
  is_Some (value h s) -> FluxJobSpec_DeepCopyInto s h = (s', h') -> copied h s h' s'.
Proof.
  unfold FluxJobSpec_DeepCopyInto, Resources_DeepCopyInto. cbn [value spec_object]. unfold spec_value.
  intros Hv H. destruct (copy_slice (ms_Object s) h) as [o h1] eqn:E1.
  destruct (copy_slice (mr_Nodes (ms_Resources s)) h1) as [n h2] eqn:E2. injection H as <- <-.
  destruct (read_bytes h (ms_Object s)) as [bo|] eqn:Eo; [|by destruct Hv].
  destruct (read_strings h (mr_Nodes (ms_Resources s))) as [bn|] eqn:En; [|by destruct Hv].
  apply copy_slice_spec in E1 as (Hs1 & Hb1 & _ & Hd1); [|rewrite Eo; eauto].
  assert (En1 : read_strings h1 (mr_Nodes (ms_Resources s)) = Some bn).
  { rewrite <- En. apply read_strings_frame. intros l Hl. destruct (mr_Nodes _) as [l0|]; [|set_solver].
    cbn in *. assert (l = l0) as -> by set_solver. destruct (h !! l0) eqn:E; [|done]. by eapply lookup_weaken. }
  apply copy_slice_spec in E2 as (Hs2 & _ & Hb2 & Hd2); [|rewrite En1; eauto].
  specialize (Hb1 ltac:(rewrite Eo; eauto)). specialize (Hb2 ltac:(rewrite En1; eauto)).
  assert (Hdom : dom h ⊆ dom h1) by by apply subseteq_dom.
  split; [by etrans|]. cbn [value reach spec_object]. unfold spec_value, spec_reach. cbn. split; [|set_solver].
  rewrite Hb2, En1, Eo, En. assert (read_bytes h2 o = Some bo) as ->; [|done].
  rewrite <- Eo, <- Hb1. apply read_bytes_frame. intros l Hl. destruct o as [l0|]; [|set_solver].
  cbn in Hl. assert (l = l0) as -> by set_solver. rewrite Eo in Hb1. cbn in Hb1.
  destruct (h1 !! l0) eqn:E; [|done]. by eapply lookup_weaken.
Qed.
End Structs.

Section Jobs.
Context {M : Type} `{!MetaCopy M}.
Abbreviation heap := (gmap loc (cell M)).

#[export] Instance meta_object : Object M (string * string) := {| value := meta_text; reach := meta_reach |}.

(** What the library documents of its [DeepCopyInto]: a copy of the receiver
    that shares nothing with it. *)
Class MetaLaws : Prop := {
  meta_laws :: ObjectLaws M (string * string);
  meta_copied m (h : heap) m' h' :
    is_Some (meta_text h m) -> meta_DeepCopyInto m h = (m', h') -> copied h m h' m'
}.
Context `{!MetaLaws}.

(** A FluxJob: type, object, and which slices are nil. *)
Definition JobValue : Type := (string * string) * FluxJob * (bool * bool).

Definition job_value (h : heap) (j : MemFluxJob M) : option JobValue :=
  match meta_text h (mj_ObjectMeta j), spec_value h (mj_Spec j) with
  | Some (name, ns), Some (spec, nils) =>
      Some (mj_TypeMeta j, mkFluxJob name ns spec (mst_SubmitStatus (mj_Status j)), nils)
  | _, _ => None
  end.
Definition job_reach (h : heap) (j : MemFluxJob M) : gset loc :=
  meta_reach h (mj_ObjectMeta j) ∪ spec_reach (mj_Spec j).

#[export] Instance job_object : Object (MemFluxJob M) JobValue := {| value := job_value; reach := job_reach |}.

#[export] Instance job_laws : ObjectLaws (MemFluxJob M) JobValue.
Proof.
  split; cbn [value reach job_object]; unfold job_value, job_reach.
  - intros h h' j Hag. destruct (object_frame h h' (mj_ObjectMeta j)) as [Hm Hr]; [set_solver|].
    destruct (object_frame h h' (mj_Spec j)) as [Hs _]; [set_solver|].
    cbn [value reach meta_object spec_object] in *. by rewrite Hm, Hs, Hr.
  - intros h j [v Hv]. destruct (meta_text h (mj_ObjectMeta j)) as [t|] eqn:Em; [|done].
    destruct (spec_value h (mj_Spec j)) as [s|] eqn:Es; [|by destruct t].
    pose proof (object_closed h (mj_ObjectMeta j)) as Hm. pose proof (object_closed h (mj_Spec j)) as Hs.
    cbn [value reach meta_object spec_object] in Hm, Hs. rewrite Em in Hm. rewrite Es in Hs.
    specialize (Hm ltac:(eauto)). specialize (Hs ltac:(eauto)). set_solver.
Qed.

Lemma FluxJob_copied j (h : heap) j' h' :
  is_Some (value h j) -> FluxJob_DeepCopyInto j h = (j', h') -> copied h j h' j'.
Proof.
  unfold FluxJob_DeepCopyInto. cbn [value job_object]. unfold job_value. intros Hv Hrun.
  destruct (meta_text h (mj_ObjectMeta j)) as [t|] eqn:Em; [|by destruct Hv].
  destruct (spec_value h (mj_Spec j)) as [s|] eqn:Es; [|by destruct t, Hv].
  assert (Hm : is_Some (value h (mj_ObjectMeta j))) by (cbn [value meta_object]; rewrite Em; eauto).
  assert (Hs : is_Some (value h (mj_Spec j))) by (cbn [value spec_object]; rewrite Es; eauto).
  destruct (meta_DeepCopyInto (mj_ObjectMeta j) h) as [m' h1] eqn:E1. apply meta_copied in E1; [|done].
  destruct (FluxJobSpec_DeepCopyInto (mj_Spec j) h1) as [s' h2] eqn:E2. injection Hrun as <- <-.
  apply FluxJobSpec_copied in E2.
  2:{ destruct E1 as [Hsub _]. destruct (object_extend h h1 (mj_Spec j) Hs Hsub) as [-> _]. done. }
  destruct (copied_then h h1 h2 _ m' _ s' Hm Hs E1 E2) as [(Hs1 & Hv1 & Hd1) (_ & Hv2 & Hd2)].
  split; [done|]. cbn [value reach meta_object spec_object job_object] in *. unfold job_value, job_reach.
  cbn [mj_ObjectMeta mj_Spec mj_TypeMeta mj_Status]. rewrite Hv1, Hv2, Em, Es. split; [done|set_solver].
Qed.

(** ** Lists *)

(** The loop: what is copied so far, apart from everything in [h0]. *)
Definition placed (h0 h : heap) (l : loc) (y : MemFluxJob M) (v : JobValue) : Prop :=
  value h y = Some v /\ reach h y ## dom h0 /\ l ∉ reach h y.

Lemma placed_extend h0 h h' l y v :
  placed h0 h l y v -> (forall x, x <> l -> x ∈ dom h -> h' !! x = h !! x) -> placed h0 h' l y v.
Proof.
  intros (Hv & Hd & Hl) Hx. destruct (object_frame h h' y) as [Hv' Hr'].
  { intros x Hx'. apply Hx; [by intros ->|]. by apply (object_closed h y); [rewrite Hv; eauto|]. }
  unfold placed. by rewrite Hv', Hr'.
Qed.

Lemma copy_items_spec h0 l items : forall i ys vs h ws,
  h0 ⊆ h -> l ∉ dom h0 -> length ys = i ->
  h !! l = Some (CJobs (ys ++ replicate (length items) zero_job)) ->
  Forall2 (placed h0 h l) ys vs -> Forall2 (fun x w => value h0 x = Some w) items ws ->
  exists zs, copy_items l i items h !! l = Some (CJobs zs) /\ h0 ⊆ copy_items l i items h /\
    Forall2 (placed h0 (copy_items l i items h) l) zs (vs ++ ws).
Proof.
  induction items as [|x items IH]; intros i ys vs h ws Hs Hl Hi Hc Hys Hws; cbn [copy_items].
  { apply Forall2_nil_inv_l in Hws as ->. exists ys. rewrite app_nil_r in *. done. }
  apply Forall2_cons_inv_l in Hws as (w & ws' & Hw & Hws & ->).
  destruct (FluxJob_DeepCopyInto x h) as [y h1] eqn:E.
  assert (Hxv : value h x = Some w).
  { destruct (object_extend h0 h x ltac:(rewrite Hw; eauto) Hs) as [-> _]. done. }
  apply FluxJob_copied in E as (Hs1 & Hv1 & Hd1); [|rewrite Hxv; eauto].
  assert (Hc1 : h1 !! l = Some (CJobs (ys ++ replicate (length (x :: items)) zero_job))) by by eapply lookup_weaken.
  assert (Hset : set_item l i y h1 = <[l := CJobs ((ys ++ [y]) ++ replicate (length items) zero_job)]> h1).
  { unfold set_item. rewrite Hc1. f_equal. f_equal. rewrite <- Hi, insert_app_r_alt by lia.
    rewrite Nat.sub_diag. cbn. by rewrite <- app_assoc. }
  rewrite Hset. set (h2 := <[l := _]> h1).
  assert (Hx2 : forall z, z <> l -> h2 !! z = h1 !! z) by (intros z Hz; by apply lookup_insert_ne).
  assert (Hdl : l ∈ dom h) by (apply elem_of_dom; eauto).
  destruct (IH (S i) (ys ++ [y]) (vs ++ [w]) h2 ws') as (zs & H1 & H2 & H3).
  - apply map_subseteq_spec. intros z c Hz. rewrite Hx2 by (intros ->; apply Hl, elem_of_dom; eauto).
    eapply lookup_weaken; [|exact Hs1]. by eapply lookup_weaken.
  - done.
  - rewrite length_app. simpl. lia.
  - unfold h2. by rewrite lookup_insert_eq.
  - apply Forall2_app.
    + eapply Forall2_impl; [exact Hys|]. intros y0 v0 Hp. eapply placed_extend; [exact Hp|].
      intros z Hz Hzd. rewrite Hx2 by done. apply elem_of_dom in Hzd as [c Hc']. rewrite Hc'. by eapply lookup_weaken.
    + constructor; [|constructor]. assert (Hly : l ∉ reach h1 y) by set_solver.
      destruct (object_frame h1 h2 y) as [Hv2 Hr2]; [intros z Hz; apply Hx2; by intros ->|].
      unfold placed. rewrite Hv2, Hr2, Hv1. split; [done|]. split; [|done].
      assert (dom h0 ⊆ dom h) by by apply subseteq_dom. set_solver.
  - done.
  - exists zs. split; [done|]. split; [done|]. by rewrite <- app_assoc in H3.
Qed.
End Jobs.

Section Lists.
Context {M : Type} `{!MetaCopy M, ML : !MetaLaws}.
Abbreviation heap := (gmap loc (cell M)).

(** A FluxJobList: type, metadata, and the items or nil. *)
Definition ListValue : Type := (string * string) * (string * string) * option (list JobValue).

Definition items_value (h : heap) (s : option loc) : option (option (list JobValue)) :=
  match s with
  | None => Some None
  | Some l => match h !! l with
              | Some (CJobs js) => match mapM (job_value h) js with Some vs => Some (Some vs) | None => None end
              | _ => None
              end
  end.
Definition items_reach (h : heap) (s : option loc) : gset loc :=
  match s with
  | None => ∅
  | Some l => {[ l ]} ∪ match h !! l with Some (CJobs js) => ⋃ (job_reach h <$> js) | _ => ∅ end
  end.

#[export] Instance list_object : Object (MemFluxJobList M) ListValue := {|
  value := fun h l => match meta_text h (ml_ListMeta l), items_value h (ml_Items l) with
                      | Some t, Some vs => Some (ml_TypeMeta l, t, vs)
                      | _, _ => None
                      end;
  reach := fun h l => meta_reach h (ml_ListMeta l) ∪ items_reach h (ml_Items l)
|}.

Lemma items_frame (h h' : heap) s :
  (forall l, l ∈ items_reach h s -> h' !! l = h !! l) ->
  items_value h' s = items_value h s /\ items_reach h' s = items_reach h s.
Proof.
  destruct s as [l|]; [|done]. unfold items_value, items_reach. intros Hag.
  rewrite (Hag l) by set_solver. destruct (h !! l) as [[b|b|js|b]|] eqn:E; try done.
  assert (Hjs : forall j, j ∈ js -> job_value h' j = job_value h j /\ job_reach h' j = job_reach h j).
  { intros j Hj. change (value h' j = value h j /\ reach h' j = reach h j). apply object_frame. intros x Hx. apply Hag. apply elem_of_union_r, elem_of_union_list.
    exists (job_reach h j). split; [by apply list_elem_of_fmap_2|done]. }
  assert (mapM (job_value h') js = mapM (job_value h) js) as ->.
  { clear E Hag. induction js as [|j js IH]; [done|]. cbn. rewrite (proj1 (Hjs j ltac:(left))), IH; [done|].
    intros j' Hj'. apply Hjs. by right. }
  split; [done|]. do 2 f_equal. apply list_fmap_ext. intros i j Hi. by apply Hjs, (list_elem_of_lookup_2 _ i).
Qed.

Lemma items_closed (h : heap) s : is_Some (items_value h s) -> items_reach h s ⊆ dom h.
Proof.
  destruct s as [l|]; [|done]. unfold items_value, items_reach. destruct (h !! l) as [[b|b|js|b]|] eqn:E; try (intros [? ?]; done).
  destruct (mapM (job_value h) js) as [vs|] eqn:Em; [|intros [? ?]; done]. intros _. apply mapM_Some in Em.
  intros x [Hx|Hx]%elem_of_union; [apply elem_of_singleton in Hx as ->; apply elem_of_dom; eauto|].
  apply elem_of_union_list in Hx as (r & Hr & Hx). apply list_elem_of_fmap in Hr as (j & -> & Hj).
  apply list_elem_of_lookup in Hj as [i Hi]. destruct (Forall2_lookup_l _ _ _ _ _ Em Hi) as (v & _ & Hv).
  change (value h j = Some v) in Hv. by apply (object_closed h j); [rewrite Hv; eauto|].
Qed.

#[export] Instance list_laws : ObjectLaws (MemFluxJobList M) ListValue.
Proof.
  split; cbn [value reach list_object].
  - intros h h' l Hag. destruct (object_frame h h' (ml_ListMeta l)) as [Hm Hr]; [cbn [reach meta_object]; set_solver|].
    destruct (items_frame h h' (ml_Items l)) as [Hi Hir]; [set_solver|].
    cbn [value reach meta_object] in *. by rewrite Hm, Hr, Hi, Hir.
  - intros h l [v Hv]. destruct (meta_text h (ml_ListMeta l)) as [t|] eqn:Em; [|done].
    destruct (items_value h (ml_Items l)) as [vs|] eqn:Ei; [|done].
    pose proof (object_closed h (ml_ListMeta l)) as Hm. cbn [value reach meta_object] in Hm. rewrite Em in Hm.
    specialize (Hm ltac:(eauto)). pose proof (items_closed h (ml_Items l) ltac:(rewrite Ei; eauto)). set_solver.
Qed.

Lemma FluxJobList_copied l (h : heap) l' h' :
  is_Some (value h l) -> FluxJobList_DeepCopyInto l h = (l', h') -> copied h l h' l'.
Proof.
  unfold FluxJobList_DeepCopyInto. cbn [value list_object]. intros Hv Hrun.
  destruct (meta_text h (ml_ListMeta l)) as [t|] eqn:Em; [|by destruct Hv].
  destruct (items_value h (ml_Items l)) as [vs|] eqn:Ei; [|by destruct Hv].
  destruct (meta_DeepCopyInto (ml_ListMeta l) h) as [m h1] eqn:E1.
  apply meta_copied in E1; [|rewrite Em; eauto]. destruct E1 as (Hs1 & Hv1 & Hd1). cbn [value reach meta_object] in *.
  rewrite Em in Hv1. unfold items_value in Ei. destruct (ml_Items l) as [src|] eqn:Esrc.
  2:{ injection Hrun as <- <-. split; [done|]. cbn [value reach list_object ml_ListMeta ml_Items ml_TypeMeta items_value items_reach].
      rewrite Hv1, Em, Esrc. cbn. split; [by simplify_eq|set_solver]. }
  destruct (h !! src) as [[b|b|js|b]|] eqn:Eh; try done.
  destruct (mapM (job_value h) js) as [ws|] eqn:Ew; [|done]. injection Ei as <-. apply mapM_Some in Ew.
  rewrite (lookup_weaken _ _ _ _ Eh Hs1) in Hrun.
  set (zs0 := replicate (length js) zero_job) in *. pose proof (alloc_fresh (CJobs zs0) h1) as [Hf Hs2].
  destruct (alloc (CJobs zs0) h1) as [dst h2] eqn:Ea. cbn [fst snd] in *. injection Hrun as <- <-.
  assert (Hdst : h2 !! dst = Some (CJobs zs0)) by (injection Ea as <- <-; by rewrite lookup_insert_eq).
  destruct (copy_items_spec h1 dst js 0 [] [] h2 ws) as (zs & Hz & Hsub & Hall); try done.
  { eapply Forall2_impl; [exact Ew|]. intros j w Hj. change (value h j = Some w) in Hj.
    destruct (object_extend h h1 j) as [-> _]; [rewrite Hj; eauto|done|done]. }
  cbn [app] in Hall. set (h3 := copy_items dst 0 js h2) in *.
  assert (Hdom : dom h ⊆ dom h1) by by apply subseteq_dom.
  destruct (object_extend h1 h3 m) as [Hm3 Hr3]; [cbn; rewrite Hv1; eauto|done|]. cbn [value reach meta_object] in Hm3, Hr3.
  split; [by etrans|]. cbn [value reach list_object ml_ListMeta ml_Items ml_TypeMeta items_value items_reach].
  rewrite Hm3, Hr3, Hv1, Em, Hz, Esrc. split.
  - unfold items_value. rewrite Eh. assert (mapM (job_value h3) zs = Some ws) as ->.
    { apply mapM_Some. eapply Forall2_impl; [exact Hall|]. intros z w (Hzv & _). exact Hzv. }
    apply mapM_Some in Ew. by rewrite Ew.
  - apply disjoint_union_l. split; [done|]. apply disjoint_union_l. split; [set_solver|].
    intros x Hx Hxd. apply elem_of_union_list in Hx as (r & Hr & Hx). apply list_elem_of_fmap in Hr as (z & -> & Hz').
    apply list_elem_of_lookup in Hz' as [i Hi]. destruct (Forall2_lookup_l _ _ _ _ _ Hall Hi) as (w & _ & _ & Hdz & _).
    apply (Hdz x); [done|]. by apply Hdom.
Qed.

(** C39. A deep copy is a value of one's own: copying a FluxJob or a list of them
    gives an object with the same contents (nil slices stay nil), leaves the
    original as it is, and afterwards no write through the one changes the
    other; the copy of nil is nil. *)
Theorem DeepCopy_independent (h : heap) :
  (forall j v j' h', value h j = Some v -> FluxJob_DeepCopyObject (Some j) h = (j', h') ->
     exists c, j' = Some c /\ value h' j = Some v /\ value h' c = Some v /\
       (forall l x, l ∈ reach h' c -> value (<[l := x]> h') j = Some v) /\
       (forall l x, l ∈ reach h' j -> value (<[l := x]> h') c = Some v)) /\
  (forall j v j' h', value h j = Some v -> FluxJobList_DeepCopyObject (Some j) h = (j', h') ->
     exists c, j' = Some c /\ value h' j = Some v /\ value h' c = Some v /\
       (forall l x, l ∈ reach h' c -> value (<[l := x]> h') j = Some v) /\
       (forall l x, l ∈ reach h' j -> value (<[l := x]> h') c = Some v)) /\
  FluxJob_DeepCopyObject None h = (None, h) /\ FluxJobList_DeepCopyObject None h = (None, h).
Proof.
  split; [|split; [|done]]; intros j v j' h' Hv Hrun.
  - unfold FluxJob_DeepCopyObject, FluxJob_DeepCopy, DeepCopy in Hrun.
    destruct (FluxJob_DeepCopyInto j h) as [c h1] eqn:E. injection Hrun as <- <-.
    exists c. split; [done|]. apply (copied_independent h); [done|]. by apply FluxJob_copied; [rewrite Hv; eauto|].
  - unfold FluxJobList_DeepCopyObject, FluxJobList_DeepCopy, DeepCopy in Hrun.
    destruct (FluxJobList_DeepCopyInto j h) as [c h1] eqn:E. injection Hrun as <- <-.
    exists c. split; [done|]. apply (copied_independent h); [done|]. by apply FluxJobList_copied; [rewrite Hv; eauto|].
Qed.
End Lists.

(** ** A concrete metadata *)

(** [ObjectMeta] with its name, namespace and the map of its labels, copied the
    way the library's generated function does. *)
Record ObjectMeta := mkObjectMeta { om_Name : string; om_Namespace : string; om_Labels : option loc }.

#[export] Instance ObjectMeta_copy : MetaCopy ObjectMeta := {
  meta_DeepCopyInto := fun m h =>
    match om_Labels m with
    | Some l => match h !! l with
                | Some (CMap labels) =>
                    let '(l', h') := alloc (CMap labels) h in (mkObjectMeta (om_Name m) (om_Namespace m) (Some l'), h')
                | _ => (m, h)
                end
    | None => (m, h)
    end;
  meta_zero := mkObjectMeta "" "" None;
  meta_reach := fun _ m => slice_reach (om_Labels m);
  meta_text := fun h m =>
    match om_Labels m with
    | Some l => match h !! l with Some (CMap _) => Some (om_Name m, om_Namespace m) | _ => None end
    | None => Some (om_Name m, om_Namespace m)
    end
}.

#[export] Instance ObjectMeta_laws : MetaLaws (M := ObjectMeta).
Proof.
  split; [split|]; cbn [value reach meta_object ObjectMeta_copy meta_text meta_reach meta_DeepCopyInto];
    [intros h h' [n ns [l|]] Hag|intros h [n ns [l|]] Hv|intros [n ns [l|]] h m' h' Hv Hrun]; cbn in *; try done.
  - rewrite Hag by set_solver. done.
  - destruct (h !! l) as [[]|] eqn:E; try by destruct Hv. apply singleton_subseteq_l, elem_of_dom. eauto.
  - destruct (h !! l) as [[b|b|b|b]|] eqn:E; try by destruct Hv.
    destruct (alloc_fresh (CMap b) h) as [Hf Hs]. injection Hrun as <- <-. cbn in *. split; [done|].
    cbn. rewrite lookup_insert_eq, E. split; [done|set_solver].
  - injection Hrun as <- <-. split; [done|]. cbn. split; [done|set_solver].
Qed.

Definition sample_job : MemFluxJob ObjectMeta :=
  mkMemFluxJob ("FluxJob", "v1alpha1") (mkObjectMeta "job" "default" (Some 1%positive))
    (mkMemSpec "" 1%Z "pod" (Some 2%positive) 0 false 1 (mkMemResources None)) (mkMemStatus "new").
Definition sample_list : MemFluxJobList ObjectMeta :=
  mkMemFluxJobList ("FluxJobList", "v1alpha1") (mkObjectMeta "" "" None) (Some 3%positive).
Definition sample_heap : gmap loc (cell ObjectMeta) :=
  <[1%positive := CMap (<["app" := "lammps"]> ∅)]> (<[2%positive := CBytes [Byte.x61; Byte.x62]]>
    (<[3%positive := CJobs [sample_job]]> ∅)).

Lemma DeepCopy_independent_witness :
  exists h' c v, (FluxJobList_DeepCopyObject (Some sample_list) sample_heap) = (Some c, h') /\
    value h' c = Some v /\ value (<[2%positive := CBytes []]> h') c = Some v.
Proof.
  pose (r := FluxJobList_DeepCopyObject (Some sample_list) sample_heap).
  destruct (value sample_heap sample_list) as [v|] eqn:Ev; [|vm_compute in Ev; discriminate].
  destruct (proj1 (proj2 (DeepCopy_independent sample_heap)) sample_list v r.1 r.2 Ev) as (c & Hc & _ & Hv & _ & Hw).
  { reflexivity. }
  exists r.2, c, v. split; [unfold r in *; rewrite <- Hc; vm_compute; reflexivity|]. split; [exact Hv|].
  apply Hw. vm_compute. reflexivity.
Defined.
