(* ===== verification/Kube.v ===== *)
(** * Kubernetes objects and the clients of the API server

    The parts of the core, batch and apps objects the program reads or
    writes, and the client calls it makes.  The API server and the client
    libraries are not part of the repository: they are type classes over an
    abstract server state [K], and what the program relies on is stated as
    the laws of [FluxJobLaws] and [PodLaws], which restate the documented
    behaviour of a call that reported success.  A call that reported an
    error may have changed anything, so the laws say nothing about it.

    [resource.Quantity] is the type parameter [Q]. *)

From Stdlib Require Import Ascii.
From stdpp Require Import base option list strings gmap numbers.
From S2P Require Import Prelude GoStrings Json Api.

(** ** Objects *)

(** A Go map: [None] is the nil map, which can be read but not written. *)
Abbreviation LabelMap := (option (gmap string string)).

Record ObjectMeta := mkMeta {
  om_Name : string;
  om_Namespace : string;
  om_Labels : LabelMap
}.

(** Reading a key of a possibly nil map. *)
Definition label_get (m : ObjectMeta) (k : string) : option string :=
  match om_Labels m with Some l => l !! k | None => None end.

(** [if m.Labels == nil { m.Labels = map[string]string{} }]. *)
Definition ensure_labels (m : ObjectMeta) : ObjectMeta :=
  mkMeta (om_Name m) (om_Namespace m) (Some (default ∅ (om_Labels m))).

(** [m.Labels[k] = v] after [ensure_labels]. *)
Definition label_set (m : ObjectMeta) (k v : string) : ObjectMeta :=
  mkMeta (om_Name m) (om_Namespace m) (Some (<[k := v]> (default ∅ (om_Labels m)))).

Section Objects.
Context (Q : Type).

Record Container := mkContainer {
  c_Name : string;
  c_Requests : gmap string Q;
  c_Limits : gmap string Q;
  c_RestartPolicy : option string
}.

(** The nil slice and the empty slice of gates behave alike in every use, so
    [SchedulingGates] is a list of the gates' names. *)
Record PodSpec := mkPodSpec {
  ps_SchedulingGates : list string;
  ps_SchedulerName : string;
  ps_Containers : list Container;
  ps_InitContainers : list Container;
  ps_Overhead : option (gmap string Q);
  ps_ActiveDeadlineSeconds : option Z
}.

Record ContainerStatus := mkContainerStatus {
  cs_Name : string;
  cs_Resources : option (gmap string Q)
}.

Record PodStatus := mkPodStatus {
  pst_ContainerStatuses : list ContainerStatus;
  pst_Resize : string
}.

Record Pod := mkPod {
  p_meta : ObjectMeta;
  p_spec : PodSpec;
  p_status : PodStatus
}.

(** The pod template of a controller object. *)
Record PodTemplate := mkTemplate {
  t_meta : ObjectMeta;
  t_spec : PodSpec
}.

Record Job := mkJob {
  j_meta : ObjectMeta;
  j_Suspend : option bool;
  j_Parallelism : option Z;
  j_Template : PodTemplate
}.

(** A Deployment, ReplicaSet or StatefulSet: the fields the program uses
    are the same. *)
Record Workload := mkWorkload {
  wl_meta : ObjectMeta;
  wl_Replicas : option Z;
  wl_Template : PodTemplate
}.
End Objects.

Arguments c_Name {Q} _. Arguments c_Requests {Q} _. Arguments c_Limits {Q} _.
Arguments c_RestartPolicy {Q} _.
Arguments ps_SchedulingGates {Q} _. Arguments ps_SchedulerName {Q} _.
Arguments ps_Containers {Q} _. Arguments ps_InitContainers {Q} _. Arguments ps_Overhead {Q} _.
Arguments ps_ActiveDeadlineSeconds {Q} _.
Arguments cs_Name {Q} _. Arguments cs_Resources {Q} _.
Arguments pst_ContainerStatuses {Q} _. Arguments pst_Resize {Q} _.
Arguments p_meta {Q} _. Arguments p_spec {Q} _. Arguments p_status {Q} _.
Arguments t_meta {Q} _. Arguments t_spec {Q} _.
Arguments j_meta {Q} _. Arguments j_Suspend {Q} _. Arguments j_Parallelism {Q} _. Arguments j_Template {Q} _.
Arguments wl_meta {Q} _. Arguments wl_Replicas {Q} _. Arguments wl_Template {Q} _.
Arguments mkContainer {Q}. Arguments mkPodSpec {Q}. Arguments mkPodStatus {Q}. Arguments mkPod {Q}.
Arguments mkTemplate {Q}. Arguments mkJob {Q}. Arguments mkWorkload {Q}. Arguments mkContainerStatus {Q}.

Section Updates.
Context {Q : Type}.

Definition set_gates (s : PodSpec Q) (g : list string) : PodSpec Q :=
  mkPodSpec g (ps_SchedulerName s) (ps_Containers s) (ps_InitContainers s) (ps_Overhead s)
            (ps_ActiveDeadlineSeconds s).
Definition set_scheduler (s : PodSpec Q) (n : string) : PodSpec Q :=
  mkPodSpec (ps_SchedulingGates s) n (ps_Containers s) (ps_InitContainers s) (ps_Overhead s)
            (ps_ActiveDeadlineSeconds s).
Definition set_pod_labels (p : Pod Q) (l : gmap string string) : Pod Q :=
  mkPod (mkMeta (om_Name (p_meta p)) (om_Namespace (p_meta p)) (Some l)) (p_spec p) (p_status p).
Definition set_pod_gates (p : Pod Q) (g : list string) : Pod Q :=
  mkPod (p_meta p) (set_gates (p_spec p) g) (p_status p).
Definition pod_labels (p : Pod Q) : gmap string string := default ∅ (om_Labels (p_meta p)).
Definition pod_label (p : Pod Q) (k : string) : option string := label_get (p_meta p) k.
Definition pod_gates (p : Pod Q) : list string := ps_SchedulingGates (p_spec p).

Lemma pod_label_lookup p k : pod_label p k = pod_labels p !! k.
Proof.
  unfold pod_label, label_get, pod_labels. destruct (om_Labels (p_meta p)); simpl; [done|].
  by rewrite lookup_empty.
Qed.
End Updates.

(** ** Clients *)

(** The controller-runtime client, used on FluxJob objects. *)
Class FluxJobClient (K : Type) := {
  fluxjob_Get : string -> string -> K -> (FluxJob * error) * K;
  fluxjob_Create : FluxJob -> K -> error * K;
  fluxjob_StatusUpdate : FluxJob -> K -> error * K;
  fluxjob_Delete : FluxJob -> K -> error * K
}.

(** The FluxJob objects the server stores, by namespace and name. *)
Class FluxJobView (K : Type) := fluxjobs : K -> gmap (string * string) FluxJob.

(** What a successful call did.  [status] is a subresource of FluxJob, so
    [Create] drops the status it is given and [Status().Update] writes
    nothing else. *)
Class FluxJobLaws (K : Type) `{!FluxJobClient K, !FluxJobView K} : Prop := {
  get_pure ns n k r k' : fluxjob_Get ns n k = (r, k') -> fluxjobs k' = fluxjobs k;
  create_ok fj k k' :
    fluxjob_Create fj k = (None, k') ->
    fluxjobs k !! (fj_Namespace fj, fj_Name fj) = None /\
    fluxjobs k' = <[(fj_Namespace fj, fj_Name fj) := set_status fj ""]> (fluxjobs k);
  create_refused fj k e k' :
    fluxjobs k !! (fj_Namespace fj, fj_Name fj) <> None ->
    fluxjob_Create fj k = (e, k') -> is_Some e /\ fluxjobs k' = fluxjobs k;
  status_ok fj k k' :
    fluxjob_StatusUpdate fj k = (None, k') ->
    exists fj0, fluxjobs k !! (fj_Namespace fj, fj_Name fj) = Some fj0 /\
      fluxjobs k' = <[(fj_Namespace fj, fj_Name fj) := set_status fj0 (fj_Status fj)]> (fluxjobs k)
}.

Inductive PatchType := JSONPatchType | MergePatchType | StrategicMergePatchType.

(** The typed clientset, used on pods, jobs and stateful sets. *)
Class PodClient (Q K : Type) := {
  kube_NewForConfig : K -> error * K;
  pods_Get : string -> string -> K -> (Pod Q * error) * K;
  pods_List : string -> string -> K -> (list (Pod Q) * error) * K;
  pods_Patch : string -> string -> PatchType -> string -> K -> error * K;
  jobs_Patch : string -> string -> PatchType -> string -> K -> error * K;
  statefulsets_Patch : string -> string -> PatchType -> string -> K -> error * K
}.

(** The pods and jobs the server stores, by namespace and name. *)
Class PodView (Q K : Type) := {
  kube_pods : K -> gmap (string * string) (Pod Q);
  kube_jobs : K -> gmap (string * string) (Job Q)
}.

(** The characters of label keys and values. *)
Definition label_char (c : ascii) : bool :=
  let n := N_of_ascii c in
  ((48 <=? n) && (n <=? 57) || (65 <=? n) && (n <=? 90) || (97 <=? n) && (n <=? 122))%N ||
  bool_decide (c ∈ ["-"; "_"; "."; "/"]%char).
Fixpoint label_text (s : string) : bool :=
  match s with EmptyString => true | String c s' => label_char c && label_text s' end.

Lemma label_text_app s t : label_text (s +:+ t) = label_text s && label_text t.
Proof.
  induction s as [|c s IH]; [done|]. rewrite string_app_cons. cbn. by rewrite IH, andb_assoc.
Qed.

(** The RFC 7386 merge of string members into a label map. *)
Definition merge_labels (ms : list (string * string)) (l : gmap string string) : gmap string string :=
  foldl (fun acc kv => <[kv.1 := kv.2]> acc) l ms.

(** [{"metadata": {"labels": {...}}}] with string values. *)
Definition labels_body (ms : list (string * string)) : json :=
  JObj [("metadata", JObj [("labels", JObj ((fun kv => (kv.1, JStr kv.2)) <$> ms))])].

(** The RFC 6902 patch that removes the [i]-th scheduling gate. *)
Definition remove_gate_body (i : nat) : json :=
  JArr [JObj [("op", JStr "remove"); ("path", JStr ("/spec/schedulingGates/" +:+ Itoa (Z.of_nat i)))]].

(** What a successful call did.  A selector of the form [key=value] lists the
    pods of the namespace that carry that label. *)
Class PodLaws (Q K : Type) `{!PodClient Q K, !PodView Q K} : Prop := {
  newForConfig_pure k e k' : kube_NewForConfig k = (e, k') -> kube_pods k' = kube_pods k;
  pods_Get_ok ns n k p k' :
    pods_Get ns n k = ((p, None), k') ->
    kube_pods k !! (ns, n) = Some p /\ kube_pods k' = kube_pods k;
  pods_List_ok ns sel k ps k' :
    pods_List ns sel k = ((ps, None), k') ->
    kube_pods k' = kube_pods k /\
    NoDup ((fun p => om_Name (p_meta p)) <$> ps) /\
    (forall p, p ∈ ps ->
       om_Namespace (p_meta p) = ns /\ kube_pods k !! (ns, om_Name (p_meta p)) = Some p) /\
    (forall key v p, label_text key = true -> label_text v = true -> sel = key +:+ "=" +:+ v ->
       om_Namespace (p_meta p) = ns -> kube_pods k !! (ns, om_Name (p_meta p)) = Some p ->
       p ∈ ps <-> pod_labels p !! key = Some v);
  pods_Patch_labels_ok ns n payload ms k k' :
    json_parse payload = Some (labels_body ms) ->
    pods_Patch ns n MergePatchType payload k = (None, k') ->
    exists p, kube_pods k !! (ns, n) = Some p /\
      kube_pods k' = <[(ns, n) := set_pod_labels p (merge_labels ms (pod_labels p))]> (kube_pods k);
  pods_Patch_gate_ok ns n payload i k k' :
    json_parse payload = Some (remove_gate_body i) ->
    pods_Patch ns n JSONPatchType payload k = (None, k') ->
    exists p, kube_pods k !! (ns, n) = Some p /\ i < length (pod_gates p) /\
      kube_pods k' = <[(ns, n) := set_pod_gates p (delete i (pod_gates p))]> (kube_pods k)
}.
