(* ===== verification/Database.v ===== *)
(** * The two queue tables and the statements on them

    [build/postgres/create-tables.sql] declares the tables,
    [pkg/fluxqueue/queries/queries.go] the statements, and
    [pkg/fluxqueue/types/types.go] the rows they are read into.  The tables
    are concrete; the connection to the database is the class [DbConn]: it
    decides the fate of every statement and supplies the clock of [NOW()]. *)

From stdpp Require Import base option list strings gmap numbers pretty sorting.
From S2P Require Import Prelude GoStrings Api.

(** ** Tables *)

(** A row of [pending_queue]. *)
Record PendingRow := mkPending {
  pr_jobspec : string;
  pr_namespace : string;
  pr_flux_job_name : string;
  pr_name : string;
  pr_type : Z;
  pr_reservation : Z;
  pr_duration : Z;
  pr_created_at : Z;
  pr_size : Z
}.

(** A row of [reservations]. *)
Record ReservationRow := mkReservation {
  rr_name : string;
  rr_flux_id : Z
}.

Record Database := mkDatabase {
  pending_queue : list PendingRow;
  reservations : list ReservationRow
}.

(** The key of the unique index [pending_index]. *)
Definition pending_key (r : PendingRow) : string * string := (pr_name r, pr_namespace r).

(** The index is unique. *)
Definition pending_unique (db : Database) : Prop := NoDup (pending_key <$> pending_queue db).

#[export] Instance PendingRow_eq_dec : EqDecision PendingRow.
Proof. solve_decision. Defined.
#[export] Instance ReservationRow_eq_dec : EqDecision ReservationRow.
Proof. solve_decision. Defined.

(** ** Rows as the program reads them *)

Record JobModel := mkJobModel {
  jm_JobSpec : string;
  jm_FluxJobName : string;
  jm_Name : string;
  jm_Namespace : string;
  jm_Type : string;
  jm_Reservation : Z;
  jm_Duration : Z;
  jm_Size : Z
}.

Record ReservationModel := mkReservationModel {
  rm_JobId : Z;
  rm_Name : string
}.

(** ** The connection *)

(** The fate of one statement: executed; refused by the server; or executed
    but not acknowledged, which the caller sees as an error too. *)
Inductive fate := Applied | Refused (e : goerr) | Unacknowledged (e : goerr).

Class DbConn (C : Type) := {
  pool_New : C -> error * C;
  db_fate : C -> fate * C;
  db_now : C -> Z;
  db_order : C -> list PendingRow -> list PendingRow
}.

(** [order by created_at desc]: the same rows, latest first; the order of
    rows created at the same time is not fixed. *)
Definition later (a b : PendingRow) : Prop := (pr_created_at b <= pr_created_at a)%Z.

Class DbLaws (C : Type) `{!DbConn C} : Prop := {
  db_order_perm c l : db_order c l ≡ₚ l;
  db_order_sorted c l : StronglySorted later (db_order c l)
}.

(** ** Statements *)

(** A value fits an [INTEGER] column. *)
Definition int4_ok (z : Z) : bool := ((- 2 ^ 31 <=? z) && (z <? 2 ^ 31))%Z.

Definition key_matches (name namespace : string) (r : PendingRow) : bool :=
  bool_decide (pr_name r = name) && bool_decide (pr_namespace r = namespace).

(** [IsPendingQuery] run with [Exec]: the command tag of a select. *)
Definition IsPendingQuery (db : Database) (name namespace : string) : string :=
  "SELECT " +:+ Itoa (Z.of_nat (length (filter (fun r => key_matches name namespace r) (pending_queue db)))).

(** [InsertIntoPending]: refused when the name and namespace are taken or a
    number does not fit its column. *)
Definition InsertIntoPending (db : Database) (r : PendingRow) : goerr + Database :=
  if existsb (key_matches (pr_name r) (pr_namespace r)) (pending_queue db)
  then inl (Err "duplicate key value violates unique constraint pending_index")
  else if int4_ok (pr_type r) && int4_ok (pr_reservation r) && int4_ok (pr_duration r) && int4_ok (pr_size r)
  then inr (mkDatabase (pending_queue db ++ [r]) (reservations db))
  else inl (Err "value out of range for int4").

(** [DeleteFromPendingQuery]. *)
Definition DeleteFromPendingQuery (db : Database) (name namespace : string) : Database :=
  mkDatabase (filter (fun r => negb (key_matches name namespace r)) (pending_queue db)) (reservations db).

(** The row of [SelectPendingByCreation] as [RowToStructByName] fills it; the
    integer column [type] is scanned into a string. *)
Definition to_JobModel (r : PendingRow) : JobModel :=
  mkJobModel (pr_jobspec r) (pr_flux_job_name r) (pr_name r) (pr_namespace r) (Itoa (pr_type r))
             (pr_reservation r) (pr_duration r) (pr_size r).

(** [AddReservationQuery]. *)
Definition AddReservationQuery (db : Database) (name : string) (flux_id : Z) : goerr + Database :=
  if int4_ok flux_id
  then inr (mkDatabase (pending_queue db) (reservations db ++ [mkReservation name flux_id]))
  else inl (Err "value out of range for int4").

(** [DeleteSingleReservationsQuery]. *)
Definition DeleteSingleReservationsQuery (db : Database) (flux_id : Z) : Database :=
  mkDatabase (pending_queue db) (filter (fun r => negb (bool_decide (rr_flux_id r = flux_id))) (reservations db)).

(** A result column: a scalar or a composite value. *)
#[warnings="-register-all"]
Inductive sqlval := SText (s : string) | SInt (z : Z) | SRow (vs : list sqlval).

(** [GetReservationsQuery] is [select (name, flux_id) from reservations]: the
    parentheses build one composite column, which PostgreSQL names [row]. *)
Definition GetReservationsQuery (db : Database) : list (list (string * sqlval)) :=
  (fun r => [("row", SRow [SText (rr_name r); SInt (rr_flux_id r)])]) <$> reservations db.

Definition column (n : string) (row : list (string * sqlval)) : option sqlval :=
  match filter (fun c => bool_decide (c.1 = n)) row with
  | c :: _ => Some c.2
  | [] => None
  end.

(** [pgx.RowToStructByName[types.ReservationModel]]: the row has exactly the
    columns the struct's [db] tags name. *)
Definition RowToReservation (row : list (string * sqlval)) : goerr + ReservationModel :=
  match column "flux_id" row, column "name" row with
  | Some (SInt id), Some (SText n) =>
      if bool_decide (length row = 2) then inr (mkReservationModel id n)
      else inl (Err "struct doesn't have corresponding row field")
  | _, _ => inl (Err "cannot find field in returned row")
  end.

(** [pgx.CollectRows]: stops at the first row that does not convert. *)
Fixpoint CollectRows {A} (f : list (string * sqlval) -> goerr + A) (rows : list (list (string * sqlval)))
  : list A * error :=
  match rows with
  | [] => ([], None)
  | row :: rest =>
      match f row with
      | inl e => ([], Some e)
      | inr a => match CollectRows f rest with
                 | (l, None) => (a :: l, None)
                 | (_, Some e) => ([], Some e)
                 end
      end
  end.

(** ** Facts about the statements *)

Lemma key_matches_true name namespace r :
  key_matches name namespace r = true <-> pending_key r = (name, namespace).
Proof.
  unfold key_matches, pending_key. rewrite andb_true_iff, !bool_decide_eq_true. naive_solver.
Qed.

Lemma InsertIntoPending_inv db r db' :
  InsertIntoPending db r = inr db' ->
  pending_key r ∉ (pending_key <$> pending_queue db) /\
  pending_queue db' = pending_queue db ++ [r] /\ reservations db' = reservations db.
Proof.
  unfold InsertIntoPending. destruct (existsb _ _) eqn:E; [done|].
  case_match; [|done]. intros [= <-]. split; [|done].
  rewrite list_elem_of_fmap. intros (r' & Heq & Hin).
  apply not_true_iff_false in E. apply E. apply existsb_exists. exists r'.
  split; [by apply list_elem_of_In|]. by apply key_matches_true.
Qed.

Lemma InsertIntoPending_unique db r db' :
  pending_unique db -> InsertIntoPending db r = inr db' -> pending_unique db'.
Proof.
  intros Hu H%InsertIntoPending_inv. destruct H as (Hn & Hp & _).
  unfold pending_unique in *. rewrite Hp, fmap_app. apply NoDup_app.
  split; [done|]. split; [|apply NoDup_singleton].
  intros x Hx ->%list_elem_of_singleton. done.
Qed.

(** In a table with unique keys the key determines the row. *)
Lemma pending_unique_eq db r r' :
  pending_unique db -> r ∈ pending_queue db -> r' ∈ pending_queue db -> pending_key r = pending_key r' -> r = r'.
Proof.
  intros Hu [i Hi]%list_elem_of_lookup [j Hj]%list_elem_of_lookup Hk.
  assert (i = j) as ->; [|congruence]. apply (proj1 (NoDup_alt _) Hu i j (pending_key r)); rewrite list_lookup_fmap.
  - by rewrite Hi.
  - rewrite Hj, Hk. done.
Qed.

Lemma DeleteFromPending_unique db n ns :
  pending_unique db -> pending_unique (DeleteFromPendingQuery db n ns).
Proof.
  unfold pending_unique, DeleteFromPendingQuery. simpl. intros Hu.
  eapply sublist_NoDup; [exact Hu|]. apply fmap_sublist, sublist_filter.
Qed.

Lemma DeleteFromPending_elem db n ns r :
  r ∈ pending_queue (DeleteFromPendingQuery db n ns) <->
  pending_key r <> (n, ns) /\ r ∈ pending_queue db.
Proof.
  simpl. rewrite list_elem_of_filter. rewrite <- key_matches_true.
  destruct (key_matches n ns r); naive_solver.
Qed.
