(* ===== verification/World.v ===== *)
(** * River tasks, the Fluxion service and the world the queue runs in

    The argument types of the four workers
    ([pkg/fluxqueue/strategy/workers]), the river client they are inserted
    with, the Fluxion client, and the record of everything the program's
    calls read and change.  River and Fluxion are services outside the
    repository: classes over abstract states [R] and [F]. *)

From stdpp Require Import base option list strings gmap numbers.
From S2P Require Import Prelude GoStrings Json Api Kube Database.

(** ** Worker arguments *)

Record JobArgs := mkJobArgs {
  ja_Jobspec : string;
  ja_Name : string;
  ja_Namespace : string;
  ja_FluxJobName : string;
  ja_Type : string;
  ja_Reservation : Z;
  ja_Duration : Z;
  ja_Size : Z;
  ja_Nodes : string
}.

Definition set_reservation (a : JobArgs) (r : Z) : JobArgs :=
  mkJobArgs (ja_Jobspec a) (ja_Name a) (ja_Namespace a) (ja_FluxJobName a) (ja_Type a) r
            (ja_Duration a) (ja_Size a) (ja_Nodes a).

Record CleanupArgs := mkCleanupArgs {
  ca_FluxID : Z;
  ca_Podspec : string
}.

Record UngateArgs := mkUngateArgs {
  ua_Name : string;
  ua_Type : string;
  ua_Namespace : string;
  ua_Nodes : list string;
  ua_JobID : Z
}.

(** The interface [river.JobArgs], by its four implementations. *)
Inductive RiverArgs :=
  | AJob (a : JobArgs)
  | ACleanup (a : CleanupArgs)
  | AReservation
  | AUngate (a : UngateArgs).

(** The [Kind] methods. *)
Definition Kind (a : RiverArgs) : string :=
  match a with
  | AJob _ => "job"
  | ACleanup _ => "cleanup"
  | AReservation => "reservation"
  | AUngate _ => "ungate"
  end.

(** The zero values of the argument structs. *)
Definition zero_JobArgs : JobArgs := mkJobArgs "" "" "" "" "" 0 0 0 "".
Definition zero_CleanupArgs : CleanupArgs := mkCleanupArgs 0 "".
Definition zero_UngateArgs : UngateArgs := mkUngateArgs "" "" "" [] 0.

(** [river.AddWorker] registers a worker under the kind of the zero value of
    its arguments, and panics when the kind is taken. *)
Definition AddWorker {W} (workers : list string) (zero : RiverArgs) : GoM W (list string) :=
  if bool_decide (Kind zero ∈ workers) then panic "worker is already registered"
  else mret (workers ++ [Kind zero]).

(** The constructors of the workers: each stores the configuration and returns
    no error.  A worker is known by the zero value of its arguments. *)
Definition NewJobWorker : RiverArgs * error := (AJob zero_JobArgs, None).
Definition NewCleanupWorker : RiverArgs * error := (ACleanup zero_CleanupArgs, None).
Definition NewReservationWorker : RiverArgs * error := (AReservation, None).
Definition NewUngateWorker : RiverArgs * error := (AUngate zero_UngateArgs, None).

(** [MaxAttempts] 0 leaves river's default. *)
Record InsertOpts := mkInsertOpts {
  io_MaxAttempts : Z;
  io_Tags : list string;
  io_Queue : string
}.

(** [river.QueueDefault]. *)
Definition QueueDefault : string := "default".

Record InsertManyParams := mkParams {
  im_Args : RiverArgs;
  im_Opts : InsertOpts
}.

#[export] Instance CleanupArgs_eq_dec : EqDecision CleanupArgs.
Proof. solve_decision. Defined.
#[export] Instance UngateArgs_eq_dec : EqDecision UngateArgs.
Proof. solve_decision. Defined.
#[export] Instance InsertOpts_eq_dec : EqDecision InsertOpts.
Proof. solve_decision. Defined.
#[export] Instance JobArgs_eq_dec : EqDecision JobArgs.
Proof. solve_decision. Defined.
#[export] Instance RiverArgs_eq_dec : EqDecision RiverArgs.
Proof. solve_decision. Defined.
#[export] Instance InsertManyParams_eq_dec : EqDecision InsertManyParams.
Proof. solve_decision. Defined.

(** ** River *)

Class RiverClient (R : Type) := {
  river_NewClient : list string -> list (string * Z) -> R -> error * R;
  river_Start : R -> error * R;
  river_Stop : R -> error * R;
  river_InsertMany : list InsertManyParams -> R -> error * R;
  river_Insert : RiverArgs -> InsertOpts -> R -> error * R
}.

(** The tasks inserted so far, in the order of insertion. *)
Class RiverView (R : Type) := river_tasks : R -> list InsertManyParams.

(** [InsertMany] inserts in one transaction: all tasks in order, or none; an
    error may also mean that the commit was not acknowledged. *)
Class RiverLaws (R : Type) `{!RiverClient R, !RiverView R} : Prop := {
  insert_many_ok b r r' :
    river_InsertMany b r = (None, r') -> river_tasks r' = river_tasks r ++ b;
  insert_many_err b r e r' :
    river_InsertMany b r = (Some e, r') ->
    river_tasks r' = river_tasks r \/ river_tasks r' = river_tasks r ++ b;
  insert_ok a o r r' :
    river_Insert a o r = (None, r') -> river_tasks r' = river_tasks r ++ [mkParams a o];
  insert_err a o r e r' :
    river_Insert a o r = (Some e, r') ->
    river_tasks r' = river_tasks r \/ river_tasks r' = river_tasks r ++ [mkParams a o]
}.

(** ** Fluxion *)

Record MatchRequest := mkMatchRequest {
  mq_Jobspec : string;
  mq_Reservation : bool
}.

Record MatchResponse := mkMatchResponse {
  mr_Allocation : string;
  mr_Jobid : Z;
  mr_Reserved : bool
}.

Class FluxionClient (F : Type) := {
  fluxion_NewClient : F -> error * F;
  fluxion_Match : MatchRequest -> F -> (MatchResponse * error) * F;
  fluxion_Cancel : Z -> F -> error * F
}.

(** ** The world *)

Section World.
Context (C K F R : Type).

(** Database connection and tables, API server, Fluxion, river, and the
    queue's mutex. *)
Record World := mkWorld {
  w_conn : C;
  w_db : Database;
  w_kube : K;
  w_fluxion : F;
  w_river : R;
  w_locked : bool
}.
End World.

Arguments mkWorld {C K F R}. Arguments w_conn {C K F R} _. Arguments w_db {C K F R} _.
Arguments w_kube {C K F R} _. Arguments w_fluxion {C K F R} _. Arguments w_river {C K F R} _.
Arguments w_locked {C K F R} _.

Section Calls.
Context {C K F R : Type}.
Abbreviation W := (World C K F R).

Definition set_conn (w : W) (c : C) : W := mkWorld c (w_db w) (w_kube w) (w_fluxion w) (w_river w) (w_locked w).
Definition set_db (w : W) (d : Database) : W := mkWorld (w_conn w) d (w_kube w) (w_fluxion w) (w_river w) (w_locked w).
Definition set_kube (w : W) (k : K) : W := mkWorld (w_conn w) (w_db w) k (w_fluxion w) (w_river w) (w_locked w).
Definition set_fluxion (w : W) (f : F) : W := mkWorld (w_conn w) (w_db w) (w_kube w) f (w_river w) (w_locked w).
Definition set_river (w : W) (r : R) : W := mkWorld (w_conn w) (w_db w) (w_kube w) (w_fluxion w) r (w_locked w).
Definition set_locked (w : W) (b : bool) : W := mkWorld (w_conn w) (w_db w) (w_kube w) (w_fluxion w) (w_river w) b.

(** A call to one of the services changes that service's state only. *)
Definition on_conn {A} (f : C -> A * C) : GoM W A :=
  fun w => let '(a, c) := f (w_conn w) in (Ret a, set_conn w c).
Definition on_kube {A} (f : K -> A * K) : GoM W A :=
  fun w => let '(a, k) := f (w_kube w) in (Ret a, set_kube w k).
Definition on_fluxion {A} (f : F -> A * F) : GoM W A :=
  fun w => let '(a, x) := f (w_fluxion w) in (Ret a, set_fluxion w x).
Definition on_river {A} (f : R -> A * R) : GoM W A :=
  fun w => let '(a, r) := f (w_river w) in (Ret a, set_river w r).

Context `{!DbConn C}.

(** A statement that writes: [f] is its effect, or the server's refusal. *)
Definition sql_exec (f : Database -> goerr + Database) : GoM W error :=
  fun w =>
    let '(ft, c) := db_fate (w_conn w) in
    let w := set_conn w c in
    match ft with
    | Refused e => (Ret (Some e), w)
    | Applied => match f (w_db w) with
                 | inl e => (Ret (Some e), w)
                 | inr d => (Ret None, set_db w d)
                 end
    | Unacknowledged e => match f (w_db w) with
                          | inl e' => (Ret (Some e'), w)
                          | inr d => (Ret (Some e), set_db w d)
                          end
    end.

(** A statement that reads. *)
Definition sql_query {A} (f : Database -> A) : GoM W (goerr + A) :=
  fun w =>
    let '(ft, c) := db_fate (w_conn w) in
    let w := set_conn w c in
    match ft with
    | Applied => (Ret (inr (f (w_db w))), w)
    | Refused e | Unacknowledged e => (Ret (inl e), w)
    end.
End Calls.

(** A total write, such as a delete. *)
Definition always (f : Database -> Database) (d : Database) : goerr + Database := inr (f d).
