(* ===== verification/Mem.v ===== *)
(** * In-memory services

    One concrete instance of every service class, with its laws proved: a
    database connection that follows a script of statement fates, a river
    queue that is a list, an API server that keeps maps and interprets the
    JSON of a patch, and a Fluxion that answers from a script.  They show
    that the laws the theorems assume can hold together, and the witnesses
    run the program on them. *)

From Stdlib Require Import Ascii.
From stdpp Require Import base option list strings gmap numbers sorting fin_maps pretty.
From S2P Require Import Prelude GoStrings Json Api Kube Database World.

(** ** Database connection *)

(** The fates of the next statements (then [Applied] for ever) and the
    clock. *)
Record MemConn := mkMemConn { mc_fates : list fate; mc_now : Z }.

#[export] Instance later_dec : RelDecision later.
Proof. intros a b. unfold later. apply _. Defined.
#[export] Instance later_total : Total later.
Proof. intros a b. unfold later. lia. Qed.
#[export] Instance later_trans : Transitive later.
Proof. intros a b c. unfold later. lia. Qed.

#[export] Instance mem_conn : DbConn MemConn := {
  pool_New c := (None, c);
  db_fate c := match mc_fates c with
               | [] => (Applied, c)
               | f :: fs => (f, mkMemConn fs (mc_now c))
               end;
  db_now := mc_now;
  db_order _ l := merge_sort later l
}.

#[export] Instance mem_conn_laws : DbLaws MemConn.
Proof.
  split; intros c l; simpl.
  - apply merge_sort_Permutation.
  - apply (StronglySorted_merge_sort later); apply _.
Qed.

(** A connection on which every statement is executed. *)
Record UpConn := mkUpConn { uc_now : Z }.

#[export] Instance up_conn : DbConn UpConn := {
  pool_New c := (None, c);
  db_fate c := (Applied, c);
  db_now := uc_now;
  db_order _ l := merge_sort later l
}.

#[export] Instance up_conn_laws : DbLaws UpConn.
Proof.
  split; intros c l; simpl.
  - apply merge_sort_Permutation.
  - apply (StronglySorted_merge_sort later); apply _.
Qed.

(** ** River *)

(** The tasks inserted so far. *)
Definition MemRiver : Type := list InsertManyParams.

#[export] Instance mem_river : RiverClient MemRiver := {
  river_NewClient _ _ r := (None, r);
  river_Start r := (None, r);
  river_Stop r := (None, r);
  river_InsertMany b r := (None, r ++ b);
  river_Insert a o r := (None, r ++ [mkParams a o])
}.
#[export] Instance mem_river_view : RiverView MemRiver := fun r => r.
#[export] Instance mem_river_laws : RiverLaws MemRiver.
Proof. split; simpl; intros; go_simpl; done. Qed.

(** ** Fluxion *)

(** Answers still to be given, and the ids cancelled so far. *)
Record MemFluxion := mkMemFluxion {
  mf_answers : list (MatchResponse * error);
  mf_cancelled : list Z
}.

#[export] Instance mem_fluxion : FluxionClient MemFluxion := {
  fluxion_NewClient f := (None, f);
  fluxion_Match _ f :=
    match mf_answers f with
    | [] => ((mkMatchResponse "" 0 false, Some (Err "no answer")), f)
    | a :: rest => (a, mkMemFluxion rest (mf_cancelled f))
    end;
  fluxion_Cancel id f := (None, mkMemFluxion (mf_answers f) (mf_cancelled f ++ [id]))
}.

(** ** API server *)

Section MemKube.
Context (Q : Type).

Record MemKube := mkMemKube {
  mk_pods : gmap (string * string) (Pod Q);
  mk_jobs : gmap (string * string) (Job Q);
  mk_fluxjobs : gmap (string * string) FluxJob
}.
End MemKube.
Arguments mkMemKube {Q}. Arguments mk_pods {Q} _. Arguments mk_jobs {Q} _. Arguments mk_fluxjobs {Q} _.

Section MemKubeOps.
Context {Q : Type}.
Abbreviation Kb := (MemKube Q).

Definition with_pods (k : Kb) (m : gmap (string * string) (Pod Q)) : Kb := mkMemKube m (mk_jobs k) (mk_fluxjobs k).
Definition with_fluxjobs (k : Kb) (m : gmap (string * string) FluxJob) : Kb := mkMemKube (mk_pods k) (mk_jobs k) m.

Definition no_fluxjob : FluxJob := mkFluxJob "" "" (mkFluxJobSpec "" JobWrappedPod "" [] 0 false 0 []) "".
Definition no_pod : Pod Q := mkPod (mkMeta "" "" None) (mkPodSpec [] "" [] [] None None) (mkPodStatus [] "").

#[export] Instance mem_fluxjob_client : FluxJobClient Kb := {
  fluxjob_Get ns n k :=
    match mk_fluxjobs k !! (ns, n) with
    | Some fj => ((fj, None), k)
    | None => ((no_fluxjob, Some (ErrNotFound n)), k)
    end;
  fluxjob_Create fj k :=
    match mk_fluxjobs k !! (fj_Namespace fj, fj_Name fj) with
    | Some _ => (Some (Err "already exists"), k)
    | None => (None, with_fluxjobs k (<[(fj_Namespace fj, fj_Name fj) := set_status fj ""]> (mk_fluxjobs k)))
    end;
  fluxjob_StatusUpdate fj k :=
    match mk_fluxjobs k !! (fj_Namespace fj, fj_Name fj) with
    | Some fj0 => (None, with_fluxjobs k (<[(fj_Namespace fj, fj_Name fj) := set_status fj0 (fj_Status fj)]> (mk_fluxjobs k)))
    | None => (Some (ErrNotFound (fj_Name fj)), k)
    end;
  fluxjob_Delete fj k :=
    match mk_fluxjobs k !! (fj_Namespace fj, fj_Name fj) with
    | Some _ => (None, with_fluxjobs k (delete (fj_Namespace fj, fj_Name fj) (mk_fluxjobs k)))
    | None => (Some (ErrNotFound (fj_Name fj)), k)
    end
}.
#[export] Instance mem_fluxjob_view : FluxJobView Kb := mk_fluxjobs.

#[export] Instance mem_fluxjob_laws : FluxJobLaws Kb.
Proof.
  split; unfold fluxjobs, mem_fluxjob_view.
  - intros ns n k r k'. simpl. case_match; by intros [= <- <-].
  - intros fj k k'. simpl. case_match; [done|]. by intros [= <-].
  - intros fj k e k' Hne. simpl. case_match; [|done]. intros [= <- <-]. eauto.
  - intros fj k k'. simpl. case_match; [|done]. intros [= <-]. eauto.
Qed.

(** The string members of a label patch. *)
Fixpoint string_members (m : list (string * json)) : option (list (string * string)) :=
  match m with
  | [] => Some []
  | (k, JStr v) :: rest => match string_members rest with Some l => Some ((k, v) :: l) | None => None end
  | _ => None
  end.

Definition decode_labels (j : json) : option (list (string * string)) :=
  match j with
  | JObj [(a, JObj [(b, JObj m)])] =>
      if bool_decide (a = "metadata") && bool_decide (b = "labels") then string_members m else None
  | _ => None
  end.

Definition gate_path : string := "/spec/schedulingGates/".

(** The gate a remove patch names, among the first [len]. *)
Definition decode_remove (len : nat) (j : json) : option nat :=
  match j with
  | JArr [JObj [(a, JStr op); (b, JStr path)]] =>
      if bool_decide (a = "op") && bool_decide (op = "remove") && bool_decide (b = "path")
      then head (filter (fun i => path = gate_path +:+ Itoa (Z.of_nat i)) (seq 0 len))
      else None
  | _ => None
  end.

(** The label selectors this server understands: none, and [key=value]. *)
Definition selects (selector : string) (l : gmap string string) : bool :=
  match Split selector "=" with
  | [k; v] => bool_decide (l !! k = Some v)
  | _ => bool_decide (selector = "")
  end.

Lemma label_text_no_eq s : label_text s = true -> has_char "=" s = false.
Proof.
  induction s as [|c s IH]; [done|]. cbn [label_text has_char]. intros [Hc Hs]%andb_true_iff.
  rewrite IH by done. rewrite orb_false_r. apply bool_decide_eq_false. intros ->. done.
Qed.

Lemma selects_key_value key v l :
  label_text key = true -> label_text v = true ->
  selects (key +:+ "=" +:+ v) l = bool_decide (l !! key = Some v).
Proof.
  intros Hk Hv. unfold selects.
  assert (key +:+ "=" +:+ v = Join "=" [key; v]) as -> by reflexivity.
  rewrite (Split_Join_gen "=" ""); [done|done|].
  repeat constructor; by apply label_text_no_eq.
Qed.

Definition mem_pods_Patch (ns n : string) (t : PatchType) (payload : string) (k : Kb) : error * Kb :=
  match mk_pods k !! (ns, n), json_parse payload with
  | Some p, Some j =>
      match t with
      | MergePatchType =>
          match decode_labels j with
          | Some ms => (None, with_pods k (<[(ns, n) := set_pod_labels p (merge_labels ms (pod_labels p))]> (mk_pods k)))
          | None => (Some (Err "unsupported patch"), k)
          end
      | JSONPatchType =>
          match decode_remove (length (pod_gates p)) j with
          | Some i => (None, with_pods k (<[(ns, n) := set_pod_gates p (delete i (pod_gates p))]> (mk_pods k)))
          | None => (Some (Err "the path does not exist"), k)
          end
      | StrategicMergePatchType => (Some (Err "unsupported patch"), k)
      end
  | None, _ => (Some (ErrNotFound n), k)
  | _, None => (Some (Err "invalid JSON"), k)
  end.

#[export] Instance mem_pod_client : PodClient Q Kb := {
  kube_NewForConfig k := (None, k);
  pods_Get ns n k :=
    match mk_pods k !! (ns, n) with
    | Some p => ((p, None), k)
    | None => ((no_pod, Some (ErrNotFound n)), k)
    end;
  pods_List ns sel k :=
    ((snd <$> filter (fun e => e.1 = (ns, om_Name (p_meta e.2)) /\ om_Namespace (p_meta e.2) = ns /\
                               selects sel (pod_labels e.2) = true)
        (map_to_list (mk_pods k)), None), k);
  pods_Patch := mem_pods_Patch;
  jobs_Patch ns n _ _ k := (match mk_jobs k !! (ns, n) with Some _ => None | None => Some (ErrNotFound n) end, k);
  statefulsets_Patch _ _ _ _ k := (None, k)
}.
#[export] Instance mem_pod_view : PodView Q Kb := { kube_pods := mk_pods; kube_jobs := mk_jobs }.
End MemKubeOps.

Section MemKubeLaws.
Context {Q : Type}.
Abbreviation Kb := (MemKube Q).

Lemma decode_labels_body ms : decode_labels (labels_body ms) = Some ms.
Proof.
  cbn [decode_labels labels_body]. change (bool_decide ("metadata" = "metadata") && _) with true. cbv iota.
  induction ms as [|[k v] ms IH]; [done|]. rewrite fmap_cons. cbn [string_members fst snd]. by rewrite IH.
Qed.

Lemma decode_remove_body len i j :
  decode_remove len (remove_gate_body i) = Some j -> j = i /\ i < len.
Proof.
  cbn. change "/spec/schedulingGates/" with gate_path.
  intros Hh. apply head_Some_elem_of in Hh.
  apply list_elem_of_filter in Hh as [Heq Hin%elem_of_seq].
  apply (inj (String.app gate_path)) in Heq. unfold Itoa in Heq. apply (inj pretty) in Heq. lia.
Qed.

#[export] Instance mem_pod_laws : PodLaws Q Kb.
Proof.
  split; simpl.
  - by intros k e k' [= _ <-].
  - intros ns n k p k'. case_match; by intros [= -> <-].
  - intros ns sel k ps k' [= <- <-]. split; [done|]. split.
    + rewrite <- list_fmap_compose. set (l := filter _ _).
      assert (Hl : forall e, e ∈ l -> e.1 = (ns, om_Name (p_meta e.2))).
      { intros e He. apply list_elem_of_filter in He. tauto. }
      assert (Hnd : NoDup l.*1).
      { eapply sublist_NoDup; [apply (NoDup_fst_map_to_list (mk_pods k))|].
        apply fmap_sublist, sublist_filter. }
      assert (Hm : l.*1 = pair ns <$> ((fun e => om_Name (p_meta e.2)) <$> l)).
      { rewrite <- list_fmap_compose. apply list_fmap_ext. intros i e He.
        by apply Hl, (list_elem_of_lookup_2 _ i). }
      rewrite Hm in Hnd. by eapply NoDup_fmap_1.
    + assert (Hel : forall p, p ∈ (snd <$> filter (fun e => e.1 = (ns, om_Name (p_meta e.2)) /\
                 om_Namespace (p_meta e.2) = ns /\ selects sel (pod_labels e.2) = true) (map_to_list (mk_pods k))) <->
               om_Namespace (p_meta p) = ns /\ mk_pods k !! (ns, om_Name (p_meta p)) = Some p /\
               selects sel (pod_labels p) = true).
      { intros p. rewrite list_elem_of_fmap. split.
        * intros ([key p'] & -> & He). apply list_elem_of_filter in He as ((Hk & Hns & Hs) & Hin).
          apply elem_of_map_to_list in Hin. simpl in *. by subst.
        * intros (Hns & Hin & Hs). exists ((ns, om_Name (p_meta p)), p). split; [done|].
          apply list_elem_of_filter. split; [done|]. by apply elem_of_map_to_list. }
      split.
      * intros p Hp%Hel. tauto.
      * intros key v p Hk Hv -> Hns Hin. rewrite Hel, selects_key_value, bool_decide_eq_true by done. tauto.
  - intros ns n payload ms k k' Hj. unfold mem_pods_Patch. rewrite Hj, decode_labels_body.
    destruct (mk_pods k !! (ns, n)) as [p|]; [|done]. intros [= <-]. eauto.
  - intros ns n payload i k k' Hj. unfold mem_pods_Patch. rewrite Hj.
    destruct (mk_pods k !! (ns, n)) as [p|]; [|done].
    destruct (decode_remove _ _) as [j|] eqn:E; [|done]. apply decode_remove_body in E as [-> Hlt].
    intros [= <-]. eauto.
Qed.
End MemKubeLaws.
