(* ===== verification/Strategy.v ===== *)
(** * Queue strategies: [pkg/fluxqueue/strategy]

    The interface of [strategy.go] as a record of operations with the laws
    the queue relies on, and the EASY strategy of [easy.go], which satisfies
    them. *)

From stdpp Require Import base option list strings gmap numbers sorting.
From S2P Require Import Prelude GoStrings Json Api Kube Database World.

(** ** The interface *)

Record QueueStrategy (W : Type) := mkStrategy {
  qs_Name : string;
  qs_AddWorkers : list string -> GoM W (list string * error);
  qs_Schedule : Z -> GoM W (list InsertManyParams * error);
  qs_PostSubmit : GoM W error;
  qs_Cleanup : list Z -> GoM W error;
  qs_GetReservationDepth : Z
}.
Arguments mkStrategy {W}. Arguments qs_Name {W} _. Arguments qs_AddWorkers {W} _ _. Arguments qs_Schedule {W} _ _.
Arguments qs_PostSubmit {W} _. Arguments qs_Cleanup {W} _ _. Arguments qs_GetReservationDepth {W} _.

(** The task [p] asks Fluxion for the job of row [r]. *)
Definition carries (r : PendingRow) (p : InsertManyParams) : Prop :=
  exists a, im_Args p = AJob a /\ ja_Name a = pr_name r /\ ja_Namespace a = pr_namespace r /\
            ja_Jobspec a = pr_jobspec r /\ ja_Type a = Itoa (pr_type r).

(** What the queue relies on: [Schedule] only reads the database and returns
    one task per pending row, [PostSubmit] returns without touching tables,
    tasks or the API server. *)
Class StrategyLaws {C K F R} (s : QueueStrategy (World C K F R)) : Prop := {
  schedule_total depth w : exists b e c, qs_Schedule s depth w = (Ret (b, e), set_conn w c);
  schedule_batch depth w b w' :
    qs_Schedule s depth w = (Ret (b, None), w') ->
    exists rows, rows ≡ₚ pending_queue (w_db w) /\ Forall2 carries rows b;
  post_submit_total w : exists e w', qs_PostSubmit s w = (Ret e, w') /\
    w_db w' = w_db w /\ w_river w' = w_river w /\ w_kube w' = w_kube w
}.

(** ** EASY *)

Module Easy.
Section Easy.
Context {C K F R : Type} `{!DbConn C, !RiverClient R}.
Abbreviation W := (World C K F R).

(** [func (EasyBackfill) Name() string]. *)
Definition Name : string := "easy".

(** [func (EasyBackfill) GetReservationDepth() int32]. *)
Definition GetReservationDepth : Z := int32 1.

(** [AddWorkers]: all workers are made before the first is added. *)
Definition AddWorkers (workers : list string) : GoM W (list string * error) :=
  let '(jobWorker, err) := NewJobWorker in
  match err with Some _ => mret (workers, err) | None =>
  let '(cleanupWorker, err) := NewCleanupWorker in
  match err with Some _ => mret (workers, err) | None =>
  let '(reservationWorker, err) := NewReservationWorker in
  match err with Some _ => mret (workers, err) | None =>
  let '(ungateWorker, err) := NewUngateWorker in
  match err with Some _ => mret (workers, err) | None =>
  workers ← AddWorker workers jobWorker;
  workers ← AddWorker workers cleanupWorker;
  workers ← AddWorker workers reservationWorker;
  workers ← AddWorker workers ungateWorker;
  mret (workers, None)
  end end end end.

(** The conversion loop of [ReadyJobs]. *)
Definition job_args (model : JobModel) : JobArgs :=
  mkJobArgs (jm_JobSpec model) (jm_Name model) (jm_Namespace model) (jm_FluxJobName model)
            (jm_Type model) (jm_Reservation model) (jm_Duration model) (jm_Size model) "".

(** [ReadyJobs]. *)
Definition ReadyJobs : GoM W (list JobArgs * error) :=
  c ← gets w_conn;
  rows ← sql_query (fun db => db_order c (pending_queue db));
  match rows with
  | inl err => mret ([], Some err)
  | inr rows => mret (job_args <$> (to_JobModel <$> rows), None)
  end.

Definition schedule_opts : InsertOpts := mkInsertOpts MaxAttempts [Name] QueueDefault.

(** The loop of [Schedule].  [args] holds a copy of [jobArgs] taken before
    the reservation flag is set on the loop variable. *)
Fixpoint schedule_loop (reservationDepth : Z) (i : nat) (jobs : list JobArgs)
    (batch : list InsertManyParams) : list InsertManyParams :=
  match jobs with
  | [] => batch
  | jobArgs :: rest =>
      let args := mkParams (AJob jobArgs) schedule_opts in
      let _jobArgs :=
        if negb (reservationDepth =? -1)%Z && (int32 (Z.of_nat i) <? reservationDepth)%Z
        then set_reservation jobArgs 1 else jobArgs in
      schedule_loop reservationDepth (S i) rest (batch ++ [args])
  end.

(** [Schedule]. *)
Definition Schedule (reservationDepth : Z) : GoM W (list InsertManyParams * error) :=
  '(jobs, err) ← ReadyJobs;
  match err with
  | Some e => mret ([], Some e)
  | None => mret (schedule_loop reservationDepth 0 jobs [], None)
  end.

Definition cleanup_opts : InsertOpts := mkInsertOpts MaxCancelAttempts [Name] "cleanup_queue".

(** The two loops of [Cleanup]: arguments, then tasks. *)
Definition cleanup_batch (fluxids : list Z) : list InsertManyParams :=
  let cancelJobs := (fun fluxid => mkCleanupArgs fluxid "") <$> fluxids in
  (fun cleanupArgs => mkParams (ACleanup cleanupArgs) cleanup_opts) <$> cancelJobs.

(** [Cleanup]. *)
Definition Cleanup (fluxids : list Z) : GoM W error :=
  let batch := cleanup_batch fluxids in
  if (0 <? Z.of_nat (length batch))%Z then on_river (river_InsertMany batch) else mret None.

(** [PostSubmit]. *)
Definition PostSubmit : GoM W error := mret None.

Definition EasyBackfill : QueueStrategy W :=
  mkStrategy Name AddWorkers Schedule PostSubmit Cleanup GetReservationDepth.
End Easy.
End Easy.

(** ** What EASY does *)

Section EasyFacts.
Context {C K F R : Type} `{!DbConn C, !RiverClient R}.
Implicit Types w : World C K F R.

(** The task of a row, as [ReadyJobs] and [Schedule] build it. *)
Definition row_task (r : PendingRow) : InsertManyParams :=
  mkParams (AJob (Easy.job_args (to_JobModel r))) Easy.schedule_opts.

Lemma schedule_loop_eq depth i jobs batch :
  Easy.schedule_loop depth i jobs batch =
  batch ++ ((fun a => mkParams (AJob a) Easy.schedule_opts) <$> jobs).
Proof.
  revert i batch. induction jobs as [|a jobs IH]; intros i batch; simpl; [by rewrite app_nil_r|].
  rewrite IH, <- app_assoc. done.
Qed.

Lemma row_task_carries r : carries r (row_task r).
Proof. eexists. split; [reflexivity|]. done. Qed.

(** The result of [Schedule], by the fate of its query. *)
Lemma Easy_Schedule_eq depth w :
  Easy.Schedule depth w =
  match db_fate (w_conn w) with
  | (Applied, c) =>
      (Ret (row_task <$> db_order (w_conn w) (pending_queue (w_db w)), None), set_conn w c)
  | (Refused e, c) | (Unacknowledged e, c) => (Ret ([], Some e), set_conn w c)
  end.
Proof.
  unfold Easy.Schedule, Easy.ReadyJobs, sql_query, gets.
  rewrite !run_bind. destruct (db_fate (w_conn w)) as [[|e|e] c] ; cbn; try done.
  rewrite schedule_loop_eq. simpl. rewrite <- !list_fmap_compose. done.
Qed.

#[export] Instance Easy_laws `{!DbLaws C} : StrategyLaws (Easy.EasyBackfill (C:=C) (K:=K) (F:=F) (R:=R)).
Proof.
  split.
  - intros depth w. simpl. rewrite Easy_Schedule_eq. destruct (db_fate _) as [[] c]; eauto.
  - intros depth w b w'. simpl. rewrite Easy_Schedule_eq.
    destruct (db_fate _) as [[|e|e] c]; intros [= <- <-].
    exists (db_order (w_conn w) (pending_queue (w_db w))). split; [apply db_order_perm|].
    apply Forall2_fmap_r, Forall_Forall2_diag, Forall_forall. intros r _. apply row_task_carries.
  - intros w. eexists _, _. split; [reflexivity|]. done.
Qed.
End EasyFacts.
