(* ===== verification/Queue.v ===== *)
(** * The queue: [pkg/fluxqueue/fluxqueue.go] and [events.go]

    Enqueueing a FluxJob into the pending table, the scheduling cycle that
    moves the pending table into river tasks, and the cancellation of
    finished jobs.  The cycle is proved against the interface of a strategy
    ([StrategyLaws]), then instantiated with EASY. *)

From stdpp Require Import base option list strings gmap numbers pretty sorting.
From S2P Require Import Prelude GoStrings Json Api Kube Database World Mem Strategy.

(** [pkg/fluxqueue/types]: [EnqueueStatus] counts from 1. *)
Inductive EnqueueStatus := JobEnqueueSuccess | JobAlreadyInPending | JobInvalid | Unknown.

Section Queue.
Context {C K F R : Type} `{!DbConn C, !RiverClient R}.
Abbreviation W := (World C K F R).

(** The handles of the Go struct are the world; what is left is the strategy
    and its reservation depth. *)
Record Queue := mkQueue {
  q_Strategy : QueueStrategy W;
  q_ReservationDepth : Z
}.

Definition queueMaxWorkers : Z := 1.
Definition taskMaxWorkers : Z := 1.

(** The [Queues] map of the river configuration. *)
Definition river_queues : list (string * Z) :=
  [(QueueDefault, queueMaxWorkers); ("cleanup_queue", queueMaxWorkers); ("task_queue", taskMaxWorkers)].

(** [NewQueue], for the strategy it is given: the river client is started
    before the reservation depth is checked. *)
Definition NewQueue (strategy : QueueStrategy W) : GoM W (option Queue * error) :=
  err ← on_conn pool_New;
  match err with Some _ => mret (None, err) | None =>
  '(workers, err) ← qs_AddWorkers strategy [];
  match err with Some _ => mret (None, err) | None =>
  err ← on_river (river_NewClient workers river_queues);
  match err with Some _ => mret (None, err) | None =>
  err ← on_river river_Start;
  match err with Some _ => mret (None, err) | None =>
  let depth := qs_GetReservationDepth strategy in
  if (depth <? 0)%Z && negb (depth =? -1)%Z
  then mret (None, Some (Err "reservation depth of a strategy must be >= -1"))
  else mret (Some (mkQueue strategy depth), None)
  end end end end.

(** [Stop]; the client of a queue that [NewQueue] returned is never nil. *)
Definition Stop : GoM W error := on_river river_Stop.

(** [IsInScheduleLoop]: bit 0 of the mutex state. *)
Definition IsInScheduleLoop (w : W) : bool := w_locked w.

(** The row [Enqueue] inserts. *)
Definition pending_row (spec : FluxJob) (now : Z) : PendingRow :=
  let reservation := if fs_Reservation (fj_Spec spec) then 1%Z else 0%Z in
  mkPending (fs_JobSpec (fj_Spec spec)) (fj_Namespace spec) (fj_Name spec)
            (fs_Name (fj_Spec spec)) (fs_Type (fj_Spec spec)) reservation
            (fs_Duration (fj_Spec spec)) now (fs_Nodes (fj_Spec spec)).

(** [Enqueue]. *)
Definition Enqueue (spec : FluxJob) : GoM W (EnqueueStatus * error) :=
  err ← on_conn pool_New;
  match err with Some _ => mret (Unknown, err) | None =>
  result ← sql_query (fun db => IsPendingQuery db (fj_Name spec) (fj_Namespace spec));
  match result with
  | inl err => mret (Unknown, Some err)
  | inr tag =>
      if Contains tag "INSERT 1" then mret (JobAlreadyInPending, None) else
      c ← gets w_conn;
      err ← sql_exec (fun db => InsertIntoPending db (pending_row spec (db_now c)));
      match err with
      | Some _ => mret (Unknown, err)
      | None => mret (JobEnqueueSuccess, None)
      end
  end end.

(** [Cleanup]. *)
Definition Cleanup (q : Queue) (fluxids : list Z) : GoM W error := qs_Cleanup (q_Strategy q) fluxids.

(** [deleteFromPending] of [events.go]. *)
Definition deleteFromPending (namespace name : string) : GoM W error :=
  err ← on_conn pool_New;
  match err with Some _ => mret err | None =>
  sql_exec (always (fun db => DeleteFromPendingQuery db name namespace))
  end.

(** The loop after the insertion; the results of the deletes are dropped. *)
Fixpoint delete_batch (batch : list InsertManyParams) : GoM W unit :=
  match batch with
  | [] => mret tt
  | job :: rest =>
      match im_Args job with
      | AJob args => _ ← deleteFromPending (ja_Namespace args) (ja_Name args); delete_batch rest
      | _ => panic "interface conversion: river.JobArgs is not workers.JobArgs"
      end
  end.

(** [clearReservationJob]. *)
Definition clearReservationJob : InsertManyParams :=
  mkParams AReservation (mkInsertOpts MaxAttempts ["reservation"] QueueDefault).

(** The body of [Schedule] under the lock. *)
Definition schedule_cycle (q : Queue) : GoM W error :=
  '(batch, err) ← qs_Schedule (q_Strategy q) (q_ReservationDepth q);
  match err with Some _ => mret err | None =>
  if (0 <? Z.of_nat (length batch))%Z then
    err ← on_river (river_InsertMany (batch ++ [clearReservationJob]));
    match err with Some _ => mret err | None =>
    _ ← delete_batch batch;
    qs_PostSubmit (q_Strategy q)
    end
  else qs_PostSubmit (q_Strategy q)
  end.

(** [q.lock.Lock(); defer q.lock.Unlock()] around [m]: the mutex is released
    on return and on panic. *)
Definition with_lock {A} (m : GoM W A) : GoM W A :=
  fun w => let '(o, w') := m (set_locked w true) in (o, set_locked w' false).

(** [Schedule]. *)
Definition Schedule (q : Queue) : GoM W error :=
  inLoop ← gets IsInScheduleLoop;
  if inLoop : bool then mret None else with_lock (schedule_cycle q).
End Queue.

Arguments Queue : clear implicits.
Arguments mkQueue {C K F R}. Arguments q_Strategy {C K F R} _. Arguments q_ReservationDepth {C K F R} _.

(** ** The deletes after an insertion *)

Section QueueFacts.
Context {C K F R : Type} `{!DbConn C, !RiverClient R}.
Abbreviation W := (World C K F R).
Implicit Types w : World C K F R.

(** [w'] is [w] with another connection state and some database. *)
Definition db_only w w' : Prop :=
  w_kube w' = w_kube w /\ w_fluxion w' = w_fluxion w /\ w_river w' = w_river w /\
  w_locked w' = w_locked w.

#[export] Instance db_only_preorder : PreOrder db_only.
Proof. split; [by intros w|]. unfold db_only. intros w1 w2 w3. naive_solver congruence. Qed.

Lemma sql_exec_effect f w :
  exists e w', sql_exec f w = (Ret e, w') /\ db_only w w' /\
    (w_db w' = w_db w \/ f (w_db w) = inr (w_db w')) /\
    (e = None -> f (w_db w) = inr (w_db w')).
Proof.
  unfold sql_exec. destruct (db_fate (w_conn w)) as [[|e|e] c]; simpl.
  - destruct (f (w_db w)) as [e|d] eqn:E; eexists _, _; split; try reflexivity; split; try done;
      split; simpl; auto; discriminate.
  - eexists _, _. split; [reflexivity|]. split; [done|]. split; [by left|discriminate].
  - destruct (f (w_db w)) as [e'|d] eqn:E; eexists _, _; split; try reflexivity; split; try done;
      split; simpl; auto; discriminate.
Qed.

Lemma on_conn_effect {A} (f : C -> A * C) w :
  on_conn f w = (Ret (f (w_conn w)).1, set_conn w (f (w_conn w)).2).
Proof. unfold on_conn. by destruct (f (w_conn w)). Qed.

Lemma deleteFromPending_effect ns n w :
  exists e w', deleteFromPending ns n w = (Ret e, w') /\ db_only w w' /\
    (w_db w' = w_db w \/ w_db w' = DeleteFromPendingQuery (w_db w) n ns).
Proof.
  unfold deleteFromPending. rewrite run_bind, on_conn_effect.
  destruct (pool_New (w_conn w)).1 as [e|] eqn:E; cbn.
  - eexists _, _. split; [reflexivity|]. split; [done|]. by left.
  - edestruct sql_exec_effect as (e & w' & -> & Hf & Hd & _).
    eexists _, _. split; [reflexivity|]. split; [exact Hf|].
    unfold always in Hd. simpl in Hd. destruct Hd as [Hd|[= Hd]]; auto.
Qed.

Lemma delete_batch_effect rows batch w :
  Forall2 carries rows batch ->
  exists w', delete_batch batch w = (Ret tt, w') /\ db_only w w' /\
    reservations (w_db w') = reservations (w_db w) /\
    pending_queue (w_db w') `sublist_of` pending_queue (w_db w) /\
    forall r, r ∈ pending_queue (w_db w) -> r ∈ pending_queue (w_db w') \/
      exists r', r' ∈ rows /\ pending_key r' = pending_key r.
Proof.
  intros Hb. revert w. induction Hb as [|r p rows batch Hc Hb IH]; intros w.
  - exists w. split; [done|]. repeat split; auto.
  - destruct Hc as (a & Ha & Hn & Hns & _). simpl. rewrite Ha, run_bind.
    destruct (deleteFromPending_effect (ja_Namespace a) (ja_Name a) w) as (e & w1 & -> & H1 & Hd).
    destruct (IH w1) as (w' & -> & H2 & Hr & Hs & Hin). exists w'. split; [done|].
    split; [by etrans|]. destruct Hd as [Hd|Hd]; rewrite Hd in *.
    + split; [done|]. split; [done|]. intros r0 Hr0. destruct (Hin r0 Hr0) as [|(r' & ? & ?)]; [auto|].
      right. exists r'. split; [by apply list_elem_of_further|done].
    + split; [done|]. split.
      { etrans; [exact Hs|]. simpl. apply sublist_filter. }
      intros r0 Hr0. destruct (decide (pending_key r = pending_key r0)) as [He|He].
      { right. exists r. split; [apply list_elem_of_here|done]. }
      destruct (Hin r0) as [|(r' & ? & ?)].
      { apply DeleteFromPending_elem. split; [|done]. unfold pending_key in *. congruence. }
      * auto.
      * right. exists r'. split; [by apply list_elem_of_further|done].
Qed.
End QueueFacts.

(** ** The scheduling cycle against the strategy interface *)

Section ScheduleFacts.
Context {C K F R : Type} `{!DbConn C, !RiverClient R, !RiverView R, !RiverLaws R}.
Implicit Types w : World C K F R.
Implicit Types q : Queue C K F R.

(** No pending job disappears: it stays in the table, or one of the new tasks
    in river is for it. *)
Definition conserved w w' : Prop :=
  exists new, river_tasks (w_river w') = river_tasks (w_river w) ++ new /\
    pending_queue (w_db w') `sublist_of` pending_queue (w_db w) /\
    (forall r, r ∈ pending_queue (w_db w) -> r ∈ pending_queue (w_db w') \/ exists p, p ∈ new /\ carries r p) /\
    (forall p, p ∈ new -> p = clearReservationJob \/ exists r, r ∈ pending_queue (w_db w) /\ carries r p).

Lemma conserved_refl w w' :
  w_db w' = w_db w -> w_river w' = w_river w -> conserved w w'.
Proof.
  intros Hd Hr. exists []. rewrite Hd, Hr, app_nil_r. split; [done|]. split; [done|]. split; [auto|].
  intros p Hp. by apply elem_of_nil in Hp.
Qed.

(** The batch of a strategy, seen from the pending table. *)
Lemma batch_covers (rows pend : list PendingRow) batch :
  rows ≡ₚ pend -> Forall2 carries rows batch ->
  (forall r, r ∈ pend -> exists p, p ∈ batch /\ carries r p) /\
  (forall p, p ∈ batch -> exists r, r ∈ pend /\ carries r p).
Proof.
  intros Hp Hb. split.
  - intros r Hr. rewrite <- Hp in Hr. apply list_elem_of_lookup in Hr as [i Hi].
    destruct (Forall2_lookup_l _ _ _ _ _ Hb Hi) as (p & Hpi & Hc).
    exists p. split; [by eapply list_elem_of_lookup_2|done].
  - intros p Hin. apply list_elem_of_lookup in Hin as [i Hi].
    destruct (Forall2_lookup_r _ _ _ _ _ Hb Hi) as (r & Hri & Hc).
    exists r. split; [|done]. rewrite <- Hp. by eapply list_elem_of_lookup_2.
Qed.

(** Once the batch is in river, deleting rows loses nothing. *)
Lemma conserved_inserted w w' rows batch :
  rows ≡ₚ pending_queue (w_db w) -> Forall2 carries rows batch ->
  river_tasks (w_river w') = river_tasks (w_river w) ++ (batch ++ [clearReservationJob]) ->
  pending_queue (w_db w') `sublist_of` pending_queue (w_db w) ->
  conserved w w'.
Proof.
  intros Hp Hb Hr Hs. destruct (batch_covers _ _ _ Hp Hb) as [Hc1 Hc2].
  exists (batch ++ [clearReservationJob]). split; [done|]. split; [done|]. split.
  - intros r Hin. right. destruct (Hc1 r Hin) as (p & Hpb & Hpc). exists p. split; [set_solver|done].
  - intros p [Hin|Hin]%elem_of_app; [right; auto|]. left. by apply list_elem_of_singleton in Hin.
Qed.

(** The new tasks of a cycle are the strategy's batch and the task that clears
    the reservations, or there are none. *)
Definition batch_inserted q w w' : Prop :=
  river_tasks (w_river w') = river_tasks (w_river w) \/
  exists b w0 w1, w_db w0 = w_db w /\
    qs_Schedule (q_Strategy q) (q_ReservationDepth q) w0 = (Ret (b, None), w1) /\
    river_tasks (w_river w') = river_tasks (w_river w) ++ (b ++ [clearReservationJob]).

Lemma schedule_cycle_conserves q `{!StrategyLaws (q_Strategy q)} w :
  exists e w', schedule_cycle q w = (Ret e, w') /\ conserved w w' /\ w_kube w' = w_kube w /\
    batch_inserted q w w'.
Proof.
  unfold schedule_cycle. rewrite run_bind.
  destruct (schedule_total (s:=q_Strategy q) (q_ReservationDepth q) w) as (b & e & c & Hs).
  rewrite Hs. destruct e as [e|]; cbn.
  { eexists _, _. split; [reflexivity|]. split; [by apply conserved_refl|]. split; [done|]. by left. }
  destruct (schedule_batch _ _ _ _ Hs) as (rows & Hp & Hb).
  destruct (Z.ltb_spec 0 (Z.of_nat (length b))) as [Hlen|Hlen].
  - rewrite run_bind. unfold on_river at 1. cbn.
    destruct (river_InsertMany _ (w_river w)) as [[e|] r] eqn:Hi.
    + cbn. eexists _, _. split; [reflexivity|]. split; [|split; [done|]; apply insert_many_err in Hi as [Hi|Hi];
        [by left|right; by eexists _, _, _]]. apply insert_many_err in Hi as [Hi|Hi].
      * exists []. simpl. rewrite Hi, app_nil_r. split; [done|]. split; [done|]. split; [auto|].
        intros p Hin. by apply elem_of_nil in Hin.
      * by eapply conserved_inserted.
    + apply insert_many_ok in Hi. cbv iota. rewrite run_bind. set (w1 := set_river _ r).
      destruct (delete_batch_effect rows b w1 Hb) as (w2 & -> & Hf & _ & Hsub & _).
      destruct (post_submit_total (s:=q_Strategy q) w2) as (e & w3 & -> & Hd3 & Hr3 & Hk3).
      eexists _, _. split; [reflexivity|]. destruct Hf as (Hk2 & _ & Hr2 & _).
      split; [|split; [by rewrite Hk3, Hk2|right; exists b, w, (set_conn w c); by rewrite Hr3, Hr2]].
      eapply conserved_inserted; [exact Hp|exact Hb| |].
      * by rewrite Hr3, Hr2.
      * by rewrite Hd3.
  - destruct (post_submit_total (s:=q_Strategy q) (set_conn w c)) as (e & w3 & -> & Hd3 & Hr3 & Hk3).
    eexists _, _. split; [reflexivity|]. split; [by apply conserved_refl|]. split; [done|]. left. by rewrite Hr3.
Qed.

Lemma Schedule_conserved q `{!StrategyLaws (q_Strategy q)} w :
  exists e w', Schedule q w = (Ret e, w') /\ conserved w w' /\ w_kube w' = w_kube w /\ batch_inserted q w w'.
Proof.
  unfold Schedule. rewrite run_bind. cbn. unfold IsInScheduleLoop.
  destruct (w_locked w).
  - eexists _, _. split; [reflexivity|]. split; [by apply conserved_refl|]. split; [done|]. by left.
  - unfold with_lock.
    destruct (schedule_cycle_conserves q (set_locked w true)) as (e & w' & -> & Hc & Hk & Hb).
    eexists _, _. split; [reflexivity|]. split; [exact Hc|]. split; [exact Hk|exact Hb].
Qed.

(** C6. A scheduling cycle never panics and never loses a job: whatever fails
    (the query, the insertion into river, a delete), every pending row is
    afterwards still pending or carried by a task of this cycle, no row is
    added, and the only new tasks are those of pending rows and the one that clears the
    reservations.  Proved for every strategy that satisfies the interface. *)
Theorem Schedule_conserves_jobs q `{!StrategyLaws (q_Strategy q)} w :
  exists e w', Schedule q w = (Ret e, w') /\ conserved w w'.
Proof. destruct (Schedule_conserved q w) as (e & w' & H & Hc & _). eauto. Qed.
End ScheduleFacts.

(** ** Concrete worlds for the witnesses *)

Abbreviation MemWorld C := (World C (MemKube Z) MemFluxion MemRiver).

Definition sample_row (name : string) (created : Z) : PendingRow :=
  mkPending "spec" "default" (name +:+ "-job") name 1 0 0 created 2.

(** Two jobs wait; nothing has been inserted into river. *)
Definition sample_world {C} (c : C) : MemWorld C :=
  mkWorld c (mkDatabase [sample_row "old" 10; sample_row "new" 20] [])
          (mkMemKube ∅ ∅ ∅) (mkMemFluxion [] []) [] false.

Definition easy_queue {C} `{!DbConn C} : Queue C (MemKube Z) MemFluxion MemRiver :=
  mkQueue Easy.EasyBackfill Easy.GetReservationDepth.

(** The query is executed, the first delete is refused, the second is not
    acknowledged. *)
Definition flaky : MemConn := mkMemConn [Applied; Refused (Err "conn"); Unacknowledged (Err "conn")] 100.

Lemma Schedule_conserves_jobs_witness :
  exists e w', Schedule easy_queue (sample_world flaky) = (Ret e, w') /\ conserved (sample_world flaky) w'.
Proof. apply (Schedule_conserves_jobs easy_queue (sample_world flaky)). Defined.

(** ** The scheduling cycle of EASY when every call succeeds *)

Section EasyCycle.
Context {C K F R : Type} `{!DbConn C, !DbLaws C, !RiverClient R, !RiverView R, !RiverLaws R}.
Implicit Types w : World C K F R.

Hypothesis pool_up : forall c, (pool_New c).1 = None.
Hypothesis db_up : forall c, (db_fate c).1 = Applied.
Hypothesis river_up : forall b r, (river_InsertMany b r).1 = None.

Lemma deleteFromPending_up ns n w :
  exists w', deleteFromPending ns n w = (Ret None, w') /\ db_only w w' /\
    w_db w' = DeleteFromPendingQuery (w_db w) n ns.
Proof.
  unfold deleteFromPending. rewrite run_bind, on_conn_effect, pool_up. cbn.
  unfold sql_exec. pose proof (db_up (pool_New (w_conn w)).2) as Hf.
  cbn. destruct (db_fate _) as [ft c]. simpl in Hf. subst ft. cbn.
  eexists. split; [reflexivity|]. done.
Qed.

Lemma delete_batch_up rows batch w :
  Forall2 carries rows batch ->
  exists w', delete_batch batch w = (Ret tt, w') /\ db_only w w' /\
    reservations (w_db w') = reservations (w_db w) /\
    forall r, r ∈ pending_queue (w_db w') -> r ∈ pending_queue (w_db w) /\
      pending_key r ∉ (pending_key <$> rows).
Proof.
  intros Hb. revert w. induction Hb as [|r p rows batch Hc Hb IH]; intros w.
  - exists w. split; [done|]. split; [done|]. split; [done|]. intros r Hr. split; [done|].
    simpl. by apply not_elem_of_nil.
  - destruct Hc as (a & Ha & Hn & Hns & _). simpl. rewrite Ha, run_bind.
    destruct (deleteFromPending_up (ja_Namespace a) (ja_Name a) w) as (w1 & -> & H1 & Hd).
    destruct (IH w1) as (w' & -> & H2 & Hr & Hin). exists w'. split; [done|]. split; [by etrans|].
    rewrite Hd in Hr, Hin. split; [done|]. intros r0 Hr0. destruct (Hin r0 Hr0) as [Hr1 Hk].
    apply DeleteFromPending_elem in Hr1 as [Hne Hr1]. split; [done|].
    simpl. apply not_elem_of_cons. split; [|done]. unfold pending_key in *. congruence.
Qed.

(** C11. When the database and river answer, one cycle of EASY turns the whole
    pending table into tasks in one insertion: one task per row, ordered by
    creation time with the latest first, followed by exactly one task that
    clears the reservations; the pending table ends empty, and the rest of
    the world is as it was. *)
Theorem Easy_cycle_moves_all depth w :
  w_locked w = false -> pending_queue (w_db w) <> [] ->
  exists rows w',
    Schedule (mkQueue Easy.EasyBackfill depth) w = (Ret None, w') /\
    rows ≡ₚ pending_queue (w_db w) /\ StronglySorted later rows /\
    river_tasks (w_river w') = river_tasks (w_river w) ++ (row_task <$> rows) ++ [clearReservationJob] /\
    w_db w' = mkDatabase [] (reservations (w_db w)) /\
    w_kube w' = w_kube w /\ w_fluxion w' = w_fluxion w /\ w_locked w' = false.
Proof.
  intros Hl Hne. set (rows := db_order (w_conn w) (pending_queue (w_db w))). exists rows.
  assert (Hp : rows ≡ₚ pending_queue (w_db w)) by apply db_order_perm.
  assert (Hb : Forall2 carries rows (row_task <$> rows)).
  { apply Forall2_fmap_r, Forall_Forall2_diag, Forall_forall. intros r _. apply row_task_carries. }
  unfold Schedule. rewrite run_bind. cbn. unfold IsInScheduleLoop. rewrite Hl.
  unfold with_lock, schedule_cycle. rewrite run_bind. simpl q_Strategy. cbn [qs_Schedule Easy.EasyBackfill].
  rewrite Easy_Schedule_eq. cbn. fold rows. pose proof (db_up (w_conn w)) as Hf.
  destruct (db_fate (w_conn w)) as [ft c]. simpl in Hf. subst ft.
  destruct (Z.ltb_spec 0 (Z.of_nat (length (row_task <$> rows)))) as [_|Hlen].
  2:{ rewrite length_fmap, Hp in Hlen. destruct (pending_queue (w_db w)); [done|]. simpl in Hlen. lia. }
  rewrite run_bind. unfold on_river at 1. cbn. pose proof (river_up ((row_task <$> rows) ++ [clearReservationJob]) (w_river w)) as Hi.
  destruct (river_InsertMany _ (w_river w)) as [e r] eqn:Hm. simpl in Hi. subst e.
  apply insert_many_ok in Hm. cbv iota. rewrite run_bind. set (w1 := set_river _ r).
  destruct (delete_batch_up rows _ w1 Hb) as (w2 & -> & Hfr & Hres & Hin).
  destruct Hfr as (Hk & Hx & Hr & _). eexists. split; [reflexivity|]. split; [done|].
  split; [apply db_order_sorted|]. simpl. rewrite Hr, Hk, Hx. split; [done|].
  split; [|done]. destruct (w_db w2) as [pend res] eqn:Ed. simpl in *. f_equal; [|done].
  destruct pend as [|r0 pend]; [done|]. destruct (Hin r0 ltac:(apply list_elem_of_here)) as [Hr0 Hno].
  destruct Hno. apply list_elem_of_fmap. exists r0. split; [done|]. by rewrite Hp.
Qed.
End EasyCycle.

Lemma Easy_cycle_moves_all_witness :
  exists rows w',
    Schedule easy_queue (sample_world (mkUpConn 100)) = (Ret None, w') /\
    rows ≡ₚ [sample_row "old" 10; sample_row "new" 20] /\ StronglySorted later rows /\
    river_tasks (w_river w') = (row_task <$> rows) ++ [clearReservationJob] /\
    w_db w' = mkDatabase [] [] /\
    w_kube w' = mkMemKube ∅ ∅ ∅ /\ w_fluxion w' = mkMemFluxion [] [] /\ w_locked w' = false.
Proof.
  assert (Hp : forall c : UpConn, (pool_New c).1 = None) by reflexivity.
  assert (Hd : forall c : UpConn, (db_fate c).1 = Applied) by reflexivity.
  assert (Hr : forall b (r : MemRiver), (river_InsertMany b r).1 = None) by reflexivity.
  assert (Hne : pending_queue (w_db (sample_world (mkUpConn 100))) <> []) by discriminate.
  exact (Easy_cycle_moves_all Hp Hd Hr Easy.GetReservationDepth (sample_world (mkUpConn 100)) eq_refl Hne).
Defined.

(** ** The reservation depth, the lock and the pending check *)

Section QueueProperties.
Context {C K F R : Type} `{!DbConn C, !RiverClient R}.
Implicit Types w : World C K F R.

(** The reservation depth a strategy is given has no effect on the batch:
    the flag is set on the loop variable after the task has copied it, so
    every task carries the reservation value of its row, at every depth. *)
Theorem Easy_depth_ignored d w :
  Easy.Schedule d w = Easy.Schedule (-1) w /\
  forall b w', Easy.Schedule d w = (Ret (b, None), w') ->
    Forall2 (fun r p => exists a, im_Args p = AJob a /\ ja_Reservation a = pr_reservation r)
            (db_order (w_conn w) (pending_queue (w_db w))) b.
Proof.
  split; [by rewrite !Easy_Schedule_eq|]. intros b w'. rewrite Easy_Schedule_eq.
  destruct (db_fate _) as [[|e|e] c]; intros [= <- <-].
  apply Forall2_fmap_r, Forall_Forall2_diag, Forall_forall. intros r _. by eexists.
Qed.

(** The lock: a cycle that finds the mutex held returns at once and changes
    nothing; one that takes it leaves it free, whatever the strategy does and
    even when it panics. *)
Theorem Schedule_lock (q : Queue C K F R) w :
  (w_locked w = true -> Schedule q w = (Ret None, w)) /\
  (w_locked w = false -> w_locked (Schedule q w).2 = false).
Proof.
  unfold Schedule. rewrite run_bind. cbn. unfold IsInScheduleLoop.
  split; intros ->; [done|]. unfold with_lock. by destruct (schedule_cycle q _).
Qed.

Lemma IsPendingQuery_no_insert db n ns : Contains (IsPendingQuery db n ns) "INSERT 1" = false.
Proof.
  apply not_true_iff_false. intros H%Contains_first_char. unfold IsPendingQuery in H.
  rewrite has_char_app, Itoa_no_char in H; done.
Qed.

(** What [Enqueue] can do: two calls on the connection, then the insert. *)
Lemma Enqueue_effect spec w :
  exists (st : EnqueueStatus) (e : error) w', Enqueue spec w = (Ret (st, e), w') /\ db_only w w' /\
    (st = JobEnqueueSuccess /\ e = None \/ st = Unknown /\ is_Some e) /\
    (w_db w' = w_db w \/ exists now, InsertIntoPending (w_db w) (pending_row spec now) = inr (w_db w')) /\
    (e = None -> exists now, InsertIntoPending (w_db w) (pending_row spec now) = inr (w_db w')).
Proof.
  assert (Hfail : forall (e : goerr) (w' : World C K F R), db_only w w' -> w_db w' = w_db w ->
    exists (st : EnqueueStatus) (e0 : error) w0, (Ret (Unknown, Some e), w') = (Ret (st, e0), w0) /\ db_only w w0 /\
    (st = JobEnqueueSuccess /\ e0 = None \/ st = Unknown /\ is_Some e0) /\
    (w_db w0 = w_db w \/ exists now, InsertIntoPending (w_db w) (pending_row spec now) = inr (w_db w0)) /\
    (e0 = None -> exists now, InsertIntoPending (w_db w) (pending_row spec now) = inr (w_db w0))).
  { intros e w' Hf Hd. eexists _, _, _. split; [reflexivity|]. repeat (split; [by eauto|]). done. }
  unfold Enqueue. rewrite run_bind, on_conn_effect.
  destruct (pool_New (w_conn w)).1 as [e|]; [by apply Hfail|]. cbv iota. rewrite run_bind.
  unfold sql_query. cbn. destruct (db_fate _) as [[|e|e] c]; [|by apply Hfail|by apply Hfail].
  rewrite IsPendingQuery_no_insert, run_bind. cbv [gets]. cbv iota. rewrite run_bind.
  match goal with |- context [sql_exec ?f ?x] =>
    destruct (sql_exec_effect f x) as (e & w' & -> & Hf & Hd & Hn) end.
  cbn in Hf, Hd, Hn. destruct e as [e|]; cbn.
  - eexists _, _, _. split; [reflexivity|]. repeat (split; [by eauto|]).
    split; [|done]. destruct Hd; eauto.
  - eexists _, _, _. split; [reflexivity|]. repeat (split; [by eauto|]). eauto.
Qed.

(** C19. [Enqueue] never reports that a job is already pending: its answer is
    success with no error or [Unknown] with an error, because the command tag
    of the check is that of a select.  On success the row of the FluxJob, and
    nothing else, has been appended to a table that held no row of that
    original name and namespace. *)
Theorem Enqueue_outcome spec w :
  exists (st : EnqueueStatus) (e : error) w', Enqueue spec w = (Ret (st, e), w') /\ db_only w w' /\
    (st = JobEnqueueSuccess /\ e = None \/ st = Unknown /\ is_Some e) /\
    (e = None -> exists now,
       w_db w' = mkDatabase (pending_queue (w_db w) ++ [pending_row spec now]) (reservations (w_db w)) /\
       (fs_Name (fj_Spec spec), fj_Namespace spec) ∉ (pending_key <$> pending_queue (w_db w))).
Proof.
  destruct (Enqueue_effect spec w) as (st & e & w' & H & Hf & Hst & _ & Hok).
  exists st, e, w'. split; [done|]. split; [done|]. split; [done|]. intros He.
  destruct (Hok He) as [now Hi]. exists now. apply InsertIntoPending_inv in Hi as (Hk & Hp & Hr).
  split; [|exact Hk]. destruct (w_db w'). simpl in *. by subst.
Qed.

Lemma Enqueue_refuses spec w r :
  r ∈ pending_queue (w_db w) -> pr_name r = fs_Name (fj_Spec spec) -> pr_namespace r = fj_Namespace spec ->
  exists e w', Enqueue spec w = (Ret (Unknown, Some e), w') /\ db_only w w' /\ w_db w' = w_db w.
Proof.
  intros Hr Hn Hns. destruct (Enqueue_effect spec w) as (st & e & w' & H & Hf & Hst & Hd & Hok).
  assert (Hno : forall now d, InsertIntoPending (w_db w) (pending_row spec now) <> inr d).
  { intros now d Hi. apply InsertIntoPending_inv in Hi as (Hk & _). apply Hk.
    apply list_elem_of_fmap. exists r. split; [|done]. unfold pending_key. simpl. congruence. }
  destruct Hst as [[-> ->]|[-> [e' ->]]].
  - destruct (Hok eq_refl) as [now Hi]. by destruct (Hno now _ Hi).
  - exists e', w'. split; [done|]. split; [done|]. destruct Hd as [|[now Hi]]; [done|]. by destruct (Hno now _ Hi).
Qed.

(** A job whose original name and namespace are already pending is refused
    with [Unknown] and an error, and the tables are unchanged: also when the
    pending row belongs to an object of another kind, whose FluxJob has
    another name. *)
Theorem Enqueue_duplicate spec w r :
  r ∈ pending_queue (w_db w) -> pr_name r = fs_Name (fj_Spec spec) -> pr_namespace r = fj_Namespace spec ->
  exists e w', Enqueue spec w = (Ret (Unknown, Some e), w') /\ w_db w' = w_db w.
Proof.
  intros Hr Hn Hns. destruct (Enqueue_refuses spec w r Hr Hn Hns) as (e & w' & H & _ & Hd). eauto.
Qed.
End QueueProperties.

(** A pod called [old] arrives while the job called [old] is pending. *)
Definition sample_fluxjob (t : JobWrapped) (name : string) : FluxJob :=
  mkFluxJob (GetJobName t name) "default" (mkFluxJobSpec "spec" t name [] 0 false 2 []) "".

Lemma Easy_depth_ignored_witness :
  exists b w', Easy.Schedule 1 (sample_world (mkUpConn 100)) = (Ret (b, None), w') /\
    Forall2 (fun r p => exists a, im_Args p = AJob a /\ ja_Reservation a = pr_reservation r)
            [sample_row "new" 20; sample_row "old" 10] b.
Proof.
  eexists _, _. split; [reflexivity|].
  exact (proj2 (Easy_depth_ignored 1 (sample_world (mkUpConn 100))) _ _ eq_refl).
Defined.

Lemma Schedule_lock_witness :
  Schedule easy_queue (set_locked (sample_world flaky) true) =
    (Ret None, set_locked (sample_world flaky) true) /\
  w_locked (Schedule easy_queue (sample_world flaky)).2 = false.
Proof.
  split.
  - exact (proj1 (Schedule_lock easy_queue (set_locked (sample_world flaky) true)) eq_refl).
  - exact (proj2 (Schedule_lock easy_queue (sample_world flaky)) eq_refl).
Defined.

Lemma Enqueue_duplicate_witness :
  exists e w', Enqueue (sample_fluxjob JobWrappedPod "old") (sample_world flaky) = (Ret (Unknown, Some e), w') /\
    w_db w' = w_db (sample_world flaky).
Proof.
  apply (Enqueue_duplicate (sample_fluxjob JobWrappedPod "old") (sample_world flaky) (sample_row "old" 10));
    [apply list_elem_of_here|reflexivity|reflexivity].
Defined.
