(* ===== verification/Interleaving.v ===== *)
(** * Concurrent queue operations

    Goroutines enter [Enqueue] and [Schedule] at any time, and the calls they
    make to the database and to river interleave.  Here the two operations are
    threads that take one call per step; between any two steps of a thread the
    others and the environment run.  The mutex of the queue is what makes the
    deletes of a cycle safe: the theorems show that no job is lost in any
    interleaving, and that without the lock one can be. *)

From Stdlib Require Import Ascii.
From stdpp Require Import base option list strings gmap numbers relations.
From S2P Require Import Prelude GoStrings Json Api Kube Database World Mem Strategy Queue.

(** What an operation returned. *)
Inductive result :=
  | EnqueueResult (st : EnqueueStatus) (e : error)
  | ScheduleResult (o : outcome error).

(** Where a thread is: the call it makes next and what it holds. *)
Inductive pc :=
  | EnqueuePool (spec : FluxJob)
  | EnqueueCheck (spec : FluxJob)
  | EnqueueInsert (spec : FluxJob)
  | ScheduleCheck
  | ScheduleLock
  | ScheduleRead
  | ScheduleInsert (batch : list InsertManyParams)
  | SchedulePool (a : JobArgs) (rest : list InsertManyParams)
  | ScheduleDelete (a : JobArgs) (rest : list InsertManyParams)
  | SchedulePost
  | ScheduleUnlock (o : outcome error)
  | Returned (r : result).

Section Threads.
Context {C K F R : Type} `{!DbConn C, !RiverClient R}.
Abbreviation W := (World C K F R).

(** The next iteration of the loop over the batch. *)
Definition next_delete (batch : list InsertManyParams) : pc :=
  match batch with
  | [] => SchedulePost
  | job :: rest =>
      match im_Args job with
      | AJob a => SchedulePool a rest
      | _ => ScheduleUnlock (Panic "interface conversion: river.JobArgs is not workers.JobArgs")
      end
  end.

(** One call, and where the thread goes with its answer. *)
Definition atomic {A} (m : GoM W A) (next : A -> pc) (w : W) : option (pc * W) :=
  match m w with
  | (Ret a, w') => Some (next a, w')
  | (Panic why, w') => Some (ScheduleUnlock (Panic why), w')
  end.

(** One step of a thread: [None] when it has returned or waits for the lock. *)
Definition advance (t : pc) : W -> option (pc * W) :=
  match t with
  | EnqueuePool spec =>
      atomic (on_conn pool_New) (fun err =>
        match err with Some _ => Returned (EnqueueResult Unknown err) | None => EnqueueCheck spec end)
  | EnqueueCheck spec =>
      atomic (sql_query (fun db => IsPendingQuery db (fj_Name spec) (fj_Namespace spec))) (fun res =>
        match res with
        | inl err => Returned (EnqueueResult Unknown (Some err))
        | inr tag => if Contains tag "INSERT 1" then Returned (EnqueueResult JobAlreadyInPending None)
                     else EnqueueInsert spec
        end)
  | EnqueueInsert spec =>
      atomic (c ← gets w_conn; sql_exec (fun db => InsertIntoPending db (pending_row spec (db_now c)))) (fun err =>
        match err with
        | Some _ => Returned (EnqueueResult Unknown err)
        | None => Returned (EnqueueResult JobEnqueueSuccess None)
        end)
  | ScheduleCheck =>
      atomic (gets IsInScheduleLoop) (fun inLoop : bool =>
        if inLoop then Returned (ScheduleResult (Ret None)) else ScheduleLock)
  | ScheduleLock => fun w => if w_locked w then None else Some (ScheduleRead, set_locked w true)
  | ScheduleRead =>
      atomic (Easy.Schedule Easy.GetReservationDepth) (fun res =>
        match res.2 with
        | Some _ => ScheduleUnlock (Ret res.2)
        | None => if (0 <? Z.of_nat (length res.1))%Z then ScheduleInsert res.1 else SchedulePost
        end)
  | ScheduleInsert batch =>
      atomic (on_river (river_InsertMany (batch ++ [clearReservationJob]))) (fun err =>
        match err with Some _ => ScheduleUnlock (Ret err) | None => next_delete batch end)
  | SchedulePool a rest =>
      atomic (on_conn pool_New) (fun err =>
        match err with Some _ => next_delete rest | None => ScheduleDelete a rest end)
  | ScheduleDelete a rest =>
      atomic (sql_exec (always (fun db => DeleteFromPendingQuery db (ja_Name a) (ja_Namespace a)))) (fun _ =>
        next_delete rest)
  | SchedulePost => atomic Easy.PostSubmit (fun err => ScheduleUnlock (Ret err))
  | ScheduleUnlock o => fun w => Some (Returned (ScheduleResult o), set_locked w false)
  | Returned _ => fun _ => None
  end.

(** ** A thread that runs alone *)

Definition alone (s s' : pc * W) : Prop := advance s.1 s.2 = Some s'.

Lemma alone_step t w t' w' s : advance t w = Some (t', w') -> rtc alone (t', w') s -> rtc alone (t, w) s.
Proof. intros H Hr. by eapply rtc_l; [exact H|]. Qed.

(** The deletes of a batch. *)
Lemma alone_deletes batch w o w' :
  (_ ← delete_batch batch; Easy.PostSubmit) w = (o, w') -> rtc alone (next_delete batch, w) (ScheduleUnlock o, w').
Proof.
  revert w. induction batch as [|p rest IH]; intros w; cbn [delete_batch next_delete].
  { intros [= <- <-]. eapply alone_step; [reflexivity|]. apply rtc_refl. }
  destruct (im_Args p) as [a| | |]; try (intros [= <- <-]; apply rtc_refl).
  unfold deleteFromPending. rewrite run_bind, run_bind, run_bind, on_conn_effect.
  destruct (pool_New (w_conn w)) as [[e|] c] eqn:Ep; cbn [fst snd]; intros H.
  - eapply alone_step; [cbn; unfold atomic, on_conn; by rewrite Ep|]. apply IH. by rewrite run_bind.
  - eapply alone_step; [cbn; unfold atomic, on_conn; by rewrite Ep|].
    destruct (sql_exec_effect (always (fun db => DeleteFromPendingQuery db (ja_Name a) (ja_Namespace a))) (set_conn w c))
      as (e & w1 & He & _). rewrite He in H.
    eapply alone_step; [cbn; unfold atomic; by rewrite He|]. apply IH. by rewrite run_bind.
Qed.

(** The threads are the operations: a thread that is not interrupted makes the
    calls of [Schedule] and [Enqueue] and returns what they return. *)
Lemma alone_Schedule w o w' :
  Schedule (mkQueue Easy.EasyBackfill Easy.GetReservationDepth) w = (o, w') ->
  rtc alone (ScheduleCheck, w) (Returned (ScheduleResult o), w').
Proof.
  unfold Schedule. rewrite run_bind. cbn [gets]. intros H. eapply alone_step; [reflexivity|].
  destruct (IsInScheduleLoop w) eqn:El; [injection H as <- <-; apply rtc_refl|].
  eapply alone_step; [cbn; unfold IsInScheduleLoop in El; by rewrite El|]. unfold with_lock in H.
  destruct (schedule_cycle _ (set_locked w true)) as [o1 w1] eqn:Ec. injection H as <- <-.
  assert (Hc : rtc alone (ScheduleRead, set_locked w true) (ScheduleUnlock o1, w1)).
  2:{ eapply rtc_r; [exact Hc|]. reflexivity. }
  unfold schedule_cycle in Ec. rewrite run_bind in Ec. cbn [q_Strategy q_ReservationDepth Easy.EasyBackfill qs_Schedule qs_PostSubmit] in Ec.
  rewrite Easy_Schedule_eq in Ec.
  assert (Ha : forall b e c, Easy.Schedule Easy.GetReservationDepth (set_locked w true) = (Ret (b, e), c) ->
    advance ScheduleRead (set_locked w true) =
      Some (match e with Some _ => ScheduleUnlock (Ret e) | None => if (0 <? Z.of_nat (length b))%Z then ScheduleInsert b else SchedulePost end, c)).
  { intros b e c Hs. cbn. unfold atomic. by rewrite Hs. }
  rewrite Easy_Schedule_eq in Ha. destruct (db_fate _) as [[|e|e] c].
  2,3: injection Ec as <- <-; (eapply alone_step; [by eapply Ha|apply rtc_refl]).
  eapply alone_step; [by eapply Ha|]. destruct (0 <? _)%Z.
  2:{ eapply alone_step; [reflexivity|]. injection Ec as <- <-. apply rtc_refl. }
  rewrite run_bind in Ec. cbn [advance]. unfold on_river in Ec.
  destruct (river_InsertMany _ _) as [[e|] r] eqn:Ei.
  - injection Ec as <- <-. eapply alone_step; [cbn [advance]; unfold atomic, on_river; by rewrite Ei|]. apply rtc_refl.
  - eapply alone_step; [cbn [advance]; unfold atomic, on_river; by rewrite Ei|]. by apply alone_deletes.
Qed.

Lemma alone_Enqueue spec w st e w' :
  Enqueue spec w = (Ret (st, e), w') -> rtc alone (EnqueuePool spec, w) (Returned (EnqueueResult st e), w').
Proof.
  unfold Enqueue. rewrite run_bind. intros H.
  assert (Ha : advance (EnqueuePool spec) w = Some (match (pool_New (w_conn w)).1 with
    | Some _ => Returned (EnqueueResult Unknown (pool_New (w_conn w)).1) | None => EnqueueCheck spec end,
    set_conn w (pool_New (w_conn w)).2)) by (cbn; unfold atomic; by rewrite on_conn_effect).
  rewrite on_conn_effect in H. eapply alone_step; [exact Ha|]. clear Ha.
  destruct (pool_New (w_conn w)) as [[x|] c]; cbn [fst snd] in *; [injection H as <- <- <-; apply rtc_refl|].
  rewrite run_bind in H. destruct (sql_query _ (set_conn w c)) as [[[x|tag]|why] w1] eqn:Eq.
  - injection H as <- <- <-. eapply alone_step; [cbn [advance]; unfold atomic; by rewrite Eq|]. apply rtc_refl.
  - eapply alone_step; [cbn [advance]; unfold atomic; by rewrite Eq|].
    destruct (Contains tag "INSERT 1"); [injection H as <- <- <-; apply rtc_refl|].
    rewrite run_bind in H. cbn [gets] in H. rewrite run_bind in H.
    destruct (sql_exec_effect (fun db => InsertIntoPending db (pending_row spec (db_now (w_conn w1)))) w1) as (x & w2 & Hx & _).
    rewrite Hx in H. eapply alone_step; [cbn [advance]; unfold atomic; rewrite run_bind; cbn [gets]; by rewrite Hx|].
    destruct x; injection H as <- <- <-; apply rtc_refl.
  - unfold sql_query in Eq. destruct (db_fate _) as [[] ?]; done.
Qed.

Lemma alone_deterministic s r w r' w' :
  rtc alone s (Returned r, w) -> rtc alone s (Returned r', w') -> r = r' /\ w = w'.
Proof.
  intros H. remember (Returned r, w) as e eqn:E. revert r w E. induction H as [|s s1 s2 Hs _ IH]; intros r w -> H'.
  - inversion H' as [|? ? ? Hs]; subst; [done|]. unfold alone in Hs. cbn in Hs. discriminate.
  - inversion H' as [|? ? ? Hs']; subst; [unfold alone in Hs; cbn in Hs; discriminate|].
    unfold alone in Hs, Hs'. rewrite Hs in Hs'. injection Hs' as <-. by eapply IH.
Qed.

(** The threads are the operations: a goroutine that is not interrupted between
    its calls returns what [Schedule] or [Enqueue] returns and leaves the same
    world, and nothing else. *)
Lemma threads_are_operations w w' :
  (forall o, Schedule (mkQueue Easy.EasyBackfill Easy.GetReservationDepth) w = (o, w') <->
     rtc alone (ScheduleCheck, w) (Returned (ScheduleResult o), w')) /\
  (forall spec st e, Enqueue spec w = (Ret (st, e), w') <->
     rtc alone (EnqueuePool spec, w) (Returned (EnqueueResult st e), w')).
Proof.
  split.
  - intros o. split; [apply alone_Schedule|]. intros H.
    destruct (Schedule (mkQueue Easy.EasyBackfill Easy.GetReservationDepth) w) as [o1 w1] eqn:E.
    apply alone_Schedule in E. destruct (alone_deterministic _ _ _ _ _ E H) as [[= ->] ->]. done.
  - intros spec st e. split; [apply alone_Enqueue|]. intros H.
    destruct (Enqueue_effect spec w) as (st1 & e1 & w1 & E & _). rewrite E.
    apply alone_Enqueue in E. destruct (alone_deterministic _ _ _ _ _ E H) as [[= -> ->] ->]. done.
Qed.
End Threads.

(** ** Pools of threads *)

#[export] Instance carries_dec r p : Decision (carries r p).
Proof.
  destruct (im_Args p) as [a| | |] eqn:E.
  2,3,4: right; intros (a' & Ha & _); congruence.
  refine (cast_if (decide (ja_Name a = pr_name r /\ ja_Namespace a = pr_namespace r /\
                           ja_Jobspec a = pr_jobspec r /\ ja_Type a = Itoa (pr_type r)))).
  - abstract (by exists a).
  - abstract (intros (a' & Ha & H); rewrite E in Ha; by injection Ha as ->).
Defined.

Section Pools.
Context {C K F R : Type} `{!DbConn C, !DbLaws C, !RiverClient R, !RiverView R, !RiverLaws R}.
Abbreviation W := (World C K F R).
Implicit Types w : World C K F R.

Abbreviation pending w := (pending_queue (w_db w)).
Abbreviation tasks w := (river_tasks (w_river w)).

(** The rows that were in the table when a task that carries them was
    inserted, between [w] and [w']. *)
Definition newly_handed w w' : list PendingRow :=
  filter (fun r => Exists (carries r) (drop (length (tasks w)) (tasks w'))) (pending w).

(** The threads, the world they share, and the record of handed rows, which
    no thread reads. *)
Record pool := mkPool { p_threads : list pc; p_world : W; p_handed : list PendingRow }.

Inductive pool_step (s : pool) : pool -> Prop :=
  | pool_thread i t t' w' :
      p_threads s !! i = Some t -> advance t (p_world s) = Some (t', w') ->
      pool_step s (mkPool (<[i := t']> (p_threads s)) w' (p_handed s ++ newly_handed (p_world s) w'))
  | pool_enqueue spec : pool_step s (mkPool (p_threads s ++ [EnqueuePool spec]) (p_world s) (p_handed s))
  | pool_schedule : pool_step s (mkPool (p_threads s ++ [ScheduleCheck]) (p_world s) (p_handed s))
  | pool_environment w' new :
      pending w' = pending (p_world s) -> tasks w' = tasks (p_world s) ++ new ->
      w_locked w' = w_locked (p_world s) ->
      pool_step s (mkPool (p_threads s) w' (p_handed s ++ newly_handed (p_world s) w')).

(** The thread is between taking the lock and releasing it. *)
Definition critical (t : pc) : bool :=
  match t with
  | ScheduleRead | ScheduleInsert _ | SchedulePool _ _ | ScheduleDelete _ _ | SchedulePost | ScheduleUnlock _ => true
  | _ => false
  end.

(** What a thread in the critical section relies on: the rows of its batch are
    still in the table, and those it is about to delete have been handed. *)
Definition holds (pend handed : list PendingRow) (t : pc) : Prop :=
  match t with
  | ScheduleInsert batch =>
      exists rows, batch = row_task <$> rows /\ NoDup (pending_key <$> rows) /\ rows ⊆ pend
  | SchedulePool a rest | ScheduleDelete a rest =>
      exists x rows, a = Easy.job_args (to_JobModel x) /\ rest = row_task <$> rows /\
        NoDup (pending_key <$> (x :: rows)) /\ x :: rows ⊆ pend /\ x :: rows ⊆ handed
  | _ => True
  end.

Record good (s : pool) : Prop := {
  good_unique : pending_unique (w_db (p_world s));
  good_exclusive i j t t' : p_threads s !! i = Some t -> p_threads s !! j = Some t' ->
    critical t = true -> critical t' = true -> i = j;
  good_lock i t : p_threads s !! i = Some t -> critical t = true -> w_locked (p_world s) = true;
  good_holds i t : p_threads s !! i = Some t -> holds (pending (p_world s)) (p_handed s) t;
  good_handed r : r ∈ p_handed s -> exists p, p ∈ tasks (p_world s) /\ carries r p
}.

(** A row is safe: it is in the table, or it was handed to river. *)
Definition safe (s : pool) (r : PendingRow) : Prop := r ∈ pending (p_world s) \/ r ∈ p_handed s.

Lemma holds_mono pend pend' handed handed' t :
  holds pend handed t -> pend ⊆ pend' -> handed ⊆ handed' -> holds pend' handed' t.
Proof.
  destruct t; cbn; try done.
  - intros (rows & ? & ? & ?) ? ?. exists rows. split_and!; [done|done|set_solver].
  - intros (x & rows & ? & ? & ? & ? & ?) ? ?. exists x, rows. split_and!; [done|done|done|set_solver..].
  - intros (x & rows & ? & ? & ? & ? & ?) ? ?. exists x, rows. split_and!; [done|done|done|set_solver..].
Qed.

(** Handed rows have their tasks. *)
Lemma newly_handed_carried w w' r :
  r ∈ newly_handed w w' -> exists p, p ∈ tasks w' /\ carries r p.
Proof.
  unfold newly_handed. rewrite list_elem_of_filter, Exists_exists. intros [(p & Hp & Hc) _]. exists p.
  split; [|done]. rewrite <- (take_drop (length (tasks w)) (tasks w')). apply elem_of_app. by right.
Qed.

Lemma newly_handed_batch w w' rows extra :
  tasks w' = tasks w ++ ((row_task <$> rows) ++ extra) -> rows ⊆ pending w -> rows ⊆ newly_handed w w'.
Proof.
  intros Ht Hr x Hx. unfold newly_handed. rewrite list_elem_of_filter, Ht, drop_app_length. split; [|by apply Hr].
  apply Exists_app. left. apply Exists_exists. exists (row_task x). split; [by apply list_elem_of_fmap_2|].
  apply row_task_carries.
Qed.

(** What one step of a thread does to the tables, the tasks and the lock. *)
Record effect (handed : list PendingRow) (t : pc) w (t' : pc) w' : Prop := {
  eff_unique : pending_unique (w_db w');
  eff_tasks : exists new, tasks w' = tasks w ++ new;
  eff_removed r : r ∈ pending w -> r ∈ pending w' \/ r ∈ handed;
  eff_outside : critical t = false -> pending w ⊆ pending w';
  eff_holds : holds (pending w') (handed ++ newly_handed w w') t';
  eff_lock : w_locked w' = w_locked w /\ critical t' = critical t \/
             critical t = false /\ critical t' = true /\ w_locked w = false /\ w_locked w' = true \/
             critical t = true /\ critical t' = false
}.

(** A step that leaves tables, tasks and lock alone. *)
Lemma effect_frame handed t w t' w' :
  pending_unique (w_db w) -> w_db w' = w_db w -> w_river w' = w_river w -> w_locked w' = w_locked w ->
  critical t' = critical t -> holds (pending w) handed t' -> effect handed t w t' w'.
Proof.
  intros Hu Hd Hr Hl Hc Hh. split.
  - by rewrite Hd.
  - exists []. by rewrite Hr, app_nil_r.
  - rewrite Hd. auto.
  - by rewrite Hd.
  - rewrite Hd. eapply holds_mono; [exact Hh|done|set_solver].
  - auto.
Qed.

Lemma holds_next pend handed rows :
  NoDup (pending_key <$> rows) -> rows ⊆ pend -> rows ⊆ handed ->
  holds pend handed (next_delete (row_task <$> rows)) /\ critical (next_delete (row_task <$> rows)) = true.
Proof. destruct rows as [|x rows]; [done|]. intros Hn Hp Hh. split; [|done]. cbn. by exists x, rows. Qed.

(** Deleting the row of a task: only that row goes. *)
Lemma effect_delete handed a rest w t' w' :
  pending_unique (w_db w) -> holds (pending w) handed (ScheduleDelete a rest) ->
  advance (ScheduleDelete a rest) w = Some (t', w') -> effect handed (ScheduleDelete a rest) w t' w'.
Proof.
  intros Hu (x & rows & -> & -> & Hnd & Hp & Hh) Ha. cbn in Hnd. apply NoDup_cons in Hnd as [Hx Hnd].
  cbn in Ha. unfold atomic in Ha.
  match goal with H : context [sql_exec ?f w] |- _ => destruct (sql_exec_effect f w) as (e & w1 & He & Hf & Hd & _) end.
  rewrite He in Ha. injection Ha as <- <-. destruct Hf as (_ & _ & Hr & Hl).
  destruct (holds_next (pending w) handed rows Hnd ltac:(set_solver) ltac:(set_solver)) as [Hn Hc].
  destruct Hd as [Hd|[= Hd]]; [by apply effect_frame|]. symmetry in Hd.
  assert (Hkey : forall r, pending_key r = (pr_name x, pr_namespace x) <-> pending_key r = pending_key x) by done.
  split.
  - rewrite Hd. by apply DeleteFromPending_unique.
  - exists []. by rewrite Hr, app_nil_r.
  - intros r Hin. rewrite Hd. destruct (decide (pending_key r = pending_key x)) as [Hk|Hk].
    + right. assert (r = x) as ->; [|set_solver]. by eapply pending_unique_eq; [exact Hu|..]; [|set_solver|].
    + left. by apply DeleteFromPending_elem.
  - done.
  - rewrite Hd. apply holds_next; [done| |set_solver]. intros r Hin. apply DeleteFromPending_elem. split; [|set_solver].
    intros Hk. apply Hx. change (pending_key x) with (pr_name x, pr_namespace x). rewrite <- Hk. by apply list_elem_of_fmap_2.
  - left. by rewrite Hc.
Qed.

(** Handing a batch over: its rows are in the table then. *)
Lemma effect_insert handed batch w t' w' :
  pending_unique (w_db w) -> holds (pending w) handed (ScheduleInsert batch) ->
  advance (ScheduleInsert batch) w = Some (t', w') -> effect handed (ScheduleInsert batch) w t' w'.
Proof.
  intros Hu (rows & -> & Hnd & Hp) Ha. cbn [advance] in Ha. unfold atomic, on_river in Ha.
  destruct (river_InsertMany _ (w_river w)) as [[e|] r] eqn:Ei; injection Ha as <- <-.
  - apply insert_many_err in Ei as Ht. split; cbn; try done; [| |by left].
    + destruct Ht as [Ht|Ht]; rewrite Ht; [exists []; by rewrite app_nil_r|eauto].
    + auto.
  - apply insert_many_ok in Ei as Ht.
    pose proof (newly_handed_batch w (set_river w r) rows [clearReservationJob] Ht Hp) as Hnew.
    destruct (holds_next (pending w) (handed ++ newly_handed w (set_river w r)) rows Hnd Hp ltac:(set_solver)) as [Hn Hc].
    split; cbn; try done; [by eexists|by auto|left; by rewrite Hc].
Qed.

(** Reading the table: the batch is the table. *)
Lemma effect_read handed w t' w' :
  pending_unique (w_db w) -> advance ScheduleRead w = Some (t', w') -> effect handed ScheduleRead w t' w'.
Proof.
  intros Hu Ha. cbn [advance] in Ha. unfold atomic in Ha. rewrite Easy_Schedule_eq in Ha.
  destruct (db_fate _) as [[|e|e] c]; injection Ha as <- <-; [|by apply effect_frame..]. cbn [fst snd].
  destruct (0 <? _)%Z; [|by apply effect_frame]. apply effect_frame; try done.
  exists (db_order (w_conn w) (pending w)). split; [done|]. split; [|by rewrite db_order_perm].
  by rewrite (db_order_perm (w_conn w)).
Qed.

(** A FluxJob is enqueued: no row goes. *)
Lemma effect_enqueue handed spec w t' w' :
  pending_unique (w_db w) -> advance (EnqueueInsert spec) w = Some (t', w') ->
  effect handed (EnqueueInsert spec) w t' w'.
Proof.
  intros Hu Ha. cbn [advance] in Ha. unfold atomic in Ha. rewrite run_bind in Ha. cbn [gets] in Ha.
  match goal with H : context [sql_exec ?f w] |- _ => destruct (sql_exec_effect f w) as (e & w1 & He & Hf & Hd & _) end.
  rewrite He in Ha. destruct Hf as (_ & _ & Hr & Hl).
  assert (Hc : critical t' = false /\ (forall pend h, holds pend h t') /\ w1 = w') by (destruct e; by injection Ha as <- <-).
  destruct Hc as (Hc & Hh & ->). destruct Hd as [Hd|Hd]; [by apply effect_frame|].
  pose proof Hd as (_ & Hp & _)%InsertIntoPending_inv. split.
  - by eapply InsertIntoPending_unique.
  - exists []. by rewrite Hr, app_nil_r.
  - rewrite Hp. set_solver.
  - rewrite Hp. set_solver.
  - apply Hh.
  - by left.
Qed.

Lemma advance_effect handed t w t' w' :
  pending_unique (w_db w) -> (critical t = true -> w_locked w = true) -> holds (pending w) handed t ->
  advance t w = Some (t', w') -> effect handed t w t' w'.
Proof.
  intros Hu Hl Hh Ha. destruct t; try by eauto using effect_delete, effect_insert, effect_read, effect_enqueue.
  - cbn in Ha. unfold atomic in Ha. rewrite on_conn_effect in Ha.
    destruct (pool_New (w_conn w)).1; injection Ha as <- <-; by apply effect_frame.
  - cbn in Ha. unfold atomic, sql_query in Ha.
    destruct (db_fate (w_conn w)) as [[] c]; repeat case_match; simplify_eq; by apply effect_frame.
  - cbn in Ha. injection Ha as <- <-. destruct (IsInScheduleLoop w); by apply effect_frame.
  - cbn in Ha. destruct (w_locked w) eqn:E; [done|]. injection Ha as <- <-.
    split; cbn; try done; [exists []; by rewrite app_nil_r|by auto|]. right. left. done.
  - destruct Hh as (x & rows & -> & -> & Hnd & Hp & Hha). cbn in Ha. unfold atomic in Ha. rewrite on_conn_effect in Ha.
    destruct (pool_New (w_conn w)).1; injection Ha as <- <-.
    + apply NoDup_cons in Hnd as [_ Hnd].
      destruct (holds_next (pending w) handed rows Hnd ltac:(set_solver) ltac:(set_solver)) as [Hn Hc].
      by apply effect_frame.
    + apply effect_frame; try done. by exists x, rows.
  - injection Ha as <- <-. by apply effect_frame.
  - cbn in Ha. injection Ha as <- <-. split; cbn; try done; [exists []; by rewrite app_nil_r|by auto|]. by right; right.
Qed.

(** A new thread begins outside the critical section. *)
Lemma good_spawn s t :
  critical t = false -> (forall pend h, holds pend h t) -> good s ->
  good (mkPool (p_threads s ++ [t]) (p_world s) (p_handed s)).
Proof.
  intros Hc Hh [H1 H2 H3 H4 H5].
  assert (Hold : forall i u, (p_threads s ++ [t]) !! i = Some u -> p_threads s !! i = Some u \/ u = t).
  { intros i u [Hi|[_ Hi]]%lookup_app_Some; [auto|]. right. by apply list_lookup_singleton_Some in Hi as [_ <-]. }
  split; cbn; try done.
  - intros i j u u' [Hi| ->]%Hold [Hj| ->]%Hold Hu Hu'; [by eauto|congruence..].
  - intros i u [Hi| ->]%Hold Hu; [by eauto|congruence].
  - intros i u [Hi| ->]%Hold; [by eauto|apply Hh].
Qed.

Lemma good_environment s w' new :
  pending w' = pending (p_world s) -> tasks w' = tasks (p_world s) ++ new -> w_locked w' = w_locked (p_world s) ->
  good s -> good (mkPool (p_threads s) w' (p_handed s ++ newly_handed (p_world s) w')).
Proof.
  intros Hp Ht Hl [H1 H2 H3 H4 H5]. split; cbn; try done.
  - unfold pending_unique in *. by rewrite Hp.
  - intros i t Hi Hc. rewrite Hl. by eauto.
  - intros i t Hi. eapply holds_mono; [by eapply H4|by rewrite Hp|set_solver].
  - intros r [Hr|Hr]%elem_of_app; [|by eapply newly_handed_carried].
    destruct (H5 r Hr) as (p & Hin & Hc). exists p. split; [rewrite Ht; set_solver|done].
Qed.

Lemma good_thread s i t t' w' :
  p_threads s !! i = Some t -> advance t (p_world s) = Some (t', w') -> good s ->
  good (mkPool (<[i := t']> (p_threads s)) w' (p_handed s ++ newly_handed (p_world s) w')).
Proof.
  intros Hi Ha [H1 H2 H3 H4 H5].
  pose proof (advance_effect (p_handed s) t (p_world s) t' w' H1 (H3 i t Hi) (H4 i t Hi) Ha) as [E1 [new E2] E3 E4 E5 E6].
  assert (Hi' : i < length (p_threads s)) by by eapply lookup_lt_Some.
  assert (Hcase : forall j u, <[i := t']> (p_threads s) !! j = Some u ->
    j = i /\ u = t' \/ j <> i /\ p_threads s !! j = Some u).
  { intros j u Hu. destruct (decide (j = i)) as [->|Hne].
    - rewrite list_lookup_insert_eq in Hu by done. left. by simplify_eq.
    - rewrite list_lookup_insert_ne in Hu by done. auto. }
  assert (Hother : forall j u, j <> i -> p_threads s !! j = Some u -> critical u = true ->
    critical t' = false /\ w_locked w' = true).
  { intros j u Hne Hu Hc. destruct (critical t) eqn:Et; [by destruct (Hne (H2 _ _ _ _ Hu Hi Hc Et))|].
    pose proof (H3 _ _ Hu Hc) as Hlk. destruct E6 as [[El Ec]|[(_ & _ & Hf & _)|[Et' _]]]; split; congruence. }
  split; cbn; try done.
  - intros j k u u' [[-> ->]|[Hj Hu]]%Hcase [[-> ->]|[Hk Hu']]%Hcase Hc Hc'; [done|..|by eauto].
    + destruct (Hother _ _ Hk Hu' Hc'). congruence.
    + destruct (Hother _ _ Hj Hu Hc). congruence.
  - intros j u [[-> ->]|[Hj Hu]]%Hcase Hc; [|by apply (Hother j u)].
    destruct E6 as [[El Ec]|[(_ & _ & _ & El)|[_ Ec]]]; [|done|congruence]. rewrite El. apply (H3 i t Hi). congruence.
  - intros j u [[-> ->]|[Hj Hu]]%Hcase; [done|].
    destruct (critical t) eqn:Et; [|eapply holds_mono; [by eapply H4|by apply E4|set_solver]].
    destruct (critical u) eqn:Eu; [by destruct (Hj (H2 _ _ _ _ Hu Hi Eu Et))|]. by destruct u.
  - intros r [Hr|Hr]%elem_of_app; [|by eapply newly_handed_carried].
    destruct (H5 r Hr) as (p & Hin & Hc). exists p. split; [rewrite E2; set_solver|done].
Qed.

Lemma pool_step_good s s' : pool_step s s' -> good s -> good s'.
Proof.
  intros [] Hg; [by eapply good_thread|by apply good_spawn..|by eapply good_environment].
Qed.
Lemma pools_good s s' : rtc pool_step s s' -> good s -> good s'.
Proof. induction 1; eauto using pool_step_good. Qed.

(** No step makes a safe row unsafe. *)
Lemma pool_step_safe s s' r : pool_step s s' -> good s -> safe s r -> safe s' r.
Proof.
  unfold safe. intros [i t t' w' Hi Ha| | |w' new Hp _ _] Hg [Hr|Hr]; cbn; try (by auto);
    try (right; apply elem_of_app; by left).
  - destruct (advance_effect (p_handed s) t (p_world s) t' w' (good_unique _ Hg) (good_lock _ Hg i t Hi)
                (good_holds _ Hg i t Hi) Ha) as [_ _ E3 _ _ _].
    destruct (E3 r Hr); [auto|right; apply elem_of_app; auto].
  - left. by rewrite Hp.
Qed.
Lemma pools_safe s s' r : rtc pool_step s s' -> good s -> safe s r -> safe s' r.
Proof. induction 1; eauto using pool_step_safe, pool_step_good. Qed.

(** Before any thread runs. *)
Definition quiet (s : pool) : Prop :=
  p_threads s = [] /\ p_handed s = [] /\ pending_unique (w_db (p_world s)).
Lemma quiet_good s : quiet s -> good s.
Proof. intros (Ht & Hh & Hu). split; rewrite ?Ht, ?Hh; try done; set_solver. Qed.

(** C7. No interleaving loses a job: any number of goroutines enqueue and schedule,
    their calls to the database and river alternate in any order, and any call
    may fail.  A row that is in the pending table at some moment is at every
    later moment still there, or a task that carries it was inserted while it
    was there, and that task is in river. *)
Theorem interleaving_conserves s0 s1 s2 r :
  quiet s0 -> rtc pool_step s0 s1 -> rtc pool_step s1 s2 -> r ∈ pending (p_world s1) ->
  r ∈ pending (p_world s2) \/ r ∈ p_handed s2 /\ exists p, p ∈ tasks (p_world s2) /\ carries r p.
Proof.
  intros Hq H1 H2 Hr. assert (Hg : good s1) by by eapply pools_good, quiet_good.
  destruct (pools_safe s1 s2 r H2 Hg ltac:(by left)) as [?|Hh]; [auto|]. right. split; [done|].
  apply (good_handed s2); [by eapply pools_good|done].
Qed.

(** The mutex works: in every interleaving at most one goroutine is between
    taking the lock and releasing it, although the check before it and the
    lock are two steps. *)
Theorem schedule_exclusive s0 s i j t t' :
  quiet s0 -> rtc pool_step s0 s -> p_threads s !! i = Some t -> p_threads s !! j = Some t' ->
  critical t = true -> critical t' = true -> i = j /\ w_locked (p_world s) = true.
Proof.
  intros Hq Hs Hi Hj Hc Hc'. assert (Hg : good s) by by eapply pools_good, quiet_good.
  split; [by eapply good_exclusive|by eapply good_lock].
Qed.
End Pools.

(** ** Interleavings that run *)

Section Executions.
Context {C K F R : Type} `{!DbConn C, !DbLaws C, !RiverClient R, !RiverView R, !RiverLaws R}.

(** Which thread moves next, or which operation begins. *)
Inductive move := Thread (i : nat) | BeginEnqueue (spec : FluxJob) | BeginSchedule.

Definition apply_move (m : move) (s : pool (C:=C) (K:=K) (F:=F) (R:=R)) : option pool :=
  match m with
  | Thread i =>
      t ← p_threads s !! i;
      '(t', w') ← advance t (p_world s);
      Some (mkPool (<[i := t']> (p_threads s)) w' (p_handed s ++ newly_handed (p_world s) w'))
  | BeginEnqueue spec => Some (mkPool (p_threads s ++ [EnqueuePool spec]) (p_world s) (p_handed s))
  | BeginSchedule => Some (mkPool (p_threads s ++ [ScheduleCheck]) (p_world s) (p_handed s))
  end.
Fixpoint apply_moves (ms : list move) (s : pool) : option pool :=
  match ms with [] => Some s | m :: ms => s' ← apply_move m s; apply_moves ms s' end.

Lemma apply_move_step m s s' : apply_move m s = Some s' -> pool_step s s'.
Proof.
  destruct m as [i|spec|]; cbn; [|by intros [= <-]; constructor..].
  destruct (p_threads s !! i) as [t|] eqn:Et; [|done]. cbn.
  destruct (advance t (p_world s)) as [[t' w']|] eqn:Ea; [|done]. intros [= <-]. by eapply pool_thread.
Qed.
Lemma apply_moves_rtc ms : forall s s', apply_moves ms s = Some s' -> rtc pool_step s s'.
Proof.
  induction ms as [|m ms IH]; intros s s'; cbn; [by intros [= <-]|].
  destruct (apply_move m s) as [s1|] eqn:E; [|done]. cbn. intros H%IH. eapply rtc_l; [by eapply apply_move_step|done].
Qed.
End Executions.

Definition quiet_pool : pool (C:=UpConn) (K:=MemKube Z) (F:=MemFluxion) (R:=MemRiver) :=
  mkPool [] (sample_world (mkUpConn 100)) [].

(** While a cycle has handed its batch over and deleted the first row, that
    job is submitted again. *)
Definition overlap : list move :=
  [BeginSchedule; Thread 0; Thread 0; Thread 0; Thread 0; Thread 0; Thread 0;
   BeginEnqueue (sample_fluxjob JobWrappedPod "new"); Thread 1; Thread 1; Thread 1].
Definition overlapped : pool := default quiet_pool (apply_moves overlap quiet_pool).
Definition finished : pool := default quiet_pool (apply_moves [Thread 0; Thread 0; Thread 0; Thread 0] overlapped).
Definition again : PendingRow := pending_row (sample_fluxjob JobWrappedPod "new") 100.

Lemma quiet_pool_quiet : quiet quiet_pool.
Proof.
  split; [done|]. split; [done|]. change (NoDup [("old", "default"); ("new", "default")]).
  repeat (apply NoDup_cons; split; [set_solver|]). apply NoDup_nil_2.
Qed.

Lemma overlapped_reachable : rtc pool_step quiet_pool overlapped.
Proof. apply (apply_moves_rtc overlap). vm_compute. reflexivity. Qed.
Lemma finished_reachable : rtc pool_step overlapped finished.
Proof. apply (apply_moves_rtc [Thread 0; Thread 0; Thread 0; Thread 0]). vm_compute. reflexivity. Qed.

(** The row that came in during the cycle survives it. *)
Lemma interleaving_conserves_witness :
  pending_queue (w_db (p_world finished)) = [again] /\
  (again ∈ pending_queue (w_db (p_world finished)) \/
   again ∈ p_handed finished /\ exists p, p ∈ river_tasks (w_river (p_world finished)) /\ carries again p).
Proof.
  split; [vm_compute; reflexivity|].
  apply (interleaving_conserves quiet_pool overlapped finished again quiet_pool_quiet overlapped_reachable finished_reachable).
  vm_compute. apply list_elem_of_further, list_elem_of_here.
Defined.

Lemma schedule_exclusive_witness : w_locked (p_world overlapped) = true.
Proof.
  refine (proj2 (schedule_exclusive quiet_pool overlapped 0 0
    (SchedulePool (Easy.job_args (to_JobModel (sample_row "old" 10))) [])
    (SchedulePool (Easy.job_args (to_JobModel (sample_row "old" 10))) []) quiet_pool_quiet overlapped_reachable _ _ _ _));
    vm_compute; reflexivity.
Defined.

(** Two cycles that do not take the lock: both read the same rows; the second
    deletes by name what was enqueued after the first had deleted its row. *)
Definition unlocked_pool : pool (C:=UpConn) (K:=MemKube Z) (F:=MemFluxion) (R:=MemRiver) :=
  mkPool [ScheduleRead; ScheduleRead] (sample_world (mkUpConn 100)) [].
Definition race : list move :=
  [Thread 0; Thread 0; Thread 1; Thread 1; Thread 0; Thread 0;
   BeginEnqueue (sample_fluxjob JobWrappedPod "new"); Thread 2; Thread 2; Thread 2].

Example lock_is_needed :
  exists s1 s2, apply_moves race unlocked_pool = Some s1 /\ apply_moves [Thread 1; Thread 1] s1 = Some s2 /\
    again ∈ pending_queue (w_db (p_world s1)) /\ again ∉ pending_queue (w_db (p_world s2)) /\
    Forall (fun p => ~ carries again p) (river_tasks (w_river (p_world s2))).
Proof.
  eexists _, _. split; [vm_compute; reflexivity|]. split; [vm_compute; reflexivity|].
  split; [apply list_elem_of_further, list_elem_of_here|]. split; [apply (bool_decide_unpack _); vm_compute; exact I|].
  apply (bool_decide_unpack _). vm_compute. exact I.
Qed.
