(* ===== verification/Refinement.v ===== *)
(** * The queue as an at-least-once queue

    What [pkg/fluxqueue/fluxqueue.go] promises its callers, as an abstract
    machine: a submission takes effect in one step, at which a row that no
    waiting row collides with begins to wait; a waiting row is delivered any
    number of times, and stops waiting only after it was delivered.  The
    goroutines of [Interleaving], which need several calls to the database and
    to river for every operation and may see any of them fail, simulate this
    machine: their interleavings show no behaviour that it does not have. *)

From Stdlib Require Import Ascii.
From stdpp Require Import base option list strings gmap numbers relations.
From S2P Require Import Prelude GoStrings Json Api Kube Database World Mem Strategy Queue Interleaving.

(** ** The abstract machine *)

(** What the callers see of a call. *)
Inductive call :=
  | Submitting (spec : FluxJob)
  | Answered (spec : FluxJob) (st : EnqueueStatus) (e : error)
  | Cycling
  | Ended (o : outcome error).

Record aqueue := mkAQueue {
  aq_calls : list call;
  aq_waiting : list PendingRow;
  aq_delivered : list PendingRow
}.

(** Success is answered only when the row waits; an error says nothing about
    it, because the database may have lost its acknowledgement. *)
Definition answer_ok (st : EnqueueStatus) (e : error) : Prop :=
  st = JobEnqueueSuccess /\ e = None \/ st = Unknown /\ is_Some e.

Inductive aq_step (a : aqueue) : aqueue -> Prop :=
  | aq_submit spec :
      aq_step a (mkAQueue (aq_calls a ++ [Submitting spec]) (aq_waiting a) (aq_delivered a))
  | aq_cycle :
      aq_step a (mkAQueue (aq_calls a ++ [Cycling]) (aq_waiting a) (aq_delivered a))
  | aq_accept i spec now st e :
      aq_calls a !! i = Some (Submitting spec) -> answer_ok st e ->
      pending_key (pending_row spec now) ∉ (pending_key <$> aq_waiting a) ->
      aq_step a (mkAQueue (<[i := Answered spec st e]> (aq_calls a))
                          (aq_waiting a ++ [pending_row spec now]) (aq_delivered a))
  | aq_refuse i spec e :
      aq_calls a !! i = Some (Submitting spec) ->
      aq_step a (mkAQueue (<[i := Answered spec Unknown (Some e)]> (aq_calls a)) (aq_waiting a) (aq_delivered a))
  | aq_deliver rows :
      rows ⊆ aq_waiting a ->
      aq_step a (mkAQueue (aq_calls a) (aq_waiting a) (aq_delivered a ++ rows))
  | aq_remove r :
      r ∈ aq_waiting a -> r ∈ aq_delivered a ->
      aq_step a (mkAQueue (aq_calls a) (filter (fun x => pending_key x <> pending_key r) (aq_waiting a)) (aq_delivered a))
  | aq_end i o :
      aq_calls a !! i = Some Cycling ->
      aq_step a (mkAQueue (<[i := Ended o]> (aq_calls a)) (aq_waiting a) (aq_delivered a)).

(** ** What the machine guarantees *)

(** A row is secure: it waits or was delivered. *)
Definition secure (a : aqueue) (r : PendingRow) : Prop := r ∈ aq_waiting a \/ r ∈ aq_delivered a.

(** Waiting rows have different keys, and the row of every acknowledged
    submission is secure. *)
Record aq_sound (a : aqueue) : Prop := {
  aq_unique : NoDup (pending_key <$> aq_waiting a);
  aq_accepted i spec : aq_calls a !! i = Some (Answered spec JobEnqueueSuccess None) ->
    exists now, secure a (pending_row spec now)
}.

(** With different keys, a key belongs to one row. *)
Lemma keys_inj (l : list PendingRow) r r' :
  NoDup (pending_key <$> l) -> r ∈ l -> r' ∈ l -> pending_key r = pending_key r' -> r = r'.
Proof. intros Hn. exact (pending_unique_eq (mkDatabase l []) r r' Hn). Qed.

Lemma aq_step_secure a a' r : aq_step a a' -> NoDup (pending_key <$> aq_waiting a) -> secure a r -> secure a' r.
Proof.
  unfold secure. intros [] Hn [Hr|Hr]; cbn; try (rewrite ?elem_of_app; by auto).
  rewrite list_elem_of_filter. destruct (decide (pending_key r = pending_key r0)) as [E|E]; [|auto].
  right. by rewrite (keys_inj (aq_waiting a) r r0).
Qed.

(** Nothing is removed that was not delivered. *)
Lemma no_removal_before_delivery r a a' :
  aq_step a a' -> NoDup (pending_key <$> aq_waiting a) -> r ∈ aq_waiting a -> r ∉ aq_delivered a -> r ∈ aq_waiting a'.
Proof.
  intros Hs Hn Hr Hd. destruct Hs as [| | | | |x Hx Hdx|]; cbn; rewrite ?elem_of_app; auto.
  apply list_elem_of_filter. split; [|done]. intros E. apply Hd. by rewrite (keys_inj (aq_waiting a) r x).
Qed.

(** A new call at the end, or a new state of call [i]. *)
Lemma calls_snoc (l : list call) c i x : (l ++ [c]) !! i = Some x -> l !! i = Some x \/ x = c.
Proof.
  intros [H|[_ H]]%lookup_app_Some; [auto|]. apply list_lookup_singleton_Some in H as [_ <-]. auto.
Qed.
Lemma calls_insert (l : list call) c i j x : <[i := c]> l !! j = Some x -> l !! j = Some x \/ j = i /\ x = c.
Proof. intros [(-> & -> & _)|[_ H]]%list_lookup_insert_Some; auto. Qed.

Lemma aq_step_sound a a' : aq_step a a' -> aq_sound a -> aq_sound a'.
Proof.
  intros Hs [Hn Ha]. assert (Hkeep : forall r, secure a r -> secure a' r) by (intros r; by apply aq_step_secure).
  assert (Hold : forall i spec, aq_calls a !! i = Some (Answered spec JobEnqueueSuccess None) ->
    exists now, secure a' (pending_row spec now)) by (intros i spec [now H]%Ha; eauto).
  destruct Hs as [spec| |i spec now st e Hi Hok Hk|i spec e Hi|rows Hr|r Hr Hd|i o Hi]; cbn in *; split; cbn; try done.
  - intros j x [H|H]%calls_snoc; [by eauto|done].
  - intros j x [H|H]%calls_snoc; [by eauto|done].
  - rewrite fmap_app. apply NoDup_app. split; [done|]. split; [|apply NoDup_singleton].
    intros k Hin ->%list_elem_of_singleton. done.
  - intros j x [H|[_ H]]%calls_insert; [by eauto|]. injection H as -> _ _. exists now. left. cbn. set_solver.
  - intros j x [H|[_ H]]%calls_insert; [by eauto|done].
  - eapply sublist_NoDup; [exact Hn|]. apply fmap_sublist, sublist_filter.
  - intros j x [H|[_ H]]%calls_insert; [by eauto|done].
Qed.
Lemma aq_steps_sound a a' : rtc aq_step a a' -> aq_sound a -> aq_sound a'.
Proof. induction 1; eauto using aq_step_sound. Qed.

(** A call keeps the FluxJob it was made for. *)
Definition call_for (c : call) (spec : FluxJob) : Prop :=
  match c with Submitting x | Answered x _ _ => x = spec | _ => False end.
Lemma aq_steps_call a a' i c spec :
  rtc aq_step a a' -> aq_calls a !! i = Some c -> call_for c spec ->
  exists c', aq_calls a' !! i = Some c' /\ call_for c' spec.
Proof.
  intros H. revert c. induction H as [a|a a1 a2 Hs _ IH]; intros c Hc Hf; [by eauto|].
  assert (Hins : forall j d d' s, aq_calls a !! j = Some d -> (forall s, call_for d s -> call_for d' s) ->
    a1 = mkAQueue (<[j := d']> (aq_calls a)) s.1 s.2 -> exists c', aq_calls a1 !! i = Some c' /\ call_for c' spec).
  { intros j d d' s Hd Hdd ->. cbn. destruct (decide (j = i)) as [->|Hne].
    - rewrite list_lookup_insert_eq by by eapply lookup_lt_Some. exists d'. split; [done|]. apply Hdd. congruence.
    - rewrite list_lookup_insert_ne by done. eauto. }
  assert (exists c', aq_calls a1 !! i = Some c' /\ call_for c' spec) as (c' & Hc' & Hf'); [|by eapply IH].
  destruct Hs; cbn; try (by eauto); try (by rewrite (lookup_app_l_Some _ _ _ _ Hc); eauto).
  - by eapply (Hins i0 _ _ (_, _)); [done| |reflexivity].
  - by eapply (Hins i0 _ _ (_, _)); [done| |reflexivity].
  - by eapply (Hins i0 _ _ (_, _)); [done| |reflexivity].
Qed.

(** ** The simulation *)

(** The FluxJob a thread submits. *)
Definition submits (t : pc) : option FluxJob :=
  match t with EnqueuePool spec | EnqueueCheck spec | EnqueueInsert spec => Some spec | _ => None end.

(** The call that a thread makes. *)
Definition call_of (t : pc) (c : call) : Prop :=
  match t, c with
  | Returned (EnqueueResult st e), Answered _ st' e' => st' = st /\ e' = e
  | Returned (ScheduleResult o), Ended o' => o' = o
  | Returned _, _ => False
  | _, Submitting spec => submits t = Some spec
  | _, Cycling => submits t = None
  | _, _ => False
  end.

Section Simulation.
Context {C K F R : Type} `{!DbConn C, !DbLaws C, !RiverClient R, !RiverView R, !RiverLaws R}.
Abbreviation W := (World C K F R).
Implicit Types w : World C K F R.
Implicit Types s : pool (C:=C) (K:=K) (F:=F) (R:=R).
Abbreviation pending w := (pending_queue (w_db w)).
Abbreviation tasks w := (river_tasks (w_river w)).

Record represents (s : pool (C:=C) (K:=K) (F:=F) (R:=R)) (a : aqueue) : Prop := {
  rep_calls : Forall2 call_of (p_threads s) (aq_calls a);
  rep_waiting : aq_waiting a = pending (p_world s);
  rep_delivered : aq_delivered a = p_handed s
}.

(** What callers can see of one step of a thread. *)
Inductive visible (handed : list PendingRow) (t : pc) w (t' : pc) w' : Prop :=
  | visible_none : pending w' = pending w -> (forall c, call_of t c -> call_of t' c) -> visible handed t w t' w'
  | visible_refused spec e :
      pending w' = pending w -> submits t = Some spec -> t' = Returned (EnqueueResult Unknown (Some e)) ->
      visible handed t w t' w'
  | visible_accepted spec now st e :
      pending_key (pending_row spec now) ∉ (pending_key <$> pending w) -> answer_ok st e ->
      pending w' = pending w ++ [pending_row spec now] -> tasks w' = tasks w -> submits t = Some spec ->
      t' = Returned (EnqueueResult st e) -> visible handed t w t' w'
  | visible_removed r :
      r ∈ pending w -> r ∈ handed -> pending w' = filter (fun x => pending_key x <> pending_key r) (pending w) ->
      tasks w' = tasks w -> (forall c, call_of t c -> call_of t' c) -> visible handed t w t' w'
  | visible_ended o :
      pending w' = pending w -> call_of t Cycling -> t' = Returned (ScheduleResult o) -> visible handed t w t' w'.

Lemma next_delete_cycling batch c : call_of (next_delete batch) c <-> c = Cycling.
Proof. destruct batch as [|p rest]; cbn; [|destruct (im_Args p); cbn]; destruct c; naive_solver. Qed.
Lemma cycling_call t c : submits t = None -> critical t = true -> call_of t c <-> c = Cycling.
Proof. destruct t; try done; destruct c; cbn; naive_solver. Qed.

(** Submitting. *)
Lemma enqueue_visible handed t w t' w' spec :
  submits t = Some spec -> advance t w = Some (t', w') -> visible handed t w t' w'.
Proof.
  intros Hs Ha. destruct t; try done; injection Hs as ->; cbn [advance] in Ha; unfold atomic in Ha.
  - rewrite on_conn_effect in Ha. destruct (pool_New (w_conn w)).1; injection Ha as <- <-.
    + by eapply visible_refused.
    + by apply visible_none.
  - unfold sql_query in Ha. destruct (db_fate (w_conn w)) as [[|x|x] c];
      [rewrite IsPendingQuery_no_insert in Ha|..]; injection Ha as <- <-; [by apply visible_none|by eapply visible_refused..].
  - rewrite run_bind in Ha. cbn [gets] in Ha.
    match goal with H : context [sql_exec ?f w] |- _ => destruct (sql_exec_effect f w) as (e & w1 & He & Hf & Hd & Hn) end.
    rewrite He in Ha. destruct Hf as (_ & _ & Hr & _).
    assert (exists st, t' = Returned (EnqueueResult st e) /\ answer_ok st e /\ w1 = w') as (st & -> & Hok & ->).
    { destruct e; injection Ha as <- <-; eexists; (split; [reflexivity|]); split; [|done| |done]; [by right; eauto|by left]. }
    destruct Hd as [Hd|Hd].
    + destruct e as [e|]; [destruct Hok as [[_ ?]|[-> _]]; [done|]; eapply visible_refused; [by rewrite Hd|done|done]|].
      specialize (Hn eq_refl). apply InsertIntoPending_inv in Hn as (_ & Hp & _). rewrite Hd in Hp.
      apply (f_equal length) in Hp. rewrite length_app in Hp. simpl in Hp. lia.
    + apply InsertIntoPending_inv in Hd as (Hk & Hp & _). eapply visible_accepted; [exact Hk|done|exact Hp|by rewrite Hr|done|done].
Qed.

Lemma DeleteFromPending_filter db r :
  pending_queue (DeleteFromPendingQuery db (pr_name r) (pr_namespace r)) =
  filter (fun x => pending_key x <> pending_key r) (pending_queue db).
Proof.
  apply list_filter_iff. intros x. rewrite Is_true_true, negb_true_iff, <- not_true_iff_false, key_matches_true. done.
Qed.

(** A step of a cycle that leaves the table alone and goes on. *)
Lemma cycle_silent handed t w t' w' :
  w_db w' = w_db w -> submits t = None -> critical t = true -> call_of t' Cycling -> visible handed t w t' w'.
Proof.
  intros Hd Hs Hc Ht. apply visible_none; [by rewrite Hd|]. intros c ->%cycling_call; done.
Qed.

Lemma cycle_visible handed t w t' w' :
  submits t = None -> holds (pending w) handed t -> advance t w = Some (t', w') -> visible handed t w t' w'.
Proof.
  intros Hs Hh Ha. destruct t; try done; cbn [advance] in Ha; unfold atomic in Ha.
  - cbn in Ha. injection Ha as <- <-. destruct (IsInScheduleLoop w); [by eapply visible_ended|by apply visible_none].
  - destruct (w_locked w); [done|]. injection Ha as <- <-. by apply visible_none.
  - rewrite Easy_Schedule_eq in Ha. destruct (db_fate _) as [[|e|e] c]; injection Ha as <- <-; [|by apply cycle_silent..].
    destruct (0 <? _)%Z; by apply cycle_silent.
  - unfold on_river in Ha. destruct (river_InsertMany _ _) as [[e|] r]; injection Ha as <- <-; [by apply cycle_silent|].
    apply cycle_silent; try done. by apply next_delete_cycling.
  - rewrite on_conn_effect in Ha. destruct (pool_New (w_conn w)).1; injection Ha as <- <-; [|by apply cycle_silent].
    apply cycle_silent; try done. by apply next_delete_cycling.
  - destruct Hh as (x & rows & -> & -> & _ & Hp & Hha).
    match goal with H : context [sql_exec ?f w] |- _ => destruct (sql_exec_effect f w) as (e & w1 & He & Hf & Hd & _) end.
    rewrite He in Ha. injection Ha as <- <-. destruct Hf as (_ & _ & Hr & _).
    destruct Hd as [Hd|[= Hd]]; [apply cycle_silent; try done; by apply next_delete_cycling|]. symmetry in Hd.
    apply (visible_removed _ _ _ _ _ x); [set_solver|set_solver| |by rewrite Hr|].
    + rewrite Hd. apply DeleteFromPending_filter.
    + intros c ->%cycling_call; [|done|done]. by apply next_delete_cycling.
  - injection Ha as <- <-. by apply cycle_silent.
  - injection Ha as <- <-. by eapply visible_ended.
Qed.

Lemma newly_handed_none w w' : tasks w' = tasks w -> newly_handed w w' = [].
Proof.
  intros Ht. apply elem_of_nil_inv. intros r. unfold newly_handed. rewrite Ht, drop_all, list_elem_of_filter.
  intros [[]%Exists_nil _].
Qed.
Lemma newly_handed_waiting w w' : newly_handed w w' ⊆ pending w.
Proof. intros r. unfold newly_handed. rewrite list_elem_of_filter. by intros [_ ?]. Qed.

(** One step of the goroutines is zero, one or two steps of the machine. *)
Lemma pool_step_simulated s s' a :
  pool_step s s' -> good s -> represents s a -> exists a', rtc aq_step a a' /\ represents s' a'.
Proof.
  intros Hs Hg [Hc Hw Hd]. destruct a as [calls waiting delivered]. cbn in *. subst waiting delivered.
  destruct Hs as [i t t' w' Hi Ha|spec| |w' new Hp Ht Hl].
  - destruct (Forall2_lookup_l _ _ _ _ _ Hc Hi) as (c & Hci & Htc).
    assert (Hrep : forall c' waiting, call_of t' c' -> waiting = pending w' ->
      represents (mkPool (<[i := t']> (p_threads s)) w' (p_handed s ++ newly_handed (p_world s) w'))
                 (mkAQueue (<[i := c']> calls) waiting (p_handed s ++ newly_handed (p_world s) w'))).
    { intros c' waiting Hc' ->. split; cbn; [by apply Forall2_insert|done|done]. }
    assert (Hdel : aq_step (mkAQueue calls (pending (p_world s)) (p_handed s))
      (mkAQueue calls (pending (p_world s)) (p_handed s ++ newly_handed (p_world s) w'))).
    { apply (aq_deliver (mkAQueue _ _ _)). apply newly_handed_waiting. }
    assert (Hv : visible (p_handed s) t (p_world s) t' w').
    { destruct (submits t) as [spec|] eqn:E; [by eapply enqueue_visible|]. eapply cycle_visible; [done| |done].
      by eapply good_holds. }
    destruct Hv as [Hp Hcc|spec e Hp Hsub ->|spec now st e Hk Hok Hp Ht Hsub ->|r Hr Hh Hp Ht Hcc|o Hp Hcy ->].
    + exists (mkAQueue (<[i := c]> calls) (pending (p_world s)) (p_handed s ++ newly_handed (p_world s) w')).
      split; [|by apply Hrep; [apply Hcc|]]. rewrite list_insert_id by done. by apply rtc_once.
    + assert (c = Submitting spec) as -> by (destruct t, c; naive_solver).
      eexists. split; [|by apply (Hrep (Answered spec Unknown (Some e)) (pending w'))]. eapply rtc_l; [exact Hdel|].
      apply rtc_once. rewrite Hp. by eapply (aq_refuse (mkAQueue _ _ _)).
    + assert (c = Submitting spec) as -> by (destruct t, c; naive_solver).
      eexists. split; [|by apply (Hrep (Answered spec st e) (pending w'))]. rewrite (newly_handed_none _ _ Ht), app_nil_r, Hp.
      apply rtc_once. by eapply (aq_accept (mkAQueue _ _ _)).
    + exists (mkAQueue (<[i := c]> calls) (pending w') (p_handed s ++ newly_handed (p_world s) w')).
      split; [|by apply Hrep; [apply Hcc|]]. rewrite (newly_handed_none _ _ Ht), app_nil_r, Hp, list_insert_id by done.
      apply rtc_once. by apply (aq_remove (mkAQueue _ _ _)).
    + assert (c = Cycling) as -> by (destruct t as [| | | | | | | | | | |[]], c; naive_solver).
      eexists. split; [|by apply (Hrep (Ended o) (pending w'))]. eapply rtc_l; [exact Hdel|]. rewrite Hp. apply rtc_once.
      by apply (aq_end (mkAQueue _ _ _)).
  - eexists. split; [apply rtc_once, (aq_submit (mkAQueue _ _ _))|]. split; cbn; [|done|done].
    apply Forall2_app; [done|]. by constructor.
  - eexists. split; [apply rtc_once, (aq_cycle (mkAQueue _ _ _))|]. split; cbn; [|done|done].
    apply Forall2_app; [done|]. by constructor.
  - eexists. split; [apply rtc_once, (aq_deliver (mkAQueue _ _ _)), newly_handed_waiting|]. split; cbn; [done| |done].
    by rewrite Hp.
Qed.

Lemma pools_simulated s s' a :
  rtc pool_step s s' -> good s -> represents s a -> exists a', rtc aq_step a a' /\ represents s' a'.
Proof.
  intros H. revert a. induction H as [s|s s1 s2 Hs _ IH]; intros a Hg Ha; [exists a; by split; [apply rtc_refl|]|].
  destruct (pool_step_simulated _ _ _ Hs Hg Ha) as (a1 & H1 & Ha1).
  destruct (IH a1) as (a2 & H2 & Ha2); [by eapply pool_step_good|done|]. exists a2. split; [by etrans|done].
Qed.

(** The machine before any call: what waits in the table waits. *)
Definition aq_start w : aqueue := mkAQueue [] (pending w) [].
Lemma aq_start_represents s : quiet s -> represents s (aq_start (p_world s)).
Proof. intros (Ht & Hh & _). split; cbn; rewrite ?Ht, ?Hh; by try constructor. Qed.
Lemma aq_start_sound s : quiet s -> aq_sound (aq_start (p_world s)).
Proof. by intros (_ & _ & Hu). Qed.

(** Every interleaving is a run of the machine. *)
Lemma pool_refines_queue s0 s :
  quiet s0 -> rtc pool_step s0 s -> exists a, rtc aq_step (aq_start (p_world s0)) a /\ represents s a.
Proof. intros Hq Hs. by eapply pools_simulated; [exact Hs|apply quiet_good|apply aq_start_represents]. Qed.

(** The row of a submission that was answered with success waits or was handed
    over. *)
Lemma acknowledged_secure s0 s1 s2 i spec :
  quiet s0 -> rtc pool_step s0 s1 -> p_threads s1 !! i = Some (EnqueuePool spec) -> rtc pool_step s1 s2 ->
  p_threads s2 !! i = Some (Returned (EnqueueResult JobEnqueueSuccess None)) ->
  exists now, pending_row spec now ∈ pending (p_world s2) \/
    exists p, p ∈ tasks (p_world s2) /\ carries (pending_row spec now) p.
Proof.
  intros Hq H1 Hi1 H2 Hi2. assert (Hg1 : good s1) by by eapply pools_good, quiet_good.
  destruct (pools_simulated _ _ _ H1 (quiet_good _ Hq) (aq_start_represents _ Hq)) as (a1 & Ha1 & Hr1).
  destruct (pools_simulated _ _ _ H2 Hg1 Hr1) as (a2 & Ha2 & Hr2).
  destruct (Forall2_lookup_l _ _ _ _ _ (rep_calls _ _ Hr1) Hi1) as (c1 & Hc1 & Hcall1).
  assert (Hf : call_for c1 spec) by (destruct c1; naive_solver).
  destruct (aq_steps_call _ _ _ _ _ Ha2 Hc1 Hf) as (c2 & Hc2 & Hf2).
  destruct (Forall2_lookup_l _ _ _ _ _ (rep_calls _ _ Hr2) Hi2) as (c2' & Hc2' & Hcall2).
  rewrite Hc2 in Hc2'. injection Hc2' as <-. destruct c2 as [|x st e| |]; try done. cbn in Hf2, Hcall2. subst x.
  destruct Hcall2 as [-> ->].
  assert (Hsound : aq_sound a2) by by eapply aq_steps_sound, aq_steps_sound, aq_start_sound.
  destruct (aq_accepted _ Hsound _ _ Hc2) as [now [Hn|Hn]]; exists now.
  - left. by rewrite <- (rep_waiting _ _ Hr2).
  - right. apply (good_handed s2); [by eapply pools_good|]. by rewrite <- (rep_delivered _ _ Hr2).
Qed.
End Simulation.
