(* ===== verification/Allocation.v ===== *)
(** * Fluxion's allocations: [pkg/types/types.go] and [parseNodes]

    [json.Unmarshal] into the allocation structs, then the loop of
    [parseNodes] ([workers/job.go]) that collects the node names.  The
    decoder follows [encoding/json]: unknown members are skipped, member
    names match a field exactly or up to ASCII case, [null] leaves a scalar
    or struct as it is, repeated members decode into the value already
    there, and a value of the wrong type is remembered as an error while
    decoding goes on. *)

From Stdlib Require Import Ascii.
From stdpp Require Import base option strings gmap numbers list.
From S2P Require Import Prelude GoStrings Json.

(** ** The structs *)

Record Metadata := mkMetadata {
  md_Type : string;
  md_Id : Z;
  md_Rank : Z;
  md_Basename : string;
  md_Exclusive : bool;
  md_Paths : gmap string string
}.

Record Node := mkNode { nd_ID : string; nd_Metadata : Metadata }.
Record Edges := mkEdges { ed_Source : string; ed_Target : string }.
Record Graph := mkGraph { gr_Nodes : list Node; gr_Edges : list Edges }.
Record AllocationResponse := mkAllocation { al_Graph : Graph }.

Definition zero_Metadata : Metadata := mkMetadata "" 0 0 "" false ∅.
Definition zero_Node : Node := mkNode "" zero_Metadata.
Definition zero_Edges : Edges := mkEdges "" "".
Definition zero_Allocation : AllocationResponse := mkAllocation (mkGraph [] []).

(** ** Decoding *)

(** Decode a value into what is already there; the error is the first one
    met. *)
Definition Dec (T : Type) : Type := json -> T -> T * error.

Definition type_error : error := Some (Err "json: cannot unmarshal value into Go value").

Definition dec_string : Dec string := fun j old =>
  match j with JStr s => (s, None) | JNull => (old, None) | _ => (old, type_error) end.

Definition dec_bool : Dec bool := fun j old =>
  match j with JBool b => (b, None) | JNull => (old, None) | _ => (old, type_error) end.

Definition dec_int (bits : Z) : Dec Z := fun j old =>
  match j with
  | JNum l => match ParseInt l bits with (z, None) => (z, None) | _ => (old, type_error) end
  | JNull => (old, None)
  | _ => (old, type_error)
  end.

Definition first_error (a b : error) : error := match a with Some _ => a | None => b end.

(** [map[string]string]: a value of the wrong type leaves the zero string. *)
Definition dec_map : Dec (gmap string string) := fun j old =>
  match j with
  | JObj ms =>
      foldl (fun acc kv => let '(m, e) := acc in
                           let '(v, e') := dec_string kv.2 "" in
                           (<[kv.1 := v]> m, first_error e e')) (old, None) ms
  | JNull => (∅, None)
  | _ => (old, type_error)
  end.

(** A slice: elements decode into the existing ones, then into zero values. *)
Fixpoint dec_elems {T} (d : Dec T) (zero : T) (js : list json) (old : list T) : list T * error :=
  match js with
  | [] => ([], None)
  | j :: js' =>
      let '(x, e) := d j (match old with o :: _ => o | [] => zero end) in
      let '(xs, e') := dec_elems d zero js' (tail old) in
      (x :: xs, first_error e e')
  end.

Definition dec_slice {T} (d : Dec T) (zero : T) : Dec (list T) := fun j old =>
  match j with
  | JArr js => dec_elems d zero js old
  | JNull => ([], None)
  | _ => (old, type_error)
  end.

(** ASCII lower case, for the case-insensitive match of member names. *)
Definition lower_char (c : ascii) : ascii :=
  let n := N_of_ascii c in if ((65 <=? n) && (n <=? 90))%N then ascii_of_N (n + 32) else c.
Fixpoint lower (s : string) : string :=
  match s with "" => "" | String c s' => String (lower_char c) (lower s') end.

(** A struct: [field] decodes the member of a given (lower-case) name. *)
Definition dec_struct {T} (field : string -> json -> T -> T * error) : Dec T := fun j old =>
  match j with
  | JObj ms =>
      foldl (fun acc kv => let '(x, e) := acc in
                           let '(x', e') := field (lower kv.1) kv.2 x in
                           (x', first_error e e')) (old, None) ms
  | JNull => (old, None)
  | _ => (old, type_error)
  end.

Definition into {A T} (d : Dec A) (get : T -> A) (set : A -> T -> T) (j : json) (x : T) : T * error :=
  let '(a, e) := d j (get x) in (set a x, e).

Definition dec_Metadata : Dec Metadata :=
  dec_struct (fun k j x =>
    let '(mkMetadata ty id rk bn ex pa) := x in
    if bool_decide (k = "type") then into dec_string md_Type (fun a _ => mkMetadata a id rk bn ex pa) j x
    else if bool_decide (k = "id") then into (dec_int 32) md_Id (fun a _ => mkMetadata ty a rk bn ex pa) j x
    else if bool_decide (k = "rank") then into (dec_int 32) md_Rank (fun a _ => mkMetadata ty id a bn ex pa) j x
    else if bool_decide (k = "basename") then into dec_string md_Basename (fun a _ => mkMetadata ty id rk a ex pa) j x
    else if bool_decide (k = "exclusive") then into dec_bool md_Exclusive (fun a _ => mkMetadata ty id rk bn a pa) j x
    else if bool_decide (k = "paths") then into dec_map md_Paths (fun a _ => mkMetadata ty id rk bn ex a) j x
    else (x, None)).

Definition dec_Node : Dec Node :=
  dec_struct (fun k j x =>
    if bool_decide (k = "id") then into dec_string nd_ID (fun a x => mkNode a (nd_Metadata x)) j x
    else if bool_decide (k = "metadata") then into dec_Metadata nd_Metadata (fun a x => mkNode (nd_ID x) a) j x
    else (x, None)).

Definition dec_Edges : Dec Edges :=
  dec_struct (fun k j x =>
    if bool_decide (k = "source") then into dec_string ed_Source (fun a x => mkEdges a (ed_Target x)) j x
    else if bool_decide (k = "target") then into dec_string ed_Target (fun a x => mkEdges (ed_Source x) a) j x
    else (x, None)).

Definition dec_Graph : Dec Graph :=
  dec_struct (fun k j x =>
    if bool_decide (k = "nodes") then
      into (dec_slice dec_Node zero_Node) gr_Nodes (fun a x => mkGraph a (gr_Edges x)) j x
    else if bool_decide (k = "edges") then
      into (dec_slice dec_Edges zero_Edges) gr_Edges (fun a x => mkGraph (gr_Nodes x) a) j x
    else (x, None)).

Definition dec_Allocation : Dec AllocationResponse :=
  dec_struct (fun k j x =>
    if bool_decide (k = "graph") then into dec_Graph al_Graph (fun a _ => mkAllocation a) j x
    else (x, None)).

(** [json.Unmarshal] into a zero [AllocationResponse]: the whole text is
    checked first. *)
Definition Unmarshal (s : string) : AllocationResponse * error :=
  match json_parse s with
  | None => (zero_Allocation, Some (Err "invalid character"))
  | Some j => dec_Allocation j zero_Allocation
  end.

(** ** [parseNodes] *)

(** One turn of the loop: the core counts and the node names so far. *)
Definition parse_step (st : gmap string Z * list string) (node : Node) : gmap string Z * list string :=
  let '(nodesWithCores, nodes) := st in
  if bool_decide (md_Type (nd_Metadata node) = "node") then
    let nodeId := md_Basename (nd_Metadata node) in
    let '(nodesWithCores, nodes) :=
      match nodesWithCores !! nodeId with
      | Some _ => (nodesWithCores, nodes)
      | None => (<[nodeId := 0%Z]> nodesWithCores, nodes ++ [nodeId])
      end in
    (<[nodeId := (default 0 (nodesWithCores !! nodeId) + 1)%Z]> nodesWithCores, nodes)
  else st.

Definition parse_loop (ns : list Node) : gmap string Z * list string := foldl parse_step (∅, []) ns.

(** [parseNodes]. *)
Definition parseNodes (allocation : string) : list string * error :=
  let '(graph, err) := Unmarshal allocation in
  match err with
  | Some _ => ([], err)
  | None => ((parse_loop (gr_Nodes (al_Graph graph))).2, None)
  end.

(** The allocation of a core and its node, as Fluxion answers it. *)
Definition sample_allocation : string := dq
  "{'graph': {'nodes': [{'id': '3', 'metadata': {'type': 'core', 'id': 0, 'rank': -1, 'exclusive': true, 'paths': {'containment': '/cluster0/0/kind-worker1/core0'}}}, {'id': '2', 'metadata': {'type': 'node', 'basename': 'kind-worker', 'id': 1, 'rank': -1, 'paths': {'containment': '/cluster0/0/kind-worker1'}}}, {'id': '5', 'metadata': {'type': 'node', 'basename': 'kind-worker', 'id': 1}}, {'id': '4', 'metadata': {'type': 'node', 'basename': 'kind-worker2', 'id': 2}}], 'edges': [{'source': '2', 'target': '3'}]}}".

Example parseNodes_sample : parseNodes sample_allocation = (["kind-worker"; "kind-worker2"], None).
Proof. vm_compute. reflexivity. Qed.
Example parseNodes_type_error : (parseNodes (dq "{'graph': {'nodes': 3}}")).2 = type_error.
Proof. vm_compute. reflexivity. Qed.
Example parseNodes_syntax_error : parseNodes "{" = ([], Some (Err "invalid character")).
Proof. vm_compute. reflexivity. Qed.

(** ** The loop keeps first occurrences *)

(** The names of the vertices of type node, in order. *)
Definition node_names (ns : list Node) : list string :=
  (fun n => md_Basename (nd_Metadata n)) <$> filter (fun n => md_Type (nd_Metadata n) = "node") ns.

(** Reference: keep each element where it first occurs. *)
Definition first_occurrences (l : list string) : list string :=
  foldl (fun acc x => if decide (x ∈ acc) then acc else acc ++ [x]) [] l.

(** The map and the list of the loop describe the names read so far. *)
Record parse_inv (seen : list string) (st : gmap string Z * list string) : Prop := {
  pi_nodes : st.2 = first_occurrences seen;
  pi_count x : st.1 !! x =
    if decide (x ∈ seen) then Some (Z.of_nat (length (filter (eq x) seen))) else None
}.

Lemma first_occurrences_snoc l x :
  first_occurrences (l ++ [x]) =
  if decide (x ∈ first_occurrences l) then first_occurrences l else first_occurrences l ++ [x].
Proof. unfold first_occurrences. by rewrite foldl_app. Qed.

Lemma first_occurrences_spec l :
  NoDup (first_occurrences l) /\ forall x, x ∈ first_occurrences l <-> x ∈ l.
Proof.
  induction l as [|x l [IHn IHe]] using rev_ind.
  - split; [constructor|]. done.
  - rewrite first_occurrences_snoc. destruct (decide _) as [Hx|Hx].
    + split; [done|]. intros y. rewrite elem_of_app, list_elem_of_singleton, <- IHe. naive_solver.
    + split.
      * apply NoDup_app. split; [done|]. split; [|apply NoDup_singleton].
        intros y Hy ->%list_elem_of_singleton. done.
      * intros y. by rewrite !elem_of_app, IHe.
Qed.

Lemma filter_eq_nil (x : string) l : x ∉ l -> filter (eq x) l = [].
Proof.
  intros Hx. destruct (filter (eq x) l) as [|z zs] eqn:E; [done|].
  assert (Hz : z ∈ filter (eq x) l) by (rewrite E; apply list_elem_of_here).
  apply list_elem_of_filter in Hz as [<- Hz]. done.
Qed.

(** Counting one more occurrence of [x]. *)
Lemma count_insert (x : string) seen (m m' : gmap string Z) :
  (forall y, m !! y = if decide (y ∈ seen) then Some (Z.of_nat (length (filter (eq y) seen))) else None) ->
  m' !! x = Some (Z.of_nat (length (filter (eq x) seen))) ->
  (forall y, x <> y -> m' !! y = m !! y) ->
  forall y, <[x := (default 0 (m' !! x) + 1)%Z]> m' !! y =
    if decide (y ∈ seen ++ [x]) then Some (Z.of_nat (length (filter (eq y) (seen ++ [x])))) else None.
Proof.
  intros Hm Hx Hy y. rewrite Hx, filter_app, length_app. destruct (decide (x = y)) as [<-|Hxy].
  - rewrite lookup_insert_eq. destruct (decide (x ∈ seen ++ [x])) as [_|Hn]; [|set_solver].
    rewrite filter_cons_True, filter_nil by done. simpl. f_equal. lia.
  - rewrite lookup_insert_ne by done. rewrite Hy, Hm by done.
    rewrite (filter_cons_False (eq y)), filter_nil by congruence. simpl. rewrite Nat.add_0_r.
    destruct (decide (y ∈ seen)), (decide (y ∈ seen ++ [x])); set_solver.
Qed.

Lemma parse_step_inv seen st n :
  parse_inv seen st ->
  parse_inv (seen ++ node_names [n]) (parse_step st n).
Proof.
  intros [Hn Hc]. destruct st as [m l]. unfold parse_step, node_names. simpl in Hn, Hc.
  destruct (decide (md_Type (nd_Metadata n) = "node")) as [Ht|Ht].
  2:{ rewrite bool_decide_eq_false_2, filter_cons_False, filter_nil by done. simpl. rewrite app_nil_r.
      by split. }
  rewrite bool_decide_eq_true_2, filter_cons_True, filter_nil by done. cbn [fmap list_fmap].
  set (x := md_Basename (nd_Metadata n)).
  pose proof (first_occurrences_spec seen) as [_ Hocc]. pose proof (Hc x) as Hx.
  destruct (decide (x ∈ seen)) as [Hin|Hin]; rewrite Hx; split; cbn [fst snd].
  - rewrite first_occurrences_snoc, decide_True by (by apply Hocc). done.
  - by apply (count_insert x seen m).
  - rewrite first_occurrences_snoc, decide_False by (by rewrite Hocc). by rewrite Hn.
  - apply (count_insert x seen m); [done| |by intros y ?; apply lookup_insert_ne].
    by rewrite lookup_insert_eq, filter_eq_nil.
Qed.

Lemma parse_loop_inv ns : parse_inv (node_names ns) (parse_loop ns).
Proof.
  unfold parse_loop. induction ns as [|n ns IH] using rev_ind.
  - split; [done|]. intros x. simpl. rewrite lookup_empty. done.
  - rewrite foldl_app. simpl.
    assert (node_names (ns ++ [n]) = node_names ns ++ node_names [n]) as ->.
    { unfold node_names. by rewrite filter_app, fmap_app. }
    by apply parse_step_inv.
Qed.

(** C17. On an allocation that [json.Unmarshal] accepts, [parseNodes] returns the
    names of the vertices of type node, each once, in the order in which they
    first occur, and its map counts how often each occurs; on any decoding
    error it returns no nodes and the error. *)
Theorem parseNodes_spec allocation :
  match Unmarshal allocation with
  | (_, Some e) => parseNodes allocation = ([], Some e)
  | (g, None) =>
      let names := node_names (gr_Nodes (al_Graph g)) in
      parseNodes allocation = (first_occurrences names, None) /\
      NoDup (first_occurrences names) /\
      (forall x, x ∈ first_occurrences names <-> x ∈ names) /\
      (forall x, x ∈ names ->
        (parse_loop (gr_Nodes (al_Graph g))).1 !! x = Some (Z.of_nat (length (filter (eq x) names))))
  end.
Proof.
  unfold parseNodes. destruct (Unmarshal allocation) as [g [e|]]; [done|].
  cbv zeta. set (names := node_names _).
  destruct (parse_loop_inv (gr_Nodes (al_Graph g))) as [Hn Hc].
  destruct (first_occurrences_spec names) as [Hd He].
  split; [by rewrite Hn|]. split; [done|]. split; [done|].
  intros x Hx. rewrite Hc. by rewrite decide_True.
Qed.
