(* ===== verification/JobWorker.v ===== *)
(** * The job worker: [pkg/fluxqueue/strategy/workers/job.go]

    One task asks Fluxion for the nodes of one job.  The patch payloads are
    the concatenations of the source; the API server, Fluxion, river and the
    database are the services of the world. *)

From Stdlib Require Import Ascii.
From stdpp Require Import base option strings gmap numbers list pretty.
From S2P Require Import Prelude GoStrings Json Api Kube Database World Mem Allocation.

(** ** Payloads *)

(** [{"metadata": {"labels": {nodes, jobid}}}]. *)
Definition pod_labels_payload (nodesStr jobid : string) : string :=
  dq "{'metadata': {'labels': {'" +:+ NodesLabel +:+ dq "': '" +:+ nodesStr +:+ dq "', '" +:+
  FluxJobIdLabel +:+ dq "': '" +:+ jobid +:+ dq "'}}}".

(** The payload of [unsuspendJob]. *)
Definition unsuspend_payload (nodesStr jobid : string) : string :=
  dq "{'spec': {'suspend': false, 'template': {'metadata': {'labels': {'" +:+ NodesLabel +:+ dq "': '" +:+
  nodesStr +:+ dq "', '" +:+ FluxJobIdLabel +:+ dq "': '" +:+ jobid +:+ dq "'}}}}}".

(** The payload of [ungateSet]. *)
Definition ungate_set_payload (nodesStr jobid : string) : string :=
  dq "{'spec': {'template': {'metadata': {'labels': {'" +:+ NodesLabel +:+ dq "': '" +:+
  nodesStr +:+ dq "', '" +:+ FluxJobIdLabel +:+ dq "': '" +:+ jobid +:+ dq "'}}}}}".

(** The payload of [rejectJob]. *)
Definition reject_job_payload : string :=
  dq "{'spec': {'suspend': false, 'template': {'metadata': {'labels': {'" +:+ UnschedulableLabel +:+
  dq "': 'yes'}}}}}".

(** The payload of [rejectPod]. *)
Definition reject_pod_payload : string :=
  dq "{'metadata': {'labels': {'" +:+ UnschedulableLabel +:+ dq "': 'yes'}}}".

(** The payload of [removeGate]. *)
Definition remove_gate_payload (gateIndex : nat) : string :=
  dq "[{'op': 'remove', 'path': '/spec/schedulingGates/" +:+ Itoa (Z.of_nat gateIndex) +:+ dq "'}]".

(** The payload of [patchUnsuspend]. *)
Definition patch_unsuspend_payload : string :=
  dq "[{'op': 'replace', 'path': '/spec/suspend', 'value': null}]".

(** ** The worker *)

Section JobWorker.
Context {Q C K F R : Type}.
Context `{!DbConn C, !PodClient Q K, !FluxionClient F, !RiverClient R}.
Abbreviation W := (World C K F R).

(** [unsuspendJob]. *)
Definition unsuspendJob (namespace name : string) (nodes : list string) (fluxId : Z) : GoM W error :=
  err ← on_kube (kube_NewForConfig (Q:=Q));
  match err with Some _ => mret err | None =>
  let jobid := Itoa fluxId in
  let nodesStr := Join "__" nodes in
  on_kube (jobs_Patch (Q:=Q) namespace name StrategicMergePatchType (unsuspend_payload nodesStr jobid))
  end.

(** [ungateSet]. *)
Definition ungateSet (namespace name : string) (nodes : list string) (fluxId : Z) : GoM W error :=
  err ← on_kube (kube_NewForConfig (Q:=Q));
  match err with Some _ => mret err | None =>
  let jobid := Itoa fluxId in
  let nodesStr := Join "__" nodes in
  on_kube (statefulsets_Patch (Q:=Q) namespace name StrategicMergePatchType (ungate_set_payload nodesStr jobid))
  end.

(** [patchUnsuspend]. *)
Definition patchUnsuspend (namespace name : string) : GoM W error :=
  on_kube (jobs_Patch (Q:=Q) namespace name JSONPatchType patch_unsuspend_payload).

(** [rejectJob]: the last call gives [patchUnsuspend] the name as namespace
    and the namespace as name. *)
Definition rejectJob (namespace name : string) : GoM W error :=
  err ← on_kube (kube_NewForConfig (Q:=Q));
  match err with Some _ => mret err | None =>
  err ← on_kube (jobs_Patch (Q:=Q) namespace name StrategicMergePatchType reject_job_payload);
  match err with Some _ => mret err | None =>
  patchUnsuspend name namespace
  end end.

(** The search of [removeGate]: the index of the first gate of ours, or the
    initial value 0. *)
Fixpoint find_gate (i : nat) (gates : list string) : option nat :=
  match gates with
  | [] => None
  | gate :: rest => if bool_decide (gate = SchedulingGateName) then Some i else find_gate (S i) rest
  end.
Definition gateIndex (gates : list string) : nat := default 0 (find_gate 0 gates).

(** [removeGate]. *)
Definition removeGate (namespace name : string) : GoM W error :=
  '(pod, err) ← on_kube (pods_Get (Q:=Q) namespace name);
  match err with Some _ => mret err | None =>
  on_kube (pods_Patch (Q:=Q) namespace name JSONPatchType (remove_gate_payload (gateIndex (pod_gates pod))))
  end.

(** [rejectPod]. *)
Definition rejectPod (namespace name : string) : GoM W error :=
  err ← on_kube (kube_NewForConfig (Q:=Q));
  match err with Some _ => mret err | None =>
  err ← on_kube (pods_Patch (Q:=Q) namespace name MergePatchType reject_pod_payload);
  match err with Some _ => mret err | None =>
  removeGate namespace name
  end end.

(** [ungatePod]: inserts the task that ungates. *)
Definition ungatePod (namespace name jobType : string) (nodes : list string) (fluxId : Z) : GoM W error :=
  on_river (river_Insert (AUngate (mkUngateArgs name jobType namespace nodes fluxId))
                         (mkInsertOpts 0 ["ungate"] "task_queue")).

(** [reserveJob]. *)
Definition reserveJob (args : JobArgs) (fluxID : Z) : GoM W error :=
  err ← on_conn pool_New;
  match err with Some e => mret (Some (Err ("issue creating new pool: " +:+ error_text e))) | None =>
  sql_exec (fun db => AddReservationQuery db (ja_Name args) fluxID)
  end.

(** [markUnschedulable]. *)
Definition markUnschedulable (args : JobArgs) : GoM W error :=
  if bool_decide (ja_Type args = JobWrapped_String JobWrappedJob) then
    rejectJob (ja_Namespace args) (ja_Name args)
  else if bool_decide (ja_Type args = JobWrapped_String JobWrappedPod) then
    rejectPod (ja_Namespace args) (ja_Name args)
  else mret None.

(** [releaseJob]: the error of [ungatePod] is dropped. *)
Definition releaseJob (args : JobArgs) (fluxID : Z) (nodes : list string) : GoM W error :=
  if bool_decide (ja_Type args = JobWrapped_String JobWrappedJob) then
    unsuspendJob (ja_Namespace args) (ja_Name args) nodes fluxID
  else if bool_decide (ja_Type args = JobWrapped_String JobWrappedDeployment) ||
          bool_decide (ja_Type args = JobWrapped_String JobWrappedPod) ||
          bool_decide (ja_Type args = JobWrapped_String JobWrappedReplicaSet) ||
          bool_decide (ja_Type args = JobWrapped_String JobWrappedStatefulSet) then
    _ ← ungatePod (ja_Namespace args) (ja_Name args) (ja_Type args) nodes fluxID;
    mret None
  else
    mret (Some (Err ("unknown job type " +:+ ja_Type args +:+ " passed to fluxion schedule for job " +:+
                     ja_Namespace args +:+ "/" +:+ ja_Name args))).

Definition unsatisfiable (args : JobArgs) : goerr :=
  ErrJobCancel (Err ("fluxion could not allocate nodes for " +:+ ja_Namespace args +:+ "/" +:+ ja_Name args +:+
                     ", likely Unsatisfiable")).
Definition not_allocated (args : JobArgs) : goerr :=
  Err ("fluxion could not allocate nodes for job " +:+ ja_Namespace args +:+ "/" +:+ ja_Name args).

Definition match_request (args : JobArgs) : MatchRequest :=
  mkMatchRequest (ja_Jobspec args) (ja_Reservation args =? 1)%Z.

(** [JobWorker.Work]. *)
Definition Work (args : JobArgs) : GoM W error :=
  let request := match_request args in
  err ← on_fluxion fluxion_NewClient;
  match err with Some _ => mret err | None =>
  '(response, err) ← on_fluxion (fluxion_Match request);
  match err with Some _ => mret err | None =>
  if (ja_Reservation args =? 1)%Z && negb (mr_Reserved response) && bool_decide (mr_Allocation response = "") then
    _ ← markUnschedulable args;
    mret (Some (unsatisfiable args))
  else
    let fluxID := mr_Jobid response in
    _ ← (if mr_Reserved response then reserveJob args fluxID else mret None);
    if bool_decide (mr_Allocation response = "") then mret (Some (not_allocated args)) else
    let '(nodes, err) := parseNodes (mr_Allocation response) in
    match err with
    | Some _ => mret err
    | None => releaseJob args fluxID nodes
    end
  end end.
End JobWorker.

Arguments Work Q {C K F R} {_ _ _ _} args.
Arguments removeGate Q {C K F R} {_} namespace name.
Arguments rejectPod Q {C K F R} {_} namespace name.
Arguments rejectJob Q {C K F R} {_} namespace name.
Arguments releaseJob Q {C K F R} {_ _} args fluxID nodes.
Arguments markUnschedulable Q {C K F R} {_} args.
Arguments unsuspendJob Q {C K F R} {_} namespace name nodes fluxId.
Arguments patchUnsuspend Q {C K F R} {_} namespace name.

(** ** The payloads are the JSON they are meant to be *)

Lemma plain_Join sep nodes :
  plain sep = true -> Forall (fun n => plain n = true) nodes -> plain (Join sep nodes) = true.
Proof.
  intros Hs Hn. induction Hn as [|n nodes Hn Hns IH]; [done|].
  destruct nodes; [done|]. cbn [Join]. rewrite !plain_app, Hn, Hs. exact IH.
Qed.

Lemma plain_digit c d : digit_of c = Some d -> plain_char c = true.
Proof.
  unfold digit_of, plain_char. set (n := N_of_ascii c). intros H.
  assert (48 <= n <= 57)%N as Hb.
  { destruct (Z.leb_spec 48 (Z.of_N n)), (Z.leb_spec (Z.of_N n) 57); simpl in H; (lia || done). }
  assert (Hne : forall a : ascii, (N_of_ascii a < 48 \/ 57 < N_of_ascii a)%N -> c <> a).
  { intros a Ha ->. lia. }
  rewrite !bool_decide_eq_false_2 by (apply Hne; vm_compute; auto).
  destruct (N.ltb_spec n 32); [lia|done].
Qed.

Lemma plain_Itoa z : plain (Itoa z) = true.
Proof.
  assert (Hgo : forall x s, plain s = true -> plain (pretty_N_go x s) = true).
  { intros x. induction (N.lt_wf_0 x) as [x _ IH]; intros s Hs.
    destruct (decide (x = 0)%N) as [->|Hx]; [done|]. rewrite pretty_N_go_step by lia.
    apply IH; [apply N.div_lt; lia|]. simpl. rewrite Hs, andb_true_r. eapply plain_digit.
    apply digit_of_pretty, N.mod_lt. lia. }
  assert (HN : forall n : N, plain (pretty n) = true).
  { intros n. unfold pretty, pretty_N. destruct (decide (n = 0)%N); [done|]. by apply Hgo. }
  unfold Itoa. destruct z as [|p|p]; [apply (HN 0%N)|apply (HN (Npos p))|].
  change (pretty (Z.neg p)) with (String "-" (pretty (Npos p))). simpl. apply (HN (Npos p)).
Qed.

(** Labels under [spec.template.metadata], as the job patches carry them. *)
Definition template_labels (ms : list (string * string)) : json :=
  JObj [("metadata", JObj [("labels", JObj ((fun kv => (kv.1, JStr kv.2)) <$> ms))])].

Definition assignment (nodes : list string) (id : Z) : list (string * string) :=
  [(NodesLabel, Join "__" nodes); (FluxJobIdLabel, Itoa id)].

Lemma pod_labels_payload_print a b :
  pod_labels_payload a b = print_json (labels_body [(NodesLabel, a); (FluxJobIdLabel, b)]).
Proof.
  unfold pod_labels_payload, labels_body, quote. cbn [print_json fmap list_fmap Join fst snd].
  unfold quote. repeat (rewrite string_app_cons || rewrite string_app_assoc). reflexivity.
Qed.

Lemma unsuspend_payload_print a b :
  unsuspend_payload a b = print_json (JObj [("spec", JObj [("suspend", JBool false);
     ("template", template_labels [(NodesLabel, a); (FluxJobIdLabel, b)])])]).
Proof.
  unfold unsuspend_payload, template_labels. cbn [print_json fmap list_fmap Join fst snd].
  unfold quote. repeat (rewrite string_app_cons || rewrite string_app_assoc). reflexivity.
Qed.

Lemma remove_gate_payload_print i : remove_gate_payload i = print_json (remove_gate_body i).
Proof.
  unfold remove_gate_payload, remove_gate_body. cbn [print_json fmap list_fmap Join fst snd].
  unfold quote. repeat (rewrite string_app_cons || rewrite string_app_assoc). reflexivity.
Qed.

Lemma remove_gate_payload_parse i : json_parse (remove_gate_payload i) = Some (remove_gate_body i).
Proof.
  rewrite remove_gate_payload_print. apply json_parse_print.
  cbn [plain_json remove_gate_body forallb fst snd]. rewrite plain_app, plain_Itoa. done.
Qed.

Lemma pod_labels_payload_parse a b :
  plain a = true -> plain b = true ->
  json_parse (pod_labels_payload a b) = Some (labels_body [(NodesLabel, a); (FluxJobIdLabel, b)]).
Proof.
  intros Ha Hb. rewrite pod_labels_payload_print. apply json_parse_print.
  cbn [plain_json labels_body forallb fst snd fmap list_fmap]. by rewrite Ha, Hb.
Qed.

(** C26. The payloads built by concatenation are valid JSON with exactly the
    intended content, for every Fluxion id and all node names that need no
    escape: the pod patch sets the two labels, the job patch also unsuspends,
    the gate patch removes one list index; the two rejection patches set the
    unschedulable label. *)
Theorem payloads_denote nodes id i :
  Forall (fun n => plain n = true) nodes ->
  json_parse (pod_labels_payload (Join "__" nodes) (Itoa id)) = Some (labels_body (assignment nodes id)) /\
  json_parse (unsuspend_payload (Join "__" nodes) (Itoa id)) =
    Some (JObj [("spec", JObj [("suspend", JBool false); ("template", template_labels (assignment nodes id))])]) /\
  json_parse (remove_gate_payload i) = Some (remove_gate_body i) /\
  json_parse reject_pod_payload = Some (labels_body [(UnschedulableLabel, "yes")]) /\
  json_parse reject_job_payload =
    Some (JObj [("spec", JObj [("suspend", JBool false); ("template", template_labels [(UnschedulableLabel, "yes")])])]).
Proof.
  intros Hn. assert (Hj : plain (Join "__" nodes) = true) by by apply plain_Join.
  pose proof (plain_Itoa id) as Hi.
  split; [by apply pod_labels_payload_parse|]. split.
  { rewrite unsuspend_payload_print. apply json_parse_print.
    unfold template_labels. simpl. by rewrite Hj, Hi. }
  split; [apply remove_gate_payload_parse|].
  split; vm_compute; reflexivity.
Qed.

Lemma payloads_denote_witness :
  json_parse (pod_labels_payload (Join "__" ["a"; "b"]) (Itoa 7)) = Some (labels_body (assignment ["a"; "b"] 7)) /\
  json_parse (unsuspend_payload (Join "__" ["a"; "b"]) (Itoa 7)) =
    Some (JObj [("spec", JObj [("suspend", JBool false); ("template", template_labels (assignment ["a"; "b"] 7))])]) /\
  json_parse (remove_gate_payload 2) = Some (remove_gate_body 2) /\
  json_parse reject_pod_payload = Some (labels_body [(UnschedulableLabel, "yes")]) /\
  json_parse reject_job_payload =
    Some (JObj [("spec", JObj [("suspend", JBool false); ("template", template_labels [(UnschedulableLabel, "yes")])])]).
Proof. apply (payloads_denote ["a"; "b"] 7 2). repeat constructor. Defined.

(** ** Calls of the worker *)

Section JobWorkerFacts.
Context {Q C K F R : Type}.
Context `{!DbConn C, !PodClient Q K, !FluxionClient F, !RiverClient R}.
Implicit Types w : World C K F R.

Lemma on_kube_eq {A} (f : K -> A * K) w :
  on_kube f w = (Ret (f (w_kube w)).1, set_kube w (f (w_kube w)).2).
Proof. unfold on_kube. by destruct (f (w_kube w)). Qed.
Lemma on_fluxion_eq {A} (f : F -> A * F) w :
  on_fluxion f w = (Ret (f (w_fluxion w)).1, set_fluxion w (f (w_fluxion w)).2).
Proof. unfold on_fluxion. by destruct (f (w_fluxion w)). Qed.
Lemma on_river_eq {A} (f : R -> A * R) w :
  on_river f w = (Ret (f (w_river w)).1, set_river w (f (w_river w)).2).
Proof. unfold on_river. by destruct (f (w_river w)). Qed.
Lemma on_conn_eq {A} (f : C -> A * C) w :
  on_conn f w = (Ret (f (w_conn w)).1, set_conn w (f (w_conn w)).2).
Proof. unfold on_conn. by destruct (f (w_conn w)). Qed.

(** [w'] is [w] with another API server state. *)
Definition kube_only w w' : Prop := exists k, w' = set_kube w k.

Lemma kube_only_refl w : kube_only w w.
Proof. exists (w_kube w). by destruct w. Qed.
Lemma kube_only_set w k : kube_only w (set_kube w k).
Proof. by exists k. Qed.
Lemma kube_only_trans w1 w2 w3 : kube_only w1 w2 -> kube_only w2 w3 -> kube_only w1 w3.
Proof. intros [k1 ->] [k2 ->]. by exists k2. Qed.

(** [m] returns and touches the API server only. *)
Definition kube_call {A} (m : GoM (World C K F R) A) : Prop :=
  forall w, exists a w', m w = (Ret a, w') /\ kube_only w w'.

Lemma kube_call_ret {A} (a : A) : kube_call (mret a).
Proof. intros w. eexists _, _. split; [reflexivity|]. apply kube_only_refl. Qed.
Lemma kube_call_on {A} (f : K -> A * K) : kube_call (on_kube f).
Proof. intros w. rewrite on_kube_eq. eexists _, _. split; [reflexivity|]. apply kube_only_set. Qed.
Lemma kube_call_bind {A B} (m : GoM _ A) (k : A -> GoM _ B) :
  kube_call m -> (forall a, kube_call (k a)) -> kube_call (m ≫= k).
Proof.
  intros Hm Hk w. rewrite run_bind. destruct (Hm w) as (a & w1 & -> & H1).
  destruct (Hk a w1) as (b & w2 & -> & H2). eexists _, _. split; [reflexivity|].
  by eapply kube_only_trans.
Qed.
End JobWorkerFacts.

#[export] Hint Resolve kube_call_ret kube_call_on kube_call_bind : flux.

(** Walk through a sequence of API calls with early returns. *)
Ltac kube_walk :=
  repeat match goal with
    | |- kube_call (mbind _ _) => apply kube_call_bind; [|intros ?]
    | |- kube_call (mret _) => apply kube_call_ret
    | |- kube_call (on_kube _) => apply kube_call_on
    | |- kube_call (match ?x with _ => _ end) => destruct x
    | |- kube_call (if ?x then _ else _) => destruct x
    end.

(** ** What one task does, by Fluxion's answer *)

Section WorkFacts.
Context {Q C K F R : Type}.
Context `{!DbConn C, !PodClient Q K, !FluxionClient F, !RiverClient R}.
Implicit Types w : World C K F R.

(** Fluxion could be reached and gave the answer [resp]. *)
Definition answers w (args : JobArgs) (resp : MatchResponse) (f : F) : Prop :=
  exists f1, fluxion_NewClient (w_fluxion w) = (None, f1) /\
             fluxion_Match (match_request args) f1 = ((resp, None), f).

(** The job asked for a reservation and got neither it nor an allocation. *)
Definition impossible (args : JobArgs) (resp : MatchResponse) : bool :=
  (ja_Reservation args =? 1)%Z && negb (mr_Reserved resp) && bool_decide (mr_Allocation resp = "").

(** The rest of [Work] after the answer. *)
Lemma Work_answered args w resp f :
  answers w args resp f ->
  Work Q args w =
  (if impossible args resp then
     _ ← markUnschedulable Q args; mret (Some (unsatisfiable args))
   else
     _ ← (if mr_Reserved resp then reserveJob args (mr_Jobid resp) else mret None);
     if bool_decide (mr_Allocation resp = "") then mret (Some (not_allocated args)) else
     let '(nodes, err) := parseNodes (mr_Allocation resp) in
     match err with Some _ => mret err | None => releaseJob Q args (mr_Jobid resp) nodes end)
  (set_fluxion w f).
Proof.
  intros (f1 & H1 & H2). unfold Work. rewrite run_bind, on_fluxion_eq, H1. cbn.
  rewrite run_bind, on_fluxion_eq. cbn. rewrite H2. cbn. done.
Qed.

Lemma markUnschedulable_call args : kube_call (C:=C) (F:=F) (R:=R) (markUnschedulable Q args).
Proof. unfold markUnschedulable, rejectJob, rejectPod, patchUnsuspend, removeGate. kube_walk. Qed.

Lemma unsuspendJob_call ns n nodes id : kube_call (C:=C) (F:=F) (R:=R) (unsuspendJob Q ns n nodes id).
Proof. unfold unsuspendJob. kube_walk. Qed.

(** [reserveJob] writes the reservations table only. *)
Lemma reserveJob_effect args id w :
  exists e w', reserveJob args id w = (Ret e, w') /\
    w_kube w' = w_kube w /\ w_fluxion w' = w_fluxion w /\ w_river w' = w_river w /\
    w_locked w' = w_locked w /\ pending_queue (w_db w') = pending_queue (w_db w) /\
    (e = None -> reservations (w_db w') = reservations (w_db w) ++ [mkReservation (ja_Name args) id]).
Proof.
  unfold reserveJob. rewrite run_bind, on_conn_eq.
  destruct (pool_New (w_conn w)).1 as [e|]; cbn; [by eexists _, _|].
  unfold sql_exec, AddReservationQuery. cbn.
  destruct (db_fate _) as [[|e|e] c]; destruct (int4_ok id); by eexists _, _.
Qed.

Lemma reserve_branch_effect (b : bool) args id w :
  exists e w', (if b then reserveJob args id else mret None) w = (Ret e, w') /\
    w_kube w' = w_kube w /\ w_fluxion w' = w_fluxion w /\ w_river w' = w_river w /\
    w_locked w' = w_locked w /\ pending_queue (w_db w') = pending_queue (w_db w) /\
    (b = false -> w_db w' = w_db w).
Proof.
  destruct b; [|by eexists _, _].
  destruct (reserveJob_effect args id w) as (e & w' & -> & ?). eexists _, _. split; [reflexivity|].
  naive_solver.
Qed.

(** The object kinds whose pods are gated one by one. *)
Definition gated_type (args : JobArgs) : Prop :=
  ja_Type args = JobWrapped_String JobWrappedPod \/ ja_Type args = JobWrapped_String JobWrappedDeployment \/
  ja_Type args = JobWrapped_String JobWrappedReplicaSet \/ ja_Type args = JobWrapped_String JobWrappedStatefulSet.

Definition ungate_task (args : JobArgs) (nodes : list string) (id : Z) : InsertManyParams :=
  mkParams (AUngate (mkUngateArgs (ja_Name args) (ja_Type args) (ja_Namespace args) nodes id))
           (mkInsertOpts 0 ["ungate"] "task_queue").

Lemma releaseJob_gated args id nodes w :
  gated_type args ->
  releaseJob Q args id nodes w =
  (Ret None, set_river w (river_Insert (im_Args (ungate_task args nodes id))
                                       (im_Opts (ungate_task args nodes id)) (w_river w)).2).
Proof.
  intros Ht. unfold releaseJob.
  destruct (bool_decide (ja_Type args = JobWrapped_String JobWrappedJob)) eqn:E1.
  { apply bool_decide_eq_true in E1. unfold gated_type in Ht. rewrite E1 in Ht. exfalso. revert Ht. vm_compute. naive_solver. }
  destruct (_ || _) eqn:E2.
  - rewrite run_bind. unfold ungatePod. by rewrite on_river_eq.
  - exfalso. revert E2. rewrite !orb_false_iff, !bool_decide_eq_false. unfold gated_type in Ht. tauto.
Qed.

Lemma releaseJob_returns args id nodes w :
  exists e w', releaseJob Q args id nodes w = (Ret e, w') /\ w_db w' = w_db w /\ w_locked w' = w_locked w.
Proof.
  unfold releaseJob. destruct (bool_decide _).
  { destruct (unsuspendJob_call (ja_Namespace args) (ja_Name args) nodes id w) as (e & w' & -> & [k ->]).
    by eexists _, _. }
  destruct (_ || _); [|by eexists _, _]. rewrite run_bind. unfold ungatePod. rewrite on_river_eq.
  by eexists _, _.
Qed.

(** C20. Every run of a job task returns, whatever the services answer: it never
    panics, never touches the pending table, and leaves the queue's lock as it
    was. *)
Theorem Work_returns args w :
  exists e w', Work Q args w = (Ret e, w') /\
    pending_queue (w_db w') = pending_queue (w_db w) /\ w_locked w' = w_locked w.
Proof.
  destruct (fluxion_NewClient (w_fluxion w)) as [[e|] f1] eqn:H1.
  { unfold Work. rewrite run_bind, on_fluxion_eq, H1. by eexists _, _. }
  destruct (fluxion_Match (match_request args) f1) as [[resp [e|]] f] eqn:H2.
  { unfold Work. rewrite run_bind, on_fluxion_eq, H1. cbn. rewrite run_bind, on_fluxion_eq. cbn. rewrite H2.
    by eexists _, _. }
  rewrite (Work_answered args w resp f) by (by exists f1). destruct (impossible args resp).
  - rewrite run_bind. destruct (markUnschedulable_call args (set_fluxion w f)) as (e & w' & -> & [k ->]).
    by eexists _, _.
  - rewrite run_bind.
    destruct (reserve_branch_effect (mr_Reserved resp) args (mr_Jobid resp) (set_fluxion w f))
      as (e & w' & -> & _ & _ & _ & Hl & Hp & _).
    destruct (bool_decide _); [by eexists _, _|].
    destruct (parseNodes _) as [nodes [e'|]]; [by eexists _, _|].
    destruct (releaseJob_returns args (mr_Jobid resp) nodes w') as (e2 & w2 & -> & Hd & Hl2).
    eexists _, _. split; [reflexivity|]. rewrite Hd. split; [done|]. by rewrite Hl2.
Qed.

(** C23. Without an allocation no task is inserted and an error is returned.  If
    the job asked for a reservation and did not get one, the error cancels the
    task (river does not retry it); otherwise it is an ordinary error, so the
    task is tried again, and the cluster is untouched. *)
Theorem Work_unallocated args w resp f :
  answers w args resp f -> mr_Allocation resp = "" ->
  exists e w', Work Q args w = (Ret (Some e), w') /\ w_river w' = w_river w /\
    (if impossible args resp then e = unsatisfiable args /\ w_db w' = w_db w
     else e = not_allocated args /\ w_kube w' = w_kube w /\
          (mr_Reserved resp = false -> w_db w' = w_db w)).
Proof.
  intros Ha He. rewrite (Work_answered _ _ _ _ Ha). destruct (impossible args resp).
  - rewrite run_bind. destruct (markUnschedulable_call args (set_fluxion w f)) as (e & w' & -> & [k ->]).
    by eexists _, _.
  - rewrite run_bind.
    destruct (reserve_branch_effect (mr_Reserved resp) args (mr_Jobid resp) (set_fluxion w f))
      as (e & w' & -> & Hk & _ & Hr & _ & _ & Hd).
    rewrite bool_decide_eq_true_2 by done. eexists _, _. split; [reflexivity|]. done.
Qed.

(** C22. With an allocation for a pod, deployment, replica set or stateful set,
    the task hands the node names of the allocation and Fluxion's id to
    exactly one ungate task and returns no error: also when inserting that
    task failed, since the result of the insertion is dropped. *)
Theorem Work_allocated_gated args w resp f nodes :
  answers w args resp f -> mr_Reserved resp = false -> mr_Allocation resp <> "" ->
  parseNodes (mr_Allocation resp) = (nodes, None) -> gated_type args ->
  Work Q args w =
  (Ret None, set_river (set_fluxion w f)
     (river_Insert (AUngate (mkUngateArgs (ja_Name args) (ja_Type args) (ja_Namespace args) nodes (mr_Jobid resp)))
                   (mkInsertOpts 0 ["ungate"] "task_queue") (w_river w)).2).
Proof.
  intros Ha Hr He Hp Ht. rewrite (Work_answered _ _ _ _ Ha). unfold impossible.
  rewrite (bool_decide_eq_false_2 _ He), andb_false_r, Hr, run_bind. cbn. rewrite Hp.
  by rewrite releaseJob_gated.
Qed.

(** C21. With an allocation for a Kubernetes job, the task's result is that of one
    patch of that job, whose payload unsuspends it and carries the node names
    and Fluxion's id; an unknown kind of object is an error and nothing is
    released. *)
Theorem Work_allocated_job args w resp f nodes :
  answers w args resp f -> mr_Reserved resp = false -> mr_Allocation resp <> "" ->
  parseNodes (mr_Allocation resp) = (nodes, None) ->
  (ja_Type args = JobWrapped_String JobWrappedJob -> forall k1,
     kube_NewForConfig (Q:=Q) (w_kube w) = (None, k1) ->
     let r := jobs_Patch (Q:=Q) (ja_Namespace args) (ja_Name args) StrategicMergePatchType
                (unsuspend_payload (Join "__" nodes) (Itoa (mr_Jobid resp))) k1 in
     Work Q args w = (Ret r.1, set_kube (set_fluxion w f) r.2)) /\
  (ja_Type args <> JobWrapped_String JobWrappedJob -> ~ gated_type args ->
     exists msg, Work Q args w = (Ret (Some (Err msg)), set_fluxion w f)).
Proof.
  intros Ha Hr He Hp. rewrite (Work_answered _ _ _ _ Ha). unfold impossible.
  rewrite (bool_decide_eq_false_2 _ He), andb_false_r, Hr, run_bind. cbn. rewrite Hp.
  split.
  - intros Ht k1 Hk. unfold releaseJob. rewrite bool_decide_eq_true_2 by done.
    unfold unsuspendJob. rewrite run_bind, on_kube_eq. cbn. rewrite Hk. cbn. by rewrite on_kube_eq.
  - intros Ht Hg. unfold releaseJob. rewrite bool_decide_eq_false_2 by done.
    unfold gated_type in Hg. rewrite !bool_decide_eq_false_2 by tauto. by eexists.
Qed.

(** A deployment, replica set or stateful set that Fluxion can never place is
    cancelled without a trace in the cluster: no pod is labelled unschedulable
    and no gate is removed, so its pods stay gated. *)
Theorem Work_group_unsatisfiable args w resp f :
  answers w args resp f -> impossible args resp = true ->
  ja_Type args <> JobWrapped_String JobWrappedJob -> ja_Type args <> JobWrapped_String JobWrappedPod ->
  Work Q args w = (Ret (Some (unsatisfiable args)), set_fluxion w f).
Proof.
  intros Ha Hi Hj Hp. rewrite (Work_answered _ _ _ _ Ha), Hi, run_bind. unfold markUnschedulable.
  by rewrite !bool_decide_eq_false_2.
Qed.

(** Rejecting a job ends with a patch of the object named like the namespace
    in the namespace named like the job, instead of the job itself; so on a
    server that has no such job the rejection reports its error although the
    job exists. *)
Theorem rejectJob_swaps_arguments namespace name w k1 k2 :
  kube_NewForConfig (Q:=Q) (w_kube w) = (None, k1) ->
  jobs_Patch (Q:=Q) namespace name StrategicMergePatchType reject_job_payload k1 = (None, k2) ->
  let r := jobs_Patch (Q:=Q) name namespace JSONPatchType patch_unsuspend_payload k2 in
  rejectJob Q namespace name w = (Ret r.1, set_kube w r.2).
Proof.
  intros H1 H2. unfold rejectJob. rewrite run_bind, on_kube_eq, H1. cbn.
  rewrite run_bind, on_kube_eq. cbn. rewrite H2. cbn. unfold patchUnsuspend. by rewrite on_kube_eq.
Qed.
End WorkFacts.

(** ** Runs on the in-memory services *)

Abbreviation MemoryWorld := (World UpConn (MemKube Z) MemFluxion MemRiver).

(** A world whose Fluxion gives one answer. *)
Definition answering (jobs : list (string * string)) (resp : MatchResponse) : MemoryWorld :=
  mkWorld (mkUpConn 0) (mkDatabase [] [])
    (mkMemKube ∅ (list_to_map ((fun k => (k, mkJob (mkMeta k.2 k.1 None) (Some true) None
                                    (mkTemplate (mkMeta "" "" None) (mkPodSpec [] "" [] [] None None)))) <$> jobs)) ∅)
    (mkMemFluxion [(resp, None)] []) [] false.

Definition task_for (t : JobWrapped) (reservation : Z) : JobArgs :=
  mkJobArgs "jobspec" "app" "default" (GetJobName t "app") (JobWrapped_String t) reservation 0 2 "".

Definition refusal : MatchResponse := mkMatchResponse "" 0 false.
Definition grant : MatchResponse := mkMatchResponse sample_allocation 7 false.

Lemma answering_answers jobs resp args :
  answers (answering jobs resp) args resp (mkMemFluxion [] []).
Proof. eexists. split; reflexivity. Defined.

Lemma Work_unallocated_witness :
  exists e w', Work Z (task_for JobWrappedPod 1) (answering [] refusal) = (Ret (Some e), w') /\
    w_river w' = [] /\ e = unsatisfiable (task_for JobWrappedPod 1) /\ w_db w' = mkDatabase [] [].
Proof.
  exact (Work_unallocated (Q:=Z) _ _ _ _ (answering_answers [] refusal (task_for JobWrappedPod 1)) eq_refl).
Defined.

Lemma Work_allocated_gated_witness :
  Work Z (task_for JobWrappedDeployment 0) (answering [] grant) =
  (Ret None, set_river (set_fluxion (answering [] grant) (mkMemFluxion [] []))
     [mkParams (AUngate (mkUngateArgs "app" "2" "default" (parseNodes sample_allocation).1 7))
               (mkInsertOpts 0 ["ungate"] "task_queue")]).
Proof.
  assert (Hne : mr_Allocation grant <> "") by (vm_compute; discriminate).
  assert (Hp : parseNodes (mr_Allocation grant) = ((parseNodes sample_allocation).1, None))
    by (vm_compute; reflexivity).
  exact (Work_allocated_gated (Q:=Z) _ _ _ _ _ (answering_answers [] grant (task_for JobWrappedDeployment 0))
           eq_refl Hne Hp (or_intror (or_introl eq_refl))).
Defined.

Lemma Work_allocated_job_witness :
  Work Z (task_for JobWrappedJob 0) (answering [("default", "app")] grant) =
    (Ret None, set_fluxion (answering [("default", "app")] grant) (mkMemFluxion [] [])).
Proof.
  assert (Hne : mr_Allocation grant <> "") by (vm_compute; discriminate).
  assert (Hp : parseNodes (mr_Allocation grant) = ((parseNodes sample_allocation).1, None))
    by (vm_compute; reflexivity).
  exact (proj1 (Work_allocated_job (Q:=Z) _ _ _ _ _
           (answering_answers [("default", "app")] grant (task_for JobWrappedJob 0)) eq_refl Hne Hp)
           eq_refl _ eq_refl).
Defined.

Lemma Work_group_unsatisfiable_witness :
  Work Z (task_for JobWrappedStatefulSet 1) (answering [] refusal) =
  (Ret (Some (unsatisfiable (task_for JobWrappedStatefulSet 1))),
   set_fluxion (answering [] refusal) (mkMemFluxion [] [])).
Proof.
  apply (Work_group_unsatisfiable (Q:=Z) _ _ _ _ (answering_answers [] refusal (task_for JobWrappedStatefulSet 1)));
    vm_compute; (reflexivity || discriminate).
Defined.

Lemma rejectJob_swaps_arguments_witness :
  rejectJob Z "default" "app" (answering [("default", "app")] refusal) =
    (Ret (Some (ErrNotFound "default")), answering [("default", "app")] refusal).
Proof.
  exact (rejectJob_swaps_arguments (Q:=Z) "default" "app" (answering [("default", "app")] refusal) _ _
           eq_refl eq_refl).
Defined.
