(* ===== verification/UngateWorker.v ===== *)
(** * The ungate worker: [pkg/fluxqueue/strategy/workers/ungate.go]

    Labels the gated pods of one object with their nodes and removes their
    scheduling gates.  The theorems are proved against the laws of the API
    server ([PodLaws]), from the payload texts down to the stored pods. *)

From Stdlib Require Import Ascii.
From stdpp Require Import base option strings gmap numbers list.
From S2P Require Import Prelude GoStrings Json Api Kube Database World Mem Allocation JobWorker.

(** ** The worker *)

(** The label value that the pods of one workload share. *)
Definition selector_value (kind name namespace : string) : string :=
  kind +:+ "-" +:+ name +:+ "-" +:+ namespace.

(** The selector of [Work], empty for an unknown type. *)
Definition ungate_selector (args : UngateArgs) : string :=
  if bool_decide (ua_Type args = JobWrapped_String JobWrappedDeployment) then
    SelectorLabel +:+ "=" +:+ selector_value "deployment" (ua_Name args) (ua_Namespace args)
  else if bool_decide (ua_Type args = JobWrapped_String JobWrappedReplicaSet) then
    SelectorLabel +:+ "=" +:+ selector_value "replicaset" (ua_Name args) (ua_Namespace args)
  else if bool_decide (ua_Type args = JobWrapped_String JobWrappedStatefulSet) then
    SelectorLabel +:+ "=" +:+ selector_value "statefulset" (ua_Name args) (ua_Namespace args)
  else "".

(** The inner loop of [Work]: the pod still carries our gate. *)
Definition is_gated {Q} (p : Pod Q) : bool :=
  existsb (fun gate => bool_decide (gate = SchedulingGateName)) (pod_gates p).

Section UngateWorker.
Context {Q C K F R : Type}.
Context `{!PodClient Q K}.
Abbreviation W := (World C K F R).

(** The loop over [pods.Items], from index [i]; [total] is [len(pods.Items)].
    [None] is the loop's normal end. *)
Fixpoint ungate_loop (args : UngateArgs) (jobid : string) (total i : nat) (pods : list (Pod Q)) : GoM W error :=
  match pods with
  | [] => mret None
  | pod :: rest =>
      if total <=? i then mret None
      else if negb (is_gated pod) then ungate_loop args jobid total (S i) rest
      else
        match ua_Nodes args !! i with
        | None => panic "index out of range"
        | Some node =>
            err ← on_kube (pods_Patch (Q:=Q) (ua_Namespace args) (om_Name (p_meta pod)) MergePatchType
                                      (pod_labels_payload node jobid));
            match err with Some _ => mret err | None =>
            err ← removeGate Q (om_Namespace (p_meta pod)) (om_Name (p_meta pod));
            match err with Some _ => mret err | None =>
            ungate_loop args jobid total (S i) rest
            end end
        end
  end.

(** [UngateWorker.Work]. *)
Definition ungate_Work (args : UngateArgs) : GoM W error :=
  let jobid := Itoa (ua_JobID args) in
  err ← on_kube (kube_NewForConfig (Q:=Q));
  match err with Some _ => mret err | None =>
  if bool_decide (ua_Type args = JobWrapped_String JobWrappedPod) then
    let nodesStr := Join "__" (ua_Nodes args) in
    err ← on_kube (pods_Patch (Q:=Q) (ua_Namespace args) (ua_Name args) MergePatchType
                              (pod_labels_payload nodesStr jobid));
    match err with Some _ => mret err | None =>
    removeGate Q (ua_Namespace args) (ua_Name args)
    end
  else
    '(pods, err) ← on_kube (pods_List (Q:=Q) (ua_Namespace args) (ungate_selector args));
    match err with Some _ => mret err | None =>
    err ← ungate_loop args jobid (length pods) 0 pods;
    match err with Some _ => mret err | None =>
    if length pods <? length (ua_Nodes args)
    then mret (Some (Err "ungate pods job did not have all pods"))
    else mret None
    end end
  end.
End UngateWorker.

Arguments ungate_Work Q {C K F R} {_} args.

(** ** Gates *)

Lemma find_gate_Some i gs j :
  find_gate i gs = Some j ->
  exists l1 l2, gs = l1 ++ SchedulingGateName :: l2 /\ SchedulingGateName ∉ l1 /\ j = i + length l1.
Proof.
  revert i. induction gs as [|g gs IH]; intros i; [done|]. cbn [find_gate].
  destruct (bool_decide_reflect (g = SchedulingGateName)) as [->|Hg].
  - intros [= <-]. exists [], gs. split; [done|]. split; [apply not_elem_of_nil|]. simpl. lia.
  - intros (l1 & l2 & -> & Hn & ->)%IH. exists (g :: l1), l2. split; [done|].
    split; [set_solver|]. simpl. lia.
Qed.

Lemma find_gate_None i gs : find_gate i gs = None -> SchedulingGateName ∉ gs.
Proof.
  revert i. induction gs as [|g gs IH]; intros i; [set_solver|]. cbn [find_gate].
  destruct (bool_decide_reflect (g = SchedulingGateName)); [done|]. intros H%IH. set_solver.
Qed.

Lemma is_gated_elem {Q} (p : Pod Q) : is_gated p = true <-> SchedulingGateName ∈ pod_gates p.
Proof.
  unfold is_gated. rewrite existsb_exists. split.
  - intros (g & Hg & ->%bool_decide_eq_true). by apply list_elem_of_In.
  - intros Hg%list_elem_of_In. exists SchedulingGateName. by rewrite bool_decide_eq_true_2.
Qed.

(** [gs'] is [gs] without the first gate of ours or, if there is none, without
    its first gate. *)
Definition one_gate_less (gs gs' : list string) : Prop :=
  if decide (SchedulingGateName ∈ gs)
  then exists l1 l2, gs = l1 ++ SchedulingGateName :: l2 /\ SchedulingGateName ∉ l1 /\ gs' = l1 ++ l2
  else exists g, gs = g :: gs'.

Lemma delete_gateIndex gs : gateIndex gs < length gs -> one_gate_less gs (delete (gateIndex gs) gs).
Proof.
  unfold gateIndex, one_gate_less. destruct (find_gate 0 gs) as [j|] eqn:E; simpl; intros Hlt.
  - apply find_gate_Some in E as (l1 & l2 & -> & Hn & ->). rewrite decide_True by set_solver.
    exists l1, l2. split; [done|]. split; [done|]. by rewrite Nat.add_0_l, delete_middle.
  - apply find_gate_None in E. rewrite decide_False by done. destruct gs as [|g gs]; simpl in *; [lia|]. eauto.
Qed.

(** ** What a successful run leaves in the cluster *)

(** [p'] is [p] with the labels [ms] merged in and one gate less. *)
Definition relabelled {Q} (ms : list (string * string)) (p p' : Pod Q) : Prop :=
  exists gs', one_gate_less (pod_gates p) gs' /\
    p' = set_pod_gates (set_pod_labels p (merge_labels ms (pod_labels p))) gs'.

(** The label members for one node assignment. *)
Definition node_members (node : string) (id : Z) : list (string * string) :=
  [(NodesLabel, node); (FluxJobIdLabel, Itoa id)].

(** A relabelled pod keeps its name, carries exactly the new labels over the
    old ones, and has lost our gate if it carried it once. *)
Lemma relabelled_node {Q} node id (p p' : Pod Q) :
  relabelled (node_members node id) p p' ->
  om_Name (p_meta p') = om_Name (p_meta p) /\ om_Namespace (p_meta p') = om_Namespace (p_meta p) /\
  pod_label p' NodesLabel = Some node /\ pod_label p' FluxJobIdLabel = Some (Itoa id) /\
  (forall key, key <> NodesLabel -> key <> FluxJobIdLabel -> pod_label p' key = pod_label p key) /\
  (NoDup (pod_gates p) -> is_gated p = true -> is_gated p' = false).
Proof.
  intros (gs' & Hg & ->). split; [done|]. split; [done|]. rewrite !pod_label_lookup.
  change (pod_labels (set_pod_gates _ _)) with (merge_labels (node_members node id) (pod_labels p)).
  cbn [merge_labels node_members foldl fst snd].
  split; [by rewrite lookup_insert_ne, lookup_insert_eq by done|].
  split; [by rewrite lookup_insert_eq|]. split.
  - intros key H1 H2. rewrite !pod_label_lookup.
    change (pod_labels (set_pod_gates _ _)) with (merge_labels (node_members node id) (pod_labels p)).
    cbn [merge_labels node_members foldl fst snd]. by rewrite !lookup_insert_ne by done.
  - intros Hnd Hp. apply not_true_iff_false. rewrite is_gated_elem. cbn.
    apply is_gated_elem in Hp. unfold one_gate_less in Hg. rewrite decide_True in Hg by done.
    destruct Hg as (l1 & l2 & E & Hn & ->). rewrite E in Hnd.
    apply NoDup_app in Hnd as (_ & _ & Hnd). apply NoDup_cons in Hnd as [Hnd _].
    intros [?|?]%elem_of_app; done.
Qed.

(** The word for a workload type in the selector value. *)
Definition workload_kind (t : string) : option string :=
  if bool_decide (t = JobWrapped_String JobWrappedDeployment) then Some "deployment"
  else if bool_decide (t = JobWrapped_String JobWrappedReplicaSet) then Some "replicaset"
  else if bool_decide (t = JobWrapped_String JobWrappedStatefulSet) then Some "statefulset"
  else None.

Lemma workload_kind_spec args kind :
  workload_kind (ua_Type args) = Some kind ->
  ua_Type args <> JobWrapped_String JobWrappedPod /\
  ungate_selector args = SelectorLabel +:+ "=" +:+ selector_value kind (ua_Name args) (ua_Namespace args) /\
  label_text kind = true.
Proof.
  unfold workload_kind, ungate_selector.
  do 3 (case_bool_decide as Ht; [intros [= <-]; split; [rewrite Ht; by vm_compute|by split]|clear Ht]). intros [=].
Qed.

Section UngateFacts.
Context {Q C K F R : Type}.
Context `{!PodClient Q K, !PodView Q K, !PodLaws Q K}.
Implicit Types w : World C K F R.
Abbreviation pods w := (kube_pods (Q:=Q) (w_kube w)).

Lemma on_kube_ret {A} (f : K -> A * K) w a w' :
  on_kube f w = (Ret a, w') -> exists k, f (w_kube w) = (a, k) /\ w' = set_kube w k.
Proof. rewrite on_kube_eq. intros [= <- <-]. eexists. split; [apply surjective_pairing|done]. Qed.

Lemma removeGate_call ns n : kube_call (C:=C) (F:=F) (R:=R) (removeGate Q ns n).
Proof. unfold removeGate. kube_walk. Qed.

Lemma NewForConfig_run w e w' :
  on_kube (kube_NewForConfig (Q:=Q)) w = (Ret e, w') -> kube_only w w' /\ pods w' = pods w.
Proof.
  intros (k & Hk & ->)%on_kube_ret. split; [by eexists|]. by eapply newForConfig_pure.
Qed.

Lemma label_pod_run ns n payload ms w w' :
  json_parse payload = Some (labels_body ms) ->
  on_kube (pods_Patch (Q:=Q) ns n MergePatchType payload) w = (Ret None, w') ->
  kube_only w w' /\ exists p, pods w !! (ns, n) = Some p /\
    pods w' = <[(ns, n) := set_pod_labels p (merge_labels ms (pod_labels p))]> (pods w).
Proof.
  intros Hj (k & Hk & ->)%on_kube_ret. split; [by eexists|]. by eapply pods_Patch_labels_ok.
Qed.

(** A successful [removeGate] removed one gate of the pod it names and changed
    no other pod. *)
Lemma removeGate_run ns n w w' :
  removeGate Q ns n w = (Ret None, w') ->
  kube_only w w' /\ exists p gs', pods w !! (ns, n) = Some p /\ one_gate_less (pod_gates p) gs' /\
    pods w' = <[(ns, n) := set_pod_gates p gs']> (pods w).
Proof.
  unfold removeGate. intros ([p e] & w1 & H1 & H)%bind_ret_inv. destruct e as [e|]; [done|].
  apply on_kube_ret in H1 as (k1 & H1 & ->). apply pods_Get_ok in H1 as [Hp H1].
  apply on_kube_ret in H as (k2 & H & ->). split; [by eexists|].
  eapply pods_Patch_gate_ok in H; [|apply remove_gate_payload_parse]. cbn in H.
  destruct H as (p' & Hp' & Hlt & Hk). rewrite H1 in Hp', Hk.
  assert (p' = p) as -> by congruence.
  exists p, (delete (gateIndex (pod_gates p)) (pod_gates p)). cbn. by auto using delete_gateIndex.
Qed.

(** One labelled and ungated pod; the pod and rejection branches share it. *)
Lemma relabel_run ns n payload ms w w' :
  json_parse payload = Some (labels_body ms) ->
  (err ← on_kube (pods_Patch (Q:=Q) ns n MergePatchType payload);
   match err with Some _ => mret err | None => removeGate Q ns n end) w = (Ret None, w') ->
  kube_only w w' /\ exists p p', pods w !! (ns, n) = Some p /\ relabelled ms p p' /\
    pods w' = <[(ns, n) := p']> (pods w).
Proof.
  intros Hj (e & w1 & H1 & H)%bind_ret_inv. destruct e as [e|]; [done|].
  eapply label_pod_run in H1 as (Hk1 & p & Hp & H1); [|done].
  apply removeGate_run in H as (Hk2 & p1 & gs' & Hp1 & Hg & H).
  split; [by eapply kube_only_trans|].
  rewrite H1, lookup_insert_eq in Hp1. injection Hp1 as <-. rewrite H1, insert_insert_eq in H.
  eexists p, _. split; [done|]. split; [|exact H]. by exists gs'.
Qed.

(** A successful rejection marks the pod unschedulable, with the label and
    one gate less, and changes no other pod. *)
Theorem rejectPod_effect ns n w w' :
  rejectPod Q ns n w = (Ret None, w') ->
  kube_only w w' /\ exists p p', pods w !! (ns, n) = Some p /\
    relabelled [(UnschedulableLabel, "yes")] p p' /\ pods w' = <[(ns, n) := p']> (pods w).
Proof.
  unfold rejectPod. intros (e & w1 & H1 & H)%bind_ret_inv. destruct e as [e|]; [done|].
  apply NewForConfig_run in H1 as [Hk1 H1]. rewrite <- H1.
  apply (relabel_run _ _ _ [(UnschedulableLabel, "yes")]) in H as [Hk2 H];
    [|vm_compute; reflexivity]. split; [by eapply kube_only_trans|]. done.
Qed.
(** On a pod that does not carry fluxqueue's gate, a successful [removeGate]
    has removed the first gate of the list, which belongs to someone else: the
    index it patches is 0 when its search finds nothing. *)
Theorem removeGate_foreign ns n w w' p :
  pods w !! (ns, n) = Some p -> is_gated p = false ->
  removeGate Q ns n w = (Ret None, w') ->
  exists g gs', pod_gates p = g :: gs' /\ g <> SchedulingGateName /\
    pods w' = <[(ns, n) := set_pod_gates p gs']> (pods w).
Proof.
  intros Hp Hg (_ & p' & gs' & Hp' & Ho & H)%removeGate_run. assert (p' = p) as -> by congruence.
  apply not_true_iff_false in Hg. rewrite is_gated_elem in Hg. unfold one_gate_less in Ho.
  rewrite decide_False in Ho by done. destruct Ho as [g E]. exists g, gs'. split; [done|].
  split; [|done]. rewrite E in Hg. intros ->. apply Hg, list_elem_of_here.
Qed.

(** The pod of the arguments is relabelled, and no other pod changes. *)
Definition pod_ungated (args : UngateArgs) w w' (p p' : Pod Q) : Prop :=
  pods w !! (ua_Namespace args, ua_Name args) = Some p /\
  relabelled (node_members (Join "__" (ua_Nodes args)) (ua_JobID args)) p p' /\
  pods w' = <[(ua_Namespace args, ua_Name args) := p']> (pods w).

Lemma ungate_pod_run args w w' :
  ua_Type args = JobWrapped_String JobWrappedPod -> Forall (fun n => plain n = true) (ua_Nodes args) ->
  ungate_Work Q args w = (Ret None, w') ->
  kube_only w w' /\ exists p p', pod_ungated args w w' p p'.
Proof.
  intros Ht Hn. unfold ungate_Work. intros (e & w1 & H1 & H)%bind_ret_inv. destruct e as [e|]; [done|].
  apply NewForConfig_run in H1 as [Hk1 H1]. unfold pod_ungated. rewrite <- H1.
  rewrite bool_decide_eq_true_2 in H by done. eapply relabel_run in H as [Hk2 H]; [split; [by eapply kube_only_trans|exact H]|].
  apply pod_labels_payload_parse; [by apply plain_Join|apply plain_Itoa].
Qed.

(** A successful run for a single pod leaves exactly that pod changed: its
    labels name the allocated nodes, joined, and Fluxion's id, and one gate is
    gone.  Nothing but the API server is touched. *)
Theorem ungate_pod_effect args w w' :
  ua_Type args = JobWrapped_String JobWrappedPod -> Forall (fun n => plain n = true) (ua_Nodes args) ->
  ungate_Work Q args w = (Ret None, w') ->
  kube_only w w' /\ exists p p', pod_ungated args w w' p p'.
Proof. apply ungate_pod_run. Qed.

Lemma fresh_key (ns : string) (p q : Pod Q) (rest : list (Pod Q)) :
  om_Name (p_meta p) ∉ ((fun p => om_Name (p_meta p)) <$> rest) -> q ∈ rest ->
  (ns, om_Name (p_meta p)) <> (ns, om_Name (p_meta q)).
Proof. intros Hn Hq [=]. apply Hn, list_elem_of_fmap. eauto. Qed.

(** What the loop does to the pods it has still to visit, and to the others. *)
Lemma ungate_loop_effect args total i (rest : list (Pod Q)) w w' :
  Forall (fun n => plain n = true) (ua_Nodes args) -> i + length rest <= total ->
  NoDup ((fun p => om_Name (p_meta p)) <$> rest) ->
  (forall p, p ∈ rest -> om_Namespace (p_meta p) = ua_Namespace args /\
                         pods w !! (ua_Namespace args, om_Name (p_meta p)) = Some p) ->
  ungate_loop args (Itoa (ua_JobID args)) total i rest w = (Ret None, w') ->
  kube_only w w' /\
  (forall j p, rest !! j = Some p ->
     if is_gated p
     then exists node p', ua_Nodes args !! (i + j) = Some node /\ relabelled (node_members node (ua_JobID args)) p p' /\
          pods w' !! (ua_Namespace args, om_Name (p_meta p)) = Some p'
     else pods w' !! (ua_Namespace args, om_Name (p_meta p)) = Some p) /\
  (forall key, (forall p, p ∈ rest -> key <> (ua_Namespace args, om_Name (p_meta p))) ->
     pods w' !! key = pods w !! key).
Proof.
  intros Hplain. revert i w. induction rest as [|p rest IH]; intros i w Hi Hnd Hrest H.
  { injection H as ->. split; [apply kube_only_refl|]. split; [done|]. by intros. }
  cbn [ungate_loop] in H. simpl in Hi. destruct (Nat.leb_spec total i); [lia|].
  apply NoDup_cons in Hnd as [Hfresh Hnd].
  destruct (Hrest p) as [Hns Hp]; [apply list_elem_of_here|].
  destruct (is_gated p) eqn:Hg; simpl in H.
  2:{ destruct (IH (S i) w) as (Hk & Hin & Hout); [lia|done|intros; apply Hrest; set_solver|done|].
      split; [done|]. split.
      - intros [|j] q; [|intros Hq; rewrite Nat.add_succ_r; by apply Hin].
        intros [= <-]. rewrite Hg, Hout; [done|]. intros q Hq. by apply (fresh_key _ p q rest).
      - intros key Hkey. apply Hout. intros q Hq. apply Hkey. set_solver. }
  destruct (ua_Nodes args !! i) as [node|] eqn:Hnode; [|done]. rewrite Hns in H.
  apply bind_ret_inv in H as (e & w1 & H1 & H). destruct e as [e|]; [done|].
  apply bind_ret_inv in H as (e & w2 & H2 & H). destruct e as [e|]; [done|].
  destruct (relabel_run (ua_Namespace args) (om_Name (p_meta p))
              (pod_labels_payload node (Itoa (ua_JobID args))) (node_members node (ua_JobID args)) w w2)
    as (Hk1 & p0 & p' & Hp0 & Hrel & Hpods).
  { apply pod_labels_payload_parse; [|apply plain_Itoa]. exact (Forall_lookup_1 _ _ _ _ Hplain Hnode). }
  { rewrite run_bind, H1. exact H2. }
  assert (p0 = p) as -> by congruence.
  destruct (IH (S i) w2) as (Hk & Hin & Hout); [lia|done| |done|].
  { intros q Hq. split; [apply Hrest; set_solver|].
    rewrite Hpods, lookup_insert_ne by (by apply (fresh_key _ p q rest)). apply Hrest. set_solver. }
  split; [by eapply kube_only_trans|]. split.
  - intros [|j] q; [|intros Hq; rewrite Nat.add_succ_r; by apply Hin].
    intros [= <-]. rewrite Hg, Nat.add_0_r. exists node, p'. split; [done|]. split; [done|].
    rewrite Hout, Hpods, lookup_insert_eq; [done|]. intros q Hq. by apply (fresh_key _ p q rest).
  - intros key Hkey. rewrite Hout, Hpods, lookup_insert_ne; [done| |].
    + apply not_eq_sym, Hkey. apply list_elem_of_here.
    + intros q Hq. apply Hkey. set_solver.
Qed.

(** The pods [ps] of a workload after a successful run. *)
Definition group_ungated (args : UngateArgs) (kind : string) w w' (ps : list (Pod Q)) : Prop :=
  let ns := ua_Namespace args in
  length (ua_Nodes args) <= length ps /\
  NoDup ((fun p => om_Name (p_meta p)) <$> ps) /\
  (forall p, p ∈ ps <-> om_Namespace (p_meta p) = ns /\ pods w !! (ns, om_Name (p_meta p)) = Some p /\
                        pod_label p SelectorLabel = Some (selector_value kind (ua_Name args) ns)) /\
  (forall j p, ps !! j = Some p ->
     if is_gated p
     then exists node p', ua_Nodes args !! j = Some node /\ relabelled (node_members node (ua_JobID args)) p p' /\
          pods w' !! (ns, om_Name (p_meta p)) = Some p'
     else pods w' !! (ns, om_Name (p_meta p)) = Some p) /\
  (forall key, (forall p, p ∈ ps -> key <> (ns, om_Name (p_meta p))) -> pods w' !! key = pods w !! key).

Lemma ungate_group_run args kind w w' :
  workload_kind (ua_Type args) = Some kind ->
  label_text (ua_Name args) = true -> label_text (ua_Namespace args) = true ->
  Forall (fun n => plain n = true) (ua_Nodes args) ->
  ungate_Work Q args w = (Ret None, w') ->
  kube_only w w' /\ exists ps, group_ungated args kind w w' ps.
Proof.
  intros Ht Hln Hlns Hn H. destruct (workload_kind_spec args kind Ht) as (Hne & Hsel & Hkind).
  unfold ungate_Work in H. apply bind_ret_inv in H as (e & w1 & H1 & H). destruct e as [e|]; [done|].
  apply NewForConfig_run in H1 as [Hk1 H1]. rewrite bool_decide_eq_false_2 in H by done.
  apply bind_ret_inv in H as ([ps e] & w2 & H2 & H). destruct e as [e|]; [done|].
  apply on_kube_ret in H2 as (k2 & H2 & ->). apply pods_List_ok in H2 as (Hk2 & Hnd & Hin & Hsl).
  apply bind_ret_inv in H as (e & w3 & H3 & H). destruct e as [e|]; [done|].
  destruct (Nat.ltb_spec (length ps) (length (ua_Nodes args))); [done|]. injection H as <-.
  apply ungate_loop_effect in H3 as (Hk3 & Hps & Hout); [|done|done|done|].
  2:{ intros p Hp. cbn. rewrite Hk2. by apply Hin. }
  split. { eapply kube_only_trans; [done|]. eapply kube_only_trans; [|done]. apply kube_only_set. }
  exists ps. red. set (ns := ua_Namespace args). split; [done|]. split; [done|]. cbn in Hout. rewrite Hk2, H1 in Hout. rewrite H1 in Hin, Hsl.
  split; [|done]. intros p. rewrite pod_label_lookup.
  assert (Hval : label_text (selector_value kind (ua_Name args) ns) = true).
  { subst ns. unfold selector_value. by rewrite !label_text_app, Hkind, Hln, Hlns. }
  split.
  - intros Hp. destruct (Hin p Hp) as [Hpn Hl]. split; [done|]. split; [done|].
    by apply (Hsl SelectorLabel _ p eq_refl Hval Hsel).
  - intros (Hpn & Hl & Hlab). by apply (Hsl SelectorLabel _ p eq_refl Hval Hsel).
Qed.

(** A successful run for a deployment, replica set or stateful set: the pods
    it saw are exactly the pods of the namespace that carry the object's
    selector label, at least as many as nodes; every one of them that was still
    gated now names the node of its own position in the list and Fluxion's id
    and has one gate less; every other pod of the cluster is untouched. *)
Theorem ungate_group_effect args kind w w' :
  workload_kind (ua_Type args) = Some kind ->
  label_text (ua_Name args) = true -> label_text (ua_Namespace args) = true ->
  Forall (fun n => plain n = true) (ua_Nodes args) ->
  ungate_Work Q args w = (Ret None, w') ->
  kube_only w w' /\ exists ps, group_ungated args kind w w' ps.
Proof. apply ungate_group_run. Qed.

(** The loop panics only at a gated pod beyond the nodes. *)
Lemma ungate_loop_panic args jobid total i (rest : list (Pod Q)) w why w' :
  ungate_loop args jobid total i rest w = (Panic why, w') ->
  exists j p, rest !! j = Some p /\ is_gated p = true /\ length (ua_Nodes args) <= i + j.
Proof.
  revert i w. induction rest as [|p rest IH]; intros i w; [done|]. cbn [ungate_loop].
  destruct (total <=? i); [done|].
  assert (Hnext : forall w, ungate_loop args jobid total (S i) rest w = (Panic why, w') ->
    exists j q, (p :: rest) !! j = Some q /\ is_gated q = true /\ length (ua_Nodes args) <= i + j).
  { intros w1 (j & q & Hq & Hg & Hj)%IH. exists (S j), q. split; [done|]. split; [done|]. lia. }
  destruct (is_gated p) eqn:Hg; simpl; [|apply Hnext].
  destruct (ua_Nodes args !! i) as [node|] eqn:Hnode.
  - rewrite run_bind, on_kube_eq. destruct (_.1) as [e|]; [done|]. rewrite run_bind.
    destruct (removeGate_call (om_Namespace (p_meta p)) (om_Name (p_meta p))
                (set_kube w (pods_Patch (Q:=Q) (ua_Namespace args) (om_Name (p_meta p)) MergePatchType
                               (pod_labels_payload node jobid) (w_kube w)).2))
      as (e & w2 & -> & _). destruct e; [done|]. apply Hnext.
  - intros _. exists 0, p. split; [done|]. split; [done|]. apply lookup_ge_None in Hnode. lia.
Qed.

Lemma ungate_loop_reaches args jobid total i j (rest : list (Pod Q)) w p :
  rest !! j = Some p -> is_gated p = true -> length (ua_Nodes args) <= i + j -> i + length rest <= total ->
  (forall j' q, j' < j -> rest !! j' = Some q -> is_gated q = false) ->
  ungate_loop args jobid total i rest w = (Panic "index out of range", w).
Proof.
  revert i j. induction rest as [|q rest IH]; intros i j Hp Hg Hj Ht Hb; [done|].
  cbn [ungate_loop]. simpl in Ht. destruct (Nat.leb_spec total i); [lia|]. destruct j as [|j].
  - injection Hp as ->. rewrite Hg. simpl. rewrite lookup_ge_None_2 by lia. done.
  - rewrite (Hb 0 q) by (done || lia). simpl. apply (IH (S i) j); [done|done|lia|lia|].
    intros j' q' Hj' Hq'. apply (Hb (S j') q'); [lia|done].
Qed.

(** The ungate worker panics only when the listing holds a gated pod at a
    position that has no node, and it does panic when no earlier pod is gated:
    the guard of the loop compares the position with the number of pods, not
    of nodes. *)
Theorem ungate_panic args w :
  (forall why w', ungate_Work Q args w = (Panic why, w') ->
     exists k1 ps k2 j p, kube_NewForConfig (Q:=Q) (w_kube w) = (None, k1) /\
       pods_List (Q:=Q) (ua_Namespace args) (ungate_selector args) k1 = ((ps, None), k2) /\
       ps !! j = Some p /\ is_gated p = true /\ length (ua_Nodes args) <= j) /\
  (forall k1 ps k2 j p, ua_Type args <> JobWrapped_String JobWrappedPod ->
     kube_NewForConfig (Q:=Q) (w_kube w) = (None, k1) ->
     pods_List (Q:=Q) (ua_Namespace args) (ungate_selector args) k1 = ((ps, None), k2) ->
     ps !! j = Some p -> is_gated p = true -> length (ua_Nodes args) <= j ->
     (forall j' q, j' < j -> ps !! j' = Some q -> is_gated q = false) ->
     ungate_Work Q args w = (Panic "index out of range", set_kube w k2)).
Proof.
  unfold ungate_Work. rewrite run_bind, on_kube_eq. split.
  - intros why w'. destruct (kube_NewForConfig _) as [[e|] k1]; [done|]. cbn.
    destruct (bool_decide _).
    + rewrite run_bind, on_kube_eq. destruct (_.1) as [e|]; [done|].
      match goal with |- removeGate _ ?a ?b ?x = _ -> _ =>
        destruct (removeGate_call a b x) as (e & w2 & -> & _) end. done.
    + rewrite run_bind, on_kube_eq. cbn. destruct (pods_List _ _ _) as [[ps [e|]] k2] eqn:EL; [done|]. cbn.
      rewrite run_bind. destruct (ungate_loop _ _ _ _ _ _) as [[e|why'] w2] eqn:E.
      * destruct e; [done|]. intros H. by case_match.
      * intros _. apply ungate_loop_panic in E as (j & p & Hp & Hg & Hj). by exists k1, ps, k2, j, p.
  - intros k1 ps k2 j p Ht H1 H2 Hp Hg Hj Hb. rewrite H1. cbn. rewrite bool_decide_eq_false_2 by done.
    rewrite run_bind, on_kube_eq. cbn. rewrite H2. cbn. rewrite run_bind.
    by rewrite (ungate_loop_reaches _ _ _ 0 j ps _ p).
Qed.
End UngateFacts.

(** ** Runs on the in-memory API server *)

Definition sample_pod (name : string) (labels : gmap string string) (gates : list string) : Pod Z :=
  mkPod (mkMeta name "default" (Some labels)) (mkPodSpec gates "fluxion" [] [] None None) (mkPodStatus [] "").

(** A world that stores these pods of the namespace [default]. *)
Definition pods_world (ps : list (Pod Z)) : MemoryWorld :=
  mkWorld (mkUpConn 0) (mkDatabase [] [])
    (mkMemKube (list_to_map ((fun p => (("default", om_Name (p_meta p)), p)) <$> ps)) ∅ ∅) (mkMemFluxion [] []) [] false.

Definition app_labels : gmap string string := {[ SelectorLabel := "deployment-app-default" ]}.
Definition gated_pair : MemoryWorld :=
  pods_world [sample_pod "app-0" app_labels [SchedulingGateName];
              sample_pod "app-1" app_labels ["other"; SchedulingGateName]].
Definition app_task (nodes : list string) : UngateArgs := mkUngateArgs "app" "2" "default" nodes 7.
Definition pod_task : UngateArgs := mkUngateArgs "app-0" "0" "default" ["n1"; "n2"] 7.

Lemma removeGate_foreign_witness :
  exists g gs', ["other"] = g :: gs' /\ g <> SchedulingGateName /\
    kube_pods (w_kube (removeGate Z "default" "app-0" (pods_world [sample_pod "app-0" ∅ ["other"]])).2) =
    <[("default", "app-0") := set_pod_gates (sample_pod "app-0" ∅ ["other"]) gs']>
      (kube_pods (w_kube (pods_world [sample_pod "app-0" ∅ ["other"]]))).
Proof.
  refine (removeGate_foreign (Q:=Z) "default" "app-0" (pods_world [sample_pod "app-0" ∅ ["other"]]) _
            (sample_pod "app-0" ∅ ["other"]) _ _ _); vm_compute; reflexivity.
Defined.

Lemma rejectPod_effect_witness :
  exists p p', kube_pods (w_kube gated_pair) !! ("default", "app-1") = Some p /\
    relabelled [(UnschedulableLabel, "yes")] p p' /\
    kube_pods (w_kube (rejectPod Z "default" "app-1" gated_pair).2) =
    <[("default", "app-1") := p']> (kube_pods (w_kube gated_pair)).
Proof.
  refine (proj2 (rejectPod_effect (Q:=Z) "default" "app-1" gated_pair _ _)). vm_compute. reflexivity.
Defined.

Lemma ungate_pod_effect_witness :
  exists p p', kube_pods (w_kube gated_pair) !! ("default", "app-0") = Some p /\
    relabelled (node_members "n1__n2" 7) p p' /\
    kube_pods (w_kube (ungate_Work Z pod_task gated_pair).2) =
    <[("default", "app-0") := p']> (kube_pods (w_kube gated_pair)).
Proof.
  refine (proj2 (ungate_pod_effect (Q:=Z) pod_task gated_pair _ eq_refl _ _)).
  - repeat constructor.
  - vm_compute. reflexivity.
Defined.

Lemma ungate_group_effect_witness :
  exists w', ungate_Work Z (app_task ["n1"; "n2"]) gated_pair = (Ret None, w') /\
  exists ps, 2 <= length ps /\ forall j p, ps !! j = Some p ->
    if is_gated p
    then exists node p', ["n1"; "n2"] !! j = Some node /\ relabelled (node_members node 7) p p' /\
         kube_pods (w_kube w') !! ("default", om_Name (p_meta p)) = Some p'
    else kube_pods (w_kube w') !! ("default", om_Name (p_meta p)) = Some p.
Proof.
  eexists. split; [vm_compute; reflexivity|].
  match goal with |- context [w_kube ?x] => set (w1 := x) end.
  destruct (ungate_group_effect (Q:=Z) (app_task ["n1"; "n2"]) "deployment" gated_pair w1)
    as (_ & ps & (H1 & _ & _ & H2 & _));
    [reflexivity|reflexivity|reflexivity|repeat constructor|vm_compute; reflexivity|].
  exists ps. split; [exact H1|exact H2].
Defined.

(** Two gated pods and no node. *)
Lemma ungate_panic_witness :
  exists w', ungate_Work Z (app_task []) gated_pair = (Panic "index out of range", w').
Proof.
  eexists. eapply (proj2 (ungate_panic (Q:=Z) (app_task []) gated_pair)) with (j := 0).
  - vm_compute. discriminate.
  - reflexivity.
  - vm_compute. reflexivity.
  - reflexivity.
  - reflexivity.
  - simpl. lia.
  - intros. lia.
Defined.
