(* ===== verification/Retry.v ===== *)
(** * Tasks that run more than once, and calls that are not one step

    River runs a task again when its worker returns an error, and may run a
    task again that succeeded: its delivery is at least once.  What a second
    run of the job and ungate workers does to the state the first one left,
    and what happens when the pod changes between the two calls of
    [removeGate]. *)

From Stdlib Require Import Ascii.
From stdpp Require Import base option strings gmap numbers list.
From S2P Require Import Prelude GoStrings Json Api Kube Database World Mem Allocation JobWorker UngateWorker.

(** Deleting before and behind an element. *)
Lemma delete_before {A} (l1 l2 : list A) j : j < length l1 -> delete j (l1 ++ l2) = delete j l1 ++ l2.
Proof. intros Hj. rewrite !delete_take_drop, take_app_le, drop_app_le by lia. by rewrite app_assoc. Qed.
Lemma delete_later {A} (l1 l2 : list A) x i : length l1 < i -> x ∈ delete i (l1 ++ x :: l2).
Proof.
  intros Hi. rewrite delete_take_drop, take_app_ge by lia. destruct (i - length l1) as [|n] eqn:E; [lia|].
  apply elem_of_app. left. apply elem_of_app. right. apply list_elem_of_here.
Qed.

Section Retry.
Context {Q C K F R : Type}.
Context `{!DbConn C, !FluxionClient F, !RiverClient R, !PodClient Q K, !PodView Q K, !PodLaws Q K}.
Implicit Types w : World C K F R.
Abbreviation pods w := (kube_pods (Q:=Q) (w_kube w)).

(** ** The job worker *)

Lemma releaseJob_error args id nodes w e w' :
  releaseJob Q args id nodes w = (Ret (Some e), w') ->
  kube_only w w' /\ (ja_Type args <> JobWrapped_String JobWrappedJob -> w' = w).
Proof.
  unfold releaseJob. case_bool_decide as Hj.
  { destruct (unsuspendJob_call (ja_Namespace args) (ja_Name args) nodes id w) as (e' & w1 & -> & Hk). by intros [= _ <-]. }
  destruct (_ || _); [|intros [= _ <-]; split; [apply kube_only_refl|done]].
  rewrite run_bind. unfold ungatePod. by rewrite on_river_eq.
Qed.

(** A run that reaches Fluxion asks it for one match and for nothing else. *)
Lemma Work_fluxion args w f1 :
  fluxion_NewClient (w_fluxion w) = (None, f1) -> w_fluxion (Work Q args w).2 = (fluxion_Match (match_request args) f1).2.
Proof.
  intros H1. destruct (fluxion_Match (match_request args) f1) as [[resp [e|]] f] eqn:H2; cbn [snd].
  { unfold Work. rewrite run_bind, on_fluxion_eq, H1. cbn. rewrite run_bind, on_fluxion_eq. cbn. by rewrite H2. }
  rewrite (Work_answered args w resp f) by (by exists f1). destruct (impossible args resp).
  { rewrite run_bind. by destruct (markUnschedulable_call args (set_fluxion w f)) as (e & w' & -> & [k ->]). }
  rewrite run_bind. destruct (reserve_branch_effect (mr_Reserved resp) args (mr_Jobid resp) (set_fluxion w f))
    as (e & w' & -> & _ & Hf & _).
  destruct (bool_decide _); [done|]. destruct (parseNodes _) as [nodes [e'|]]; [done|]. unfold releaseJob.
  destruct (bool_decide _).
  { destruct (unsuspendJob_call (ja_Namespace args) (ja_Name args) nodes (mr_Jobid resp) w') as (e' & w2 & -> & [k ->]). done. }
  destruct (_ || _); [|done]. rewrite run_bind. unfold ungatePod. by rewrite on_river_eq.
Qed.

(** C24. What is left of a grant when the release fails: if Fluxion allocated nodes
    and the task ends with an error all the same (the job cannot be patched,
    the allocation cannot be read, or the type is unknown), then Fluxion was
    asked nothing after the match, so the grant is not cancelled; no task was
    inserted that could cancel it; the pending table is as before, and so is
    the whole database unless Fluxion called the grant reserved; and the cluster
    is as before unless the object is a job, whose patch may have been applied.
    A run that follows, in whatever world river makes it, asks Fluxion for
    another match and for nothing else. *)
Theorem Work_grant_dropped args w resp f e w' :
  answers w args resp f -> mr_Allocation resp <> "" -> Work Q args w = (Ret (Some e), w') ->
  w_fluxion w' = f /\ w_river w' = w_river w /\ pending_queue (w_db w') = pending_queue (w_db w) /\
  (mr_Reserved resp = false -> w_db w' = w_db w) /\
  (ja_Type args <> JobWrapped_String JobWrappedJob -> w_kube w' = w_kube w) /\
  (forall w2 f1, w_fluxion w2 = w_fluxion w' -> fluxion_NewClient f = (None, f1) ->
     w_fluxion (Work Q args w2).2 = (fluxion_Match (match_request args) f1).2).
Proof.
  intros Ha Hne H. assert (Hf' : w_fluxion w' = f).
  { destruct Ha as (f1 & H1 & H2). pose proof (Work_fluxion args w f1 H1) as Hf. by rewrite H, H2 in Hf. }
  split; [done|]. rewrite (Work_answered _ _ _ _ Ha) in H. unfold impossible in H.
  rewrite (bool_decide_eq_false_2 _ Hne), andb_false_r, run_bind in H.
  destruct (reserve_branch_effect (mr_Reserved resp) args (mr_Jobid resp) (set_fluxion w f))
    as (e1 & w1 & He & Hk & Hf & Hr & _ & Hp & Hd).
  rewrite He in H. assert (Hagain : forall w2 f1, w_fluxion w2 = w_fluxion w' -> fluxion_NewClient f = (None, f1) ->
     w_fluxion (Work Q args w2).2 = (fluxion_Match (match_request args) f1).2).
  { intros w2 f1 Hw2 H1. apply Work_fluxion. by rewrite Hw2, Hf'. }
  destruct (parseNodes _) as [nodes [e2|]].
  - injection H as _ <-. done.
  - apply releaseJob_error in H as [[k ->] Hj]. split; [done|]. split; [done|]. split; [done|]. split; [|done].
    intros Ht. by rewrite (Hj Ht).
Qed.

(** ** The ungate worker *)

(** After a successful run no pod of the group carries the gate any more. *)
Lemma group_ungated_gates args kind w w' ps p :
  group_ungated args kind w w' ps -> (forall p, p ∈ ps -> NoDup (pod_gates p)) ->
  om_Namespace (p_meta p) = ua_Namespace args -> pods w' !! (ua_Namespace args, om_Name (p_meta p)) = Some p ->
  pod_label p SelectorLabel = Some (selector_value kind (ua_Name args) (ua_Namespace args)) -> is_gated p = false.
Proof.
  intros (_ & _ & Hin & Hps & Hout) Hnd Hns Hp Hl.
  destruct (decide (om_Name (p_meta p) ∈ ((fun q => om_Name (p_meta q)) <$> ps))) as [Hk|Hk].
  - apply list_elem_of_fmap in Hk as (q & Hq & Hqin). pose proof Hqin as [j Hj]%list_elem_of_lookup.
    specialize (Hps j q Hj). destruct (is_gated q) eqn:Hg; rewrite <- Hq in Hps.
    + destruct Hps as (node & q' & _ & Hrel & Hst). rewrite Hp in Hst. injection Hst as <-.
      by apply relabelled_node in Hrel as (_ & _ & _ & _ & _ & Hrel); apply Hrel, Hg; apply Hnd.
    + rewrite Hp in Hps. by injection Hps as ->.
  - rewrite Hout in Hp.
    + destruct Hk. apply list_elem_of_fmap. exists p. split; [done|]. by apply Hin.
    + intros q Hq [= E]. apply Hk, list_elem_of_fmap. eauto.
Qed.

(** C25. Ungating a group twice is ungating it once: when a run for a deployment,
    replica set or stateful set succeeded and the pods have not changed since,
    a second successful run of the same task changes no pod at all: no label
    is rewritten and no other gate is removed. *)
Theorem ungate_group_again args kind w1 w2 w3 w4 :
  workload_kind (ua_Type args) = Some kind ->
  label_text (ua_Name args) = true -> label_text (ua_Namespace args) = true ->
  Forall (fun n => plain n = true) (ua_Nodes args) ->
  (forall key p, pods w1 !! key = Some p -> NoDup (pod_gates p)) ->
  ungate_Work Q args w1 = (Ret None, w2) -> pods w3 = pods w2 -> ungate_Work Q args w3 = (Ret None, w4) ->
  pods w4 = pods w3.
Proof.
  intros Ht Hln Hlns Hn Hnd H1 H32 H2.
  apply (ungate_group_run _ kind) in H1 as (_ & ps & Hg1); [|done..].
  apply (ungate_group_run _ kind) in H2 as (_ & qs & _ & _ & Hin & Hqs & Hout); [|done..].
  apply map_eq. intros key.
  destruct (decide (key ∈ ((fun q : Pod Q => (ua_Namespace args, om_Name (p_meta q))) <$> qs))) as [Hk|Hk].
  - apply list_elem_of_fmap in Hk as (q & -> & Hq). pose proof Hq as (Hns & Hst & Hl)%Hin.
    pose proof Hq as [j Hj]%list_elem_of_lookup. specialize (Hqs j q Hj).
    rewrite (group_ungated_gates args kind w1 w2 ps q Hg1) in Hqs; [congruence| |done|by rewrite <- H32|done].
    intros p Hp. destruct Hg1 as (_ & _ & Hin1 & _). apply Hin1 in Hp as (_ & Hp & _). by eapply Hnd.
  - apply Hout. intros q Hq ->. apply Hk, list_elem_of_fmap. eauto.
Qed.

(** Ungating a single pod twice is not: a second successful run has
    removed the gate of another controller, because the worker does not look
    whether its own gate is still there; and where fluxqueue's gate was the
    only one, the second run fails and is tried again. *)
Theorem ungate_pod_again args w1 w2 w3 w4 p :
  ua_Type args = JobWrapped_String JobWrappedPod -> Forall (fun n => plain n = true) (ua_Nodes args) ->
  pods w1 !! (ua_Namespace args, ua_Name args) = Some p -> NoDup (pod_gates p) -> is_gated p = true ->
  ungate_Work Q args w1 = (Ret None, w2) -> pods w3 = pods w2 -> ungate_Work Q args w3 = (Ret None, w4) ->
  pod_gates p <> [SchedulingGateName] /\
  exists p3 p4 g, g <> SchedulingGateName /\ pod_gates p3 = g :: pod_gates p4 /\
    pods w3 !! (ua_Namespace args, ua_Name args) = Some p3 /\ pods w4 !! (ua_Namespace args, ua_Name args) = Some p4.
Proof.
  intros Ht Hn Hp Hnd Hg H1 H32 H2.
  apply ungate_pod_run in H1 as (_ & p1 & p2 & Hp1 & Hrel & Hpods); [|done..].
  assert (p1 = p) as -> by congruence.
  apply ungate_pod_run in H2 as (_ & p3 & p4 & Hp3 & Hrel2 & Hpods2); [|done..].
  rewrite H32, Hpods, lookup_insert_eq in Hp3. injection Hp3 as <-.
  pose proof Hrel as (_ & _ & _ & _ & _ & Hung)%relabelled_node. specialize (Hung Hnd Hg).
  destruct Hrel2 as (gs' & Hone & ->). unfold one_gate_less in Hone.
  apply not_true_iff_false in Hung. rewrite is_gated_elem in Hung. rewrite decide_False in Hone by done.
  destruct Hone as [g Hgs]. split.
  - intros E. destruct Hrel as (gs & Hone & ->). cbn in Hgs. unfold one_gate_less in Hone. rewrite E in Hone.
    rewrite decide_True in Hone by apply list_elem_of_here. destruct Hone as (l1 & l2 & Hl & Hnl & ->).
    destruct l1 as [|x l1]; [injection Hl as <-; done|]. injection Hl as <- _. apply Hnl, list_elem_of_here.
  - match type of Hpods2 with _ = <[_ := ?x]> _ => exists p2, x, g end.
    split; [intros ->; rewrite Hgs in Hung; set_solver|]. split; [exact Hgs|].
    split; [by rewrite H32, Hpods, lookup_insert_eq|]. by rewrite Hpods2, lookup_insert_eq.
Qed.

(** ** Between two calls *)

(** [removeGate] with a change of the cluster between its read and its
    patch. *)
Definition removeGate_between (env : K -> K) (namespace name : string) : GoM (World C K F R) error :=
  '(pod, err) ← on_kube (pods_Get (Q:=Q) namespace name);
  match err with Some _ => mret err | None =>
  _ ← on_kube (fun k => (tt, env k));
  on_kube (pods_Patch (Q:=Q) namespace name JSONPatchType (remove_gate_payload (gateIndex (pod_gates pod))))
  end.

Lemma removeGate_between_id namespace name w : removeGate_between id namespace name w = removeGate Q namespace name w.
Proof.
  unfold removeGate_between, removeGate. rewrite !run_bind, on_kube_eq.
  destruct (pods_Get namespace name (w_kube w)) as [[p [e|]] k1]; [done|]. cbn [fst snd].
  by rewrite run_bind, on_kube_eq.
Qed.

Lemma gateIndex_gated gs :
  SchedulingGateName ∈ gs -> exists l1 l2, gs = l1 ++ SchedulingGateName :: l2 /\ gateIndex gs = length l1.
Proof.
  intros Hin. unfold gateIndex. destruct (find_gate 0 gs) as [j|] eqn:E.
  - apply find_gate_Some in E as (l1 & l2 & -> & _ & ->). by exists l1, l2.
  - by apply find_gate_None in E.
Qed.

(** The patch of [removeGate] names a position that it read before, and does
    not test what is there: when another controller removes a gate of its own
    that stood before fluxqueue's between the two calls, a successful run has
    removed some other gate, and the pod is still gated by fluxqueue although
    the task is done. *)
Theorem removeGate_race env namespace name w w' p j :
  pods w !! (namespace, name) = Some p -> is_gated p = true -> j < gateIndex (pod_gates p) ->
  (forall k, kube_pods (Q:=Q) k = pods w -> exists p1, kube_pods (env k) !! (namespace, name) = Some p1 /\
     pod_gates p1 = delete j (pod_gates p)) ->
  removeGate_between env namespace name w = (Ret None, w') ->
  exists p', pods w' !! (namespace, name) = Some p' /\ is_gated p' = true /\
    pod_gates p' = delete (gateIndex (pod_gates p)) (delete j (pod_gates p)).
Proof.
  intros Hp Hg Hj Henv. unfold removeGate_between. intros ([q e] & w1 & H1 & H)%bind_ret_inv. destruct e as [e|]; [done|].
  apply on_kube_ret in H1 as (k1 & H1 & ->). apply pods_Get_ok in H1 as [Hq H1]. assert (q = p) as -> by congruence.
  apply bind_ret_inv in H as (u & w2 & H2 & H). apply on_kube_ret in H2 as (k2 & [= <- <-] & ->). cbn in H.
  apply on_kube_ret in H as (k3 & H & ->). cbn in H.
  eapply pods_Patch_gate_ok in H; [|apply remove_gate_payload_parse].
  destruct H as (p1 & Hp1 & Hlt & Hk). destruct (Henv k1 H1) as (p2 & Hp2 & Hgs). assert (p2 = p1) as -> by congruence.
  eexists. split; [cbn; by rewrite Hk, lookup_insert_eq|]. split; [|cbn; by rewrite Hgs].
  apply is_gated_elem in Hg. apply is_gated_elem.
  change (SchedulingGateName ∈ delete (gateIndex (pod_gates p)) (pod_gates p1)). rewrite Hgs.
  destruct (gateIndex_gated _ Hg) as (l1 & l2 & E & Hi). rewrite Hi in Hj |- *. rewrite E, delete_before by done.
  apply delete_later. rewrite delete_take_drop, length_app, length_take, length_drop. lia.
Qed.
End Retry.

(** ** Runs on the in-memory services *)

(** Fluxion grants twice; the job [app] appears only after the first run. *)
Definition second_grant : MatchResponse := mkMatchResponse sample_allocation 8 false.
Definition two_grants (jobs : list (string * string)) : MemoryWorld :=
  set_fluxion (answering jobs grant) (mkMemFluxion [(grant, None); (second_grant, None)] []).
Definition job_appears (w : MemoryWorld) : MemoryWorld := set_kube w (w_kube (two_grants [("default", "app")])).

Lemma Work_grant_dropped_witness :
  exists e w', Work Z (task_for JobWrappedJob 0) (two_grants []) = (Ret (Some e), w') /\
    w_fluxion w' = mkMemFluxion [(second_grant, None)] [] /\ w_river w' = [].
Proof.
  eexists _, _. split; [vm_compute; reflexivity|].
  match goal with |- w_fluxion ?x = _ /\ _ => set (w1 := x) end.
  destruct (Work_grant_dropped (Q:=Z) (task_for JobWrappedJob 0) (two_grants []) grant
              (mkMemFluxion [(second_grant, None)] []) (ErrNotFound "app") w1) as (H1 & H2 & _);
    [eexists; split; reflexivity|vm_compute; discriminate|vm_compute; reflexivity|].
  split; [exact H1|exact H2].
Defined.

(** The retry succeeds with the second grant, and nothing cancels the first. *)
Example retried_job_holds_two_grants :
  let w1 := (Work Z (task_for JobWrappedJob 0) (two_grants [])).2 in
  let r := Work Z (task_for JobWrappedJob 0) (job_appears w1) in
  r.1 = Ret None /\ mf_answers (w_fluxion r.2) = [] /\ mf_cancelled (w_fluxion r.2) = [] /\ w_river r.2 = [].
Proof. vm_compute. auto. Qed.

Lemma ungate_group_again_witness :
  let w2 := (ungate_Work Z (app_task ["n1"; "n2"]) gated_pair).2 in
  kube_pods (Q:=Z) (w_kube (ungate_Work Z (app_task ["n1"; "n2"]) w2).2) = kube_pods (Q:=Z) (w_kube w2).
Proof.
  apply (ungate_group_again (Q:=Z) (app_task ["n1"; "n2"]) "deployment" gated_pair
           (ungate_Work Z (app_task ["n1"; "n2"]) gated_pair).2);
    [reflexivity|reflexivity|reflexivity|repeat constructor| |vm_compute; reflexivity|reflexivity|vm_compute; reflexivity].
  intros key p Hp. apply elem_of_list_to_map_2 in Hp. apply list_elem_of_fmap in Hp as (q & [= _ ->] & Hq).
  repeat (apply elem_of_cons in Hq as [->|Hq]; [apply (bool_decide_unpack _); vm_compute; exact I|]). by apply elem_of_nil in Hq.
Defined.

(** A pod with a second gate loses that one, too. *)
Definition two_gates : MemoryWorld := pods_world [sample_pod "app-0" ∅ [SchedulingGateName; "other"]].
Lemma ungate_pod_again_witness :
  let w2 := (ungate_Work Z pod_task two_gates).2 in
  let w4 := (ungate_Work Z pod_task w2).2 in
  exists (p3 p4 : Pod Z) g, g <> SchedulingGateName /\ pod_gates p3 = g :: pod_gates p4 /\
    kube_pods (Q:=Z) (w_kube w4) !! ("default", "app-0") = Some p4.
Proof.
  destruct (ungate_pod_again (Q:=Z) pod_task two_gates (ungate_Work Z pod_task two_gates).2
              (ungate_Work Z pod_task two_gates).2
              (ungate_Work Z pod_task (ungate_Work Z pod_task two_gates).2).2
              (sample_pod "app-0" ∅ [SchedulingGateName; "other"]))
    as (_ & p3 & p4 & g & H1 & H2 & _ & H4);
    [reflexivity|repeat constructor|reflexivity|apply (bool_decide_unpack _); vm_compute; exact I|reflexivity
    |vm_compute; reflexivity|reflexivity|vm_compute; reflexivity|].
  exists p3, p4, g. split; [exact H1|]. split; [exact H2|exact H4].
Defined.

(** Another controller removes its gate [a] while fluxqueue is between its
    calls; fluxqueue removes [b]. *)
Definition drops_first_gate (k : MemKube Z) : MemKube Z :=
  mkMemKube ((fun p => set_pod_gates p (tail (pod_gates p))) <$> mk_pods k) (mk_jobs k) (mk_fluxjobs k).
Definition three_gates : MemoryWorld := pods_world [sample_pod "app-0" ∅ ["a"; SchedulingGateName; "b"]].

Lemma removeGate_race_witness :
  exists p', kube_pods (Q:=Z) (w_kube (removeGate_between (Q:=Z) drops_first_gate "default" "app-0" three_gates).2)
               !! ("default", "app-0") = Some p' /\ is_gated p' = true.
Proof.
  destruct (removeGate_race (Q:=Z) drops_first_gate "default" "app-0" three_gates
              (removeGate_between (Q:=Z) drops_first_gate "default" "app-0" three_gates).2
              (sample_pod "app-0" ∅ ["a"; SchedulingGateName; "b"]) 0) as (p' & H1 & H2 & _);
    [reflexivity|reflexivity|vm_compute; lia| |vm_compute; reflexivity|].
  - intros k Hk. eexists. cbn. change (mk_pods k) with (kube_pods (Q:=Z) k). rewrite Hk. split; reflexivity.
  - exists p'. split; [exact H1|exact H2].
Defined.
