(* ===== verification/CancelWorkers.v ===== *)
(** * The cleanup and reservation workers

    [pkg/fluxqueue/strategy/workers/cleanup.go] cancels one job in Fluxion;
    [pkg/fluxqueue/strategy/workers/reservation.go] cancels every reservation
    of the table and deletes the rows it cancelled. *)

From stdpp Require Import base option strings gmap numbers list.
From S2P Require Import Prelude GoStrings Api Kube Database World Mem JobWorker.

Section CancelWorkers.
Context {C K F R : Type}.
Context `{!DbConn C, !FluxionClient F}.
Abbreviation W := (World C K F R).

(** [deleteFluxion]. *)
Definition deleteFluxion (fluxID : Z) : GoM W error :=
  err ← on_fluxion fluxion_NewClient;
  match err with Some _ => mret err | None =>
  err ← on_fluxion (fluxion_Cancel fluxID);
  match err with
  | Some e => mret (Some (Err ("[Fluxion] Issue with cancel " +:+ error_text e)))
  | None => mret None
  end end.

(** [Cleanup]: only for an id that is 0 or more. *)
Definition worker_Cleanup (fluxid : Z) : GoM W error :=
  if (-1 <? fluxid)%Z then deleteFluxion fluxid else mret None.

(** [CleanupWorker.Work]. *)
Definition cleanup_Work (args : CleanupArgs) : GoM W error := worker_Cleanup (ca_FluxID args).

(** The loop of [ReservationWorker.Work]: a reservation that Fluxion does not
    cancel is kept and skipped; a failing delete ends the run. *)
Fixpoint reservation_loop (rows : list ReservationModel) : GoM W error :=
  match rows with
  | [] => mret None
  | item :: rest =>
      err ← on_fluxion (fluxion_Cancel (rm_JobId item));
      match err with
      | Some _ => reservation_loop rest
      | None =>
          err ← sql_exec (always (fun db => DeleteSingleReservationsQuery db (rm_JobId item)));
          match err with Some _ => mret err | None => reservation_loop rest end
      end
  end.

(** [ReservationWorker.Work]. *)
Definition reservation_Work : GoM W error :=
  err ← on_conn pool_New;
  match err with Some _ => mret err | None =>
  rRows ← sql_query GetReservationsQuery;
  match rRows with inl e => mret (Some e) | inr rRows =>
  err ← on_fluxion fluxion_NewClient;
  match err with Some _ => mret err | None =>
  match CollectRows RowToReservation rRows with
  | (_, Some e) => mret (Some e)
  | (rows, None) => reservation_loop rows
  end end end end.
End CancelWorkers.

(** The run has returned: read off its result and its world. *)
Ltac ret_done := eexists _, _; split; [reflexivity|]; auto 10.

Section CancelFacts.
Context {C K F R : Type}.
Context `{!DbConn C, !FluxionClient F}.
Implicit Types w : World C K F R.

(** Cleaning up a valid id asks Fluxion for exactly one cancel, of that id,
    and reports whether it worked; an id below 0 is accepted without any
    call. *)
Theorem cleanup_Work_effect args w :
  ((ca_FluxID args < 0)%Z -> cleanup_Work args w = (Ret None, w)) /\
  ((0 <= ca_FluxID args)%Z -> forall f1, fluxion_NewClient (w_fluxion w) = (None, f1) ->
     exists e, cleanup_Work args w = (Ret e, set_fluxion w (fluxion_Cancel (ca_FluxID args) f1).2) /\
       (e = None <-> (fluxion_Cancel (ca_FluxID args) f1).1 = None)).
Proof.
  unfold cleanup_Work, worker_Cleanup. split; intros Hid.
  - destruct (Z.ltb_spec (-1) (ca_FluxID args)); [lia|done].
  - intros f1 H1. destruct (Z.ltb_spec (-1) (ca_FluxID args)); [|lia].
    unfold deleteFluxion. rewrite run_bind, on_fluxion_eq, H1. cbn. rewrite run_bind, on_fluxion_eq. cbn.
    destruct (_.1); by eexists.
Qed.

(** Deleting by id. *)
Lemma DeleteSingleReservations_elem db id r :
  r ∈ reservations (DeleteSingleReservationsQuery db id) <-> rr_flux_id r <> id /\ r ∈ reservations db.
Proof.
  simpl. rewrite list_elem_of_filter. destruct (bool_decide_reflect (rr_flux_id r = id)); naive_solver.
Qed.

Lemma sql_exec_always_ret (g : Database -> Database) w e w' :
  sql_exec (always g) w = (Ret e, w') ->
  w_fluxion w' = w_fluxion w /\ (w_db w' = w_db w \/ w_db w' = g (w_db w)) /\ (e = None -> w_db w' = g (w_db w)).
Proof.
  unfold sql_exec, always. destruct (db_fate _) as [[|x|x] c]; intros [= <- <-]; cbn; auto.
  split; [done|]. split; [by left|done].
Qed.

(** The loop over the reservations keeps the pending table, adds no
    reservation, and, when it ends normally on a Fluxion that accepts the
    cancels, has deleted every reservation whose id it was given. *)
Theorem reservation_loop_clears (rows : list ReservationModel) w w' :
  (forall id f, (fluxion_Cancel id f).1 = None) ->
  reservation_loop rows w = (Ret None, w') ->
  pending_queue (w_db w') = pending_queue (w_db w) /\
  forall r, r ∈ reservations (w_db w') <->
            r ∈ reservations (w_db w) /\ rr_flux_id r ∉ (rm_JobId <$> rows).
Proof.
  intros Hc. revert w. induction rows as [|item rows IH]; intros w H; cbn [reservation_loop] in H.
  { injection H as ->. set_solver. }
  rewrite run_bind, on_fluxion_eq, Hc in H. cbv beta iota in H.
  apply bind_ret_inv in H as (e & w1 & H1 & H). destruct e as [e|]; [done|].
  apply sql_exec_always_ret in H1 as (_ & _ & Hd). specialize (Hd eq_refl). cbn in Hd.
  destruct (IH w1 H) as [Hp Hr]. rewrite Hd in Hp. split; [exact Hp|].
  intros r. rewrite Hr, Hd, DeleteSingleReservations_elem, fmap_cons, not_elem_of_cons. tauto.
Qed.

Lemma composite_rows_fail db :
  reservations db <> [] -> exists e, (CollectRows RowToReservation (GetReservationsQuery db)).2 = Some e.
Proof.
  unfold GetReservationsQuery. destruct (reservations db) as [|r l]; [done|]. intros _. by eexists.
Qed.

(** Whenever the reservations table is not empty, the reservation worker
    fails: it cancels nothing in Fluxion and deletes nothing, because the
    query returns one composite column that the row type has no field for. *)
Theorem reservation_Work_stuck w :
  reservations (w_db w) <> [] ->
  exists e w', reservation_Work w = (Ret (Some e), w') /\ w_db w' = w_db w /\ w_kube w' = w_kube w /\
    w_river w' = w_river w /\
    (w_fluxion w' = w_fluxion w \/ w_fluxion w' = (fluxion_NewClient (w_fluxion w)).2).
Proof.
  intros Hne. unfold reservation_Work. rewrite run_bind, on_conn_eq.
  destruct (pool_New (w_conn w)).1 as [e|]; [ret_done|]. cbv beta iota. rewrite run_bind.
  unfold sql_query. cbn [w_conn set_conn]. destruct (db_fate _) as [[|e|e] c]; [|ret_done..].
  cbv beta iota. rewrite run_bind, on_fluxion_eq. cbn.
  destruct (fluxion_NewClient (w_fluxion w)).1 as [e|]; [ret_done|].
  destruct (composite_rows_fail (w_db w) Hne) as [e He].
  destruct (CollectRows _ _) as [rows e']. simpl in He. subst e'. ret_done.
Qed.
End CancelFacts.

(** ** Runs on the in-memory services *)

Definition reserved_world : MemoryWorld :=
  mkWorld (mkUpConn 0) (mkDatabase [] [mkReservation "a" 3; mkReservation "b" 4]) (mkMemKube ∅ ∅ ∅)
          (mkMemFluxion [] []) [] false.

Lemma cleanup_Work_effect_witness :
  cleanup_Work (mkCleanupArgs (-1) "") reserved_world = (Ret None, reserved_world) /\
  exists e, cleanup_Work (mkCleanupArgs 3 "") reserved_world =
              (Ret e, set_fluxion reserved_world (mkMemFluxion [] [3%Z])) /\ (e = None <-> @None goerr = None).
Proof.
  split.
  - apply (proj1 (cleanup_Work_effect (mkCleanupArgs (-1) "") reserved_world)). simpl. lia.
  - refine (proj2 (cleanup_Work_effect (mkCleanupArgs 3 "") reserved_world) _ _ eq_refl). simpl. lia.
Defined.

Lemma reservation_loop_clears_witness :
  exists w', reservation_loop [mkReservationModel 3 "a"] reserved_world = (Ret None, w') /\
    forall r, r ∈ reservations (w_db w') <->
              r ∈ [mkReservation "a" 3; mkReservation "b" 4] /\ rr_flux_id r ∉ [3%Z].
Proof.
  eexists. split; [reflexivity|].
  exact (proj2 (reservation_loop_clears [mkReservationModel 3 "a"] reserved_world _ (fun _ _ => eq_refl) eq_refl)).
Defined.

Lemma reservation_Work_stuck_witness :
  exists e w', reservation_Work reserved_world = (Ret (Some e), w') /\ w_db w' = w_db reserved_world.
Proof.
  destruct (reservation_Work_stuck reserved_world) as (e & w' & H1 & H2 & _); [discriminate|].
  by exists e, w'.
Defined.
