(* ===== verification/TaskErrors.v ===== *)
(** * What the runs of the workers return

    river tells the errors of a worker apart: one made by [river.JobCancel]
    ends the task, any other makes river try again, up to a number of
    attempts.  Here: the worker of each kind of task, the one case in which it
    cancels its task (a job that asked for a reservation and cannot be placed),
    and what a run that returns nil has found out. *)

From Stdlib Require Import Ascii.
From stdpp Require Import base option strings gmap numbers list.
From S2P Require Import Prelude GoStrings Json Api Kube Database World Mem Allocation JobWorker UngateWorker CancelWorkers.

(** ** Errors that cancel a task *)

(** The error does not tell river to cancel the task. *)
Definition ordinary (e : error) : bool := match e with Some (ErrJobCancel _) => false | _ => true end.

(** The errors of the database, of client-go and of gRPC are not those of
    [river.JobCancel]. *)
Class OrdinaryErrors (Q C K F : Type) `{!DbConn C, !PodClient Q K, !FluxionClient F} : Prop := {
  pool_ordinary (c : C) : ordinary (pool_New c).1 = true;
  fate_ordinary (c : C) e : (db_fate c).1 = Refused e \/ (db_fate c).1 = Unacknowledged e -> ordinary (Some e) = true;
  client_ordinary (f : F) : ordinary (fluxion_NewClient f).1 = true;
  match_ordinary q (f : F) : ordinary (fluxion_Match q f).1.2 = true;
  config_ordinary (k : K) : ordinary (kube_NewForConfig (Q:=Q) k).1 = true;
  get_ordinary ns n (k : K) : ordinary (pods_Get (Q:=Q) ns n k).1.2 = true;
  list_ordinary ns s (k : K) : ordinary (pods_List (Q:=Q) ns s k).1.2 = true;
  pods_patch_ordinary ns n t b (k : K) : ordinary (pods_Patch (Q:=Q) ns n t b k).1 = true;
  jobs_patch_ordinary ns n t b (k : K) : ordinary (jobs_Patch (Q:=Q) ns n t b k).1 = true
}.

(** Errors of the JSON decoder and of the row collector. *)
Definition dec_ordinary {T} (d : Dec T) : Prop := forall j x, ordinary (d j x).2 = true.

Lemma first_error_ordinary a b : ordinary a = true -> ordinary b = true -> ordinary (first_error a b) = true.
Proof. by destruct a. Qed.
Lemma foldl_ordinary {T A} (f : T * error -> A -> T * error) l acc :
  (forall acc a, ordinary acc.2 = true -> ordinary (f acc a).2 = true) -> ordinary acc.2 = true -> ordinary (foldl f acc l).2 = true.
Proof. intros Hf. revert acc. induction l as [|a l IH]; intros acc Hacc; [done|]. by apply IH, Hf. Qed.

Lemma dec_string_ordinary : dec_ordinary dec_string.
Proof. by intros [] x. Qed.
Lemma dec_bool_ordinary : dec_ordinary dec_bool.
Proof. by intros [] x. Qed.
Lemma dec_int_ordinary bits : dec_ordinary (dec_int bits).
Proof. intros [] x; try done. cbn. by destruct (ParseInt _ _) as [z [e|]]. Qed.
Lemma dec_map_ordinary : dec_ordinary dec_map.
Proof.
  intros [] x; try done. apply foldl_ordinary; [|done]. intros [m e] [k v] He. cbn.
  pose proof (dec_string_ordinary v "") as Hv. destruct (dec_string v "") as [s e']. by apply first_error_ordinary.
Qed.
Lemma dec_struct_ordinary {T} (field : string -> json -> T -> T * error) :
  (forall k, dec_ordinary (field k)) -> dec_ordinary (dec_struct field).
Proof.
  intros Hf [] x; try done. apply foldl_ordinary; [|done]. intros [y e] [k v] He. cbn.
  pose proof (Hf (lower k) v y) as Hv. destruct (field _ _ _) as [z e']. by apply first_error_ordinary.
Qed.
Lemma dec_elems_ordinary {T} (d : Dec T) zero js old : dec_ordinary d -> ordinary (dec_elems d zero js old).2 = true.
Proof.
  intros Hd. revert old. induction js as [|j js IH]; intros old; [done|]. cbn.
  pose proof (Hd j (match old with o :: _ => o | [] => zero end)) as Hj. destruct (d j _) as [y e].
  specialize (IH (tail old)). destruct (dec_elems d zero js (tail old)) as [ys e']. by apply first_error_ordinary.
Qed.
Lemma dec_slice_ordinary {T} (d : Dec T) zero : dec_ordinary d -> dec_ordinary (dec_slice d zero).
Proof. intros Hd [] x; try done. by apply dec_elems_ordinary. Qed.
Lemma into_ordinary {A T} (d : Dec A) (get : T -> A) (set : A -> T -> T) : dec_ordinary d -> dec_ordinary (into d get set).
Proof. intros Hd j x. unfold into. pose proof (Hd j (get x)) as H. by destruct (d j (get x)). Qed.

#[local] Hint Resolve dec_string_ordinary dec_bool_ordinary dec_int_ordinary dec_map_ordinary dec_slice_ordinary : core.
Lemma Allocation_ordinary : dec_ordinary dec_Allocation.
Proof.
  assert (Hm : dec_ordinary dec_Metadata).
  { apply dec_struct_ordinary. intros k j []. repeat case_match; try done; apply into_ordinary; auto. }
  assert (Hn : dec_ordinary dec_Node) by (apply dec_struct_ordinary; intros k j x; repeat case_match; try done; apply into_ordinary; auto).
  assert (He : dec_ordinary dec_Edges) by (apply dec_struct_ordinary; intros k j x; repeat case_match; try done; apply into_ordinary; auto).
  assert (Hg : dec_ordinary dec_Graph) by (apply dec_struct_ordinary; intros k j x; repeat case_match; try done; apply into_ordinary; auto).
  apply dec_struct_ordinary; intros k j x; repeat case_match; try done; apply into_ordinary; auto.
Qed.
Lemma parseNodes_ordinary s : ordinary (parseNodes s).2 = true.
Proof.
  unfold parseNodes, Unmarshal. destruct (json_parse s) as [j|]; [|done].
  pose proof (Allocation_ordinary j zero_Allocation) as H. by destruct (dec_Allocation _ _) as [g [e|]].
Qed.
Lemma CollectRows_ordinary rows : ordinary (CollectRows RowToReservation rows).2 = true.
Proof.
  induction rows as [|row rows IH]; [done|]. cbn [CollectRows]. unfold RowToReservation at 1.
  repeat case_match; simplify_eq; done.
Qed.

Section Cancels.
Context {Q C K F R : Type}.
Context `{!DbConn C, !RiverClient R, !PodClient Q K, !FluxionClient F, !OrdinaryErrors Q C K F}.
Implicit Types w : World C K F R.

(** The worker registered for the kind of a task. *)
Definition work (a : RiverArgs) : GoM (World C K F R) error :=
  match a with
  | AJob a => Work Q a
  | ACleanup c => cleanup_Work c
  | AReservation => reservation_Work
  | AUngate u => ungate_Work Q u
  end.

(** Every run of [m] that returns does so with a value in [P]. *)
Definition returns {A} (P : A -> Prop) (m : GoM (World C K F R) A) : Prop := forall w a w', m w = (Ret a, w') -> P a.
Abbreviation never_cancels := (returns (fun e : error => ordinary e = true)).

Lemma returns_bind {A B} (P : A -> Prop) (P' : B -> Prop) (m : GoM _ A) (k : A -> GoM _ B) :
  returns P m -> (forall a, P a -> returns P' (k a)) -> returns P' (m ≫= k).
Proof. intros Hm Hk w b w' (a & w1 & H1 & H2)%bind_ret_inv. by eapply Hk; [eapply Hm|]. Qed.
Lemma returns_ret {A} (P : A -> Prop) a : P a -> returns P (mret a).
Proof. by intros Ha w a' w' [= <- _]. Qed.
Lemma returns_panic {A} (P : A -> Prop) why : returns P (panic why).
Proof. by intros w a w'. Qed.
Lemma returns_any {A} (m : GoM (World C K F R) A) : returns (fun _ => True) m.
Proof. by intros w a w' _. Qed.
Lemma returns_kube {A} (P : A -> Prop) (f : K -> A * K) : (forall k, P (f k).1) -> returns P (on_kube f).
Proof. intros Hf w a w'. rewrite on_kube_eq. by intros [= <- _]. Qed.
Lemma returns_fluxion {A} (P : A -> Prop) (f : F -> A * F) : (forall x, P (f x).1) -> returns P (on_fluxion f).
Proof. intros Hf w a w'. rewrite on_fluxion_eq. by intros [= <- _]. Qed.
Lemma returns_conn {A} (P : A -> Prop) (f : C -> A * C) : (forall c, P (f c).1) -> returns P (on_conn f).
Proof. intros Hf w a w'. rewrite on_conn_eq. by intros [= <- _]. Qed.
Lemma returns_query {A} (f : Database -> A) :
  returns (fun x => match x with inl e => ordinary (Some e) = true | inr _ => True end) (sql_query f : GoM (World C K F R) _).
Proof.
  intros w x w'. unfold sql_query. pose proof (fate_ordinary (Q:=Q) (K:=K) (F:=F) (w_conn w)) as H.
  destruct (db_fate (w_conn w)) as [[|e|e] c]; intros [= <- _]; eauto.
Qed.
Lemma returns_delete (g : Database -> Database) : never_cancels (sql_exec (always g)).
Proof.
  intros w x w'. unfold sql_exec, always. pose proof (fate_ordinary (Q:=Q) (K:=K) (F:=F) (w_conn w)) as H.
  destruct (db_fate (w_conn w)) as [[|e|e] c]; intros [= <- _]; eauto.
Qed.
End Cancels.

Arguments work Q {C K F R} {_ _ _ _} a.

(** Walk through a worker whose calls return ordinary errors. *)
Ltac ordinary_call :=
  first [ apply returns_conn, pool_ordinary | apply returns_fluxion, client_ordinary
        | apply returns_kube, config_ordinary | apply returns_kube; intros; apply pods_patch_ordinary
        | apply returns_kube; intros; apply jobs_patch_ordinary ].
Ltac ordinary_step :=
  match goal with
  | |- returns _ (mbind _ (on_kube (pods_Get _ _))) =>
      apply (returns_bind (fun r => ordinary r.2 = true)); [apply returns_kube; intros; apply get_ordinary|intros [? ?] ?; cbn [snd] in *]
  | |- returns _ (mbind _ (on_kube (pods_List _ _))) =>
      apply (returns_bind (fun r => ordinary r.2 = true)); [apply returns_kube; intros; apply list_ordinary|intros [? ?] ?; cbn [snd] in *]
  | |- returns _ (mbind _ (on_fluxion (fluxion_Match _))) =>
      apply (returns_bind (fun r => ordinary r.2 = true)); [apply returns_fluxion; intros; apply match_ordinary|intros [? ?] ?; cbn [snd] in *]
  | |- returns _ (mbind _ (sql_query _)) => eapply returns_bind; [apply returns_query|intros ? ?]
  | |- returns _ (mbind _ _) =>
      apply (returns_bind (fun e => ordinary e = true)); [solve [ordinary_call|apply returns_delete|eauto]|intros ? ?]
  | |- returns _ (mbind _ _) => eapply returns_bind; [apply returns_any|intros ? _]
  | |- returns _ (match CollectRows RowToReservation ?r with _ => _ end) =>
      pose proof (CollectRows_ordinary r); destruct (CollectRows RowToReservation r) as [? [?|]]; cbn [snd] in *
  | |- returns _ (match parseNodes ?s with _ => _ end) =>
      pose proof (parseNodes_ordinary s); destruct (parseNodes s) as [? [?|]]; cbn [snd] in *
  | |- returns _ (match ?x with _ => _ end) => destruct x
  | |- returns _ (if ?x then _ else _) => destruct x
  | |- returns _ (mret _) => apply returns_ret; cbv beta in *; solve [done|eauto]
  | |- returns _ (panic _) => apply returns_panic
  | |- returns _ _ => solve [ordinary_call|apply returns_delete|eauto]
  end.
Ltac ordinary_walk := repeat ordinary_step.

Abbreviation never_cancels := (returns (fun e : error => ordinary e = true)).

Section Cancelled.
Context {Q C K F R : Type}.
Context `{!DbConn C, !RiverClient R, !PodClient Q K, !FluxionClient F, !OrdinaryErrors Q C K F}.
Implicit Types w : World C K F R.

Lemma removeGate_ordinary ns n : never_cancels (removeGate Q ns n : GoM (World C K F R) error).
Proof. unfold removeGate. ordinary_walk. Qed.

Lemma ungate_loop_ordinary u jobid total i (ps : list (Pod Q)) : never_cancels (ungate_loop u jobid total i ps : GoM (World C K F R) error).
Proof.
  revert i. induction ps as [|p ps IH]; intros i; cbn [ungate_loop]; pose proof removeGate_ordinary; ordinary_walk.
Qed.

Lemma ungate_Work_ordinary u : never_cancels (ungate_Work Q u : GoM (World C K F R) error).
Proof.
  pose proof removeGate_ordinary. pose proof ungate_loop_ordinary. unfold ungate_Work. ordinary_walk.
Qed.

Lemma cleanup_Work_ordinary c : never_cancels (cleanup_Work c : GoM (World C K F R) error).
Proof. unfold cleanup_Work, worker_Cleanup, deleteFluxion. ordinary_walk. Qed.

Lemma reservation_loop_ordinary rows : never_cancels (reservation_loop rows : GoM (World C K F R) error).
Proof. induction rows as [|r rows IH]; cbn [reservation_loop]; ordinary_walk. Qed.


Lemma reservation_Work_ordinary : never_cancels (reservation_Work : GoM (World C K F R) error).
Proof. unfold reservation_Work. pose proof reservation_loop_ordinary. ordinary_walk. Qed.

Lemma releaseJob_ordinary a id nodes : never_cancels (releaseJob Q a id nodes : GoM (World C K F R) error).
Proof. unfold releaseJob, unsuspendJob. ordinary_walk. Qed.

(** Until Fluxion has answered, [Work] fails with the error of a service. *)
Lemma Work_asks a w o w' :
  Work Q a w = (Ret o, w') -> (exists e, o = Some e /\ ordinary o = true) \/ exists resp f, answers w a resp f.
Proof.
  unfold Work. rewrite run_bind, on_fluxion_eq. pose proof (client_ordinary (Q:=Q) (C:=C) (K:=K) (w_fluxion w)) as Ho1.
  destruct (fluxion_NewClient (w_fluxion w)) as [[e1|] f1] eqn:E1; cbn [fst snd]; [intros [= <- _]; eauto|].
  rewrite run_bind, on_fluxion_eq. cbn [w_fluxion set_fluxion].
  pose proof (match_ordinary (Q:=Q) (C:=C) (K:=K) (match_request a) f1) as Ho2.
  destruct (fluxion_Match (match_request a) f1) as [[resp [e2|]] f] eqn:E2; cbn [fst snd] in *; [intros [= <- _]; eauto|].
  intros _. right. exists resp, f. by exists f1.
Qed.

(** A run of [Work] cancels its task only for a job that cannot be placed. *)
Lemma Work_cancels a w e w' :
  Work Q a w = (Ret (Some (ErrJobCancel e)), w') -> exists resp f, answers w a resp f /\ impossible a resp = true.
Proof.
  intros H. destruct (Work_asks _ _ _ _ H) as [(e' & _ & Ho)|(resp & f & Ha)]; [discriminate Ho|].
  exists resp, f. split; [done|]. rewrite (Work_answered _ _ _ _ Ha) in H. destruct (impossible a resp); [done|].
  apply bind_ret_inv in H as (u & w3 & _ & H). exfalso. revert H.
  destruct (bool_decide (mr_Allocation resp = "")); [done|].
  pose proof (parseNodes_ordinary (mr_Allocation resp)) as Ho3.
  destruct (parseNodes _) as [nodes [e3|]]; [intros [= -> _]; discriminate Ho3|]. intros H%releaseJob_ordinary. discriminate H.
Qed.

(** A job task that completes has got nodes. *)
Lemma Work_completed a w w' :
  Work Q a w = (Ret None, w') -> exists resp f nodes, answers w a resp f /\ mr_Allocation resp <> "" /\
    parseNodes (mr_Allocation resp) = (nodes, None).
Proof.
  intros H. destruct (Work_asks _ _ _ _ H) as [(e' & ? & _)|(resp & f & Ha)]; [done|].
  rewrite (Work_answered _ _ _ _ Ha) in H. destruct (impossible a resp).
  { by apply bind_ret_inv in H as (u & w3 & _ & H). }
  apply bind_ret_inv in H as (u & w3 & _ & H). destruct (bool_decide_reflect (mr_Allocation resp = "")); [done|].
  destruct (parseNodes (mr_Allocation resp)) as [nodes [e3|]] eqn:E3; [done|]. by exists resp, f, nodes.
Qed.

(** Only a job task that asked for a reservation is ever cancelled. *)
Lemma work_cancels args w e w' :
  work Q args w = (Ret (Some (ErrJobCancel e)), w') ->
  exists a resp f, args = AJob a /\ ja_Reservation a = 1%Z /\ answers w a resp f /\ impossible a resp = true.
Proof.
  destruct args as [a|c| |u]; cbn [work]; intros H.
  - apply Work_cancels in H as (resp & f & Ha & Hi). exists a, resp, f. split; [done|]. split; [|done].
    unfold impossible in Hi. apply andb_true_iff in Hi as [Hi _]. apply andb_true_iff in Hi as [Hi _]. by apply Z.eqb_eq.
  - by apply cleanup_Work_ordinary in H.
  - by apply reservation_Work_ordinary in H.
  - by apply ungate_Work_ordinary in H.
Qed.
End Cancelled.
