(* ===== verification/Controller.v ===== *)
(** * The FluxJob controller: [internal/controller]

    [fluxjob_controller.go] reconciles one FluxJob, [submit.go] hands it to
    the queue and runs a scheduling cycle, [status.go] writes its status, and
    [events.go] cancels the Fluxion job of a deleted pod. *)

From stdpp Require Import base option strings gmap numbers list.
From S2P Require Import Prelude GoStrings Json Api Kube Database World Mem Strategy Queue JobWorker.

(** [ctrl.Result]. *)
Record Result := mkResult { res_Requeue : bool }.

(** What the informer hands to the delete handler: the pod, or a tombstone when
    the deletion itself was missed. *)
Inductive deleted := DeletedPod (meta : ObjectMeta) | DeletedFinalStateUnknown.

Section Controller.
Context {C K F R : Type}.
Context `{!DbConn C, !FluxJobClient K, !RiverClient R}.
Abbreviation W := (World C K F R).

(** [updateStatus]: writes only a status that differs. *)
Definition updateStatus (spec : FluxJob) (status : SubmitStatus) : GoM W error :=
  if bool_decide (fj_Status spec = status) then mret None
  else on_kube (fluxjob_StatusUpdate (set_status spec status)).

(** [submitJob]: after a successful [Enqueue], whatever its answer, one
    scheduling cycle runs, and its error is only logged. *)
Definition submitJob (q : Queue C K F R) (spec : FluxJob) : GoM W (Result * error) :=
  let result := mkResult false in
  '(enqueueStatus, err) ← Enqueue spec;
  match err with
  | Some _ => mret (result, err)
  | None => _ ← Schedule q; mret (result, None)
  end.

(** [Reconcile]. *)
Definition Reconcile (q : Queue C K F R) (namespace name : string) : GoM W (Result * error) :=
  '(spec, err) ← on_kube (fluxjob_Get namespace name);
  match err with
  | Some e => if IsNotFound e then mret (mkResult false, None) else mret (mkResult true, Some e)
  | None =>
      if bool_decide (fj_Status spec = SubmitStatusSubmit) then
        err ← on_kube (fluxjob_Delete spec);
        mret (mkResult false, err)
      else
        '(result, err) ← submitJob q spec;
        err ← match err with
              | None => updateStatus spec SubmitStatusSubmit
              | Some _ => updateStatus spec SubmitStatusError
              end;
        mret (result, err)
  end.

(** The [DeleteFunc] of [SetupEvents].  The type assertion panics on a
    tombstone; a label that does not parse is logged, and the value [ParseInt]
    returned with its error is used all the same. *)
Definition pod_DeleteFunc (q : Queue C K F R) (obj : deleted) : GoM W unit :=
  match obj with
  | DeletedFinalStateUnknown => panic "interface conversion: interface {} is not *v1.Pod"
  | DeletedPod meta =>
      match label_get meta FluxJobIdLabel with
      | None => mret tt
      | Some jobid =>
          let '(jobInt, err) := ParseInt jobid 64 in
          _ ← Cleanup q [jobInt];
          mret tt
      end
  end.
End Controller.

(** ** Reconciling *)

Section ControllerFacts.
Context {C K F R : Type}.
Context `{!DbConn C, !FluxJobClient K, !FluxJobView K, !FluxJobLaws K, !RiverClient R, !RiverView R, !RiverLaws R}.
Implicit Types w : World C K F R.
Implicit Types q : Queue C K F R.



Lemma updateStatus_run spec st w :
  updateStatus spec st w =
  (if bool_decide (fj_Status spec = st) then (Ret None, w)
   else let r := fluxjob_StatusUpdate (set_status spec st) (w_kube w) in (Ret r.1, set_kube w r.2)).
Proof. unfold updateStatus. case_bool_decide; [done|]. by rewrite on_kube_eq. Qed.





(** A FluxJob that is submitted, gone or unreadable is never enqueued again:
    the tables and tasks are untouched.  A submitted one is deleted, a missing
    one is ignored, and any other error of the lookup asks for a requeue. *)
Theorem Reconcile_terminal q ns n w :
  (forall spec k1, fluxjob_Get ns n (w_kube w) = ((spec, None), k1) -> fj_Status spec = SubmitStatusSubmit ->
     let r := fluxjob_Delete spec k1 in
     Reconcile q ns n w = (Ret (mkResult false, r.1), set_kube w r.2)) /\
  (forall spec e k1, fluxjob_Get ns n (w_kube w) = ((spec, Some e), k1) ->
     Reconcile q ns n w =
       (Ret (if IsNotFound e then (mkResult false, None) else (mkResult true, Some e)), set_kube w k1)).
Proof.
  unfold Reconcile. rewrite run_bind, on_kube_eq. split.
  - intros spec k1 -> Hs. cbn [fst snd]. rewrite bool_decide_eq_true_2 by done.
    by rewrite run_bind, on_kube_eq.
  - intros spec e k1 ->. cbn [fst snd]. by destruct (IsNotFound e).
Qed.

(** Once its status is error, a FluxJob whose original name and namespace are
    pending is given up silently: reconciling it reports success without a
    requeue and changes nothing in the API server, the tables or river. *)
Theorem Reconcile_gives_up q `{!StrategyLaws (q_Strategy q)} ns n spec k1 w r :
  fluxjob_Get ns n (w_kube w) = ((spec, None), k1) -> fj_Status spec = SubmitStatusError ->
  r ∈ pending_queue (w_db w) -> pr_name r = fs_Name (fj_Spec spec) -> pr_namespace r = fj_Namespace spec ->
  exists w', Reconcile q ns n w = (Ret (mkResult false, None), w') /\
    w_kube w' = k1 /\ w_db w' = w_db w /\ w_river w' = w_river w.
Proof.
  intros Hg Hs Hr Hn Hns. unfold Reconcile. rewrite run_bind, on_kube_eq, Hg. cbn [fst snd].
  rewrite bool_decide_eq_false_2 by (by rewrite Hs). rewrite run_bind. unfold submitJob. rewrite run_bind.
  destruct (Enqueue_refuses spec (set_kube w k1) r Hr Hn Hns) as (e & w1 & -> & (Hk & _ & Hrv & _) & Hd).
  cbn [mret GoM_ret]. rewrite run_bind, updateStatus_run, bool_decide_eq_true_2 by done.
  by eexists.
Qed.

(** Deleting a pod that carries the id label the workers write asks for exactly
    one cancel, of that id; a pod without the label causes nothing.  A label
    that is not a number is not ignored: the cancel is for id 0 then, which is
    a valid job; a tombstone in place of the pod is a panic. *)
Theorem pod_DeleteFunc_cancels q m w :
  (label_get m FluxJobIdLabel = None -> pod_DeleteFunc q (DeletedPod m) w = (Ret tt, w)) /\
  (forall id, in_range 64 id -> label_get m FluxJobIdLabel = Some (Itoa id) ->
     pod_DeleteFunc q (DeletedPod m) w = (_ ← Cleanup q [id]; mret tt) w) /\
  (forall s v, label_get m FluxJobIdLabel = Some s -> ParseInt s 64 = (v, Some ErrSyntax) ->
     pod_DeleteFunc q (DeletedPod m) w = (_ ← Cleanup q [0%Z]; mret tt) w) /\
  (exists why, pod_DeleteFunc q DeletedFinalStateUnknown w = (Panic why, w)).
Proof.
  unfold pod_DeleteFunc. split; [by intros ->|]. split; [|split; [|by eexists]].
  - intros id Hid ->. by rewrite ParseInt_Itoa_gen.
  - intros s v -> Hs. rewrite Hs. by rewrite (ParseInt_syntax _ _ _ Hs).
Qed.
End ControllerFacts.

(** ** Runs on the in-memory services *)

(** The sample world with one FluxJob stored. *)
Definition with_fluxjob (fj : FluxJob) : MemWorld UpConn :=
  set_kube (sample_world (mkUpConn 100)) (mkMemKube ∅ ∅ {[ (fj_Namespace fj, fj_Name fj) := fj ]}).

Definition fresh_job : FluxJob := sample_fluxjob JobWrappedPod "fresh".
Definition stuck_job : FluxJob := set_status (sample_fluxjob JobWrappedPod "old") SubmitStatusError.
Definition done_job : FluxJob := set_status (sample_fluxjob JobWrappedPod "old") SubmitStatusSubmit.


(** *** A status that is not written

    An API server that refuses the next [sd_down] status updates. *)
Record StatusDown := mkStatusDown { sd_down : nat; sd_kube : MemKube Z }.
Definition sd_lift {A} (f : MemKube Z -> A * MemKube Z) (k : StatusDown) : A * StatusDown :=
  let '(a, k') := f (sd_kube k) in (a, mkStatusDown (sd_down k) k').
#[export] Instance status_down : FluxJobClient StatusDown := {
  fluxjob_Get ns n := sd_lift (fluxjob_Get ns n);
  fluxjob_Create fj := sd_lift (fluxjob_Create fj);
  fluxjob_StatusUpdate fj k :=
    match sd_down k with
    | 0 => sd_lift (fluxjob_StatusUpdate fj) k
    | S n => (Some (Err "the server is currently unable to handle the request"), mkStatusDown n (sd_kube k))
    end;
  fluxjob_Delete fj := sd_lift (fluxjob_Delete fj)
}.

Definition unwritten : World UpConn StatusDown MemFluxion MemRiver :=
  mkWorld (mkUpConn 100) (mkDatabase [] []) (mkStatusDown 1 (mkMemKube ∅ ∅ {[ ("default", "fresh-pod") := fresh_job ]}))
          (mkMemFluxion [] []) [] false.

(** When the status of a job that was handed over cannot be written, the
    reconciliation returns the error, and the one that follows submits the job
    a second time: river has two tasks for the one FluxJob. *)
Theorem unwritten_status_submits_twice :
  let q := mkQueue Easy.EasyBackfill Easy.GetReservationDepth in
  let r1 := Reconcile q "default" "fresh-pod" unwritten in
  let r2 := Reconcile q "default" "fresh-pod" r1.2 in
  let jobs (w : World UpConn StatusDown MemFluxion MemRiver) :=
    filter (fun p => im_Args p = AJob (Easy.job_args (to_JobModel (pending_row fresh_job 100)))) (river_tasks (w_river w)) in
  (exists e, r1.1 = Ret (mkResult false, Some e)) /\ length (jobs r1.2) = 1 /\
  r2.1 = Ret (mkResult false, None) /\ length (jobs r2.2) = 2.
Proof. vm_compute. split; [by eexists|]. auto. Qed.

Lemma Reconcile_terminal_witness :
  Reconcile easy_queue "default" "old-pod" (with_fluxjob done_job) =
    (Ret (mkResult false, None), set_kube (with_fluxjob done_job)
       (fluxjob_Delete done_job (w_kube (with_fluxjob done_job))).2).
Proof.
  exact (proj1 (Reconcile_terminal easy_queue "default" "old-pod" (with_fluxjob done_job)) done_job _
           eq_refl eq_refl).
Defined.

Lemma Reconcile_gives_up_witness :
  exists w', Reconcile easy_queue "default" "old-pod" (with_fluxjob stuck_job) = (Ret (mkResult false, None), w') /\
    w_kube w' = w_kube (with_fluxjob stuck_job) /\ w_db w' = w_db (with_fluxjob stuck_job) /\
    w_river w' = w_river (with_fluxjob stuck_job).
Proof.
  apply (Reconcile_gives_up easy_queue "default" "old-pod" stuck_job _ (with_fluxjob stuck_job) (sample_row "old" 10));
    [reflexivity|reflexivity|apply list_elem_of_here|reflexivity|reflexivity].
Defined.

Lemma pod_DeleteFunc_cancels_witness :
  pod_DeleteFunc easy_queue (DeletedPod (mkMeta "p" "default" (Some {[ FluxJobIdLabel := "7" ]})))
      (with_fluxjob done_job) =
    (_ ← Cleanup easy_queue [7%Z]; mret tt) (with_fluxjob done_job) /\
  pod_DeleteFunc easy_queue (DeletedPod (mkMeta "p" "default" (Some {[ FluxJobIdLabel := "x" ]})))
      (with_fluxjob done_job) =
    (_ ← Cleanup easy_queue [0%Z]; mret tt) (with_fluxjob done_job).
Proof.
  split.
  - refine (proj1 (proj2 (pod_DeleteFunc_cancels easy_queue
      (mkMeta "p" "default" (Some {[ FluxJobIdLabel := "7" ]})) (with_fluxjob done_job))) 7%Z _ _);
      [unfold in_range; lia|reflexivity].
  - exact (proj1 (proj2 (proj2 (pod_DeleteFunc_cancels easy_queue
      (mkMeta "p" "default" (Some {[ FluxJobIdLabel := "x" ]})) (with_fluxjob done_job)))) "x" 0%Z eq_refl eq_refl).
Defined.
