(* ===== verification/Jobspec.v ===== *)
(** * Resources of a pod: [pkg/jobspec/jobspec.go]

    The sums over the containers of a pod that size its Flux jobspec, at the
    widths of the Go fields. *)

From stdpp Require Import base option strings gmap numbers list.
From S2P Require Import Prelude GoStrings Json Api Kube.

(** [resource.Quantity]: [Value] rounds up to an [int64]. *)
Class Quantity (Q : Type) := q_Value : Q -> Z.

Record Resources := mkResources {
  rs_Cpu : Z;
  rs_Memory : Z;
  rs_Gpu : Z;
  rs_Storage : Z;
  rs_Labels : list string
}.

Section Jobspec.
Context {Q : Type} `{!Quantity Q}.

(** [Requests.Cpu().Value()] and its siblings: a missing entry is the zero
    quantity. *)
Definition request_value (name : string) (c : Container Q) : Z :=
  match c_Requests c !! name with Some q => q_Value q | None => 0%Z end.

(** One iteration of the loop. *)
Definition add_container (r : Resources) (c : Container Q) : Resources :=
  mkResources
    (int32 (rs_Cpu r + int32 (request_value "cpu" c)))
    (int64 (rs_Memory r + request_value "memory" c))
    (match c_Limits c !! "nvidia.com/gpu" with
     | Some gpus => int64 (rs_Gpu r + q_Value gpus)
     | None => rs_Gpu r
     end)
    (int64 (rs_Storage r + request_value "ephemeral-storage" c))
    (rs_Labels r).

(** [GeneratePodResources]. *)
Definition GeneratePodResources (containers : list (Container Q)) : Resources :=
  let resources := foldl add_container (mkResources 0 0 0 0 []) containers in
  if (rs_Cpu resources =? 0)%Z
  then mkResources 1 (rs_Memory resources) (rs_Gpu resources) (rs_Storage resources) (rs_Labels resources)
  else resources.

(** ** The loop computes sums, wrapped once *)

(** The mathematical sums. *)
Definition total (f : Container Q -> Z) (cs : list (Container Q)) : Z := foldr (fun c acc => (f c + acc)%Z) 0%Z cs.
Definition gpu_value (c : Container Q) : Z :=
  match c_Limits c !! "nvidia.com/gpu" with Some q => q_Value q | None => 0%Z end.

Lemma total_app f cs cs' : total f (cs ++ cs') = (total f cs + total f cs')%Z.
Proof. unfold total. induction cs as [|c cs IH]; simpl; [done|]. rewrite IH. lia. Qed.

Lemma total_one f c : total f [c] = f c.
Proof. unfold total. simpl. lia. Qed.

Lemma total_perm f cs cs' : cs ≡ₚ cs' -> total f cs = total f cs'.
Proof. unfold total. induction 1; simpl; lia. Qed.

Lemma total_nonneg f cs : Forall (fun c => (0 <= f c)%Z) cs -> (0 <= total f cs)%Z.
Proof. unfold total. induction 1; simpl; lia. Qed.

Lemma add_containers_sum cs :
  foldl add_container (mkResources 0 0 0 0 []) cs =
  mkResources (int32 (total (request_value "cpu") cs)) (int64 (total (request_value "memory") cs))
              (int64 (total gpu_value cs)) (int64 (total (request_value "ephemeral-storage") cs)) [].
Proof.
  induction cs as [|c cs IH] using rev_ind; [done|].
  rewrite foldl_app, IH. cbn [foldl]. unfold add_container. cbn [rs_Cpu rs_Memory rs_Gpu rs_Storage rs_Labels].
  unfold int32, int64. rewrite !total_app, !total_one. f_equal.
  - by rewrite wrap_add_l, wrap_add_r by lia.
  - by rewrite wrap_add_l by lia.
  - assert (gpu_value c = match c_Limits c !! "nvidia.com/gpu" with Some q => q_Value q | None => 0%Z end)
      as -> by done.
    case_match; [by rewrite wrap_add_l by lia|by rewrite Z.add_0_r].
  - by rewrite wrap_add_l by lia.
Qed.

(** The resources of a pod are the sums over its containers, in any order,
    each wrapped once at the width of its field; a CPU count of 0 becomes 1.
    For requests whose CPU sum fits 31 bits the count is the sum, at least 1. *)
Theorem GeneratePodResources_sums cs :
  let cpu := int32 (total (request_value "cpu") cs) in
  GeneratePodResources cs =
    mkResources (if (cpu =? 0)%Z then 1 else cpu) (int64 (total (request_value "memory") cs))
                (int64 (total gpu_value cs)) (int64 (total (request_value "ephemeral-storage") cs)) [] /\
  (forall cs', cs ≡ₚ cs' -> GeneratePodResources cs' = GeneratePodResources cs) /\
  (Forall (fun c => (0 <= request_value "cpu" c)%Z) cs -> (total (request_value "cpu") cs < 2 ^ 31)%Z ->
     rs_Cpu (GeneratePodResources cs) = Z.max 1 (total (request_value "cpu") cs)).
Proof.
  intros cpu.
  assert (E : forall l, GeneratePodResources l =
    mkResources (if (int32 (total (request_value "cpu") l) =? 0)%Z then 1 else int32 (total (request_value "cpu") l))
      (int64 (total (request_value "memory") l)) (int64 (total gpu_value l))
      (int64 (total (request_value "ephemeral-storage") l)) []).
  { intros l. unfold GeneratePodResources. rewrite add_containers_sum. cbn [rs_Cpu]. by case_match. }
  split; [apply E|]. split.
  - intros cs' Hp. rewrite !E. by rewrite !(total_perm _ _ _ Hp).
  - intros Hpos Hlt. apply total_nonneg in Hpos. rewrite E. cbn [rs_Cpu].
    unfold int32. rewrite wrap_id by (unfold in_range; lia). destruct (Z.eqb_spec (total (request_value "cpu") cs) 0); lia.
Qed.
End Jobspec.

(** Quantities that are whole numbers. *)
#[export] Instance Z_Quantity : Quantity Z := fun z => z.

Definition cpu_container (n : Z) : Container Z := mkContainer "c" {[ "cpu" := n ]} ∅ None.

Lemma GeneratePodResources_sums_witness :
  rs_Cpu (GeneratePodResources [cpu_container 2; cpu_container 3]) = 5%Z.
Proof.
  refine (proj2 (proj2 (GeneratePodResources_sums [cpu_container 2; cpu_container 3])) _ _).
  - repeat constructor; vm_compute; discriminate.
  - vm_compute. reflexivity.
Defined.

(** Requests of 2^32 CPUs in all count as one. *)
Example GeneratePodResources_overflow :
  rs_Cpu (GeneratePodResources [cpu_container (2 ^ 31); cpu_container (2 ^ 31)]) = 1%Z.
Proof. vm_compute. reflexivity. Qed.
