(* ===== verification/Webhook.v ===== *)
(** * The admission webhook: [api/v1alpha1]

    [fluxjob_webhook.go] dispatches an admission request by the first type it
    decodes to, [fluxjob_enqueue.go] marks, gates or suspends the object, and
    [submit.go] creates the FluxJob that wraps it.  The jobspec library, the
    admission decoder and the JSON encoder are parameters. *)

From Stdlib Require Import Ascii.
From stdpp Require Import base option strings gmap numbers list.
From S2P Require Import Prelude GoStrings Json Api Kube Database World Mem Jobspec JobWorker UngateWorker.

(** ** Libraries *)

(** [github.com/compspec/jobspec-go]: building and printing a jobspec. *)
Class JobspecLib (J : Type) := {
  NewSimpleJobspec : string -> string -> Z -> Z -> J * error;
  js_set_duration : J -> Z -> J;
  JobspecToYaml : J -> string * error
}.

(** [admission.Decoder] and [json.Marshal] on the types of the webhook; [Raw]
    is the raw object of a request. *)
Class Codec (Q Raw : Type) := {
  decode_Job : Raw -> goerr + Job Q;
  decode_Deployment : Raw -> goerr + Workload Q;
  decode_ReplicaSet : Raw -> goerr + Workload Q;
  decode_StatefulSet : Raw -> goerr + Workload Q;
  decode_Pod : Raw -> goerr + Pod Q;
  marshal_Job : Job Q -> goerr + Raw;
  marshal_Deployment : Workload Q -> goerr + Raw;
  marshal_ReplicaSet : Workload Q -> goerr + Raw;
  marshal_StatefulSet : Workload Q -> goerr + Raw;
  marshal_Pod : Pod Q -> goerr + Raw
}.

(** [admission.Response]: a patch from the raw object to another, or a
    refusal with status 400. *)
Inductive Response (Raw : Type) :=
  | PatchResponseFromRaw (original current : Raw)
  | Errored (e : goerr).
Arguments PatchResponseFromRaw {Raw}. Arguments Errored {Raw}.

(** ** Submitting *)

Section Webhook.
Context {Q J C K F R : Type}.
Context `{!Quantity Q, !JobspecLib J, !FluxJobClient K}.
Abbreviation W := (World C K F R).

(** The FluxJob that [SubmitFluxJob] creates. *)
Definition new_fluxjob (jobType : JobWrapped) (name namespace : string) (nodes : Z) (jsString : string) : FluxJob :=
  mkFluxJob (GetJobName jobType name) namespace
            (mkFluxJobSpec jsString jobType name [] 0 false nodes []) SubmitStatusNew.

(** [SubmitFluxJob]. *)
Definition SubmitFluxJob (jobType : JobWrapped) (name namespace : string) (nodes : Z)
    (containers : list (Container Q)) : GoM W error :=
  let jobName := GetJobName jobType name in
  '(_, err) ← on_kube (fluxjob_Get namespace jobName);
  match err with
  | None => mret None
  | Some e =>
      if negb (IsNotFound e) then mret (Some e) else
      let resources := GeneratePodResources containers in
      let command := "echo " +:+ namespace +:+ " " +:+ name in
      let '(js, err) := NewSimpleJobspec name command nodes (rs_Cpu resources) in
      match err with Some _ => mret err | None =>
      let js := js_set_duration js 0 in
      let '(jsString, err) := JobspecToYaml js in
      match err with Some _ => mret err | None =>
      on_kube (fluxjob_Create (new_fluxjob jobType name namespace nodes jsString))
      end end
  end.

(** ** Marking the objects *)

Definition gate (s : PodSpec Q) : PodSpec Q := set_gates s (ps_SchedulingGates s ++ [SchedulingGateName]).

(** [EnqueuePod]: the pod after the call, and the error. *)
Definition EnqueuePod (pod : Pod Q) : GoM W (Pod Q * error) :=
  if bool_decide (om_Name (p_meta pod) = "") then mret (pod, None) else
  let pod := mkPod (ensure_labels (p_meta pod)) (p_spec pod) (p_status pod) in
  match label_get (p_meta pod) SeenLabel with
  | Some _ => mret (pod, None)
  | None =>
      let pod := mkPod (label_set (p_meta pod) SeenLabel "yes")
                       (set_scheduler (gate (p_spec pod)) SchedulerName) (p_status pod) in
      err ← SubmitFluxJob JobWrappedPod (om_Name (p_meta pod)) (om_Namespace (p_meta pod)) 1
                          (ps_Containers (p_spec pod));
      mret (pod, err)
  end.

(** [EnqueueJob]: suspends; panics when [Parallelism] is nil. *)
Definition EnqueueJob (job : Job Q) : GoM W (Job Q * error) :=
  let t := j_Template job in
  let job := mkJob (ensure_labels (j_meta job)) (j_Suspend job) (j_Parallelism job)
                   (mkTemplate (ensure_labels (t_meta t)) (t_spec t)) in
  match label_get (j_meta job) SeenLabel with
  | Some _ => mret (job, None)
  | None =>
      let t := j_Template job in
      let job := mkJob (label_set (j_meta job) SeenLabel "yes") (Some true) (j_Parallelism job)
                       (mkTemplate (label_set (t_meta t) SeenLabel "yes") (set_scheduler (t_spec t) SchedulerName)) in
      match j_Parallelism job with
      | None => panic "invalid memory address or nil pointer dereference"
      | Some parallelism =>
          err ← SubmitFluxJob JobWrappedJob (om_Name (j_meta job)) (om_Namespace (j_meta job)) parallelism
                              (ps_Containers (t_spec (j_Template job)));
          mret (job, err)
      end
  end.

(** The common body of [EnqueueDeployment], [EnqueueReplicaSet] and
    [EnqueueStatefulSet]: they differ in the FluxJob type and the first word of
    the selector. *)
Definition enqueue_workload (jobType : JobWrapped) (kind : string) (d : Workload Q) : GoM W (Workload Q * error) :=
  let t := wl_Template d in
  let d := mkWorkload (ensure_labels (wl_meta d)) (wl_Replicas d)
                      (mkTemplate (ensure_labels (t_meta t)) (t_spec t)) in
  match label_get (wl_meta d) SeenLabel with
  | Some _ => mret (d, None)
  | None =>
      let t := wl_Template d in
      let selector := selector_value kind (om_Name (wl_meta d)) (om_Namespace (wl_meta d)) in
      let d := mkWorkload (label_set (wl_meta d) SeenLabel "yes") (wl_Replicas d)
                 (mkTemplate (label_set (label_set (t_meta t) SeenLabel "yes") SelectorLabel selector)
                             (gate (set_scheduler (t_spec t) SchedulerName))) in
      match wl_Replicas d with
      | None => panic "invalid memory address or nil pointer dereference"
      | Some replicas =>
          err ← SubmitFluxJob jobType (om_Name (wl_meta d)) (om_Namespace (wl_meta d)) replicas
                              (ps_Containers (t_spec (wl_Template d)));
          mret (d, err)
      end
  end.

Definition EnqueueDeployment : Workload Q -> GoM W (Workload Q * error) :=
  enqueue_workload JobWrappedDeployment "deployment".
Definition EnqueueReplicaSet : Workload Q -> GoM W (Workload Q * error) :=
  enqueue_workload JobWrappedReplicaSet "replicaset".
Definition EnqueueStatefulSet : Workload Q -> GoM W (Workload Q * error) :=
  enqueue_workload JobWrappedStatefulSet "statefulset".
End Webhook.

(** ** Handling a request *)

(** One [HandleX]: what it decodes to, the enqueue call, and the encoding.  The
    boolean is [tryNext]. *)
Definition handle_as {W Raw T} (decode : Raw -> goerr + T) (enqueue : T -> GoM W (T * error))
    (marshal : T -> goerr + Raw) (req : Raw) : GoM W (bool * (goerr + Raw)) :=
  match decode req with
  | inl e => mret (true, inl e)
  | inr obj =>
      '(obj, err) ← enqueue obj;
      match err with
      | Some e => mret (false, inl e)
      | None => mret (false, marshal obj)
      end
  end.

Section Handle.
Context {Q J Raw C K F R : Type}.
Context `{!Quantity Q, !JobspecLib J, !Codec Q Raw, !FluxJobClient K}.
Abbreviation W := (World C K F R).

Definition HandleJob (req : Raw) : GoM W (bool * (goerr + Raw)) :=
  handle_as decode_Job (EnqueueJob (J:=J)) marshal_Job req.
Definition HandleDeployment (req : Raw) : GoM W (bool * (goerr + Raw)) :=
  handle_as decode_Deployment (EnqueueDeployment (J:=J)) marshal_Deployment req.
Definition HandleReplicaSet (req : Raw) : GoM W (bool * (goerr + Raw)) :=
  handle_as decode_ReplicaSet (EnqueueReplicaSet (J:=J)) marshal_ReplicaSet req.
Definition HandleStatefulSet (req : Raw) : GoM W (bool * (goerr + Raw)) :=
  handle_as decode_StatefulSet (EnqueueStatefulSet (J:=J)) marshal_StatefulSet req.
Definition HandlePod (req : Raw) : GoM W (goerr + Raw) :=
  '(_, r) ← handle_as decode_Pod (EnqueuePod (J:=J)) marshal_Pod req; mret r.

(** [Handle]: the types in order, until one decodes. *)
Definition Handle (req : Raw) : GoM W (Response Raw) :=
  '(tryNext, r) ← HandleJob req;
  match r with inr m => mret (PatchResponseFromRaw req m) | inl e =>
  if negb tryNext then mret (Errored e) else
  '(tryNext, r) ← HandleDeployment req;
  match r with inr m => mret (PatchResponseFromRaw req m) | inl e =>
  if negb tryNext then mret (Errored e) else
  '(tryNext, r) ← HandleReplicaSet req;
  match r with inr m => mret (PatchResponseFromRaw req m) | inl e =>
  if negb tryNext then mret (Errored e) else
  '(tryNext, r) ← HandleStatefulSet req;
  match r with inr m => mret (PatchResponseFromRaw req m) | inl e =>
  if negb tryNext then mret (Errored e) else
  r ← HandlePod req;
  match r with inr m => mret (PatchResponseFromRaw req m) | inl e => mret (Errored e) end
  end end end end.
End Handle.

(** ** Facts about label maps *)

(** The labels as a map, nil read as empty. *)
Definition labels_of (m : ObjectMeta) : gmap string string := default ∅ (om_Labels m).
Definition is_seen (m : ObjectMeta) : bool := bool_decide (is_Some (label_get m SeenLabel)).

Lemma label_get_of m k : label_get m k = labels_of m !! k.
Proof. unfold label_get, labels_of. destruct (om_Labels m); simpl; [done|]. by rewrite lookup_empty. Qed.

Lemma label_get_ensure m k : label_get (ensure_labels m) k = label_get m k.
Proof. by rewrite !label_get_of. Qed.

Lemma label_get_set m k v : label_get (label_set m k v) k = Some v.
Proof. unfold label_get. simpl. apply lookup_insert_eq. Qed.
Lemma label_get_set_ne m k k' v : k <> k' -> label_get (label_set m k v) k' = label_get m k'.
Proof. intros. rewrite !label_get_of. unfold labels_of at 1. simpl. by apply lookup_insert_ne. Qed.

Lemma ensure_labels_idem m : ensure_labels (ensure_labels m) = ensure_labels m.
Proof. by destruct m. Qed.
Lemma ensure_label_set m k v : ensure_labels (label_set m k v) = label_set m k v.
Proof. by destruct m. Qed.

Lemma is_seen_true m : is_seen m = true <-> exists v, label_get m SeenLabel = Some v.
Proof. unfold is_seen. rewrite bool_decide_eq_true. done. Qed.
Lemma is_seen_false m : is_seen m = false <-> label_get m SeenLabel = None.
Proof. unfold is_seen. rewrite bool_decide_eq_false. by rewrite <- eq_None_not_Some. Qed.

(** ** One submission *)

Section WebhookFacts.
Context {Q J C K F R : Type}.
Context `{!Quantity Q, !JobspecLib J, !FluxJobClient K}.
Implicit Types w : World C K F R.
Abbreviation Submit := (SubmitFluxJob (Q:=Q) (J:=J) (C:=C) (F:=F) (R:=R)).

Lemma SubmitFluxJob_call t n ns nodes cs : kube_call (Submit t n ns nodes cs).
Proof. unfold SubmitFluxJob. kube_walk. Qed.

(** The three shapes of an enqueue function: nothing to do, a submission, or
    a nil pointer. *)
Definition plain_labels_pod (pod : Pod Q) : Pod Q := mkPod (ensure_labels (p_meta pod)) (p_spec pod) (p_status pod).
Definition marked_pod (pod : Pod Q) : Pod Q :=
  mkPod (label_set (p_meta pod) SeenLabel "yes") (set_scheduler (gate (p_spec pod)) SchedulerName) (p_status pod).

Lemma EnqueuePod_unnamed (pod : Pod Q) w :
  om_Name (p_meta pod) = "" -> EnqueuePod (J:=J) pod w = (Ret (pod, None), w).
Proof. intros Hn. unfold EnqueuePod. by rewrite bool_decide_eq_true_2. Qed.

Lemma EnqueuePod_seen (pod : Pod Q) w :
  om_Name (p_meta pod) <> "" -> is_seen (p_meta pod) = true ->
  EnqueuePod (J:=J) pod w = (Ret (plain_labels_pod pod, None), w).
Proof.
  intros Hn [v Hv]%is_seen_true. unfold EnqueuePod. rewrite bool_decide_eq_false_2 by done.
  cbn [p_meta]. by rewrite label_get_ensure, Hv.
Qed.

Lemma EnqueuePod_unseen (pod : Pod Q) w :
  om_Name (p_meta pod) <> "" -> is_seen (p_meta pod) = false ->
  EnqueuePod (J:=J) pod w =
  (err ← Submit JobWrappedPod (om_Name (p_meta pod)) (om_Namespace (p_meta pod)) 1 (ps_Containers (p_spec pod));
   mret (marked_pod pod, err)) w.
Proof.
  intros Hn Hv%is_seen_false. unfold EnqueuePod. rewrite bool_decide_eq_false_2 by done.
  cbn [p_meta]. by rewrite label_get_ensure, Hv.
Qed.

Definition plain_labels_job (job : Job Q) : Job Q :=
  mkJob (ensure_labels (j_meta job)) (j_Suspend job) (j_Parallelism job)
        (mkTemplate (ensure_labels (t_meta (j_Template job))) (t_spec (j_Template job))).
Definition marked_job (job : Job Q) : Job Q :=
  mkJob (label_set (j_meta job) SeenLabel "yes") (Some true) (j_Parallelism job)
        (mkTemplate (label_set (t_meta (j_Template job)) SeenLabel "yes")
                    (set_scheduler (t_spec (j_Template job)) SchedulerName)).

Lemma EnqueueJob_seen (job : Job Q) w :
  is_seen (j_meta job) = true -> EnqueueJob (J:=J) job w = (Ret (plain_labels_job job, None), w).
Proof. intros [v Hv]%is_seen_true. unfold EnqueueJob. cbn [j_meta]. by rewrite label_get_ensure, Hv. Qed.

Lemma EnqueueJob_unseen (job : Job Q) w :
  is_seen (j_meta job) = false ->
  EnqueueJob (J:=J) job w =
  match j_Parallelism job with
  | None => (Panic "invalid memory address or nil pointer dereference", w)
  | Some p =>
      (err ← Submit JobWrappedJob (om_Name (j_meta job)) (om_Namespace (j_meta job)) p
                    (ps_Containers (t_spec (j_Template job)));
       mret (marked_job job, err)) w
  end.
Proof.
  intros Hv%is_seen_false. unfold EnqueueJob. cbn [j_meta]. rewrite label_get_ensure, Hv.
  unfold marked_job. cbn [j_Parallelism]. by destruct (j_Parallelism job).
Qed.

Definition plain_labels_workload (d : Workload Q) : Workload Q :=
  mkWorkload (ensure_labels (wl_meta d)) (wl_Replicas d)
             (mkTemplate (ensure_labels (t_meta (wl_Template d))) (t_spec (wl_Template d))).
Definition marked_workload (kind : string) (d : Workload Q) : Workload Q :=
  mkWorkload (label_set (wl_meta d) SeenLabel "yes") (wl_Replicas d)
    (mkTemplate (label_set (label_set (t_meta (wl_Template d)) SeenLabel "yes") SelectorLabel
                           (selector_value kind (om_Name (wl_meta d)) (om_Namespace (wl_meta d))))
                (gate (set_scheduler (t_spec (wl_Template d)) SchedulerName))).

Lemma enqueue_workload_seen t kind (d : Workload Q) w :
  is_seen (wl_meta d) = true ->
  enqueue_workload (J:=J) t kind d w = (Ret (plain_labels_workload d, None), w).
Proof. intros [v Hv]%is_seen_true. unfold enqueue_workload. cbn [wl_meta]. by rewrite label_get_ensure, Hv. Qed.

Lemma enqueue_workload_unseen t kind (d : Workload Q) w :
  is_seen (wl_meta d) = false ->
  enqueue_workload (J:=J) t kind d w =
  match wl_Replicas d with
  | None => (Panic "invalid memory address or nil pointer dereference", w)
  | Some n =>
      (err ← Submit t (om_Name (wl_meta d)) (om_Namespace (wl_meta d)) n (ps_Containers (t_spec (wl_Template d)));
       mret (marked_workload kind d, err)) w
  end.
Proof.
  intros Hv%is_seen_false. unfold enqueue_workload. cbn [wl_meta]. rewrite label_get_ensure, Hv.
  unfold marked_workload. cbn [wl_Replicas]. by destruct (wl_Replicas d).
Qed.

(** A submission followed by a return gives back the object it was given. *)
Lemma submit_ret {T} (x o : T) t n ns nodes cs w e w' :
  (err ← Submit t n ns nodes cs; mret (x, err)) w = (Ret (o, e), w') ->
  o = x /\ Submit t n ns nodes cs w = (Ret e, w').
Proof. intros (e1 & w1 & H & [= <- <- <-])%bind_ret_inv. done. Qed.

Lemma EnqueuePod_after (pod : Pod Q) w pod' e w' :
  EnqueuePod (J:=J) pod w = (Ret (pod', e), w') -> om_Name (p_meta pod) <> "" ->
  is_seen (p_meta pod') = true /\ plain_labels_pod pod' = pod' /\ om_Name (p_meta pod') = om_Name (p_meta pod).
Proof.
  intros H Hn. destruct (is_seen (p_meta pod)) eqn:Hs.
  - rewrite EnqueuePod_seen in H by done. injection H as <- _ _.
    split; [|by destruct pod]. apply is_seen_true in Hs as [v Hv]. apply is_seen_true. exists v.
    cbn [plain_labels_pod p_meta]. by rewrite label_get_ensure.
  - rewrite EnqueuePod_unseen in H by done. apply submit_ret in H as [-> _].
    split; [|by destruct pod]. apply is_seen_true. eexists. apply label_get_set.
Qed.

Lemma EnqueueJob_after (job : Job Q) w job' e w' :
  EnqueueJob (J:=J) job w = (Ret (job', e), w') -> is_seen (j_meta job') = true /\ plain_labels_job job' = job'.
Proof.
  intros H. destruct (is_seen (j_meta job)) eqn:Hs.
  - rewrite EnqueueJob_seen in H by done. injection H as <- _ _.
    split; [|by destruct job]. apply is_seen_true in Hs as [v Hv]. apply is_seen_true. exists v.
    cbn [plain_labels_job j_meta]. by rewrite label_get_ensure.
  - rewrite EnqueueJob_unseen in H by done. destruct (j_Parallelism job); [|done].
    apply submit_ret in H as [-> _]. split; [|by destruct job]. apply is_seen_true. eexists. apply label_get_set.
Qed.

Lemma enqueue_workload_after t kind (d : Workload Q) w d' e w' :
  enqueue_workload (J:=J) t kind d w = (Ret (d', e), w') ->
  is_seen (wl_meta d') = true /\ plain_labels_workload d' = d' /\
  (is_seen (wl_meta d) = false -> d' = marked_workload kind d).
Proof.
  intros H. destruct (is_seen (wl_meta d)) eqn:Hs.
  - rewrite enqueue_workload_seen in H by done. injection H as <- _ _.
    split; [|by destruct d]. apply is_seen_true in Hs as [v Hv]. apply is_seen_true. exists v.
    cbn [plain_labels_workload wl_meta]. by rewrite label_get_ensure.
  - rewrite enqueue_workload_unseen in H by done. destruct (wl_Replicas d); [|done].
    apply submit_ret in H as [-> _]. split; [|by destruct d]. apply is_seen_true. eexists. apply label_get_set.
Qed.

(** C15. Admission is idempotent: an object that went through the webhook once is
    admitted again unchanged, without a lookup or a second FluxJob, for pods,
    jobs and the three workload types. *)
Theorem admission_idempotent w w' e w1 :
  (forall pod pod', EnqueuePod (J:=J) pod w = (Ret (pod', e), w') ->
     EnqueuePod (J:=J) pod' w1 = (Ret (pod', None), w1)) /\
  (forall job job' : Job Q, EnqueueJob (J:=J) job w = (Ret (job', e), w') ->
     EnqueueJob (J:=J) job' w1 = (Ret (job', None), w1)) /\
  (forall t kind (d d' : Workload Q), enqueue_workload (J:=J) t kind d w = (Ret (d', e), w') ->
     enqueue_workload (J:=J) t kind d' w1 = (Ret (d', None), w1)).
Proof.
  split; [|split].
  - intros pod pod' H. destruct (decide (om_Name (p_meta pod) = "")) as [Hn|Hn].
    + rewrite EnqueuePod_unnamed in H by done. injection H as <- _ _. by apply EnqueuePod_unnamed.
    + destruct (EnqueuePod_after _ _ _ _ _ H Hn) as (Hs & Hp & Hn').
      rewrite EnqueuePod_seen by congruence. by rewrite Hp.
  - intros job job' [Hs Hp]%EnqueueJob_after. rewrite EnqueueJob_seen by done. by rewrite Hp.
  - intros t kind d d' (Hs & Hp & _)%enqueue_workload_after. rewrite enqueue_workload_seen by done. by rewrite Hp.
Qed.

Lemma seen_child (m m' : ObjectMeta) :
  is_seen m = true -> labels_of m ⊆ labels_of m' -> is_seen m' = true.
Proof.
  intros [v Hv]%is_seen_true Hsub. apply is_seen_true. exists v.
  rewrite label_get_of in *. by eapply lookup_weaken.
Qed.

Lemma EnqueuePod_seen_any (pod : Pod Q) w :
  is_seen (p_meta pod) = true -> exists pod', EnqueuePod (J:=J) pod w = (Ret (pod', None), w).
Proof.
  intros Hs. destruct (decide (om_Name (p_meta pod) = "")).
  - eexists. by apply EnqueuePod_unnamed.
  - eexists. by apply EnqueuePod_seen.
Qed.

(** What a controller creates from an admitted object is not submitted again:
    a pod that carries the labels of the template of an admitted workload or
    job, and a replica set that carries those of a deployment's template, pass
    the webhook without any call. *)
Theorem children_not_resubmitted w e w' :
  (forall t kind (d d' : Workload Q), is_seen (wl_meta d) = false ->
     enqueue_workload (J:=J) t kind d w = (Ret (d', e), w') ->
     (forall (pod : Pod Q) w1, labels_of (t_meta (wl_Template d')) ⊆ labels_of (p_meta pod) ->
        exists pod', EnqueuePod (J:=J) pod w1 = (Ret (pod', None), w1)) /\
     (forall (rs : Workload Q) w1, labels_of (t_meta (wl_Template d')) ⊆ labels_of (wl_meta rs) ->
        exists rs', EnqueueReplicaSet (J:=J) rs w1 = (Ret (rs', None), w1))) /\
  (forall job job' : Job Q, is_seen (j_meta job) = false -> EnqueueJob (J:=J) job w = (Ret (job', e), w') ->
     forall (pod : Pod Q) w1, labels_of (t_meta (j_Template job')) ⊆ labels_of (p_meta pod) ->
       exists pod', EnqueuePod (J:=J) pod w1 = (Ret (pod', None), w1)).
Proof.
  split.
  - intros t kind d d' Hs (_ & _ & ->)%enqueue_workload_after; [|done].
    assert (Ht : is_seen (t_meta (wl_Template (marked_workload kind d))) = true).
    { apply is_seen_true. eexists. cbn [marked_workload wl_Template t_meta].
      rewrite label_get_set_ne by done. apply label_get_set. }
    split.
    + intros pod w1 Hsub. eapply EnqueuePod_seen_any, seen_child; done.
    + intros rs w1 Hsub. eexists. eapply enqueue_workload_seen, seen_child; done.
  - intros job job' Hs H pod w1 Hsub. eapply EnqueuePod_seen_any, seen_child; [|exact Hsub].
    rewrite EnqueueJob_unseen in H by done. destruct (j_Parallelism job); [|done].
    apply submit_ret in H as [-> _]. apply is_seen_true. eexists. apply label_get_set.
Qed.

(** The webhook panics exactly on an object it has not seen whose replica
    count is nil, and then has made no call; pods never panic. *)
Theorem admission_panics w :
  (forall job : Job Q, (exists why w', EnqueueJob (J:=J) job w = (Panic why, w')) <->
     is_seen (j_meta job) = false /\ j_Parallelism job = None) /\
  (forall t kind (d : Workload Q), (exists why w', enqueue_workload (J:=J) t kind d w = (Panic why, w')) <->
     is_seen (wl_meta d) = false /\ wl_Replicas d = None) /\
  (forall pod : Pod Q, exists r w', EnqueuePod (J:=J) pod w = (Ret r, w')).
Proof.
  split; [|split].
  - intros job. destruct (is_seen (j_meta job)) eqn:Hs.
    + rewrite EnqueueJob_seen by done. naive_solver.
    + rewrite EnqueueJob_unseen by done. destruct (j_Parallelism job) as [p|]; [|naive_solver].
      rewrite run_bind.
      destruct (SubmitFluxJob_call JobWrappedJob (om_Name (j_meta job)) (om_Namespace (j_meta job)) p
                  (ps_Containers (t_spec (j_Template job))) w) as (e & w' & -> & _). naive_solver.
  - intros t kind d. destruct (is_seen (wl_meta d)) eqn:Hs.
    + rewrite enqueue_workload_seen by done. naive_solver.
    + rewrite enqueue_workload_unseen by done. destruct (wl_Replicas d) as [n|]; [|naive_solver].
      rewrite run_bind.
      destruct (SubmitFluxJob_call t (om_Name (wl_meta d)) (om_Namespace (wl_meta d)) n
                  (ps_Containers (t_spec (wl_Template d))) w) as (e & w' & -> & _). naive_solver.
  - intros pod. destruct (decide (om_Name (p_meta pod) = "")) as [Hn|Hn].
    { eexists _, _. by apply EnqueuePod_unnamed. }
    destruct (is_seen (p_meta pod)) eqn:Hs.
    { eexists _, _. by apply EnqueuePod_seen. }
    rewrite EnqueuePod_unseen, run_bind by done.
    destruct (SubmitFluxJob_call JobWrappedPod (om_Name (p_meta pod)) (om_Namespace (p_meta pod)) 1
                (ps_Containers (p_spec pod)) w) as (e & w' & -> & _). eauto.
Qed.
End WebhookFacts.

(** ** What the API server stores afterwards *)

Section SubmitFacts.
Context {Q J C K F R : Type}.
Context `{!Quantity Q, !JobspecLib J, !FluxJobClient K, !FluxJobView K, !FluxJobLaws K}.
Implicit Types w : World C K F R.
Abbreviation Submit := (SubmitFluxJob (Q:=Q) (J:=J) (C:=C) (F:=F) (R:=R)).

(** [w'] stores the FluxJobs of [w] and at most one more, which is new. *)
Definition at_most_one_more w w' : Prop :=
  fluxjobs (w_kube w') = fluxjobs (w_kube w) \/
  exists fj, fluxjobs (w_kube w) !! (fj_Namespace fj, fj_Name fj) = None /\
    fluxjobs (w_kube w') = <[(fj_Namespace fj, fj_Name fj) := fj]> (fluxjobs (w_kube w)).

Lemma SubmitFluxJob_run t n ns nodes cs w w' :
  Submit t n ns nodes cs w = (Ret None, w') ->
  (exists fj k1, fluxjob_Get ns (GetJobName t n) (w_kube w) = ((fj, None), k1) /\
     w' = set_kube w k1 /\ fluxjobs (w_kube w') = fluxjobs (w_kube w)) \/
  (exists js yaml, NewSimpleJobspec n ("echo " +:+ ns +:+ " " +:+ n) nodes (rs_Cpu (GeneratePodResources cs)) = (js, None) /\
     JobspecToYaml (js_set_duration js 0) = (yaml, None) /\
     fluxjobs (w_kube w) !! (ns, GetJobName t n) = None /\
     fluxjobs (w_kube w') = <[(ns, GetJobName t n) := set_status (new_fluxjob t n ns nodes yaml) ""]> (fluxjobs (w_kube w))).
Proof.
  unfold SubmitFluxJob. intros ([fj e] & w1 & H1 & H)%bind_ret_inv.
  apply on_kube_ret in H1 as (k1 & H1 & ->). pose proof (get_pure _ _ _ _ _ H1) as Hp.
  destruct e as [e|].
  - right. destruct (IsNotFound e); simpl in H; [|done].
    destruct (NewSimpleJobspec _ _ _ _) as [js [e1|]] eqn:Ej; [done|].
    destruct (JobspecToYaml _) as [yaml [e2|]] eqn:Ey; [done|].
    apply on_kube_ret in H as (k2 & H2 & ->). apply create_ok in H2 as [Hn H2].
    exists js, yaml. split; [done|]. split; [done|]. cbn in Hn, H2. rewrite Hp in Hn, H2. done.
  - left. injection H as <-. exists fj, k1. done.
Qed.

(** C16. A submission that reports success has either found a FluxJob of that name,
    and then stores nothing, or has created exactly one, in a place that was
    free: with the wrapped object's name, type and node count, the jobspec of
    its CPU request without a time limit, no reservation, and an empty status,
    since the status the webhook sets is not written on creation. *)
Theorem SubmitFluxJob_effect t n ns nodes cs w w' :
  SubmitFluxJob (Q:=Q) (J:=J) t n ns nodes cs w = (Ret None, w') ->
  (exists fj k1, fluxjob_Get ns (GetJobName t n) (w_kube w) = ((fj, None), k1) /\
     w' = set_kube w k1 /\ fluxjobs (w_kube w') = fluxjobs (w_kube w)) \/
  (exists js yaml fj, NewSimpleJobspec n ("echo " +:+ ns +:+ " " +:+ n) nodes (rs_Cpu (GeneratePodResources cs)) = (js, None) /\
     JobspecToYaml (js_set_duration js 0) = (yaml, None) /\
     fj_Namespace fj = ns /\ fj_Name fj = GetJobName t n /\ fs_JobSpec (fj_Spec fj) = yaml /\
     fs_Type (fj_Spec fj) = t /\ fs_Name (fj_Spec fj) = n /\ fs_Nodes (fj_Spec fj) = nodes /\
     fs_Reservation (fj_Spec fj) = false /\ fs_Duration (fj_Spec fj) = 0%Z /\ fj_Status fj = "" /\
     fluxjobs (w_kube w) !! (ns, GetJobName t n) = None /\
     fluxjobs (w_kube w') = <[(ns, GetJobName t n) := fj]> (fluxjobs (w_kube w))).
Proof.
  intros [?|(js & yaml & H1 & H2 & H3 & H4)]%SubmitFluxJob_run; [by left|right].
  exists js, yaml, (set_status (new_fluxjob t n ns nodes yaml) ""). done.
Qed.

Lemma Submit_at_most_one t n ns nodes cs w w' :
  Submit t n ns nodes cs w = (Ret None, w') -> at_most_one_more w w'.
Proof.
  intros [(fj & k1 & _ & -> & H)|(js & yaml & _ & _ & H3 & H4)]%SubmitFluxJob_run; [by left|right].
  by exists (set_status (new_fluxjob t n ns nodes yaml) "").
Qed.

Lemma EnqueuePod_at_most_one (pod pod' : Pod Q) w w' :
  EnqueuePod (J:=J) pod w = (Ret (pod', None), w') -> at_most_one_more w w'.
Proof.
  intros H. destruct (decide (om_Name (p_meta pod) = "")) as [Hn|Hn].
  { rewrite EnqueuePod_unnamed in H by done. injection H as _ <-. by left. }
  destruct (is_seen (p_meta pod)) eqn:Hs.
  { rewrite EnqueuePod_seen in H by done. injection H as _ <-. by left. }
  rewrite EnqueuePod_unseen in H by done. apply submit_ret in H as [_ H]. by eapply Submit_at_most_one.
Qed.
Lemma EnqueueJob_at_most_one (job job' : Job Q) w w' :
  EnqueueJob (J:=J) job w = (Ret (job', None), w') -> at_most_one_more w w'.
Proof.
  intros H. destruct (is_seen (j_meta job)) eqn:Hs.
  { rewrite EnqueueJob_seen in H by done. injection H as _ <-. by left. }
  rewrite EnqueueJob_unseen in H by done. destruct (j_Parallelism job); [|done].
  apply submit_ret in H as [_ H]. by eapply Submit_at_most_one.
Qed.
Lemma enqueue_workload_at_most_one t kind (d d' : Workload Q) w w' :
  enqueue_workload (J:=J) t kind d w = (Ret (d', None), w') -> at_most_one_more w w'.
Proof.
  intros H. destruct (is_seen (wl_meta d)) eqn:Hs.
  { rewrite enqueue_workload_seen in H by done. injection H as _ <-. by left. }
  rewrite enqueue_workload_unseen in H by done. destruct (wl_Replicas d); [|done].
  apply submit_ret in H as [_ H]. by eapply Submit_at_most_one.
Qed.

End SubmitFacts.

Section HandleFacts.
Context {Q J Raw C K F R : Type}.
Context `{!Quantity Q, !JobspecLib J, !Codec Q Raw, !FluxJobClient K, !FluxJobView K, !FluxJobLaws K}.
Implicit Types w : World C K F R.

(** The object that a request stands for: the first type that decodes. *)
Inductive request_object (req : Raw) : Type :=
  | ObjJob (o : Job Q) | ObjDeployment (o : Workload Q) | ObjReplicaSet (o : Workload Q)
  | ObjStatefulSet (o : Workload Q) | ObjPod (o : Pod Q) | ObjNone (e : goerr).

Definition first_decoded (req : Raw) : request_object req :=
  match decode_Job (Q:=Q) req with inr o => ObjJob _ o | inl _ =>
  match decode_Deployment (Q:=Q) req with inr o => ObjDeployment _ o | inl _ =>
  match decode_ReplicaSet (Q:=Q) req with inr o => ObjReplicaSet _ o | inl _ =>
  match decode_StatefulSet (Q:=Q) req with inr o => ObjStatefulSet _ o | inl _ =>
  match decode_Pod (Q:=Q) req with inr o => ObjPod _ o | inl e => ObjNone _ e
  end end end end end.

(** The answer for an object: encode it after a successful enqueue, refuse
    otherwise. *)
Definition answer_for {T} (enqueue : T -> GoM (World C K F R) (T * error)) (marshal : T -> goerr + Raw)
    (req : Raw) (o : T) : GoM (World C K F R) (Response Raw) :=
  '(o', err) ← enqueue o;
  match err with
  | Some e => mret (Errored e)
  | None => match marshal o' with inr m => mret (PatchResponseFromRaw req m) | inl e => mret (Errored e) end
  end.

Definition Handle_spec (req : Raw) : GoM (World C K F R) (Response Raw) :=
  match first_decoded req with
  | ObjJob _ o => answer_for (EnqueueJob (J:=J)) marshal_Job req o
  | ObjDeployment _ o => answer_for (EnqueueDeployment (J:=J)) marshal_Deployment req o
  | ObjReplicaSet _ o => answer_for (EnqueueReplicaSet (J:=J)) marshal_ReplicaSet req o
  | ObjStatefulSet _ o => answer_for (EnqueueStatefulSet (J:=J)) marshal_StatefulSet req o
  | ObjPod _ o => answer_for (EnqueuePod (J:=J)) marshal_Pod req o
  | ObjNone _ e => mret (Errored e)
  end.

(** A stage whose type does not decode passes on; a stage whose type decodes
    ends the dispatch. *)
Lemma handle_as_inl {T} (decode : Raw -> goerr + T) (enqueue : T -> GoM (World C K F R) (T * error)) marshal req e w :
  decode req = inl e -> handle_as decode enqueue marshal req w = (Ret (true, inl e), w).
Proof. intros H. unfold handle_as. by rewrite H. Qed.

Lemma handle_as_inr {T} (decode : Raw -> goerr + T) (enqueue : T -> GoM (World C K F R) (T * error)) marshal req o
    (next : GoM (World C K F R) (Response Raw)) w :
  decode req = inr o ->
  ('(tryNext, r) ← handle_as decode enqueue marshal req;
   match r with inr m => mret (PatchResponseFromRaw req m) | inl e =>
   if negb tryNext then mret (Errored e) else next end) w =
  answer_for enqueue marshal req o w.
Proof.
  intros H. unfold handle_as, answer_for. rewrite H, !run_bind.
  destruct (enqueue o w) as [[[o' [e|]]|why] w']; cbn; [done| |done]. by destruct (marshal o').
Qed.

Lemma Handle_refines_run req w : Handle (Q:=Q) (J:=J) req w = Handle_spec req w.
Proof.
  unfold Handle, Handle_spec, first_decoded, HandleJob, HandleDeployment, HandleReplicaSet, HandleStatefulSet.
  destruct (decode_Job req) as [e1|o] eqn:E1; [|by apply handle_as_inr].
  rewrite run_bind, (handle_as_inl _ _ _ _ _ _ E1). cbn [negb].
  destruct (decode_Deployment req) as [e2|o] eqn:E2; [|by apply handle_as_inr].
  rewrite run_bind, (handle_as_inl _ _ _ _ _ _ E2). cbn [negb].
  destruct (decode_ReplicaSet req) as [e3|o] eqn:E3; [|by apply handle_as_inr].
  rewrite run_bind, (handle_as_inl _ _ _ _ _ _ E3). cbn [negb].
  destruct (decode_StatefulSet req) as [e4|o] eqn:E4; [|by apply handle_as_inr].
  rewrite run_bind, (handle_as_inl _ _ _ _ _ _ E4). cbn [negb].
  unfold HandlePod, handle_as. destruct (decode_Pod req) as [e5|o] eqn:E5; [done|].
  unfold answer_for. rewrite !run_bind.
  destruct (EnqueuePod o w) as [[[o' [e|]]|why] w']; cbn; [done| |done]. by destruct (marshal_Pod o').
Qed.

(** C13. The chain of handlers with its [tryNext] flags implements the contract of
    the webhook: the request stands for the first type it decodes to, in the
    order job, deployment, replica set, stateful set, pod; that object, after
    a successful enqueue, is the answer, and any failure refuses the request
    without trying another type. *)
Theorem Handle_refines req w :
  Handle (Q:=Q) (J:=J) req w = Handle_spec req w.
Proof. apply Handle_refines_run. Qed.

Lemma answer_for_patch {T} (enqueue : T -> GoM (World C K F R) (T * error)) marshal req o w original m w' :
  (forall o' w', enqueue o w = (Ret (o', None), w') -> at_most_one_more w w') ->
  answer_for enqueue marshal req o w = (Ret (PatchResponseFromRaw original m), w') ->
  original = req /\ at_most_one_more w w'.
Proof.
  intros Hen. unfold answer_for. intros ([o' e] & w1 & H1 & H)%bind_ret_inv.
  destruct e as [e|]; [done|]. destruct (marshal o'); [done|]. injection H as <- _ <-. split; [done|eauto].
Qed.

(** C14. An admitted request leaves the stored FluxJobs as they were or with
    exactly one more, under a name that was free: never two for one object,
    whatever type the request decodes to. *)
Theorem Handle_at_most_one req w original m w' :
  Handle (Q:=Q) (J:=J) req w = (Ret (PatchResponseFromRaw original m), w') ->
  original = req /\ at_most_one_more w w'.
Proof.
  rewrite Handle_refines_run. unfold Handle_spec.
  destruct (first_decoded req); [..|done]; apply answer_for_patch; intros o' w1.
  - apply EnqueueJob_at_most_one.
  - apply enqueue_workload_at_most_one.
  - apply enqueue_workload_at_most_one.
  - apply enqueue_workload_at_most_one.
  - apply EnqueuePod_at_most_one.
Qed.
End HandleFacts.

(** ** The webhook and the ungate worker agree *)

Section SelectorFacts.
Context {Q J C K F R : Type}.
Context `{!Quantity Q, !JobspecLib J, !FluxJobClient K, !PodClient Q K, !PodView Q K, !PodLaws Q K}.
Implicit Types w : World C K F R.

End SelectorFacts.

(** ** Runs on in-memory libraries *)

(** A jobspec as its four parameters, printed in one line. *)
Record SimpleJobspec := mkSimpleJobspec { sj_name : string; sj_nodes : Z; sj_cpu : Z; sj_duration : Z }.

#[export] Instance simple_jobspec : JobspecLib SimpleJobspec := {
  NewSimpleJobspec name command nodes cpu :=
    (mkSimpleJobspec name nodes cpu 3600,
     if (nodes <? 1)%Z then Some (Err "nodes for the jobspec must be at least 1") else None);
  js_set_duration js d := mkSimpleJobspec (sj_name js) (sj_nodes js) (sj_cpu js) d;
  JobspecToYaml js :=
    (sj_name js +:+ " " +:+ Itoa (sj_nodes js) +:+ " " +:+ Itoa (sj_cpu js) +:+ " " +:+ Itoa (sj_duration js), None)
}.

(** Requests that are already objects. *)
Inductive MemRaw :=
  | RawJob (o : Job Z) | RawDeployment (o : Workload Z) | RawReplicaSet (o : Workload Z)
  | RawStatefulSet (o : Workload Z) | RawPod (o : Pod Z).

Definition not_that_type : goerr := Err "unable to decode".

#[export] Instance mem_codec : Codec Z MemRaw := {
  decode_Job r := match r with RawJob o => inr o | _ => inl not_that_type end;
  decode_Deployment r := match r with RawDeployment o => inr o | _ => inl not_that_type end;
  decode_ReplicaSet r := match r with RawReplicaSet o => inr o | _ => inl not_that_type end;
  decode_StatefulSet r := match r with RawStatefulSet o => inr o | _ => inl not_that_type end;
  decode_Pod r := match r with RawPod o => inr o | _ => inl not_that_type end;
  marshal_Job o := inr (RawJob o);
  marshal_Deployment o := inr (RawDeployment o);
  marshal_ReplicaSet o := inr (RawReplicaSet o);
  marshal_StatefulSet o := inr (RawStatefulSet o);
  marshal_Pod o := inr (RawPod o)
}.

Definition sample_deployment : Workload Z :=
  mkWorkload (mkMeta "app" "default" None) (Some 2%Z)
             (mkTemplate (mkMeta "" "" None) (mkPodSpec [] "" [cpu_container 2] [] None None)).

Definition sample_marked : Workload Z := marked_workload "deployment" sample_deployment.
Definition empty_world : MemoryWorld := pods_world [].
Abbreviation Simple := SimpleJobspec.

(** The world after the admission. *)
Definition admitted_world : MemoryWorld :=
  (EnqueueDeployment (J:=Simple) sample_deployment empty_world).2.

Lemma admission_idempotent_witness :
  EnqueueDeployment (J:=Simple) sample_marked admitted_world = (Ret (sample_marked, None), admitted_world).
Proof.
  refine (proj2 (proj2 (admission_idempotent (Q:=Z) (J:=Simple) empty_world admitted_world None admitted_world))
            JobWrappedDeployment "deployment" sample_deployment sample_marked _). vm_compute. reflexivity.
Defined.

(** A pod the deployment creates. *)
Definition sample_child : Pod Z :=
  mkPod (mkMeta "app-0" "default" (Some (labels_of (t_meta (wl_Template sample_marked)))))
        (t_spec (wl_Template sample_marked)) (mkPodStatus [] "").

Lemma children_not_resubmitted_witness :
  exists pod', EnqueuePod (J:=Simple) sample_child admitted_world = (Ret (pod', None), admitted_world).
Proof.
  refine (proj1 (proj1 (children_not_resubmitted (Q:=Z) (J:=Simple) empty_world None admitted_world)
            JobWrappedDeployment "deployment" sample_deployment sample_marked _ _) sample_child admitted_world _).
  - reflexivity.
  - vm_compute. reflexivity.
  - done.
Defined.

(** One pod submitted. *)
Definition submitted_pod : outcome error * MemoryWorld :=
  SubmitFluxJob (J:=Simple) JobWrappedPod "p" "default" 1 [cpu_container 2] empty_world.

Lemma SubmitFluxJob_effect_witness :
  (exists fj k1, fluxjob_Get "default" "p-pod" (w_kube empty_world) = ((fj, None), k1)) \/
  (fluxjobs (w_kube empty_world) !! ("default", "p-pod") = None /\
   exists fj, fluxjobs (w_kube submitted_pod.2) = <[("default", "p-pod") := fj]> (fluxjobs (w_kube empty_world))).
Proof.
  destruct (SubmitFluxJob_effect (Q:=Z) (J:=Simple) JobWrappedPod "p" "default" 1 [cpu_container 2] empty_world
              submitted_pod.2)
    as [(fj & k1 & H1 & _)|(js & yaml & fj & _ & _ & _ & _ & _ & _ & _ & _ & _ & _ & _ & H1 & H2)].
  - vm_compute. reflexivity.
  - left. by exists fj, k1.
  - right. split; [exact H1|]. by exists fj.
Defined.

Lemma Handle_at_most_one_witness :
  exists w', Handle (J:=Simple) (RawDeployment sample_deployment) empty_world =
    (Ret (PatchResponseFromRaw (RawDeployment sample_deployment) (RawDeployment sample_marked)), w') /\
    at_most_one_more empty_world w'.
Proof.
  exists admitted_world. split; [vm_compute; reflexivity|].
  refine (proj2 (Handle_at_most_one (Q:=Z) (J:=Simple) (RawDeployment sample_deployment) empty_world
            (RawDeployment sample_deployment) (RawDeployment sample_marked) admitted_world _)).
  vm_compute. reflexivity.
Defined.

