(* ===== verification/Scheduler.v ===== *)
(** * The scheduler plugin: [build/scheduler/pkg/scheduler/scheduler.go]

    [PreFilter] turns the node label that the queue wrote into the one node the
    pod may run on; [Less] orders the pods; [Filter] accepts.  The command
    ([build/scheduler/cmd/scheduler/scheduler.go]) runs the library's scheduler
    with this plugin. *)

From Stdlib Require Import Ascii.
From stdpp Require Import base option strings gmap numbers list.
From S2P Require Import Prelude GoStrings Json Api Kube UngateWorker.

(** ** The plugin *)

(** [framework.Code], the codes the plugin uses. *)
Inductive Code := Success | Error | UnschedulableAndUnresolvable.
Record Status := mkStatus { st_Code : Code; st_Message : string }.

(** The plugin: a struct without fields, its name, its constructor, and the
    extensions of [PreFilter], which are nil. *)
Inductive FluxionScheduler := mkFluxionScheduler.
Definition Name : string := "FluxionScheduler".
Definition New : FluxionScheduler * error := (mkFluxionScheduler, None).
Definition PreFilterExtensions : option unit := None.

(** The scheduler that the webhook names in a pod is this one. *)
Example webhook_names_plugin : SchedulerName = Name.
Proof. reflexivity. Qed.

Definition IndexLabel : string := "batch.kubernetes.io/job-completion-index".

(** The text of a [strconv.NumError] of [Atoi]; the characters of a label value
    need no escape. *)
Definition Atoi_error (num : string) (e : num_error) : string :=
  "strconv.Atoi: parsing " +:+ quote num +:+ ": " +:+
  match e with ErrSyntax => "invalid syntax" | ErrRange => "value out of range" end.

(** [PreFilter] on the labels of a pod: the node names of the result, if any,
    and the status.  The index is compared with the length only, so a negative
    one reaches the slice. *)
Definition PreFilter (labels : ObjectMeta) : outcome (option (list string) * Status) :=
  match label_get labels UnschedulableLabel with
  | Some _ => Ret (None, mkStatus UnschedulableAndUnresolvable "Fluxion cannot find resources")
  | None =>
      match label_get labels NodesLabel with
      | None => Ret (None, mkStatus UnschedulableAndUnresolvable "Pod missing nodes label")
      | Some nodesLabel =>
          let nodes := Split nodesLabel "__" in
          let podIndex := match label_get labels IndexLabel with Some i => i | None => "0" end in
          let '(index, err) := Atoi podIndex in
          match err with
          | Some e => Ret (None, mkStatus UnschedulableAndUnresolvable (Atoi_error podIndex e))
          | None =>
              if (Z.of_nat (length nodes) <=? index)%Z
              then Ret (None, mkStatus Error "Not enough nodes for pod")
              else if (index <? 0)%Z then Panic "index out of range"
              else match nodes !! Z.to_nat index with
                   | Some node => Ret (Some [node], mkStatus Success "Fluxion scheduler assigned node")
                   | None => Panic "index out of range"
                   end
          end
      end
  end.

(** [Filter]. *)
Definition Filter : Status := mkStatus Success "".

(** What [Less] reads of a queued pod; the priority comes from
    [corev1helpers.PodPriority]. *)
Record QueuedPodInfo := mkQueuedPod { qp_priority : Z; qp_Namespace : string; qp_Name : string }.

Definition getNamespacedName (p : QueuedPodInfo) : string := qp_Namespace p +:+ "/" +:+ qp_Name p.

(** Go's [<] on strings: bytewise. *)
Definition string_lt (s t : string) : bool :=
  match String.compare s t with Lt => true | _ => false end.

(** [Less]. *)
Definition Less (p1 p2 : QueuedPodInfo) : bool :=
  if negb (qp_priority p1 =? qp_priority p2)%Z then (qp_priority p2 <? qp_priority p1)%Z
  else string_lt (getNamespacedName p1) (getNamespacedName p2).

(** ** The command *)

(** [kube-scheduler/app] and [component-base/cli]: a command is made of options,
    each a plugin with its constructor under a name, and running it gives the
    exit code. *)
Definition PluginFactory : Type := FluxionScheduler * error.
Class SchedulerApp (Command W : Type) := {
  NewSchedulerCommand : list (string * PluginFactory) -> Command;
  cli_Run : Command -> GoM W Z
}.

(** [main], up to [os.Exit]: the exit code of the process. *)
Definition main {Command W} `{!SchedulerApp Command W} : GoM W Z :=
  let command := NewSchedulerCommand [(Name, New)] in
  cli_Run command.

(** A scheduler that runs when its profile's plugin is registered under the
    name that the webhook writes into the pods, and can be made. *)
#[local] Instance profile_app : SchedulerApp (list (string * PluginFactory)) nat := {
  NewSchedulerCommand options := options;
  cli_Run options w :=
    match filter (fun o => o.1 = SchedulerName) options with
    | [(_, (_, None))] => (Ret 0%Z, S w)
    | _ => (Ret 1%Z, w)
    end
}.
Example main_runs_profile : main (W:=nat) 0 = (Ret 0%Z, 1).
Proof. reflexivity. Qed.

(** ** The order of the scheduling queue *)

Lemma string_compare_refl s : String.compare s s = Eq.
Proof. pose proof (String.compare_antisym s s) as H. by destruct (String.compare s s). Qed.

Lemma ascii_compare_lt a b : Ascii.compare a b = Lt <-> (N_of_ascii a < N_of_ascii b)%N.
Proof. apply N.compare_lt_iff. Qed.

Lemma string_lt_trans s t u : string_lt s t = true -> string_lt t u = true -> string_lt s u = true.
Proof.
  unfold string_lt. revert t u. induction s as [|a s IH]; intros [|b t] [|c u]; simpl; try done.
  destruct (Ascii.compare a b) eqn:Hab; [|clear IH|done].
  - apply Ascii.compare_eq_iff in Hab as ->. destruct (Ascii.compare b c); [apply IH|done|done].
  - intros _. destruct (Ascii.compare b c) eqn:Hbc; [| |done]; intros _.
    + apply Ascii.compare_eq_iff in Hbc as ->. by rewrite Hab.
    + rewrite (proj2 (ascii_compare_lt a c)); [done|]. apply (proj1 (ascii_compare_lt _ _)) in Hab, Hbc. lia.
Qed.

Lemma string_lt_total s t : s <> t -> string_lt s t = true \/ string_lt t s = true.
Proof.
  unfold string_lt. intros Hne. pose proof (String.compare_antisym s t) as Ha.
  destruct (String.compare s t) eqn:E; [by apply String.compare_eq_iff in E|by left|].
  right. by destruct (String.compare t s).
Qed.

Lemma string_lt_irrefl s : string_lt s s = false.
Proof. unfold string_lt. by rewrite string_compare_refl. Qed.

Lemma getNamespacedName_inj p q :
  has_char "/" (qp_Namespace p) = false -> has_char "/" (qp_Name p) = false ->
  has_char "/" (qp_Namespace q) = false -> has_char "/" (qp_Name q) = false ->
  getNamespacedName p = getNamespacedName q -> qp_Namespace p = qp_Namespace q /\ qp_Name p = qp_Name q.
Proof.
  intros H1 H2 H3 H4 E.
  assert (HS : forall r, has_char "/" (qp_Namespace r) = false -> has_char "/" (qp_Name r) = false ->
                 Split (getNamespacedName r) "/" = [qp_Namespace r; qp_Name r]).
  { intros r Ha Hb. apply (Split_Join_gen "/" "" [qp_Namespace r; qp_Name r]); [done|]. repeat constructor; done. }
  pose proof (HS p H1 H2) as Hp. rewrite E, (HS q H3 H4) in Hp. by injection Hp as -> ->.
Qed.

(** C40. [Less] is a strict order, and total on pods whose names contain no slash:
    two different pods are always ordered one way, higher priority first. *)
Theorem Less_strict_total :
  (forall p, Less p p = false) /\
  (forall p q r, Less p q = true -> Less q r = true -> Less p r = true) /\
  (forall p q, (qp_priority q < qp_priority p)%Z -> Less p q = true) /\
  (forall p q, has_char "/" (qp_Namespace p) = false -> has_char "/" (qp_Name p) = false ->
     has_char "/" (qp_Namespace q) = false -> has_char "/" (qp_Name q) = false ->
     p <> q -> Less p q = true \/ Less q p = true).
Proof.
  unfold Less. split; [|split; [|split]].
  - intros p. rewrite Z.eqb_refl. apply string_lt_irrefl.
  - intros p q r. destruct (Z.eqb_spec (qp_priority p) (qp_priority q)) as [Hpq|Hpq],
      (Z.eqb_spec (qp_priority q) (qp_priority r)) as [Hqr|Hqr]; simpl.
    + rewrite (proj2 (Z.eqb_eq _ _)) by congruence. apply string_lt_trans.
    + intros _. rewrite Hpq. by rewrite (proj2 (Z.eqb_neq _ _)).
    + intros H _. rewrite <- Hqr. by rewrite (proj2 (Z.eqb_neq _ _)).
    + rewrite !Z.ltb_lt. intros. rewrite (proj2 (Z.eqb_neq _ _)) by lia. simpl. apply Z.ltb_lt. lia.
  - intros p q H. rewrite (proj2 (Z.eqb_neq _ _)) by lia. simpl. by apply Z.ltb_lt.
  - intros p q H1 H2 H3 H4 Hne. destruct (Z.eqb_spec (qp_priority p) (qp_priority q)) as [E|E]; simpl.
    + rewrite (proj2 (Z.eqb_eq _ _)) by done. simpl. apply string_lt_total. intros Hn.
      apply getNamespacedName_inj in Hn as [? ?]; [|done..]. destruct p, q. simpl in *. by subst.
    + rewrite (proj2 (Z.eqb_neq (qp_priority q) _)) by done. simpl. rewrite !Z.ltb_lt. lia.
Qed.

Lemma Less_strict_total_witness :
  Less (mkQueuedPod 5 "a" "x") (mkQueuedPod 1 "a" "y") = true /\
  (Less (mkQueuedPod 1 "a" "x") (mkQueuedPod 1 "a" "y") = true \/
   Less (mkQueuedPod 1 "a" "y") (mkQueuedPod 1 "a" "x") = true).
Proof.
  split.
  - apply (proj1 (proj2 (proj2 Less_strict_total))). simpl. lia.
  - apply (proj2 (proj2 (proj2 Less_strict_total))); (reflexivity || discriminate).
Defined.

(** ** The node of a pod *)

Lemma Split_nonempty s sep : Split s sep <> [].
Proof.
  unfold Split. generalize 0, "". induction s as [|c s IH]; intros k cur; [done|].
  cbn [split_from]. destruct k; [|apply IH]. by destruct (String.prefix _ _).
Qed.

(** The index a pod stands at: its completion index, or 0. *)
Definition index_label (m : ObjectMeta) (i : Z) : Prop :=
  label_get m IndexLabel = Some (Itoa i) \/ label_get m IndexLabel = None /\ i = 0%Z.

Lemma index_label_parse m i :
  in_range 64 i -> index_label m i ->
  Atoi (match label_get m IndexLabel with Some s => s | None => "0" end) = (i, None).
Proof.
  intros Hi [->|[-> ->]]; [|done]. by apply (ParseInt_Itoa_gen 64).
Qed.

Lemma PreFilter_labelled m nodes i :
  label_get m UnschedulableLabel = None -> label_get m NodesLabel = Some (Join "__" nodes) ->
  nodes <> [] -> Forall (fun n => has_char "_" n = false) nodes -> in_range 64 i -> index_label m i ->
  PreFilter m =
  if (Z.of_nat (length nodes) <=? i)%Z then Ret (None, mkStatus Error "Not enough nodes for pod")
  else if (i <? 0)%Z then Panic "index out of range"
  else match nodes !! Z.to_nat i with
       | Some node => Ret (Some [node], mkStatus Success "Fluxion scheduler assigned node")
       | None => Panic "index out of range"
       end.
Proof.
  intros Hu Hn Hne Hus Hi Hx. unfold PreFilter. rewrite Hu, Hn, (index_label_parse m i) by done.
  change "__" with (String "_" "_"). by rewrite Split_Join_gen.
Qed.

(** C18. For a pod that the queue labelled with a joined list of nodes, [PreFilter]
    allows exactly the node at the pod's index, which is its completion index
    or, without that label, 0.  An index past the list is an error, and a
    negative one panics. *)
Theorem PreFilter_assigns m nodes i :
  label_get m UnschedulableLabel = None -> label_get m NodesLabel = Some (Join "__" nodes) ->
  nodes <> [] -> Forall (fun n => has_char "_" n = false) nodes -> in_range 64 i -> index_label m i ->
  (forall node, (0 <= i)%Z -> nodes !! Z.to_nat i = Some node ->
     PreFilter m = Ret (Some [node], mkStatus Success "Fluxion scheduler assigned node")) /\
  ((Z.of_nat (length nodes) <= i)%Z -> PreFilter m = Ret (None, mkStatus Error "Not enough nodes for pod")) /\
  ((i < 0)%Z -> PreFilter m = Panic "index out of range").
Proof.
  intros Hu Hn Hne Hus Hi Hx. rewrite (PreFilter_labelled m nodes i) by done. split; [|split].
  - intros node Hpos Hl. apply lookup_lt_Some in Hl as Hlt.
    destruct (Z.leb_spec (Z.of_nat (length nodes)) i); [lia|].
    destruct (Z.ltb_spec i 0); [lia|]. by rewrite Hl.
  - intros. destruct (Z.leb_spec (Z.of_nat (length nodes)) i); [done|lia].
  - intros. destruct (Z.leb_spec (Z.of_nat (length nodes)) i); [lia|]. destruct (Z.ltb_spec i 0); [done|lia].
Qed.

(** The plugin owns the decision: it never lets a pod through to a node that
    is not named in its label, and without the label, or with the unschedulable
    label, a pod is refused for good. *)
Theorem PreFilter_only_labelled m :
  match PreFilter m with
  | Ret (Some ns, st) => exists nodesLabel node, label_get m NodesLabel = Some nodesLabel /\
      label_get m UnschedulableLabel = None /\ ns = [node] /\ node ∈ Split nodesLabel "__" /\ st_Code st = Success
  | Ret (None, st) => st_Code st <> Success /\
      ((is_Some (label_get m UnschedulableLabel) \/ label_get m NodesLabel = None) ->
        st_Code st = UnschedulableAndUnresolvable)
  | Panic _ => exists v, label_get m IndexLabel = Some v /\ (Atoi v).1 < 0
  end%Z.
Proof.
  unfold PreFilter. destruct (label_get m UnschedulableLabel) as [u|] eqn:Hu; [done|].
  destruct (label_get m NodesLabel) as [nl|] eqn:Hn; [|done].
  destruct (Atoi _) as [i [e|]] eqn:Hi.
  { split; [done|]. done. }
  destruct (Z.leb_spec (Z.of_nat (length (Split nl "__"))) i) as [Hle|Hlt].
  { split; [done|]. intros [[? ?]|?]; done. }
  destruct (Z.ltb_spec i 0) as [Hneg|Hpos].
  - destruct (label_get m IndexLabel) as [v|]; [|injection Hi as <-; lia].
    exists v. split; [done|]. rewrite Hi. done.
  - destruct (lookup_lt_is_Some_2 (Split nl "__") (Z.to_nat i)) as [node Hnode]; [lia|]. rewrite Hnode.
    exists nl, node. split; [done|]. split; [done|]. split; [done|]. split; [|done].
    by eapply list_elem_of_lookup_2.
Qed.

Definition labelled_meta (index : string) : ObjectMeta :=
  mkMeta "p" "default" (Some (<[IndexLabel := index]> {[ NodesLabel := "n1__n2" ]})).

Lemma PreFilter_assigns_witness :
  PreFilter (labelled_meta "1") = Ret (Some ["n2"], mkStatus Success "Fluxion scheduler assigned node").
Proof.
  refine (proj1 (PreFilter_assigns (labelled_meta "1") ["n1"; "n2"] 1 _ _ _ _ _ _) "n2" _ _).
  - reflexivity.
  - reflexivity.
  - discriminate.
  - repeat constructor.
  - unfold in_range. lia.
  - left. reflexivity.
  - lia.
  - reflexivity.
Defined.
