(* ===== verification/Pipeline.v ===== *)
(** * The system as a whole

    The components together: a job's node assignment from the ungate task to
    the scheduler plugin and back to the cancel at the end of its life, and the
    invariants of every reachable state of the queue, by rule induction over
    the operations of all components. *)

From Stdlib Require Import Ascii.
From stdpp Require Import base option strings gmap numbers list relations.
From S2P Require Import Prelude GoStrings Json Api Kube Database World Mem Strategy Queue Allocation.
From S2P Require Import JobWorker UngateWorker CancelWorkers Controller Jobspec Webhook Scheduler.

(** ** From the label to the node, and to the cancel *)

(** A node name as Kubernetes allows it: no JSON escape, no underscore. *)
Definition node_name (n : string) : bool := plain n && negb (has_char "_" n).

Lemma node_name_plain nodes : Forall (fun n => node_name n = true) nodes -> Forall (fun n => plain n = true) nodes.
Proof. intros H. eapply Forall_impl; [exact H|]. intros n [? _]%andb_true_iff. done. Qed.
Lemma node_name_us nodes : Forall (fun n => node_name n = true) nodes -> Forall (fun n => has_char "_" n = false) nodes.
Proof. intros H. eapply Forall_impl; [exact H|]. intros n [_ ?%negb_true_iff]%andb_true_iff. done. Qed.

(** The pod has no label that overrides its position. *)
Definition unindexed {Q} (p : Pod Q) : Prop :=
  pod_label p UnschedulableLabel = None /\ pod_label p IndexLabel = None.

(** The plugin lets a relabelled pod run on the first node of its label only. *)
Lemma relabelled_lands {Q} nodes node id (p p' : Pod Q) :
  Forall (fun n => node_name n = true) nodes -> head nodes = Some node -> unindexed p ->
  relabelled (node_members (Join "__" nodes) id) p p' ->
  PreFilter (p_meta p') = Ret (Some [node], mkStatus Success "Fluxion scheduler assigned node").
Proof.
  intros Hn Hh [Hu Hi] H%relabelled_node. destruct H as (_ & _ & Hnodes & _ & Hrest & _).
  destruct nodes as [|n nodes]; [done|]. injection Hh as ->.
  rewrite (PreFilter_labelled _ (node :: nodes) 0); [done| |exact Hnodes|done|by apply node_name_us| |].
  - change (pod_label p' UnschedulableLabel = None). by rewrite Hrest by done.
  - unfold in_range. lia.
  - right. split; [|done]. change (pod_label p' IndexLabel = None). by rewrite Hrest by done.
Qed.

Section Placement.
Context {Q C K F R : Type}.
Context `{!PodClient Q K, !PodView Q K, !PodLaws Q K}.
Implicit Types w : World C K F R.
Abbreviation pods w := (kube_pods (Q:=Q) (w_kube w)).

(** The delete event of a relabelled pod. *)
Lemma relabelled_cancels `{!DbConn C, !RiverClient R} node id (p p' : Pod Q) (q : Queue C K F R) w :
  in_range 64 id -> relabelled (node_members node id) p p' ->
  pod_DeleteFunc q (DeletedPod (p_meta p')) w = (_ ← Cleanup q [id]; mret tt) w.
Proof.
  intros Hid H%relabelled_node. destruct H as (_ & _ & _ & Hl & _).
  change (label_get (p_meta p') FluxJobIdLabel = Some (Itoa id)) in Hl.
  unfold pod_DeleteFunc. rewrite Hl. by rewrite ParseInt_Itoa_gen.
Qed.

(** C9. A pod that the ungate worker released is placed where Fluxion put it and
    cancelled under Fluxion's id: the scheduler plugin allows exactly the
    first allocated node for the pod as it is now stored, and when that pod is
    deleted the controller asks for the cancel of exactly the id of the task. *)
Theorem ungated_pod_lands `{!DbConn C, !RiverClient R} args node rest w w' (q : Queue C K F R) :
  ua_Type args = JobWrapped_String JobWrappedPod -> ua_Nodes args = node :: rest ->
  Forall (fun n => node_name n = true) (ua_Nodes args) -> in_range 64 (ua_JobID args) ->
  ungate_Work Q args w = (Ret None, w') ->
  exists p p', pods w !! (ua_Namespace args, ua_Name args) = Some p /\
    pods w' !! (ua_Namespace args, ua_Name args) = Some p' /\
    (unindexed p -> PreFilter (p_meta p') = Ret (Some [node], mkStatus Success "Fluxion scheduler assigned node")) /\
    (forall w1, pod_DeleteFunc q (DeletedPod (p_meta p')) w1 = (_ ← Cleanup q [ua_JobID args]; mret tt) w1).
Proof.
  intros Ht Hns Hn Hid H. apply ungate_pod_run in H as (_ & p & p' & Hp & Hrel & Hpods);
    [|done|by apply node_name_plain].
  exists p, p'. split; [done|]. split; [by rewrite Hpods, lookup_insert_eq|]. split.
  - intros Hu. by eapply relabelled_lands; [| |exact Hu|exact Hrel]; [|rewrite Hns].
  - intros w1. by eapply relabelled_cancels.
Qed.

(** C8. The pods of a deployment, replica set or stateful set are spread over the
    allocation: after a successful run every pod that was gated may run on
    exactly the node of its own position in the listing, so that two of them
    share a node only if the allocation names it twice, and the deletion of
    each cancels the id of the task. *)
Theorem ungated_group_lands `{!DbConn C, !RiverClient R} args kind w w' (q : Queue C K F R) :
  workload_kind (ua_Type args) = Some kind ->
  label_text (ua_Name args) = true -> label_text (ua_Namespace args) = true ->
  Forall (fun n => node_name n = true) (ua_Nodes args) -> in_range 64 (ua_JobID args) ->
  ungate_Work Q args w = (Ret None, w') ->
  exists ps, group_ungated args kind w w' ps /\
    forall j p, ps !! j = Some p -> is_gated p = true ->
      exists node p', ua_Nodes args !! j = Some node /\
        pods w' !! (ua_Namespace args, om_Name (p_meta p)) = Some p' /\
        (unindexed p -> PreFilter (p_meta p') = Ret (Some [node], mkStatus Success "Fluxion scheduler assigned node")) /\
        (forall w1, pod_DeleteFunc q (DeletedPod (p_meta p')) w1 = (_ ← Cleanup q [ua_JobID args]; mret tt) w1).
Proof.
  intros Ht Hln Hlns Hn Hid H.
  apply (ungate_group_run _ kind) in H as (_ & ps & Hps); [|done|done|done|by apply node_name_plain].
  exists ps. split; [done|]. intros j p Hj Hg. destruct Hps as (_ & _ & _ & Hps & _).
  specialize (Hps j p Hj). rewrite Hg in Hps. destruct Hps as (node & p' & Hnode & Hrel & Hin).
  exists node, p'. split; [done|]. split; [done|]. split.
  - intros Hu. eapply (relabelled_lands [node]); [|done|exact Hu|exact Hrel].
    constructor; [|done]. exact (Forall_lookup_1 _ _ _ _ Hn Hnode).
  - intros w1. by eapply relabelled_cancels.
Qed.
End Placement.

Lemma ungated_pod_lands_witness :
  exists p', kube_pods (w_kube (ungate_Work Z pod_task gated_pair).2) !! ("default", "app-0") = Some p' /\
    PreFilter (p_meta p') = Ret (Some ["n1"], mkStatus Success "Fluxion scheduler assigned node").
Proof.
  destruct (ungated_pod_lands (Q:=Z) pod_task "n1" ["n2"] gated_pair (ungate_Work Z pod_task gated_pair).2 easy_queue)
    as (p & p' & H1 & H2 & H3 & _);
    [reflexivity|reflexivity|repeat constructor|unfold in_range; simpl; lia|vm_compute; reflexivity|].
  exists p'. split; [exact H2|]. apply H3. vm_compute in H1. injection H1 as <-. split; reflexivity.
Defined.

Lemma ungated_group_lands_witness :
  exists ps : list (Pod Z), forall j p, ps !! j = Some p -> is_gated p = true ->
    exists node p', ["n1"; "n2"] !! j = Some node /\
      kube_pods (w_kube (ungate_Work Z (app_task ["n1"; "n2"]) gated_pair).2) !!
        ("default", om_Name (p_meta p)) = Some p'.
Proof.
  destruct (ungated_group_lands (Q:=Z) (app_task ["n1"; "n2"]) "deployment" gated_pair
              (ungate_Work Z (app_task ["n1"; "n2"]) gated_pair).2 easy_queue) as (ps & _ & H);
    [reflexivity|reflexivity|reflexivity|repeat constructor|unfold in_range; simpl; lia|vm_compute; reflexivity|].
  exists ps. intros j p Hj Hg. destruct (H j p Hj Hg) as (node & p' & H1 & H2 & _).
  exists node, p'. split; [exact H1|exact H2].
Defined.

(** ** Reachable states of the queue *)

(** What the webhook makes of an object: no reservation, and one of the five
    wrapped types. *)
Definition from_webhook (fj : FluxJob) : Prop :=
  fs_Reservation (fj_Spec fj) = false /\ known_type (fs_Type (fj_Spec fj)).

Definition worker_kinds : list string := ["job"; "cleanup"; "reservation"; "ungate"].

(** The arguments of a task, as the program inserts them. *)
Definition args_ok (a : RiverArgs) : Prop :=
  match a with
  | AJob a => ja_Reservation a = 0%Z /\ exists t, known_type t /\ ja_Type a = JobWrapped_String t
  | AUngate u => ua_Type u = JobWrapped_String JobWrappedPod \/ is_Some (workload_kind (ua_Type u))
  | _ => True
  end.

(** A task has a worker, a queue that is served, and arguments its worker can
    deal with. *)
Definition task_ok (p : InsertManyParams) : Prop :=
  Kind (im_Args p) ∈ worker_kinds /\ io_Queue (im_Opts p) ∈ (fst <$> river_queues) /\ args_ok (im_Args p).

Definition row_ok (r : PendingRow) : Prop := pr_reservation r = 0%Z /\ known_type (pr_type r).

Section System.
Context {Q J Raw C K F R : Type}.
Context `{!DbConn C, !DbLaws C, !RiverClient R, !RiverView R, !RiverLaws R}.
Context `{!PodClient Q K, !FluxJobClient K, !FluxionClient F, !Quantity Q, !JobspecLib J, !Codec Q Raw}.
Abbreviation W := (World C K F R).
Implicit Types w : World C K F R.

(** The queue the manager runs. *)
Definition the_queue : Queue C K F R := mkQueue Easy.EasyBackfill Easy.GetReservationDepth.

(** One operation of a component other than the queue: an admission, a worker
    run, the event of a deleted pod; or a change by others of anything but the
    tables, the tasks and the mutex of the queue. *)
Inductive handler w : World C K F R -> Prop :=
  | handler_webhook req o w' : Handle (Q:=Q) (J:=J) (Raw:=Raw) req w = (o, w') -> handler w w'
  | handler_job a opts o w' :
      mkParams (AJob a) opts ∈ river_tasks (w_river w) -> Work Q a w = (o, w') -> handler w w'
  | handler_ungate u opts o w' :
      mkParams (AUngate u) opts ∈ river_tasks (w_river w) -> ungate_Work Q u w = (o, w') -> handler w w'
  | handler_cleanup c opts o w' :
      mkParams (ACleanup c) opts ∈ river_tasks (w_river w) -> cleanup_Work c w = (o, w') -> handler w w'
  | handler_reservation opts o w' :
      mkParams AReservation opts ∈ river_tasks (w_river w) -> reservation_Work w = (o, w') -> handler w w'
  | handler_pod_deleted obj o w' : pod_DeleteFunc the_queue obj w = (o, w') -> handler w w'
  | handler_environment w' :
      w_db w' = w_db w -> w_river w' = w_river w -> w_locked w' = w_locked w -> handler w w'.

(** One operation of one component, each running to its end. *)
Inductive step w : World C K F R -> Prop :=
  | step_handler w' : handler w w' -> step w w'
  | step_reconcile ns n o w' :
      (forall spec k1, fluxjob_Get ns n (w_kube w) = ((spec, None), k1) -> from_webhook spec) ->
      Reconcile the_queue ns n w = (o, w') -> step w w'.

Record invariant w : Prop := {
  inv_unique : pending_unique (w_db w);
  inv_rows r : r ∈ pending_queue (w_db w) -> row_ok r;
  inv_tasks p : p ∈ river_tasks (w_river w) -> task_ok p
}.

(** A property of the world that depends on the pending table, the tasks and
    the mutex only. *)
Class Framed (P : W -> Prop) : Prop :=
  framed w w' : pending_queue (w_db w') = pending_queue (w_db w) -> river_tasks (w_river w') = river_tasks (w_river w) ->
    w_locked w' = w_locked w -> P w -> P w'.

(** [m] maintains [P], also when it panics. *)
Definition maintains (P : W -> Prop) {A} (m : GoM W A) : Prop := forall w, P w -> P (m w).2.

#[export] Instance invariant_framed : Framed invariant.
Proof. intros w w' Hp Hr _ [H1 H2 H3]. split; unfold pending_unique in *; by rewrite ?Hp, ?Hr. Qed.

Context (P : W -> Prop) `{!Framed P}.

Lemma maintains_ret {A} (a : A) : maintains P (mret a).
Proof. by intros w. Qed.
Lemma maintains_panic {A} why : maintains P (panic (A:=A) why).
Proof. by intros w. Qed.
Lemma maintains_bind {A B} (m : GoM W A) (k : A -> GoM W B) :
  maintains P m -> (forall a, maintains P (k a)) -> maintains P (m ≫= k).
Proof.
  intros Hm Hk w Hw. rewrite run_bind. specialize (Hm w Hw). destruct (m w) as [[a|why] w1]; [|done].
  by apply Hk.
Qed.
Lemma maintains_on_kube {A} (f : K -> A * K) : maintains P (on_kube f).
Proof. intros w. rewrite on_kube_eq. by apply framed. Qed.
Lemma maintains_on_fluxion {A} (f : F -> A * F) : maintains P (on_fluxion f).
Proof. intros w. rewrite on_fluxion_eq. by apply framed. Qed.
Lemma maintains_on_conn {A} (f : C -> A * C) : maintains P (on_conn f).
Proof. intros w. rewrite on_conn_eq. by apply framed. Qed.
Lemma maintains_sql_query {A} (f : Database -> A) : maintains P (sql_query f).
Proof. intros w. unfold sql_query. destruct (db_fate _) as [[] c]; by apply framed. Qed.
Lemma maintains_gets {A} (f : W -> A) : maintains P (gets f).
Proof. by intros w. Qed.

(** A statement that leaves the pending table alone. *)
Lemma maintains_sql_exec (f : Database -> goerr + Database) :
  (forall db db', f db = inr db' -> pending_queue db' = pending_queue db) -> maintains P (sql_exec f).
Proof.
  intros Hf w Hw. destruct (sql_exec_effect f w) as (e & w' & -> & (_ & _ & Hr & Hl) & Hd & _).
  eapply framed; cbn [snd]; [|by rewrite Hr|exact Hl|exact Hw]. destruct Hd as [->|Hd]; [done|by eapply Hf].
Qed.

(** Inserting tasks, for a property that the new tasks keep. *)
Lemma maintains_insert a o :
  (forall w w', pending_queue (w_db w') = pending_queue (w_db w) ->
     river_tasks (w_river w') = river_tasks (w_river w) ++ [mkParams a o] -> w_locked w' = w_locked w -> P w -> P w') ->
  maintains P (on_river (river_Insert a o)).
Proof.
  intros Hok w Hw. rewrite on_river_eq. cbn [snd].
  destruct (river_Insert a o (w_river w)) as [[e|] r] eqn:E; cbn.
  - apply insert_err in E as [E|E]; [by apply (framed w)|by apply (Hok w)].
  - apply insert_ok in E. by apply (Hok w).
Qed.
Lemma maintains_insert_many b :
  (forall w w', pending_queue (w_db w') = pending_queue (w_db w) ->
     river_tasks (w_river w') = river_tasks (w_river w) ++ b -> w_locked w' = w_locked w -> P w -> P w') ->
  maintains P (on_river (river_InsertMany b)).
Proof.
  intros Hok w Hw. rewrite on_river_eq. cbn [snd].
  destruct (river_InsertMany b (w_river w)) as [[e|] r] eqn:E; cbn.
  - apply insert_many_err in E as [E|E]; [by apply (framed w)|by apply (Hok w)].
  - apply insert_many_ok in E. by apply (Hok w).
Qed.
End System.

#[export] Hint Resolve maintains_ret maintains_panic maintains_on_kube maintains_on_fluxion maintains_on_conn
  maintains_sql_query maintains_gets : flux.

(** Walk through a handler, leaving the calls that touch tables or tasks. *)
Ltac maintains_walk :=
  repeat match goal with
    | |- maintains _ (mbind _ _) => apply maintains_bind; [|intros ?]
    | |- maintains _ (match ?x with _ => _ end) => destruct x
    | |- maintains _ (if ?x then _ else _) => destruct x
    | |- maintains _ _ =>
        first [apply maintains_ret | apply maintains_panic | apply maintains_gets | apply maintains_on_kube
              | apply maintains_on_fluxion | apply maintains_on_conn | apply maintains_sql_query]
    | |- Framed _ => apply _
    end.

Section SystemFacts.
Context {Q J Raw C K F R : Type}.
Context `{!DbConn C, !DbLaws C, !RiverClient R, !RiverView R, !RiverLaws R}.
Context `{!PodClient Q K, !FluxJobClient K, !FluxionClient F, !Quantity Q, !JobspecLib J, !Codec Q Raw}.
Abbreviation W := (World C K F R).
Implicit Types w : World C K F R.

(** *** Handlers, for any framed property *)

Section Handlers.
Context (P : W -> Prop) `{!Framed P}.

Lemma removeGate_maintains ns n : maintains P (removeGate Q ns n).
Proof. unfold removeGate. maintains_walk. Qed.

Lemma ungate_loop_maintains u jobid total i (ps : list (Pod Q)) : maintains P (ungate_loop u jobid total i ps).
Proof.
  revert i. induction ps as [|p rest IH]; intros i; cbn [ungate_loop]; maintains_walk;
    try apply removeGate_maintains; apply IH.
Qed.

Lemma ungate_Work_maintains u : maintains P (ungate_Work Q u).
Proof.
  unfold ungate_Work. maintains_walk; (apply removeGate_maintains || apply ungate_loop_maintains).
Qed.

Lemma cleanup_Work_maintains c : maintains P (cleanup_Work c).
Proof. unfold cleanup_Work, worker_Cleanup, deleteFluxion. maintains_walk. Qed.

Lemma reservation_loop_maintains rows : maintains P (reservation_loop rows).
Proof.
  induction rows as [|r rows IH]; cbn [reservation_loop]; maintains_walk; try exact IH.
  apply maintains_sql_exec; [done|]. by intros db db' [= <-].
Qed.

Lemma reservation_Work_maintains : maintains P reservation_Work.
Proof. unfold reservation_Work. maintains_walk. apply reservation_loop_maintains. Qed.

Lemma SubmitFluxJob_maintains t n ns nodes (cs : list (Container Q)) :
  maintains P (SubmitFluxJob (J:=J) t n ns nodes cs).
Proof. unfold SubmitFluxJob. maintains_walk. Qed.

Lemma Handle_maintains req : maintains P (Handle (Q:=Q) (J:=J) (Raw:=Raw) req).
Proof.
  intros w Hw. rewrite Handle_refines_run. revert w Hw.
  change (maintains P (Handle_spec (Q:=Q) (J:=J) (Raw:=Raw) req)).
  unfold Handle_spec, answer_for, EnqueueDeployment, EnqueueReplicaSet, EnqueueStatefulSet,
    EnqueueJob, EnqueuePod, enqueue_workload.
  maintains_walk; apply SubmitFluxJob_maintains.
Qed.

(** The job worker inserts at most an ungate task. *)
Lemma Work_maintains a :
  (forall nodes id w w', gated_type a -> pending_queue (w_db w') = pending_queue (w_db w) ->
     river_tasks (w_river w') = river_tasks (w_river w) ++ [ungate_task a nodes id] ->
     w_locked w' = w_locked w -> P w -> P w') ->
  maintains P (Work Q a).
Proof.
  intros Hok. unfold Work, markUnschedulable, rejectJob, rejectPod, patchUnsuspend, reserveJob.
  maintains_walk; try apply removeGate_maintains.
  - apply maintains_sql_exec; [done|]. intros db db'. unfold AddReservationQuery. by case_match; [intros [= <-]|].
  - unfold releaseJob. case_bool_decide; [unfold unsuspendJob; maintains_walk|].
    destruct (_ || _) eqn:E; maintains_walk. apply maintains_insert; [done|]. intros w w'. apply Hok.
    revert E. rewrite !orb_true_iff, !bool_decide_eq_true. unfold gated_type. tauto.
Qed.

(** The delete handler inserts at most one cancel. *)
Lemma pod_DeleteFunc_maintains obj :
  (forall id w w', pending_queue (w_db w') = pending_queue (w_db w) ->
     river_tasks (w_river w') = river_tasks (w_river w) ++ Easy.cleanup_batch [id] ->
     w_locked w' = w_locked w -> P w -> P w') ->
  maintains P (pod_DeleteFunc the_queue obj).
Proof.
  intros Hok. unfold pod_DeleteFunc. maintains_walk. cbn. unfold Easy.Cleanup. maintains_walk.
  apply maintains_insert_many; [done|]. intros w w'. apply Hok.
Qed.
End Handlers.

(** *** The invariant *)

Lemma invariant_app w w' new :
  Forall task_ok new -> pending_queue (w_db w') = pending_queue (w_db w) ->
  river_tasks (w_river w') = river_tasks (w_river w) ++ new -> invariant w -> invariant w'.
Proof.
  intros Hok Hp Hr [H1 H2 H3]. rewrite Forall_forall in Hok.
  split; unfold pending_unique in *; rewrite ?Hp, ?Hr; [done|done|]. intros p [?|?]%elem_of_app; auto.
Qed.

Lemma ungate_task_ok args nodes id : gated_type args -> task_ok (ungate_task args nodes id).
Proof.
  intros Ht. split; [set_solver|]. split; [set_solver|]. cbn.
  destruct Ht as [Ht|[Ht|[Ht|Ht]]]; rewrite Ht; [by left|right; eexists; vm_compute; reflexivity..].
Qed.

Lemma row_task_ok r : row_ok r -> task_ok (row_task r).
Proof. intros [Hr Ht]. split; [set_solver|]. split; [set_solver|]. cbn. eauto. Qed.

Lemma Enqueue_preserves spec : from_webhook spec -> maintains invariant (Enqueue spec : GoM W (EnqueueStatus * error)).
Proof.
  intros [Hres Hty] w [H1 H2 H3].
  destruct (Enqueue_effect spec w) as (st & e & w' & -> & (_ & _ & Hr & _) & _ & Hd & _). cbn.
  assert (Hrow : forall now, row_ok (pending_row spec now)).
  { intros now. unfold row_ok, pending_row. cbn. by rewrite Hres. }
  split; [| |by rewrite Hr]; destruct Hd as [->|[now Hi]]; try done.
  - by eapply InsertIntoPending_unique.
  - apply InsertIntoPending_inv in Hi as (_ & -> & _).
    intros r [?|Hp%list_elem_of_singleton]%elem_of_app; [auto|by rewrite Hp].
Qed.

Lemma Schedule_preserves : maintains invariant (Schedule the_queue : GoM W error).
Proof.
  intros w [H1 H2 H3]. destruct (Schedule_conserved the_queue w) as (e & w' & -> & (_ & _ & Hs & _) & _ & Hb).
  cbn. split.
  - unfold pending_unique in *. eapply sublist_NoDup; [exact H1|]. by apply fmap_sublist.
  - intros r Hr. apply H2. by eapply elem_of_sublist.
  - intros p. destruct Hb as [->|(b & w0 & w1 & Hd & Hq & ->)]; [apply H3|].
    cbn in Hq. rewrite Easy_Schedule_eq, Hd in Hq. destruct (db_fate _) as [[|x|x] c]; [|done|done].
    injection Hq as <- _. rewrite !elem_of_app, list_elem_of_fmap, list_elem_of_singleton.
    intros [Hp|[(r & -> & Hr)| ->]]; [auto| |split; [set_solver|split; [set_solver|done]]].
    apply row_task_ok, H2. by rewrite (db_order_perm (w_conn w0)) in Hr.
Qed.

Lemma Reconcile_preserves ns n w :
  (forall spec k1, fluxjob_Get ns n (w_kube w) = ((spec, None), k1) -> from_webhook spec) ->
  invariant w -> invariant (Reconcile the_queue ns n w).2.
Proof.
  intros Hspec Hw. unfold Reconcile. rewrite run_bind, on_kube_eq.
  destruct (fluxjob_Get ns n (w_kube w)) as [[spec [e|]] k1] eqn:E; cbn [fst snd].
  { destruct (IsNotFound e); by apply (framed w). }
  assert (Hk : invariant (set_kube w k1)) by by apply (framed w).
  case_bool_decide; [rewrite run_bind, on_kube_eq; by apply (framed w)|].
  revert Hk. generalize (set_kube w k1). change (maintains (C:=C) (K:=K) (F:=F) invariant
    ('(result, err) ← submitJob the_queue spec;
     err ← match err with None => updateStatus spec SubmitStatusSubmit | Some _ => updateStatus spec SubmitStatusError end;
     mret (result, err))).
  unfold submitJob, updateStatus. maintains_walk; [by apply Enqueue_preserves, (Hspec spec k1)|].
  apply Schedule_preserves.
Qed.

(** What all handlers keep: a framed property that survives the insertion of
    an ungate task or of a cancel. *)
Lemma handler_maintains (P : W -> Prop) `{!Framed P} w w' :
  (forall a nodes id v v', gated_type a -> pending_queue (w_db v') = pending_queue (w_db v) ->
     river_tasks (w_river v') = river_tasks (w_river v) ++ [ungate_task a nodes id] ->
     w_locked v' = w_locked v -> P v -> P v') ->
  (forall id v v', pending_queue (w_db v') = pending_queue (w_db v) ->
     river_tasks (w_river v') = river_tasks (w_river v) ++ Easy.cleanup_batch [id] ->
     w_locked v' = w_locked v -> P v -> P v') ->
  handler (Q:=Q) (J:=J) (Raw:=Raw) w w' -> P w -> P w'.
Proof.
  intros Hungate Hcancel Hs Hw.
  destruct Hs as [req o w' H|a opts o w' _ H|u opts o w' _ H|c opts o w' _ H|opts o w' _ H|obj o w' H|w' Hd Hr Hl].
  - pose proof (Handle_maintains P req w Hw) as Hp. by rewrite H in Hp.
  - refine (_ (Work_maintains P a _ w Hw)); [by rewrite H|]. intros nodes id. apply Hungate.
  - pose proof (ungate_Work_maintains P u w Hw) as Hp. by rewrite H in Hp.
  - pose proof (cleanup_Work_maintains P c w Hw) as Hp. by rewrite H in Hp.
  - pose proof (reservation_Work_maintains P w Hw) as Hp. by rewrite H in Hp.
  - refine (_ (pod_DeleteFunc_maintains P obj _ w Hw)); [by rewrite H|]. exact Hcancel.
  - eapply framed; [by rewrite Hd|by rewrite Hr|done|done].
Qed.

Lemma handler_invariant w w' : handler (Q:=Q) (J:=J) (Raw:=Raw) w w' -> invariant w -> invariant w'.
Proof.
  apply handler_maintains; [apply _|..].
  - intros a nodes id v v' Hg Hp Hr _. eapply invariant_app; [|done|exact Hr]. constructor; [by apply ungate_task_ok|done].
  - intros id v v' Hp Hr _. eapply invariant_app; [|done|exact Hr]. repeat constructor; set_solver.
Qed.

(** A handler leaves the queue alone: the pending table and the mutex are
    untouched and tasks are only added. *)
Lemma handler_frames w w' :
  handler (Q:=Q) (J:=J) (Raw:=Raw) w w' ->
  pending_queue (w_db w') = pending_queue (w_db w) /\ w_locked w' = w_locked w /\
  exists new, river_tasks (w_river w') = river_tasks (w_river w) ++ new.
Proof.
  set (P := fun v : W => pending_queue (w_db v) = pending_queue (w_db w) /\ w_locked v = w_locked w /\
              exists new, river_tasks (w_river v) = river_tasks (w_river w) ++ new). intros Hs.
  assert (HP : Framed P).
  { intros v v' Hp Hr Hl (H1 & H2 & H3). split; [congruence|]. split; [congruence|]. by rewrite Hr. }
  assert (Happ : forall b v v', pending_queue (w_db v') = pending_queue (w_db v) ->
    river_tasks (w_river v') = river_tasks (w_river v) ++ b -> w_locked v' = w_locked v -> P v -> P v').
  { intros b v v' Hp Hr Hl (H1 & H2 & new & H3). split; [congruence|]. split; [congruence|].
    exists (new ++ b). by rewrite Hr, H3, app_assoc. }
  change (P w'). eapply handler_maintains; [|by intros; eapply Happ|by intros; eapply Happ|exact Hs|]; [apply _|].
  split; [done|]. split; [done|]. exists []. by rewrite app_nil_r.
Qed.

(** The invariant is inductive. *)
Lemma step_invariant w w' : step (Q:=Q) (J:=J) (Raw:=Raw) w w' -> invariant w -> invariant w'.
Proof.
  intros [w1 Hh|ns n o w1 Hg H] Hw; [by eapply handler_invariant|].
  pose proof (Reconcile_preserves ns n w Hg Hw) as Hp. by rewrite H in Hp.
Qed.

Lemma reachable_invariant w w' :
  rtc (step (Q:=Q) (J:=J) (Raw:=Raw)) w w' -> invariant w -> invariant w'.
Proof. induction 1; eauto using step_invariant. Qed.

(** Before anything ran: no row and no task. *)
Definition fresh w : Prop := pending_queue (w_db w) = [] /\ river_tasks (w_river w) = [].

Lemma fresh_invariant w : fresh w -> invariant w.
Proof.
  intros [Hp Hr]. split; unfold pending_unique; rewrite ?Hp, ?Hr; [constructor|set_solver..].
Qed.

(** In every state the system can reach from an empty queue, whatever the order
    of admissions, reconciliations, worker runs, pod deletions and changes by
    others, and whatever fails or panics on the way: no two pending rows share
    a name and namespace, and every task in river has a registered worker, a
    queue that is served, and a wrapped type that its worker knows. *)
Theorem reachable_tasks_served w w' p :
  fresh w -> rtc (step (Q:=Q) (J:=J) (Raw:=Raw)) w w' ->
  pending_unique (w_db w') /\
  (p ∈ river_tasks (w_river w') ->
     (exists kinds, Easy.AddWorkers (C:=C) (K:=K) (F:=F) (R:=R) [] w = (Ret (kinds, None), w) /\ Kind (im_Args p) ∈ kinds) /\
     io_Queue (im_Opts p) ∈ (fst <$> river_queues) /\ args_ok (im_Args p)).
Proof.
  intros Hf Hr. destruct (reachable_invariant _ _ Hr (fresh_invariant _ Hf)) as [H1 _ H3].
  split; [done|]. intros Hp. destruct (H3 p Hp) as (Hk & Hq & Ha). split; [|done].
  exists worker_kinds. split; [vm_compute; reflexivity|done].
Qed.

(** In every reachable state no job task asks Fluxion for a reservation, so its
    run never finds the job impossible to place: the code that marks a pod or
    a job unschedulable does not run. *)
Theorem reachable_never_rejects w w' a opts :
  fresh w -> rtc (step (Q:=Q) (J:=J) (Raw:=Raw)) w w' ->
  mkParams (AJob a) opts ∈ river_tasks (w_river w') ->
  mq_Reservation (match_request a) = false /\ forall resp, impossible a resp = false.
Proof.
  intros Hf Hr Hp. destruct (reachable_invariant _ _ Hr (fresh_invariant _ Hf)) as [_ _ H3].
  destruct (H3 _ Hp) as (_ & _ & Ha). cbn in Ha. destruct Ha as [Ha _].
  unfold match_request, impossible. cbn. rewrite Ha. done.
Qed.
End SystemFacts.

(** ** A run: one FluxJob is reconciled *)

Definition start_world : MemoryWorld :=
  mkWorld (mkUpConn 100) (mkDatabase [] []) (mkMemKube ∅ ∅ {[ ("default", "fresh-pod") := fresh_job ]})
          (mkMemFluxion [] []) [] false.
Definition reconciled : outcome (Result * error) * MemoryWorld :=
  Reconcile the_queue "default" "fresh-pod" start_world.
Definition fresh_task : JobArgs := Easy.job_args (to_JobModel (pending_row fresh_job 100)).

Lemma start_reaches :
  rtc (step (Q:=Z) (J:=SimpleJobspec) (Raw:=MemRaw)) start_world reconciled.2.
Proof.
  apply rtc_once, (step_reconcile _ "default" "fresh-pod" reconciled.1); [|apply surjective_pairing].
  intros spec k1 H. vm_compute in H. injection H as <- _. split; [done|]. by left.
Defined.

Lemma reachable_tasks_served_witness :
  pending_unique (w_db reconciled.2) /\
  io_Queue (im_Opts (mkParams (AJob fresh_task) Easy.schedule_opts)) ∈ (fst <$> river_queues).
Proof.
  assert (Hf : fresh start_world) by (split; reflexivity).
  destruct (reachable_tasks_served (Q:=Z) (J:=SimpleJobspec) (Raw:=MemRaw) start_world reconciled.2
              (mkParams (AJob fresh_task) Easy.schedule_opts) Hf start_reaches) as [H1 H2].
  split; [exact H1|]. refine (proj1 (proj2 (H2 _))). vm_compute. apply list_elem_of_here.
Defined.

Lemma reachable_never_rejects_witness :
  mq_Reservation (match_request fresh_task) = false /\ forall resp, impossible fresh_task resp = false.
Proof.
  assert (Hf : fresh start_world) by (split; reflexivity).
  apply (reachable_never_rejects (Q:=Z) (J:=SimpleJobspec) (Raw:=MemRaw) start_world reconciled.2
           fresh_task Easy.schedule_opts Hf start_reaches).
  vm_compute. apply list_elem_of_here.
Defined.
