(* ===== verification/Calls.v ===== *)
(** * Handlers as sequences of calls

    A handler (an admission, the run of a worker, the event of a deleted pod)
    does its work by calls to the API server, to Fluxion, to the database and
    to river, and between two of them other goroutines run.  Here a handler is
    a [prog], a tree of single calls that can be stopped after each of them.  A
    call may be anything; that every handler of the system has a tree, that its
    calls leave the pending table and the mutex of the queue alone, and that the
    tasks it inserts have a worker, a queue and a known type is proved from the
    code of the handler. *)

From Stdlib Require Import Ascii.
From stdpp Require Import base option strings gmap numbers list relations.
From S2P Require Import Prelude GoStrings Json Api Kube Database World Mem Strategy Queue.
From S2P Require Import Allocation JobWorker UngateWorker CancelWorkers Controller Jobspec Webhook Scheduler Pipeline.

Section Calls.
Context {C K F R : Type}.
Context `{!DbConn C, !DbLaws C, !RiverClient R, !RiverView R, !RiverLaws R}.
Abbreviation W := (World C K F R).
Implicit Types w : World C K F R.

(** A single call: to one service, with any statement and any task, or a look
    at the world. *)
Inductive service_call : forall X, GoM W X -> Type :=
  | call_kube {X} (f : K -> X * K) : service_call X (on_kube f)
  | call_fluxion {X} (f : F -> X * F) : service_call X (on_fluxion f)
  | call_conn {X} (f : C -> X * C) : service_call X (on_conn f)
  | call_query {X} (f : Database -> X) : service_call (goerr + X) (sql_query f)
  | call_exec (f : Database -> goerr + Database) : service_call error (sql_exec f)
  | call_insert a o : service_call error (on_river (river_Insert a o))
  | call_insert_many b : service_call error (on_river (river_InsertMany b))
  | call_gets {X} (f : W -> X) : service_call X (gets f).

(** What the queue needs of a call: a statement leaves the pending table alone,
    and an inserted task has a worker, a queue and a known type. *)
Definition call_ok {X m} (c : service_call X m) : Prop :=
  match c with
  | call_exec f => forall db db', f db = inr db' -> pending_queue db' = pending_queue db
  | call_insert a o => task_ok (mkParams a o)
  | call_insert_many b => Forall task_ok b
  | _ => True
  end.

Inductive prog (A : Type) : Type :=
  | Done (a : A)
  | Crash (why : string)
  | Call {X : Type} (m : GoM W X) (c : service_call X m) (k : X -> prog A).
Arguments Done {A} a. Arguments Crash {A} why. Arguments Call {A X} m _ k.

(** The tree run without interruption. *)
Fixpoint run_prog {A} (p : prog A) : GoM W A :=
  match p with
  | Done a => mret a
  | Crash why => panic why
  | Call m _ k => x ← m; run_prog (k x)
  end.

Fixpoint bind_prog {A B} (p : prog A) (q : A -> prog B) : prog B :=
  match p with
  | Done a => q a
  | Crash why => Crash why
  | Call m c k => Call m c (fun x => bind_prog (k x) q)
  end.

(** Every call the tree can come to, whatever the calls before it answer. *)
Fixpoint prog_ok {A} (p : prog A) : Prop :=
  match p with
  | Call m c k => call_ok c /\ forall x, prog_ok (k x)
  | _ => True
  end.

(** [p] is an implementation of [m] by single calls; the second type also has
    the proof that its calls are as the queue needs them. *)
Definition implements {A} (p : prog A) (m : GoM W A) : Prop := forall w, run_prog p w = m w.
Definition by_calls {A} (m : GoM W A) : Type := { p : prog A | implements p m /\ prog_ok p }.

Lemma run_bind_prog {A B} (p : prog A) (q : A -> prog B) w :
  run_prog (bind_prog p q) w = (x ← run_prog p; run_prog (q x)) w.
Proof.
  revert w. induction p as [a|why|X m c k IH]; intros w; cbn [bind_prog run_prog].
  - by rewrite GoM_left_id.
  - done.
  - rewrite !run_bind. destruct (m w) as [[x|why] w1]; [|done]. by rewrite IH, run_bind.
Qed.

Lemma bind_prog_ok {A B} (p : prog A) (q : A -> prog B) : prog_ok p -> (forall a, prog_ok (q a)) -> prog_ok (bind_prog p q).
Proof. intros Hp Hq. induction p as [a|why|X m c k IH]; cbn in *; [apply Hq|done|]. destruct Hp as [Hc Hk]. auto. Qed.

Lemma by_ret {A} (a : A) : by_calls (mret a).
Proof. by exists (Done a). Defined.
Lemma by_panic {A} why : by_calls (panic (A:=A) why).
Proof. by exists (Crash why). Defined.
Lemma by_call {A} (m : GoM W A) (c : service_call A m) : call_ok c -> by_calls m.
Proof.
  intros Hc. exists (Call m c Done). split; [|by split]. intros w. cbn. rewrite run_bind. by destruct (m w) as [[x|why] w1].
Defined.
Lemma by_bind {A B} (m : GoM W A) (k : A -> GoM W B) : by_calls m -> (forall a, by_calls (k a)) -> by_calls (m ≫= k).
Proof.
  intros [p [Hp Hok]] Hk. exists (bind_prog p (fun a => proj1_sig (Hk a))). split.
  - intros w. rewrite run_bind_prog, !run_bind, Hp. destruct (m w) as [[a|why] w1]; [|done]. apply (proj2_sig (Hk a)).
  - apply bind_prog_ok; [done|]. intros a. apply (proj2_sig (Hk a)).
Defined.
Lemma by_ext {A} (m m' : GoM W A) : (forall w, m' w = m w) -> by_calls m -> by_calls m'.
Proof. intros He [p [Hp Hok]]. exists p. split; [|done]. intros w. by rewrite Hp, He. Defined.

(** Such a call returns, leaves the queue's table and mutex alone, and inserts
    well-formed tasks only. *)
Lemma service_call_frames X (m : GoM W X) (c : service_call X m) w :
  call_ok c -> exists x w' new, m w = (Ret x, w') /\ pending_queue (w_db w') = pending_queue (w_db w) /\
    w_locked w' = w_locked w /\ river_tasks (w_river w') = river_tasks (w_river w) ++ new /\ Forall task_ok new.
Proof.
  assert (Hsame : forall X (x : X) w', pending_queue (w_db w') = pending_queue (w_db w) -> w_locked w' = w_locked w ->
    w_river w' = w_river w -> exists y v new, (Ret x, w') = (Ret y, v) /\ pending_queue (w_db v) = pending_queue (w_db w) /\
    w_locked v = w_locked w /\ river_tasks (w_river v) = river_tasks (w_river w) ++ new /\ Forall task_ok new).
  { intros Y x w' Hp Hl Hr. exists x, w', []. rewrite Hr, app_nil_r. by repeat constructor. }
  assert (Hnew : forall X (x : X) r b, Forall task_ok b -> (river_tasks r = river_tasks (w_river w) \/ river_tasks r = river_tasks (w_river w) ++ b) ->
    exists y v new, (Ret x, set_river w r) = (Ret y, v) /\ pending_queue (w_db v) = pending_queue (w_db w) /\
    w_locked v = w_locked w /\ river_tasks (w_river v) = river_tasks (w_river w) ++ new /\ Forall task_ok new).
  { intros Y x r b Hb [Hr|Hr]; [exists x, (set_river w r), []; cbn; rewrite Hr, app_nil_r|exists x, (set_river w r), b]; by repeat constructor. }
  destruct c as [Y f|Y f|Y f|Y f|f|a o|b|Y f]; cbn [call_ok]; intros Hok.
  - rewrite on_kube_eq. by apply Hsame.
  - rewrite on_fluxion_eq. by apply Hsame.
  - rewrite on_conn_eq. by apply Hsame.
  - unfold sql_query. destruct (db_fate _) as [[] c]; by apply Hsame.
  - destruct (sql_exec_effect f w) as (e & w' & -> & (_ & _ & Hr & Hl) & Hd & _).
    apply Hsame; [|done|done]. destruct Hd as [->|Hd]; [done|by eapply Hok].
  - rewrite on_river_eq. destruct (river_Insert a o (w_river w)) as [[e|] r] eqn:E; cbn [fst snd];
      (apply (Hnew _ _ _ [mkParams a o]); [by apply Forall_singleton|]).
    + by apply insert_err in E as [?|?]; [left|right].
    + apply insert_ok in E. by right.
  - rewrite on_river_eq. destruct (river_InsertMany b (w_river w)) as [[e|] r] eqn:E; cbn [fst snd];
      (apply (Hnew _ _ _ b); [done|]).
    + by apply insert_many_err in E as [?|?]; [left|right].
    + apply insert_many_ok in E. by right.
  - by apply Hsame.
Qed.
End Calls.

Arguments Done {C K F R _ _ A} a. Arguments Crash {C K F R _ _ A} why.
Arguments Call {C K F R _ _ A X} m _ k.

(** Walk through a handler, leaving the calls that need an argument. *)
Ltac calls_walk :=
  repeat match goal with
    | |- by_calls (mbind _ _) => apply by_bind; [|intros ?]
    | |- by_calls (match ?x with _ => _ end) => destruct x
    | |- by_calls (if ?x then _ else _) => destruct x
    | |- by_calls (mret _) => apply by_ret
    | |- by_calls (panic _) => apply by_panic
    | |- by_calls _ =>
        first [by apply (by_call _ (call_kube _)) | by apply (by_call _ (call_fluxion _)) | by apply (by_call _ (call_conn _))
              | by apply (by_call _ (call_query _)) | by apply (by_call _ (call_gets _))]
    end.

Section Handlers.
Context {Q J Raw C K F R : Type}.
Context `{!DbConn C, !DbLaws C, !RiverClient R, !RiverView R, !RiverLaws R}.
Context `{!PodClient Q K, !FluxJobClient K, !FluxionClient F, !Quantity Q, !JobspecLib J, !Codec Q Raw}.
Abbreviation W := (World C K F R).

Lemma removeGate_calls ns n : by_calls (removeGate Q ns n : GoM W error).
Proof. unfold removeGate. calls_walk. Defined.

Lemma ungate_loop_calls u jobid total i (ps : list (Pod Q)) : by_calls (ungate_loop u jobid total i ps : GoM W error).
Proof.
  revert i. induction ps as [|p rest IH]; intros i; cbn [ungate_loop]; calls_walk;
    try apply removeGate_calls; apply IH.
Defined.

Lemma ungate_Work_calls u : by_calls (ungate_Work Q u : GoM W error).
Proof. unfold ungate_Work. calls_walk; (apply removeGate_calls || apply ungate_loop_calls). Defined.

Lemma cleanup_Work_calls c : by_calls (cleanup_Work c : GoM W error).
Proof. unfold cleanup_Work, worker_Cleanup, deleteFluxion. calls_walk. Defined.

Lemma reservation_loop_calls rows : by_calls (reservation_loop rows : GoM W error).
Proof.
  induction rows as [|r rows IH]; cbn [reservation_loop]; calls_walk; try exact IH.
  apply (by_call _ (call_exec _)). by intros db db' [= <-].
Defined.
Lemma reservation_Work_calls : by_calls (reservation_Work : GoM W error).
Proof. unfold reservation_Work. calls_walk. apply reservation_loop_calls. Defined.

Lemma SubmitFluxJob_calls t n ns nodes (cs : list (Container Q)) :
  by_calls (SubmitFluxJob (J:=J) t n ns nodes cs : GoM W error).
Proof. unfold SubmitFluxJob. calls_walk. Defined.

Lemma Handle_calls req : by_calls (Handle (Q:=Q) (J:=J) (Raw:=Raw) req : GoM W _).
Proof.
  apply (by_ext (Handle_spec (Q:=Q) (J:=J) (Raw:=Raw) req)); [intros w; apply Handle_refines_run|].
  unfold Handle_spec, answer_for, EnqueueDeployment, EnqueueReplicaSet, EnqueueStatefulSet,
    EnqueueJob, EnqueuePod, enqueue_workload.
  calls_walk; apply SubmitFluxJob_calls.
Defined.

Lemma releaseJob_calls a id nodes : by_calls (releaseJob Q a id nodes : GoM W error).
Proof.
  unfold releaseJob. destruct (bool_decide _); [unfold unsuspendJob; calls_walk|].
  destruct (_ || _) eqn:E; [|apply by_ret]. apply by_bind; [|intros ?; apply by_ret].
  apply (by_call _ (call_insert _ _)). apply (ungate_task_ok a nodes id).
  revert E. rewrite !orb_true_iff, !bool_decide_eq_true. unfold gated_type. tauto.
Defined.

Lemma Work_calls a : by_calls (Work Q a : GoM W error).
Proof.
  unfold Work, markUnschedulable, rejectJob, rejectPod, patchUnsuspend, reserveJob.
  calls_walk; try apply removeGate_calls; try apply releaseJob_calls.
  apply (by_call _ (call_exec _)). intros db db'. unfold AddReservationQuery. by case_match; [intros [= <-]|].
Defined.

Lemma pod_DeleteFunc_calls obj : by_calls (pod_DeleteFunc the_queue obj : GoM W unit).
Proof.
  unfold pod_DeleteFunc. calls_walk.
  match goal with |- by_calls (Cleanup _ ?ids) =>
    change (by_calls (on_river (river_InsertMany (Easy.cleanup_batch ids)) : GoM W error)) end.
  apply (by_call _ (call_insert_many _)). cbn. repeat constructor; set_solver.
Defined.

(** The handlers and what they return. *)
Inductive operation : Type :=
  | OpWebhook (req : Raw) | OpJob (a : JobArgs) | OpUngate (u : UngateArgs) | OpCleanup (c : CleanupArgs)
  | OpReservation | OpPodDeleted (obj : deleted).
Definition op_result (o : operation) : Type :=
  match o with OpWebhook _ => Response Raw | OpPodDeleted _ => unit | _ => error end.

(** The code of a handler. *)
Definition op_code (o : operation) : GoM W (op_result o) :=
  match o with
  | OpWebhook req => Handle (Q:=Q) (J:=J) (Raw:=Raw) req
  | OpJob a => Work Q a
  | OpUngate u => ungate_Work Q u
  | OpCleanup c => cleanup_Work c
  | OpReservation => reservation_Work
  | OpPodDeleted obj => pod_DeleteFunc the_queue obj
  end.

(** A worker is started on a task in river; the others at any time. *)
Definition op_enabled (o : operation) (w : W) : Prop :=
  let runs a := exists opts, mkParams a opts ∈ river_tasks (w_river w) in
  match o with
  | OpJob a => runs (AJob a)
  | OpUngate u => runs (AUngate u)
  | OpCleanup c => runs (ACleanup c)
  | OpReservation => runs AReservation
  | OpWebhook _ | OpPodDeleted _ => True
  end.

Lemma op_calls (o : operation) : by_calls (op_code o).
Proof.
  destruct o; [apply Handle_calls|apply Work_calls|apply ungate_Work_calls|apply cleanup_Work_calls
    |apply reservation_Work_calls|apply pod_DeleteFunc_calls].
Defined.

(** The tree of a handler, call for call, with the branches of its code. *)
Definition op_tree (o : operation) : prog (op_result o) := proj1_sig (op_calls o).

Lemma op_tree_code o : implements (op_tree o) (op_code o).
Proof. exact (proj1 (proj2_sig (op_calls o))). Qed.
Lemma op_tree_ok o : prog_ok (op_tree o).
Proof. exact (proj2 (proj2_sig (op_calls o))). Qed.
End Handlers.
Arguments operation : clear implicits.
