(* ===== verification/Concurrent.v ===== *)
(** * The concurrent system

    The goroutines of the queue and all other components in one machine, at
    the granularity of single calls: any number of calls of [Enqueue] and
    [Schedule] and any number of handlers (admissions, worker runs, pod
    deletions) are under way, each takes one call to the database, river, the
    API server or Fluxion at a time, and others change the world between them.
    For the queue the handlers are an environment that leaves its table and its
    mutex alone, so what [Interleaving] and [Refinement] show of the queue holds
    of the system. *)

From Stdlib Require Import Ascii.
From stdpp Require Import base option strings gmap numbers list relations.
From S2P Require Import Prelude GoStrings Json Api Kube Database World Mem Strategy Queue Interleaving Refinement.
From S2P Require Import Allocation JobWorker UngateWorker CancelWorkers Controller Jobspec Webhook Scheduler Pipeline Calls.

Section Concurrent.
Context {Q J Raw C K F R : Type}.
Context `{!DbConn C, !DbLaws C, !RiverClient R, !RiverView R, !RiverLaws R}.
Context `{!PodClient Q K, !FluxJobClient K, !FluxionClient F, !Quantity Q, !JobspecLib J, !Codec Q Raw}.
Abbreviation W := (World C K F R).
Implicit Types w : World C K F R.
Abbreviation pending w := (pending_queue (w_db w)).
Abbreviation tasks w := (river_tasks (w_river w)).

(** A handler under way, and what is left of it. *)
Inductive hthread : Type :=
  | HThread A (p : prog (C:=C) (K:=K) (F:=F) (R:=R) A).
Arguments HThread {A} p.

(** The goroutines of the queue with the world, and the handlers. *)
Record system := mkSystem { sys_queue : pool (C:=C) (K:=K) (F:=F) (R:=R); sys_handlers : list hthread }.
Implicit Types s : system.
Abbreviation sys_world s := (p_world (sys_queue s)).

(** The world of a pool changes to [w']. *)
Definition set_world (q : pool (C:=C) (K:=K) (F:=F) (R:=R)) w' : pool :=
  mkPool (p_threads q) w' (p_handed q ++ newly_handed (p_world q) w').

(** The controller calls [Enqueue] with a FluxJob the webhook made, and
    [Schedule]; a handler begins as the tree of its calls, and each of its
    calls is made in the world as it is then. *)
Inductive system_step s : system -> Prop :=
  | system_thread i t t' w' :
      p_threads (sys_queue s) !! i = Some t -> advance t (sys_world s) = Some (t', w') ->
      system_step s (mkSystem (mkPool (<[i := t']> (p_threads (sys_queue s))) w'
                                 (p_handed (sys_queue s) ++ newly_handed (sys_world s) w')) (sys_handlers s))
  | system_enqueue spec :
      from_webhook spec ->
      system_step s (mkSystem (mkPool (p_threads (sys_queue s) ++ [EnqueuePool spec]) (sys_world s) (p_handed (sys_queue s)))
                              (sys_handlers s))
  | system_schedule :
      system_step s (mkSystem (mkPool (p_threads (sys_queue s) ++ [ScheduleCheck]) (sys_world s) (p_handed (sys_queue s)))
                              (sys_handlers s))
  | system_begin (o : operation Raw) :
      op_enabled o (sys_world s) ->
      system_step s (mkSystem (sys_queue s) (sys_handlers s ++ [HThread (op_tree (Q:=Q) (J:=J) o)]))
  | system_call i A X (m : GoM W X) (c : service_call X m) (k : X -> prog A) x w' :
      sys_handlers s !! i = Some (HThread (Call m c k)) -> m (sys_world s) = (Ret x, w') ->
      system_step s (mkSystem (set_world (sys_queue s) w') (<[i := HThread (k x)]> (sys_handlers s)))
  | system_environment w' :
      w_db w' = w_db (sys_world s) -> w_river w' = w_river (sys_world s) -> w_locked w' = w_locked (sys_world s) ->
      system_step s (mkSystem (set_world (sys_queue s) w') (sys_handlers s)).

(** A handler that is not interrupted makes the calls of its tree: it is the
    handler of the component. *)
Inductive alone_call : forall A, prog A * W -> prog A * W -> Prop :=
  | alone_one A X (m : GoM W X) (c : service_call X m) (k : X -> prog A) w x w' :
      m w = (Ret x, w') -> alone_call A (Call m c k, w) (k x, w').
Lemma handler_alone {A} (m : GoM W A) (p : prog A) w a w' :
  implements p m -> m w = (Ret a, w') -> rtc (alone_call A) (p, w) (Done a, w').
Proof.
  intros Hp Hm. specialize (Hp w). rewrite Hm in Hp. clear m Hm. revert w Hp.
  induction p as [b|why|X m H k IH]; intros w; cbn [run_prog]; [intros [= -> ->]; apply rtc_refl|done|].
  intros (x & w1 & H1 & H2)%bind_ret_inv. eapply rtc_l; [by econstructor|by apply IH].
Qed.

(** What is left of a handler makes only calls that the queue can bear. *)
Definition handler_ok (h : hthread) : Prop := match h with HThread p => prog_ok p end.
Definition handlers_ok s : Prop := Forall handler_ok (sys_handlers s).

Lemma handler_next s i A X (m : GoM W X) (c : service_call X m) (k : X -> prog A) :
  handlers_ok s -> sys_handlers s !! i = Some (HThread (Call m c k)) -> call_ok c /\ forall x, handler_ok (HThread (k x)).
Proof. intros Hs Hi. exact (Forall_lookup_1 _ _ _ _ Hs Hi). Qed.

Lemma system_handlers s s' : system_step s s' -> handlers_ok s -> handlers_ok s'.
Proof.
  intros [i t t' w' Hi Ha|spec _| |o _|i A X m c k x w' Hi Hrun|w' Hd Hr Hl] Hs; try exact Hs; unfold handlers_ok; cbn.
  - apply Forall_app. split; [done|]. apply Forall_singleton, op_tree_ok.
  - apply Forall_insert; [done|]. by eapply handler_next.
Qed.

(** To the queue, the handlers are the environment. *)
Lemma system_pool s s' : handlers_ok s -> system_step s s' -> pool_step (sys_queue s) (sys_queue s') \/ sys_queue s' = sys_queue s.
Proof.
  intros Hs [i t t' w' Hi Ha|spec _| |o _|i A X m c k x w' Hi Hrun|w' Hd Hr Hl]; cbn.
  - left. by eapply pool_thread.
  - left. apply pool_enqueue.
  - left. apply pool_schedule.
  - by right.
  - left. apply (handler_next _ _ _ _ _ _ _ Hs) in Hi as [Hc _].
    destruct (service_call_frames X m c (sys_world s) Hc) as (y & v & new & Hv & Hp & Hlk & Ht & _).
    rewrite Hrun in Hv. injection Hv as _ <-. by eapply pool_environment.
  - left. eapply (pool_environment _ _ []); [by rewrite Hd|by rewrite Hr, app_nil_r|done].
Qed.
Lemma systems_pools s s' :
  handlers_ok s -> rtc system_step s s' -> rtc pool_step (sys_queue s) (sys_queue s') /\ handlers_ok s'.
Proof.
  intros Hok H. revert Hok. induction H as [s|s s1 s2 Hs _ IH]; intros Hok; [by split|].
  destruct (IH (system_handlers _ _ Hs Hok)) as [Hp Hok2]. split; [|done].
  apply system_pool in Hs as [Hs|Hs]; [by eapply rtc_l|by rewrite <- Hs|done].
Qed.

(** C1. The system refines an at-least-once queue: whatever the goroutines that
    submit and schedule, the webhook, the workers and the event handlers do, in
    whatever order their single calls take effect and whichever of them fail,
    there is a run of the abstract queue, in which a submission is one step and
    a row stops waiting only after it was delivered, that answers every call as
    the program did, has exactly the rows of the pending table waiting, and has
    delivered what was handed to river.  Handlers may be under way at the
    start, as what is left of one that leaves the pending table alone. *)
Theorem system_refines_queue s0 s :
  quiet (sys_queue s0) -> handlers_ok s0 -> rtc system_step s0 s ->
  exists a, rtc aq_step (aq_start (sys_world s0)) a /\ represents (sys_queue s) a.
Proof. intros Hq Hok [Hs _]%systems_pools; [|done]. by apply pool_refines_queue. Qed.

(** C2. An acknowledged submission is not lost: when [Enqueue] was called for a
    FluxJob and has answered success, then at every later moment, whatever the
    other goroutines and components did, a row of the FluxJob is in the
    pending table or was handed over in a task that is in river. *)
Theorem acknowledged_not_lost s0 s1 s2 i spec :
  quiet (sys_queue s0) -> handlers_ok s0 -> rtc system_step s0 s1 -> p_threads (sys_queue s1) !! i = Some (EnqueuePool spec) ->
  rtc system_step s1 s2 -> p_threads (sys_queue s2) !! i = Some (Returned (EnqueueResult JobEnqueueSuccess None)) ->
  exists now, pending_row spec now ∈ pending (sys_world s2) \/
    exists p, p ∈ tasks (sys_world s2) /\ carries (pending_row spec now) p.
Proof.
  intros Hq Hok [H1 Hok1]%systems_pools Hi H2; [|done]. apply systems_pools in H2 as [H2 _]; [|done].
  by eapply acknowledged_secure.
Qed.

(** ** Tasks and rows *)

(** What a thread is about to write is well-formed. *)
Definition thread_ok (t : pc) : Prop :=
  match t with
  | EnqueuePool spec | EnqueueCheck spec | EnqueueInsert spec => from_webhook spec
  | ScheduleInsert batch => Forall task_ok batch
  | _ => True
  end.

Lemma next_delete_ok batch : thread_ok (next_delete batch).
Proof. destruct batch as [|p rest]; [done|]. cbn. by destruct (im_Args p). Qed.

Lemma pending_row_ok spec now : from_webhook spec -> row_ok (pending_row spec now).
Proof. intros [Hres Hty]. unfold row_ok, pending_row. cbn. by rewrite Hres. Qed.

Lemma clearReservation_ok : task_ok clearReservationJob.
Proof. split; [set_solver|]. split; [set_solver|done]. Qed.

Lemma advance_ok t w t' w' :
  invariant w -> thread_ok t -> advance t w = Some (t', w') -> invariant w' /\ thread_ok t'.
Proof.
  intros Hw Ht Ha. destruct t; cbn [advance] in Ha; unfold atomic in Ha; try done.
  - rewrite on_conn_effect in Ha. destruct (pool_New (w_conn w)).1; injection Ha as <- <-; (split; [by apply (framed w)|done]).
  - unfold sql_query in Ha. destruct (db_fate _) as [[|e|e] c]; [destruct (Contains _ _)|..]; injection Ha as <- <-;
      (split; [by apply (framed w)|done]).
  - rewrite run_bind in Ha. cbn [gets] in Ha.
    match goal with H : context [sql_exec ?f w] |- _ => destruct (sql_exec_effect f w) as (e & w1 & He & (_ & _ & Hr & Hl) & Hd & _) end.
    rewrite He in Ha. assert (w1 = w' /\ thread_ok t') as [-> Hok] by (destruct e; by injection Ha as <- <-).
    split; [|done]. destruct Hd as [Hd|Hd]; [by eapply (framed w); rewrite ?Hd, ?Hr|].
    destruct Hw as [H1 H2 H3]. split; [by eapply InsertIntoPending_unique| |by rewrite Hr].
    apply InsertIntoPending_inv in Hd as (_ & -> & _). intros r [?|Hp%list_elem_of_singleton]%elem_of_app; [auto|].
    subst r. by apply pending_row_ok.
  - cbn in Ha. injection Ha as <- <-. by destruct (IsInScheduleLoop w).
  - destruct (w_locked w); [done|]. injection Ha as <- <-. split; [|done]. by destruct Hw as [H1 H2 H3].
  - rewrite Easy_Schedule_eq in Ha. destruct (db_fate _) as [[|e|e] c]; injection Ha as <- <-;
      [|split; [by apply (framed w)|done]..]. split; [by apply (framed w)|]. cbn [fst snd].
    destruct (0 <? _)%Z; [|done]. cbn. apply Forall_fmap, Forall_forall. intros r Hr. rewrite db_order_perm in Hr.
    by apply row_task_ok, (inv_rows w Hw).
  - unfold on_river in Ha. cbn in Ht.
    assert (Hall : Forall task_ok (batch ++ [clearReservationJob])).
    { apply Forall_app. split; [done|]. constructor; [apply clearReservation_ok|done]. }
    destruct (river_InsertMany _ (w_river w)) as [[e|] r] eqn:Ei; injection Ha as <- <-;
      (split; [|try done; apply next_delete_ok]).
    + apply insert_many_err in Ei as [Ei|Ei]; [by apply (framed w)|by eapply (invariant_app w)].
    + apply insert_many_ok in Ei. by eapply (invariant_app w).
  - rewrite on_conn_effect in Ha. destruct (pool_New (w_conn w)).1; injection Ha as <- <-;
      (split; [by apply (framed w)|try done; apply next_delete_ok]).
  - match goal with H : context [sql_exec ?f w] |- _ => destruct (sql_exec_effect f w) as (e & w1 & He & (_ & _ & Hr & Hl) & Hd & _) end.
    rewrite He in Ha. injection Ha as <- <-. split; [|apply next_delete_ok].
    destruct Hd as [Hd|[= Hd]]; [by eapply (framed w); rewrite ?Hd, ?Hr|]. symmetry in Hd. destruct Hw as [H1 H2 H3].
    split; [rewrite Hd; by apply DeleteFromPending_unique| |by rewrite Hr].
    intros r. rewrite Hd, DeleteFromPending_elem. intros [_ ?]. auto.
  - injection Ha as <- <-. done.
  - injection Ha as <- <-. split; [|done]. by destruct Hw as [H1 H2 H3].
Qed.

(** The rows, the tasks and the threads are well-formed. *)
Definition system_ok s : Prop :=
  invariant (sys_world s) /\ Forall thread_ok (p_threads (sys_queue s)) /\ handlers_ok s.

Lemma system_threads_ok s s' :
  system_step s s' -> system_ok s -> invariant (sys_world s') /\ Forall thread_ok (p_threads (sys_queue s')).
Proof.
  intros [i t t' w' Hi Ha|spec Hs| |o _|i A X m c k x w' Hi Hrun|w' Hd Hr Hl] (Hw & Ht & Hh); split; cbn; try done.
  - by eapply advance_ok; [exact Hw|exact (Forall_lookup_1 _ _ _ _ Ht Hi)|exact Ha].
  - apply Forall_insert; [done|]. by eapply advance_ok; [exact Hw|exact (Forall_lookup_1 _ _ _ _ Ht Hi)|exact Ha].
  - apply Forall_app. by split; [|constructor].
  - apply Forall_app. by split; [|constructor].
  - apply (handler_next _ _ _ _ _ _ _ Hh) in Hi as [Hc _].
    destruct (service_call_frames X m c (sys_world s) Hc) as (y & v & new & Hv & Hp & _ & Hr & Hok).
    rewrite Hrun in Hv. injection Hv as _ <-. by eapply invariant_app.
  - by apply (framed (sys_world s)); rewrite ?Hd, ?Hr.
Qed.
Lemma system_step_ok s s' : system_step s s' -> system_ok s -> system_ok s'.
Proof.
  intros Hstep Hs. destruct (system_threads_ok s s' Hstep Hs) as [Hw Ht]. split; [done|]. split; [done|].
  eapply system_handlers; [exact Hstep|apply Hs].
Qed.
Lemma systems_ok s s' : rtc system_step s s' -> system_ok s -> system_ok s'.
Proof. induction 1; eauto using system_step_ok. Qed.

(** C4. In every state the concurrent system can reach from an empty queue,
    whatever the order of the single calls of goroutines, admissions,
    worker runs, pod deletions and of changes by others, and whatever fails on
    the way: no two pending rows share a name and namespace, every task in river
    has a registered worker, a queue that is served, and a wrapped type that
    its worker knows, and at most one goroutine is between taking the lock of
    the queue and releasing it.  Handlers start as the trees of their own code
    ([op_tree]); what they insert is not assumed but follows from that code. *)
Theorem system_tasks_served s0 s :
  p_threads (sys_queue s0) = [] -> p_handed (sys_queue s0) = [] -> sys_handlers s0 = [] -> fresh (sys_world s0) ->
  rtc system_step s0 s ->
  pending_unique (w_db (sys_world s)) /\
  (forall p, p ∈ tasks (sys_world s) ->
     (exists kinds, Easy.AddWorkers (C:=C) (K:=K) (F:=F) (R:=R) [] (sys_world s) = (Ret (kinds, None), sys_world s) /\
        Kind (im_Args p) ∈ kinds) /\
     io_Queue (im_Opts p) ∈ (fst <$> river_queues) /\ args_ok (im_Args p)) /\
  (forall i j t t', p_threads (sys_queue s) !! i = Some t -> p_threads (sys_queue s) !! j = Some t' ->
     critical t = true -> critical t' = true -> i = j /\ w_locked (sys_world s) = true).
Proof.
  intros Ht Hh Hn Hf Hs. assert (Hhs : handlers_ok s0) by (unfold handlers_ok; by rewrite Hn).
  assert (Hok : system_ok s0) by (split; [by apply fresh_invariant|split; [by rewrite Ht|done]]).
  destruct (systems_ok _ _ Hs Hok) as [[H1 _ H3] _]. split; [done|]. split.
  - intros p Hp. destruct (H3 p Hp) as (Hk & Hq & Ha). split; [|done].
    exists worker_kinds. split; [vm_compute; reflexivity|done].
  - assert (Hq : quiet (sys_queue s0)) by (split; [done|]; split; [done|]; by apply inv_unique, fresh_invariant).
    assert (Hg : good (sys_queue s)) by by eapply pools_good, quiet_good; [apply (systems_pools _ _ Hhs Hs)|].
    intros i j t t' Hi Hj Hc Hc'. split; [by eapply good_exclusive|by eapply good_lock].
Qed.
End Concurrent.

(** ** A run *)

Arguments HThread {C K F R _ _ A} p.

Section Runs.
Context {Q J Raw C K F R : Type}.
Context `{!DbConn C, !DbLaws C, !RiverClient R, !RiverView R, !RiverLaws R}.
Context `{!PodClient Q K, !FluxJobClient K, !FluxionClient F, !Quantity Q, !JobspecLib J, !Codec Q Raw}.
Implicit Types s : system (C:=C) (K:=K) (F:=F) (R:=R).

(** A goroutine of the queue moves, or handler [i] makes its next call. *)
Inductive smove := QueueMove (m : move) | HandlerCall (i : nat).

Definition apply_smove (m : smove) s : option system :=
  match m with
  | QueueMove m => q ← apply_move m (sys_queue s); Some (mkSystem q (sys_handlers s))
  | HandlerCall i =>
      match sys_handlers s !! i with
      | Some (HThread (Call m _ k)) =>
          match m (p_world (sys_queue s)) with
          | (Ret x, w') => Some (mkSystem (set_world (sys_queue s) w') (<[i := HThread (k x)]> (sys_handlers s)))
          | _ => None
          end
      | _ => None
      end
  end.
Fixpoint apply_smoves (ms : list smove) s : option system :=
  match ms with [] => Some s | m :: ms => s' ← apply_smove m s; apply_smoves ms s' end.

(** What runs in the examples. *)
Definition run_to (ms : list smove) s : system := default s (apply_smoves ms s).
Definition runs (ms : list smove) s : bool := match apply_smoves ms s with Some _ => true | None => false end.

Definition smove_ok (m : smove) : Prop := match m with QueueMove (BeginEnqueue spec) => from_webhook spec | _ => True end.

Lemma apply_smove_step m s s' :
  smove_ok m -> apply_smove m s = Some s' -> system_step (Q:=Q) (J:=J) (Raw:=Raw) s s'.
Proof.
  destruct m as [[i|spec|]|i]; cbn; intros Hok.
  - destruct (p_threads (sys_queue s) !! i) as [t|] eqn:Et; [|done]. cbn.
    destruct (advance t (p_world (sys_queue s))) as [[t' w']|] eqn:Ea; [|done]. intros [= <-]. by eapply system_thread.
  - intros [= <-]. by apply system_enqueue.
  - intros [= <-]. apply system_schedule.
  - destruct (sys_handlers s !! i) as [[A [a|why|X m c k]]|] eqn:Eh; try done.
    destruct (m (p_world (sys_queue s))) as [[x|why] w'] eqn:Em; [|done]. intros [= <-].
    by eapply (system_call _ i A X m c k).
Qed.
Lemma run_to_steps ms : forall s, Forall smove_ok ms -> runs ms s = true -> rtc (system_step (Q:=Q) (J:=J) (Raw:=Raw)) s (run_to ms s).
Proof.
  unfold runs, run_to. induction ms as [|m ms IH]; intros s Hok; cbn; [intros _; apply rtc_refl|]. inversion Hok; subst.
  destruct (apply_smove m s) as [s1|] eqn:E; [|done]. cbn. intros H.
  eapply rtc_l; [by eapply apply_smove_step|]. specialize (IH s1). destruct (apply_smoves ms s1); [|done]. by apply IH.
Qed.
End Runs.

(** A FluxJob is submitted and handed over; while the cycle deletes its row,
    the job worker runs its task, call by call. *)
Definition idle : system (C:=UpConn) (K:=MemKube Z) (F:=MemFluxion) (R:=MemRiver) :=
  mkSystem (mkPool [] (set_fluxion start_world (mkMemFluxion [(grant, None)] [])) []) [].
Definition at_submit : system := run_to [QueueMove (BeginEnqueue fresh_job)] idle.
Definition handover : list smove :=
  QueueMove <$> ([Thread 0; Thread 0; Thread 0; BeginSchedule] ++ replicate 4 (Thread 1)).
Definition handed_over : system := run_to handover at_submit.
Definition worker_begins : system :=
  mkSystem (sys_queue handed_over) (sys_handlers handed_over ++ [HThread (op_tree (Q:=Z) (J:=SimpleJobspec) (Raw:=MemRaw) (OpJob fresh_task))]).
Definition together : list smove :=
  [HandlerCall 0; QueueMove (Thread 1); HandlerCall 0; QueueMove (Thread 1); HandlerCall 0; QueueMove (Thread 1); QueueMove (Thread 1)].
Definition cycle_over : system := run_to together worker_begins.

Lemma fresh_job_webhook : from_webhook fresh_job.
Proof. split; [done|]. by left. Qed.

Abbreviation sys := (system_step (Q:=Z) (J:=SimpleJobspec) (Raw:=MemRaw)).
Lemma idle_submit : rtc sys idle at_submit.
Proof. apply run_to_steps; [repeat constructor; apply fresh_job_webhook|reflexivity]. Qed.
Lemma submit_over : rtc sys at_submit cycle_over.
Proof.
  transitivity handed_over; [|transitivity worker_begins].
  - apply run_to_steps; [repeat constructor|vm_compute; reflexivity].
  - apply rtc_once, (system_begin _ (OpJob fresh_task)). exists Easy.schedule_opts. vm_compute. apply list_elem_of_here.
  - apply run_to_steps; [repeat constructor|vm_compute; reflexivity].
Qed.

Lemma idle_quiet : quiet (sys_queue idle).
Proof. split; [done|]. split; [done|]. apply NoDup_nil_2. Qed.

(** At the end the row is gone, its task and the ungate task are in river. *)
Example cycle_over_state :
  pending_queue (w_db (p_world (sys_queue cycle_over))) = [] /\
  p_handed (sys_queue cycle_over) = [pending_row fresh_job 100] /\
  (fun p => Kind (im_Args p)) <$> river_tasks (w_river (p_world (sys_queue cycle_over))) = ["job"; "reservation"; "ungate"].
Proof. vm_compute. auto. Qed.

Lemma system_refines_queue_witness :
  exists a, rtc aq_step (aq_start (p_world (sys_queue idle))) a /\ represents (sys_queue cycle_over) a.
Proof.
  apply (system_refines_queue (Q:=Z) (J:=SimpleJobspec) (Raw:=MemRaw) idle cycle_over idle_quiet (Forall_nil_2 _)).
  transitivity at_submit; [exact idle_submit|exact submit_over].
Defined.

Lemma acknowledged_not_lost_witness :
  exists now, pending_row fresh_job now ∈ pending_queue (w_db (p_world (sys_queue cycle_over))) \/
    exists p, p ∈ river_tasks (w_river (p_world (sys_queue cycle_over))) /\ carries (pending_row fresh_job now) p.
Proof.
  apply (acknowledged_not_lost (Q:=Z) (J:=SimpleJobspec) (Raw:=MemRaw) idle at_submit cycle_over 0 fresh_job idle_quiet (Forall_nil_2 _));
    [exact idle_submit|reflexivity|exact submit_over|vm_compute; reflexivity].
Defined.

Lemma system_tasks_served_witness :
  pending_unique (w_db (p_world (sys_queue cycle_over))) /\
  io_Queue (im_Opts (mkParams (AJob fresh_task) Easy.schedule_opts)) ∈ (fst <$> river_queues).
Proof.
  assert (Hf : fresh (p_world (sys_queue idle))) by (split; reflexivity).
  assert (Hr : rtc sys idle cycle_over) by (transitivity at_submit; [exact idle_submit|exact submit_over]).
  destruct (system_tasks_served (Q:=Z) (J:=SimpleJobspec) (Raw:=MemRaw) idle cycle_over eq_refl eq_refl eq_refl Hf Hr) as (Hu & H & _).
  split; [exact Hu|]. refine (proj1 (proj2 (H (mkParams (AJob fresh_task) Easy.schedule_opts) _))).
  vm_compute. apply list_elem_of_here.
Defined.
