(* ===== verification/Progress.v ===== *)
(** * Progress: a pending job reaches a node

    Runs of the whole system as infinite sequences of steps of its components.
    Nothing in the program makes a cycle, a task or a Fluxion answer happen;
    when river and the controller eventually run what they were given, and the
    runs succeed, a job that waits is placed: from the pending table over the
    job task and the ungate task to a pod that the scheduler plugin lets run. *)

From Stdlib Require Import Ascii.
From stdpp Require Import base option strings gmap numbers list relations.
From S2P Require Import Prelude GoStrings Json Api Kube Database World Mem Strategy Queue Allocation.
From S2P Require Import JobWorker UngateWorker CancelWorkers Controller Jobspec Webhook Scheduler Pipeline.

Section Hands.
Context {Q J Raw C K F R : Type}.
Context `{!DbConn C, !DbLaws C, !RiverClient R, !RiverView R, !RiverLaws R}.
Context `{!PodClient Q K, !FluxJobClient K, !FluxionClient F, !Quantity Q, !JobspecLib J, !Codec Q Raw}.
Abbreviation W := (World C K F R).
Implicit Types w : World C K F R.
Abbreviation pending w := (pending_queue (w_db w)).
Abbreviation tasks w := (river_tasks (w_river w)).

(** Between [w] and [w'] a task was inserted. *)
Definition inserted w w' (p : InsertManyParams) : Prop := exists new, tasks w' = tasks w ++ new /\ p ∈ new.

(** Between [w] and [w'] the row was handed to river. *)
Definition hands w w' (r : PendingRow) : Prop := exists p, inserted w w' p /\ carries r p.

(** A cycle takes a row only by handing it over. *)
Lemma Schedule_hands w o w' r : Schedule the_queue w = (o, w') -> r ∈ pending w -> r ∈ pending w' \/ hands w w' r.
Proof.
  intros H Hr. destruct (Schedule_conserved the_queue w) as (e & w1 & Hs & (new & Ht & _ & Hp & _) & _).
  rewrite Hs in H. injection H as _ <-. destruct (Hp r Hr) as [?|(p & Hin & Hc)]; [auto|].
  right. exists p. split; [by exists new|done].
Qed.

(** A cycle that reports success has handed every row over. *)
Lemma Schedule_success w w' r :
  w_locked w = false -> Schedule the_queue w = (Ret None, w') -> r ∈ pending w -> hands w w' r.
Proof.
  intros Hl H Hr. unfold Schedule in H. rewrite run_bind in H. cbn [gets] in H. unfold IsInScheduleLoop in H.
  rewrite Hl in H. unfold with_lock in H. destruct (schedule_cycle the_queue (set_locked w true)) as [o w1] eqn:Ec.
  injection H as -> <-. unfold schedule_cycle in Ec. rewrite run_bind in Ec.
  cbn [q_Strategy q_ReservationDepth the_queue Easy.EasyBackfill qs_Schedule qs_PostSubmit] in Ec.
  rewrite Easy_Schedule_eq in Ec. destruct (db_fate _) as [[|e|e] c]; [|done|done]. cbn [w_conn set_locked w_db] in Ec.
  set (rows := db_order (w_conn w) (pending w)) in *.
  assert (Hin : r ∈ rows) by (unfold rows; by rewrite db_order_perm).
  destruct (Z.ltb_spec 0 (Z.of_nat (length (row_task <$> rows)))) as [_|Hlen].
  2:{ rewrite length_fmap in Hlen. destruct rows; [by apply elem_of_nil in Hin|]. simpl in Hlen. lia. }
  apply bind_ret_inv in Ec as (e & w2 & H2 & H3). destruct e as [e|]; [done|].
  unfold on_river in H2. destruct (river_InsertMany _ _) as [e r2] eqn:Ei. injection H2 as -> <-.
  apply insert_many_ok in Ei. apply bind_ret_inv in H3 as (u & w3 & H3 & H4). injection H4 as <-.
  assert (Hb : Forall2 carries rows (row_task <$> rows)).
  { apply Forall2_fmap_r, Forall_Forall2_diag, Forall_forall. intros x _. apply row_task_carries. }
  match type of H3 with delete_batch _ ?x = _ => destruct (delete_batch_effect rows _ x Hb) as (w4 & H5 & (_ & _ & Hr4 & _) & _) end.
  rewrite H5 in H3. injection H3 as _ <-. exists (row_task r). split; [|apply row_task_carries].
  eexists. split; [cbn; rewrite Hr4; exact Ei|]. apply elem_of_app. left. by apply list_elem_of_fmap_2.
Qed.

(** The tables and tasks after a reconciliation that enqueues. *)
Lemma Reconcile_enqueues ns n w spec k1 o w' :
  fluxjob_Get ns n (w_kube w) = ((spec, None), k1) -> fj_Status spec <> SubmitStatusSubmit ->
  Reconcile the_queue ns n w = (o, w') ->
  exists st e w1, Enqueue spec (set_kube w k1) = (Ret (st, e), w1) /\
    match e with
    | Some _ => pending w' = pending w1 /\ tasks w' = tasks w1
    | None => pending w' = pending (Schedule the_queue w1).2 /\ tasks w' = tasks (Schedule the_queue w1).2
    end.
Proof.
  intros Hg Hs H. unfold Reconcile in H. rewrite run_bind, on_kube_eq, Hg in H. cbn [fst snd] in H.
  rewrite bool_decide_eq_false_2 in H by done. rewrite run_bind in H. unfold submitJob in H. rewrite run_bind in H.
  destruct (Enqueue_effect spec (set_kube w k1)) as (st & e & w1 & He & _). rewrite He in H. exists st, e, w1.
  split; [done|]. destruct e as [e|].
  - cbn [mret GoM_ret] in H. rewrite run_bind, updateStatus_run in H. case_bool_decide; by injection H as _ <-.
  - rewrite run_bind in H. destruct (Schedule_conserved the_queue w1) as (e & w2 & Hw2 & _). rewrite Hw2 in *.
    cbn [mret GoM_ret] in H. rewrite run_bind, updateStatus_run in H. case_bool_decide; by injection H as _ <-.
Qed.

Lemma Enqueue_keeps spec w st e w1 r :
  Enqueue spec w = (Ret (st, e), w1) -> r ∈ pending w -> r ∈ pending w1 /\ tasks w1 = tasks w.
Proof.
  intros H Hr. destruct (Enqueue_effect spec w) as (st' & e' & w' & He & (_ & _ & Hrv & _) & _ & Hd & _).
  rewrite He in H. injection H as _ _ <-. split; [|by rewrite Hrv]. destruct Hd as [->|[now Hi]]; [done|].
  apply InsertIntoPending_inv in Hi as (_ & -> & _). set_solver.
Qed.

(** A reconciliation leaves the queue alone, or enqueues and runs a cycle. *)
Lemma Reconcile_cases ns n w o w' :
  Reconcile the_queue ns n w = (o, w') ->
  (pending w' = pending w /\ tasks w' = tasks w) \/
  exists spec k1 st e w1, Enqueue spec (set_kube w k1) = (Ret (st, e), w1) /\
    match e with
    | Some _ => pending w' = pending w1 /\ tasks w' = tasks w1
    | None => pending w' = pending (Schedule the_queue w1).2 /\ tasks w' = tasks (Schedule the_queue w1).2
    end.
Proof.
  intros H. destruct (fluxjob_Get ns n (w_kube w)) as [[spec [e|]] k1] eqn:E.
  { left. unfold Reconcile in H. rewrite run_bind, on_kube_eq, E in H. cbn [fst snd] in H.
    destruct (IsNotFound e); by injection H as _ <-. }
  destruct (decide (fj_Status spec = SubmitStatusSubmit)) as [Hst|Hst].
  { left. unfold Reconcile in H. rewrite run_bind, on_kube_eq, E in H. cbn [fst snd] in H.
    rewrite bool_decide_eq_true_2 in H by done. rewrite run_bind, on_kube_eq in H. by injection H as _ <-. }
  right. destruct (Reconcile_enqueues ns n w spec k1 o w' E Hst H) as (st & e & w1 & H1 & H2). by exists spec, k1, st, e, w1.
Qed.

(** No component loses a row. *)
Lemma step_hands w w' r : step (Q:=Q) (J:=J) (Raw:=Raw) w w' -> r ∈ pending w -> r ∈ pending w' \/ hands w w' r.
Proof.
  intros [w1 (Hp & _)%handler_frames|ns n o w1 _ H] Hr; [left; by rewrite Hp|].
  apply Reconcile_cases in H as [[Hp _]|(spec & k1 & st & e & w2 & He & Hcase)]; [left; by rewrite Hp|].
  apply (Enqueue_keeps _ _ _ _ _ r) in He as [Hr1 Ht1]; [|done].
  destruct e as [e|]; destruct Hcase as [Hp Ht]; [left; by rewrite Hp|].
  destruct (Schedule the_queue w2) as [o2 w3] eqn:Es. cbn [snd] in *.
  destruct (Schedule_hands w2 o2 w3 r Es Hr1) as [?|(p & (new & Hn & Hin) & Hc)]; [left; by rewrite Hp|].
  right. exists p. split; [|done]. exists new. split; [|done]. by rewrite Ht, Hn, Ht1.
Qed.

(** Tasks are only added. *)
Lemma step_tasks w w' : step (Q:=Q) (J:=J) (Raw:=Raw) w w' -> exists new, tasks w' = tasks w ++ new.
Proof.
  intros [w1 (_ & _ & Ht)%handler_frames|ns n o w1 _ H]; [done|].
  apply Reconcile_cases in H as [[_ Ht]|(spec & k1 & st & e & w2 & He & Hcase)]; [exists []; by rewrite app_nil_r|].
  destruct (Enqueue_effect spec (set_kube w k1)) as (st' & e' & w2' & He' & (_ & _ & Hr & _) & _).
  rewrite He in He'. injection He' as _ _ <-. cbn in Hr. destruct e as [e|]; destruct Hcase as [_ Ht].
  - exists []. by rewrite Ht, Hr, app_nil_r.
  - destruct (Schedule_conserved the_queue w2) as (e3 & w3 & Es & (new & Hn & _) & _). rewrite Es in Ht. cbn [snd] in Ht.
    exists new. by rewrite Ht, Hn, Hr.
Qed.
End Hands.

(** ** Executions *)

Section Executions.
Context {Q J Raw C K F R : Type}.
Context `{!DbConn C, !DbLaws C, !RiverClient R, !RiverView R, !RiverLaws R}.
Context `{!PodClient Q K, !PodView Q K, !PodLaws Q K, !FluxJobClient K, !FluxionClient F, !Quantity Q, !JobspecLib J, !Codec Q Raw}.
Abbreviation W := (World C K F R).
Implicit Types w : World C K F R.
Abbreviation pending w := (pending_queue (w_db w)).
Abbreviation pods w := (kube_pods (Q:=Q) (w_kube w)).

(** A run of the system. *)
Definition execution (run : nat -> W) : Prop := forall n, step (Q:=Q) (J:=J) (Raw:=Raw) (run n) (run (S n)).

(** A FluxJob is reconciled, enqueued, and the cycle after it succeeds. *)
Definition cycle_succeeds w w' : Prop :=
  exists ns n spec k1 st w1 w2 o, fluxjob_Get ns n (w_kube w) = ((spec, None), k1) /\ fj_Status spec <> SubmitStatusSubmit /\
    Enqueue spec (set_kube w k1) = (Ret (st, None), w1) /\ w_locked w1 = false /\
    Schedule the_queue w1 = (Ret None, w2) /\ Reconcile the_queue ns n w = (o, w').

Lemma cycle_succeeds_by ns n w :
  let g := fluxjob_Get ns n (w_kube w) in
  let e := Enqueue g.1.1 (set_kube w g.2) in
  let s := Schedule the_queue e.2 in
  g.1.2 = None -> fj_Status g.1.1 <> SubmitStatusSubmit -> e.1 = Ret (JobEnqueueSuccess, None) -> w_locked e.2 = false ->
  s.1 = Ret None -> cycle_succeeds w (Reconcile the_queue ns n w).2.
Proof.
  intros g e s Hg Hst He Hl Hs. exists ns, n, g.1.1, g.2, JobEnqueueSuccess, e.2, s.2, (Reconcile the_queue ns n w).1.
  split; [rewrite <- Hg; unfold g; by rewrite <- !surjective_pairing|]. split; [done|].
  split; [rewrite <- He; apply surjective_pairing|]. split; [done|].
  split; [rewrite <- Hs; apply surjective_pairing|apply surjective_pairing].
Qed.

(** A job task runs and Fluxion allocates nodes for it under an id. *)
Definition allocates (a : JobArgs) (nodes : list string) (id : Z) w w' : Prop :=
  exists resp f o, answers w a resp f /\ mr_Reserved resp = false /\ mr_Allocation resp <> "" /\
    parseNodes (mr_Allocation resp) = (nodes, None) /\ mr_Jobid resp = id /\ Work Q a w = (o, w').
Definition job_allocated (a : JobArgs) w w' : Prop :=
  exists nodes id, allocates a nodes id w w' /\ nodes <> [] /\ Forall (fun n => node_name n = true) nodes /\ in_range 64 id.

(** What the controller and river give the job of row [r]: while it waits, some
    later cycle succeeds; its job task is run until Fluxion allocates; its
    ungate task is run until it succeeds. *)
Record served (run : nat -> W) (r : PendingRow) : Prop := {
  served_cycle n : r ∈ pending (run n) -> exists m, n <= m /\ cycle_succeeds (run m) (run (S m));
  served_job n a opts : inserted (run n) (run (S n)) (mkParams (AJob a) opts) -> carries r (mkParams (AJob a) opts) ->
    exists m, n < m /\ job_allocated a (run m) (run (S m));
  served_ungate n u opts : inserted (run n) (run (S n)) (mkParams (AUngate u) opts) ->
    ua_Name u = pr_name r -> ua_Namespace u = pr_namespace r ->
    exists m, n < m /\ ungate_Work Q u (run m) = (Ret None, run (S m))
}.

(** River takes the ungate tasks: the worker drops the error of an insertion
    that fails. *)
Hypothesis river_up : forall a o (r : R), (river_Insert a o r).1 = None.

Context (run : nat -> W) (r : PendingRow).
Hypothesis Hrun : execution run.
Hypothesis Hserved : served run r.

(** Until it is handed over, a row waits. *)
Lemma waits n k :
  r ∈ pending (run n) -> r ∈ pending (run (n + k)) \/ exists i, n <= i < n + k /\ hands (run i) (run (S i)) r.
Proof.
  intros Hr. induction k as [|k [IH|(i & Hi & Hh)]].
  - rewrite Nat.add_0_r. auto.
  - rewrite Nat.add_succ_r. destruct (step_hands _ _ r (Hrun (n + k)) IH) as [?|Hh]; [auto|].
    right. exists (n + k). split; [lia|done].
  - right. exists i. split; [lia|done].
Qed.

Lemma cycle_hands w w' : cycle_succeeds w w' -> r ∈ pending w -> hands w w' r.
Proof.
  intros (ns & n & spec & k1 & st & w1 & w2 & o & Hg & Hst & He & Hl & Hs & Hrec) Hr.
  destruct (Reconcile_enqueues ns n w spec k1 o w' Hg Hst Hrec) as (st' & e & w1' & He' & Hcase).
  rewrite He in He'. injection He' as _ <- <-. rewrite Hs in Hcase. destruct Hcase as [_ Ht].
  destruct (Enqueue_keeps _ _ _ _ _ r He Hr) as [Hr1 Ht1].
  destruct (Schedule_success w1 w2 r Hl Hs Hr1) as (p & (new & Hn & Hin) & Hc).
  exists p. split; [|done]. exists new. split; [|done]. cbn [snd] in Ht. by rewrite Ht, Hn, Ht1.
Qed.

Lemma handed_eventually n : r ∈ pending (run n) -> exists m, n <= m /\ hands (run m) (run (S m)) r.
Proof.
  intros Hr. destruct (served_cycle _ _ Hserved n Hr) as (m & Hm & Hc).
  destruct (waits n (m - n) Hr) as [Hp|(i & Hi & Hh)]; [|exists i; split; [lia|done]].
  replace (n + (m - n)) with m in Hp by lia. exists m. split; [done|]. by apply cycle_hands.
Qed.

(** The job task of a gated kind ends in an ungate task for the same object. *)
Lemma job_inserts_ungate a nodes id w w' :
  gated_type a -> allocates a nodes id w w' -> inserted w w' (ungate_task a nodes id).
Proof.
  intros Hg (resp & f & o & Ha & Hr & Hne & Hp & <- & Hw). rewrite (Work_answered _ _ _ _ Ha) in Hw. unfold impossible in Hw.
  rewrite (bool_decide_eq_false_2 _ Hne), andb_false_r, Hr, run_bind in Hw. cbn in Hw. rewrite Hp in Hw.
  rewrite releaseJob_gated in Hw by done. injection Hw as _ <-. exists [ungate_task a nodes (mr_Jobid resp)].
  split; [|apply list_elem_of_here]. cbn. pose proof (river_up (im_Args (ungate_task a nodes (mr_Jobid resp)))
    (im_Opts (ungate_task a nodes (mr_Jobid resp))) (w_river w)) as Hu.
  destruct (river_Insert _ _ (w_river w)) as [e r2] eqn:Ei. cbn in Hu. subst e. by apply insert_ok in Ei.
Qed.

(** From the hand-over to an allocation and a successful run of the ungate
    worker with the nodes and the id of that allocation. *)
Lemma ungated_after n :
  hands (run n) (run (S n)) r -> pr_type r <> JobWrappedJob -> known_type (pr_type r) ->
  exists m1 m a opts nodes id, n < m1 < m /\ carries r (mkParams (AJob a) opts) /\ allocates a nodes id (run m1) (run (S m1)) /\
    nodes <> [] /\ Forall (fun x => node_name x = true) nodes /\ in_range 64 id /\
    ungate_Work Q (mkUngateArgs (pr_name r) (Itoa (pr_type r)) (pr_namespace r) nodes id) (run m) = (Ret None, run (S m)).
Proof.
  intros ([args opts] & Hins & Hc) Hj Hk. pose proof Hc as (a & Ha & Hn & Hns & _ & Ht). cbn in Ha. subst args.
  destruct (served_job _ _ Hserved n a opts Hins Hc) as (m2 & Hm2 & nodes & id & Hal & Hne & Hnn & Hid).
  assert (Hg : gated_type a).
  { unfold gated_type. rewrite Ht. unfold JobWrapped_String. destruct Hk as [E|[E|[E|[E|E]]]]; rewrite E; auto. by destruct (Hj E). }
  pose proof (job_inserts_ungate a nodes id _ _ Hg Hal) as Hins2.
  destruct (served_ungate _ _ Hserved m2 _ _ Hins2 Hn Hns) as (m3 & Hm3 & Hu).
  rewrite Hn, Hns, Ht in Hu. exists m2, m3, a, opts, nodes, id. split; [lia|]. done.
Qed.

(** The same from the pending table. *)
Lemma ungated_eventually n :
  r ∈ pending (run n) -> pr_type r <> JobWrappedJob -> known_type (pr_type r) ->
  exists m1 m a opts nodes id, n < m1 < m /\ carries r (mkParams (AJob a) opts) /\ allocates a nodes id (run m1) (run (S m1)) /\
    nodes <> [] /\ Forall (fun x => node_name x = true) nodes /\ in_range 64 id /\
    ungate_Work Q (mkUngateArgs (pr_name r) (Itoa (pr_type r)) (pr_namespace r) nodes id) (run m) = (Ret None, run (S m)).
Proof.
  intros Hr Hj Hk. destruct (handed_eventually n Hr) as (m0 & Hm0 & Hh).
  destruct (ungated_after m0 Hh Hj Hk) as (m1 & m & a & opts & nodes & id & Hm & H). exists m1, m, a, opts, nodes, id.
  split; [lia|exact H].
Qed.

(** Progress: a pod that waits in the pending table is placed.  In every run of
    the system in which some later scheduling cycle succeeds and river runs the
    tasks of the job until Fluxion allocates nodes and the ungate succeeds, the
    pod is at some later time stored with the labels of an allocation and one
    gate less, and the scheduler plugin then lets it run on the first allocated
    node; whatever the other components and the environment do in between. *)
Theorem pending_pod_placed n :
  r ∈ pending (run n) -> pr_type r = JobWrappedPod ->
  exists m node nodes id p p', n < m /\
    pods (run m) !! (pr_namespace r, pr_name r) = Some p /\
    pods (run (S m)) !! (pr_namespace r, pr_name r) = Some p' /\
    relabelled (node_members (Join "__" (node :: nodes)) id) p p' /\
    (unindexed p -> PreFilter (p_meta p') = Ret (Some [node], mkStatus Success "Fluxion scheduler assigned node")).
Proof.
  intros Hr Ht. destruct (ungated_eventually n Hr) as (m1 & m & a & opts & nodes & id & Hm & Hc & Hal & Hne & Hnn & Hid & Hu);
    [by rewrite Ht|rewrite Ht; by left|]. destruct nodes as [|node nodes]; [done|].
  apply ungate_pod_run in Hu as (_ & p & p' & Hp & Hrel & Hpods); [|by rewrite Ht|by apply node_name_plain].
  cbn [ua_Namespace ua_Name ua_Nodes ua_JobID] in *. exists m, node, nodes, id, p, p'. split; [lia|]. split; [done|].
  split; [by rewrite Hpods, lookup_insert_eq|]. split; [done|]. intros Hi.
  by eapply (relabelled_lands (node :: nodes)); [| |exact Hi|exact Hrel].
Qed.

(** Progress for deployments, replica sets and stateful sets: under the same
    conditions there is a later time at which every pod of the object that was
    still gated is stored with a node of its own position in the allocation,
    and the scheduler plugin lets it run there and nowhere else. *)
Theorem pending_group_placed n kind :
  r ∈ pending (run n) -> workload_kind (Itoa (pr_type r)) = Some kind -> known_type (pr_type r) ->
  label_text (pr_name r) = true -> label_text (pr_namespace r) = true ->
  exists m u ps, n < m /\ ua_Name u = pr_name r /\ ua_Namespace u = pr_namespace r /\ ua_Nodes u <> [] /\
    group_ungated u kind (run m) (run (S m)) ps /\
    forall j (p : Pod Q), ps !! j = Some p -> is_gated p = true -> unindexed p ->
      exists node p', ua_Nodes u !! j = Some node /\ pods (run (S m)) !! (pr_namespace r, om_Name (p_meta p)) = Some p' /\
        PreFilter (p_meta p') = Ret (Some [node], mkStatus Success "Fluxion scheduler assigned node").
Proof.
  intros Hr Hk Hkt Hln Hlns. destruct (ungated_eventually n Hr) as (m1 & m & a & opts & nodes & id & Hm & Hc & Hal & Hne & Hnn & Hid & Hu);
    [intros E; by rewrite E in Hk|done|].
  set (u := mkUngateArgs _ _ _ _ _) in *.
  apply (ungate_group_run u kind) in Hu as (_ & ps & Hps); [|done|done|done|by apply node_name_plain].
  exists m, u, ps. split; [lia|]. split; [done|]. split; [done|]. split; [done|]. split; [done|].
  intros j p Hj Hg Hi. destruct Hps as (_ & _ & _ & Hps & _). specialize (Hps j p Hj). rewrite Hg in Hps.
  destruct Hps as (node & p' & Hnode & Hrel & Hin). exists node, p'. split; [done|]. split; [done|].
  eapply (relabelled_lands [node]); [|done|exact Hi|exact Hrel].
  constructor; [|done]. exact (Forall_lookup_1 _ _ _ _ Hnn Hnode).
Qed.
End Executions.

(** ** Two runs *)

(** The pod [app-0], or the deployment [app] of two pods, waits; then another
    FluxJob is reconciled. *)
Definition waiting (group : bool) : PendingRow :=
  if group then mkPending "spec" "default" "app-deployment" "app" 2 0 0 10 2
  else mkPending "spec" "default" "app-0-pod" "app-0" 0 0 0 10 2.

Definition demo_start (group : bool) : MemoryWorld :=
  mkWorld (mkUpConn 100) (mkDatabase [waiting group] [])
    (mkMemKube (mk_pods (w_kube gated_pair)) ∅ {[ ("default", "fresh-pod") := fresh_job ]})
    (mkMemFluxion [(grant, None)] []) [] false.
Definition demo_job (group : bool) : JobArgs := Easy.job_args (to_JobModel (waiting group)).
Definition demo_ungate (group : bool) : UngateArgs :=
  mkUngateArgs (pr_name (waiting group)) (Itoa (pr_type (waiting group))) "default" ["kind-worker"; "kind-worker2"] 7.

(** After the ungate the pod [app-0] is deleted and its job cancelled. *)
Definition demo_deleted (w : MemoryWorld) : ObjectMeta :=
  default (mkMeta "" "" None) (p_meta <$> kube_pods (Q:=Z) (w_kube w) !! ("default", "app-0")).
Definition demo_cleanup : CleanupArgs := mkCleanupArgs 7 "".

Definition demo (group : bool) (n : nat) : MemoryWorld :=
  let w1 := (Reconcile the_queue "default" "fresh-pod" (demo_start group)).2 in
  let w2 := (Work Z (demo_job group) w1).2 in
  let w3 := (ungate_Work Z (demo_ungate group) w2).2 in
  let w4 := (pod_DeleteFunc the_queue (DeletedPod (demo_deleted w3)) w3).2 in
  match n with
  | 0 => demo_start group
  | 1 => w1
  | 2 => w2
  | 3 => w3
  | 4 => w4
  | _ => (cleanup_Work demo_cleanup w4).2
  end.

Lemma demo_execution group : execution (Q:=Z) (J:=SimpleJobspec) (Raw:=MemRaw) (demo group).
Proof.
  intros [|[|[|[|[|n]]]]].
  - apply (step_reconcile _ "default" "fresh-pod" (Reconcile the_queue "default" "fresh-pod" (demo group 0)).1);
      [|apply surjective_pairing].
    intros spec k1 H. assert (E : (fluxjob_Get "default" "fresh-pod" (w_kube (demo group 0))).1.1 = fresh_job)
      by (destruct group; vm_compute; reflexivity).
    rewrite H in E. cbn in E. subst spec. split; [done|by left].
  - apply step_handler, (handler_job _ (demo_job group) Easy.schedule_opts (Work Z (demo_job group) (demo group 1)).1);
      [|apply surjective_pairing].
    destruct group; vm_compute; apply list_elem_of_further, list_elem_of_here.
  - apply step_handler, (handler_ungate _ (demo_ungate group) (mkInsertOpts 0 ["ungate"] "task_queue") (ungate_Work Z (demo_ungate group) (demo group 2)).1);
      [|apply surjective_pairing].
    destruct group; vm_compute; do 3 apply list_elem_of_further; apply list_elem_of_here.
  - apply step_handler, (handler_pod_deleted _ (DeletedPod (demo_deleted (demo group 3)))
             (pod_DeleteFunc the_queue (DeletedPod (demo_deleted (demo group 3))) (demo group 3)).1), surjective_pairing.
  - apply step_handler, (handler_cleanup _ demo_cleanup Easy.cleanup_opts (cleanup_Work demo_cleanup (demo group 4)).1); [|apply surjective_pairing].
    destruct group; vm_compute; do 4 apply list_elem_of_further; apply list_elem_of_here.
  - by apply step_handler, handler_environment.
Qed.

(** The tasks each step inserts. *)
Definition demo_new (group : bool) (n : nat) : list InsertManyParams :=
  match n with
  | 0 => [mkParams (AJob fresh_task) Easy.schedule_opts; mkParams (AJob (demo_job group)) Easy.schedule_opts; clearReservationJob]
  | 1 => [mkParams (AUngate (demo_ungate group)) (mkInsertOpts 0 ["ungate"] "task_queue")]
  | 3 => [mkParams (ACleanup demo_cleanup) Easy.cleanup_opts]
  | _ => []
  end.
Lemma demo_inserted group n p : inserted (demo group n) (demo group (S n)) p -> p ∈ demo_new group n.
Proof.
  intros (new & H & Hp). assert (E : new = demo_new group n); [|by subst].
  assert (E : river_tasks (w_river (demo group (S n))) = river_tasks (w_river (demo group n)) ++ demo_new group n).
  { destruct n as [|[|[|[|[|n]]]]]; destruct group; vm_compute; reflexivity. }
  rewrite E in H. by apply app_inv_head in H.
Qed.

(** Each kind of task is inserted in one step only. *)
Lemma demo_inserted_job group n a opts :
  inserted (demo group n) (demo group (S n)) (mkParams (AJob a) opts) -> ja_Name a = pr_name (waiting group) -> n = 0 /\ a = demo_job group.
Proof.
  intros Hi%demo_inserted Hn. destruct n as [|[|[|[|n]]]]; cbn [demo_new] in Hi; try (by apply elem_of_nil in Hi);
    try (by apply list_elem_of_singleton in Hi).
  split; [done|]. apply elem_of_cons in Hi as [Hi|Hi]; [injection Hi as -> _; destruct group; vm_compute in Hn; discriminate|].
  apply elem_of_cons in Hi as [Hi|Hi]; [by injection Hi|]. by apply list_elem_of_singleton in Hi.
Qed.
Lemma demo_inserted_ungate group n u opts :
  inserted (demo group n) (demo group (S n)) (mkParams (AUngate u) opts) -> n = 1 /\ u = demo_ungate group.
Proof.
  intros Hi%demo_inserted. destruct n as [|[|[|[|n]]]]; cbn [demo_new] in Hi; try (by apply elem_of_nil in Hi).
  - repeat (apply elem_of_cons in Hi as [Hi|Hi]; [discriminate|]). by apply elem_of_nil in Hi.
  - apply list_elem_of_singleton in Hi. by injection Hi.
  - by apply list_elem_of_singleton in Hi.
Qed.
Lemma demo_inserted_cleanup group n c opts :
  inserted (demo group n) (demo group (S n)) (mkParams (ACleanup c) opts) -> n = 3 /\ c = demo_cleanup.
Proof.
  intros Hi%demo_inserted. destruct n as [|[|[|[|n]]]]; cbn [demo_new] in Hi; try (by apply elem_of_nil in Hi).
  - repeat (apply elem_of_cons in Hi as [Hi|Hi]; [discriminate|]). by apply elem_of_nil in Hi.
  - by apply list_elem_of_singleton in Hi.
  - apply list_elem_of_singleton in Hi. by injection Hi.
Qed.

Lemma demo_served group : served (Q:=Z) (demo group) (waiting group).
Proof.
  split.
  - intros [|[|[|[|[|n]]]]] Hr; [|destruct group; vm_compute in Hr; by apply elem_of_nil in Hr..].
    exists 0. split; [done|].
    apply (cycle_succeeds_by "default" "fresh-pod"); destruct group; vm_compute; (reflexivity || discriminate).
  - intros n a opts Hi (a' & [= <-] & Hn & _). apply demo_inserted_job in Hi as [-> ->]; [|done].
    exists 1. split; [lia|]. exists ["kind-worker"; "kind-worker2"], 7%Z.
    split; [|split; [done|]; split; [repeat constructor|unfold in_range; lia]].
    exists grant, (mkMemFluxion [] []), (Work Z (demo_job group) (demo group 1)).1.
    split; [destruct group; eexists; split; vm_compute; reflexivity|]. split; [done|]. split; [vm_compute; discriminate|].
    split; [vm_compute; reflexivity|]. split; [vm_compute; reflexivity|]. apply surjective_pairing.
  - intros n u opts [-> ->]%demo_inserted_ungate _ _. exists 2. split; [lia|]. destruct group; vm_compute; reflexivity.
Qed.

Lemma pending_pod_placed_witness :
  exists m node p p', kube_pods (Q:=Z) (w_kube (demo false m)) !! ("default", "app-0") = Some p /\
    kube_pods (Q:=Z) (w_kube (demo false (S m))) !! ("default", "app-0") = Some p' /\
    (unindexed p -> PreFilter (p_meta p') = Ret (Some [node], mkStatus Success "Fluxion scheduler assigned node")).
Proof.
  assert (Hup : forall a o (r : MemRiver), (river_Insert a o r).1 = None) by reflexivity.
  destruct (pending_pod_placed (Q:=Z) Hup (demo false) (waiting false) (demo_execution false) (demo_served false) 0)
    as (m & node & nodes & id & p & p' & _ & Hp & Hp' & _ & Hpre); [apply list_elem_of_here|reflexivity|].
  exists m, node, p, p'. split; [exact Hp|]. split; [exact Hp'|exact Hpre].
Defined.

Lemma pending_group_placed_witness :
  exists m u (ps : list (Pod Z)), ua_Name u = "app" /\ ua_Nodes u <> [] /\
    group_ungated u "deployment" (demo true m) (demo true (S m)) ps.
Proof.
  assert (Hup : forall a o (r : MemRiver), (river_Insert a o r).1 = None) by reflexivity.
  destruct (pending_group_placed (Q:=Z) Hup (demo true) (waiting true) (demo_execution true) (demo_served true) 0 "deployment")
    as (m & u & ps & _ & Hn & _ & Hne & Hg & _);
    [apply list_elem_of_here|reflexivity|right; right; left; reflexivity|reflexivity|reflexivity|].
  exists m, u, ps. split; [exact Hn|]. split; [exact Hne|exact Hg].
Defined.

(** The second run ends with its two pods on the two nodes. *)
Example demo_placed :
  let node name := (fun p => PreFilter (p_meta p)) <$> kube_pods (Q:=Z) (w_kube (demo true 3)) !! ("default", name) in
  node "app-0" = Some (Ret (Some ["kind-worker2"], mkStatus Success "Fluxion scheduler assigned node")) /\
  node "app-1" = Some (Ret (Some ["kind-worker"], mkStatus Success "Fluxion scheduler assigned node")).
Proof. vm_compute. auto. Qed.
