(* ===== verification/Lifecycle.v ===== *)
(** * The life of an allocation: from the grant to the cancel

    The run of [Progress] continued to the end of a job: the nodes that Fluxion
    grants under an id are those a pod is placed on, and when such a pod is
    deleted the cancel that reaches Fluxion is of exactly that id.  For the
    pods of a deployment, replica set or stateful set the same holds for each
    of them, so that the first deletion gives the nodes of all back. *)

From Stdlib Require Import Ascii.
From stdpp Require Import base option strings gmap numbers list relations.
From S2P Require Import Prelude GoStrings Json Api Kube Database World Mem Strategy Queue Allocation.
From S2P Require Import JobWorker UngateWorker CancelWorkers Controller Jobspec Webhook Scheduler Pipeline Progress.

Section Lifecycle.
Context {Q J Raw C K F R : Type}.
Context `{!DbConn C, !DbLaws C, !RiverClient R, !RiverView R, !RiverLaws R}.
Context `{!PodClient Q K, !PodView Q K, !PodLaws Q K, !FluxJobClient K, !FluxionClient F, !Quantity Q, !JobspecLib J, !Codec Q Raw}.
Abbreviation W := (World C K F R).
Implicit Types w : World C K F R.
Abbreviation pending w := (pending_queue (w_db w)).
Abbreviation pods w := (kube_pods (Q:=Q) (w_kube w)).

(** Between [w] and [w'] Fluxion is asked to cancel [id] and does. *)
Definition cancels (id : Z) w w' : Prop :=
  exists f1, fluxion_NewClient (w_fluxion w) = (None, f1) /\ fluxion_Cancel id f1 = (None, w_fluxion w').

(** The informer reports the deletion of a pod with the job id label [id]. *)
Definition deleted_with (id : Z) w w' : Prop :=
  exists meta, label_get meta FluxJobIdLabel = Some (Itoa id) /\
    (pod_DeleteFunc the_queue (DeletedPod meta) w).2 = w'.

(** A run of the cleanup worker that reports no error has cancelled the job. *)
Lemma cleanup_success c w w' :
  (0 <= ca_FluxID c)%Z -> cleanup_Work c w = (Ret None, w') -> cancels (ca_FluxID c) w w'.
Proof.
  intros Hid H. unfold cleanup_Work, worker_Cleanup in H. destruct (Z.ltb_spec (-1) (ca_FluxID c)); [|lia].
  apply bind_ret_inv in H as (e & w1 & H1 & H). rewrite on_fluxion_eq in H1. injection H1 as <- <-.
  destruct (fluxion_NewClient (w_fluxion w)) as [[e|] f1] eqn:E1; [done|]. cbn [fst snd] in H.
  apply bind_ret_inv in H as (e & w2 & H2 & H). rewrite on_fluxion_eq in H2. injection H2 as <- <-.
  cbn [w_fluxion set_fluxion] in H. exists f1. split; [done|].
  destruct (fluxion_Cancel (ca_FluxID c) f1) as [[e|] f2]; [done|]. by injection H as <-.
Qed.

(** River takes what it is given, and runs every cleanup task until it
    succeeds. *)
Hypothesis river_up : forall a o (r : R), (river_Insert a o r).1 = None.
Hypothesis river_many_up : forall b (r : R), (river_InsertMany b r).1 = None.

Context (run : nat -> W).
Definition reaped : Prop := forall n c opts,
  inserted (run n) (run (S n)) (mkParams (ACleanup c) opts) ->
  exists m, n < m /\ cleanup_Work c (run m) = (Ret None, run (S m)).
Hypothesis Hreaped : reaped.

(** A deleted pod is cancelled. *)
Lemma deletion_cancels k id :
  (0 <= id)%Z -> in_range 64 id -> deleted_with id (run k) (run (S k)) ->
  exists j, k < j /\ cancels id (run j) (run (S j)).
Proof.
  intros H0 Hid (meta & Hl & Hd). unfold pod_DeleteFunc in Hd. rewrite Hl, ParseInt_Itoa_gen in Hd by done.
  change (Cleanup the_queue [id]) with (on_river (river_InsertMany (Easy.cleanup_batch [id])) : GoM W error) in Hd.
  rewrite run_bind, on_river_eq in Hd. cbn in Hd. pose proof (river_many_up (Easy.cleanup_batch [id]) (w_river (run k))) as Hu.
  destruct (Hreaped k (mkCleanupArgs id "") Easy.cleanup_opts) as (j & Hj & Hw).
  { exists (Easy.cleanup_batch [id]). split; [|apply list_elem_of_here]. rewrite <- Hd. cbn.
    destruct (river_InsertMany _ _) as [e r2] eqn:Ei. cbn in Hu. subst e. by apply insert_many_ok in Ei. }
  exists j. split; [done|]. by apply (cleanup_success (mkCleanupArgs id "")).
Qed.

Context (r : PendingRow).
Hypothesis Hrun : execution (Q:=Q) (J:=J) (Raw:=Raw) run.
Hypothesis Hserved : served (Q:=Q) run r.

(** After step [n] the pod of row [r] is granted nodes, stored with them, may
    run on the first of them only, and its deletion cancels the grant. *)
Definition pod_lives (n : nat) : Prop :=
  exists m1 m a opts node nodes id p p', n < m1 < m /\
    carries r (mkParams (AJob a) opts) /\ allocates (Q:=Q) a (node :: nodes) id (run m1) (run (S m1)) /\
    pods (run m) !! (pr_namespace r, pr_name r) = Some p /\
    pods (run (S m)) !! (pr_namespace r, pr_name r) = Some p' /\
    (unindexed p -> PreFilter (p_meta p') = Ret (Some [node], mkStatus Success "Fluxion scheduler assigned node")) /\
    label_get (p_meta p') FluxJobIdLabel = Some (Itoa id) /\
    ((0 <= id)%Z -> forall k, deleted_with id (run k) (run (S k)) -> exists j, k < j /\ cancels id (run j) (run (S j))).

(** After step [n] the gated pods of the object of row [r] are each stored with
    the node of its position in one grant, and the deletion of any of them
    cancels it. *)
Definition group_lives (n : nat) (kind : string) : Prop :=
  exists m1 m a opts nodes id ps, n < m1 < m /\
    carries r (mkParams (AJob a) opts) /\ allocates (Q:=Q) a nodes id (run m1) (run (S m1)) /\
    (forall j (p : Pod Q), ps !! j = Some p -> is_gated p = true ->
       exists node p', nodes !! j = Some node /\ pods (run (S m)) !! (pr_namespace r, om_Name (p_meta p)) = Some p' /\
         label_get (p_meta p') FluxJobIdLabel = Some (Itoa id) /\
         (unindexed p -> PreFilter (p_meta p') = Ret (Some [node], mkStatus Success "Fluxion scheduler assigned node"))) /\
    group_ungated (mkUngateArgs (pr_name r) (Itoa (pr_type r)) (pr_namespace r) nodes id) kind (run m) (run (S m)) ps /\
    ((0 <= id)%Z -> forall k, deleted_with id (run k) (run (S k)) -> exists j, k < j /\ cancels id (run j) (run (S j))).

(** What happens after step [n] happens after every earlier one. *)
Lemma pod_lives_le k n : k <= n -> pod_lives n -> pod_lives k.
Proof.
  intros Hk (m1 & m & a & opts & node & nodes & id & p & p' & Hm & H). exists m1, m, a, opts, node, nodes, id, p, p'.
  split; [lia|exact H].
Qed.
Lemma group_lives_le k n kind : k <= n -> group_lives n kind -> group_lives k kind.
Proof.
  intros Hk (m1 & m & a & opts & nodes & id & ps & Hm & H). exists m1, m, a, opts, nodes, id, ps. split; [lia|exact H].
Qed.

(** From the hand-over of a row on. *)
Lemma pod_after n : hands (run n) (run (S n)) r -> pr_type r = JobWrappedPod -> pod_lives n.
Proof.
  intros Hh Ht.
  destruct (ungated_after river_up run r Hserved n Hh) as (m1 & m & a & opts & nodes & id & Hm & Hc & Hal & Hne & Hnn & Hid & Hu);
    [by rewrite Ht|rewrite Ht; by left|]. destruct nodes as [|node nodes]; [done|].
  apply ungate_pod_run in Hu as (_ & p & p' & Hp & Hrel & Hpods); [|by rewrite Ht|by apply node_name_plain].
  cbn [ua_Namespace ua_Name ua_Nodes ua_JobID] in *. exists m1, m, a, opts, node, nodes, id, p, p'.
  do 4 (split; [done|]). split; [by rewrite Hpods, lookup_insert_eq|].
  split; [intros Hi; by eapply (relabelled_lands (node :: nodes)); [| |exact Hi|exact Hrel]|].
  split; [by apply relabelled_node in Hrel as (_ & _ & _ & Hl & _)|]. intros H0 k. by apply deletion_cancels.
Qed.

Lemma group_after n kind :
  hands (run n) (run (S n)) r -> workload_kind (Itoa (pr_type r)) = Some kind -> known_type (pr_type r) ->
  label_text (pr_name r) = true -> label_text (pr_namespace r) = true -> group_lives n kind.
Proof.
  intros Hh Hk Hkt Hln Hlns.
  destruct (ungated_after river_up run r Hserved n Hh) as (m1 & m & a & opts & nodes & id & Hm & Hc & Hal & Hne & Hnn & Hid & Hu);
    [intros E; by rewrite E in Hk|done|].
  apply (ungate_group_run _ kind) in Hu as (_ & ps & Hps); [|done|done|done|by apply node_name_plain].
  exists m1, m, a, opts, nodes, id, ps. do 3 (split; [done|]). split.
  - intros j p Hj Hg. destruct Hps as (_ & _ & _ & Hps & _). specialize (Hps j p Hj). rewrite Hg in Hps.
    destruct Hps as (node & p' & Hnode & Hrel & Hin). exists node, p'. split; [done|]. split; [done|].
    split; [by apply relabelled_node in Hrel as (_ & _ & _ & Hl & _)|]. intros Hi.
    eapply (relabelled_lands [node]); [|done|exact Hi|exact Hrel]. constructor; [|done]. exact (Forall_lookup_1 _ _ _ _ Hnn Hnode).
  - split; [done|]. intros H0 k. by apply deletion_cancels.
Qed.

(** The life of a pod: a pod that waits in the pending table is granted nodes
    by Fluxion under some id, is then stored with those nodes and that id, may
    run on the first of the nodes and nowhere else, and whenever a pod with
    that id is deleted later, Fluxion is asked to cancel exactly that id and
    does: no grant outlives its pod. *)
Theorem pod_lifecycle n : r ∈ pending (run n) -> pr_type r = JobWrappedPod -> pod_lives n.
Proof.
  intros Hr Ht. destruct (handed_eventually run r Hrun Hserved n Hr) as (m & Hm & Hh).
  apply (pod_lives_le _ m Hm), pod_after; done.
Qed.

(** The life of a group: the pods of a deployment, replica set or stateful set
    that were still gated are each stored with a node of its own position in
    the allocation, where alone it may run, and with the one id of the whole
    allocation; so the deletion of any one of them makes Fluxion give the nodes
    of all of them back, while the others still run there. *)
Theorem group_lifecycle n kind :
  r ∈ pending (run n) -> workload_kind (Itoa (pr_type r)) = Some kind -> known_type (pr_type r) ->
  label_text (pr_name r) = true -> label_text (pr_namespace r) = true -> group_lives n kind.
Proof.
  intros Hr Hk Hkt Hln Hlns. destruct (handed_eventually run r Hrun Hserved n Hr) as (m & Hm & Hh).
  apply (group_lives_le _ m _ Hm), group_after; done.
Qed.
End Lifecycle.

(** ** The runs of [Progress], to their end *)

Lemma demo_reaped group : reaped (demo group).
Proof.
  intros n c opts [-> ->]%demo_inserted_cleanup. exists 4. split; [lia|]. destruct group; vm_compute; reflexivity.
Qed.

(** Both runs delete the pod [app-0] in their fourth step. *)
Lemma demo_deletes group : deleted_with 7 (demo group 3) (demo group 4).
Proof. exists (demo_deleted (demo group 3)). split; [destruct group; vm_compute; reflexivity|reflexivity]. Qed.

Lemma pod_lifecycle_witness :
  exists m1 a node nodes id (p' : Pod Z), allocates (Q:=Z) a (node :: nodes) id (demo false m1) (demo false (S m1)) /\
    label_get (p_meta p') FluxJobIdLabel = Some (Itoa id) /\
    ((0 <= id)%Z -> deleted_with id (demo false 3) (demo false 4) ->
     exists j, 3 < j /\ cancels id (demo false j) (demo false (S j))).
Proof.
  assert (Hup : forall a o (r : MemRiver), (river_Insert a o r).1 = None) by reflexivity.
  assert (Hmany : forall b (r : MemRiver), (river_InsertMany b r).1 = None) by reflexivity.
  destruct (pod_lifecycle (Q:=Z) Hup Hmany (demo false) (demo_reaped false) (waiting false) (demo_execution false) (demo_served false) 0)
    as (m1 & m & a & opts & node & nodes & id & p & p' & _ & _ & Hal & _ & _ & _ & Hl & Hdel);
    [apply list_elem_of_here|reflexivity|].
  exists m1, a, node, nodes, id, p'. split; [exact Hal|]. split; [exact Hl|]. intros H0. apply Hdel. exact H0.
Defined.

Lemma group_lifecycle_witness :
  exists m1 a nodes id, allocates (Q:=Z) a nodes id (demo true m1) (demo true (S m1)) /\
    ((0 <= id)%Z -> deleted_with id (demo true 3) (demo true 4) ->
     exists j, 3 < j /\ cancels id (demo true j) (demo true (S j))).
Proof.
  assert (Hup : forall a o (r : MemRiver), (river_Insert a o r).1 = None) by reflexivity.
  assert (Hmany : forall b (r : MemRiver), (river_InsertMany b r).1 = None) by reflexivity.
  destruct (group_lifecycle (Q:=Z) Hup Hmany (demo true) (demo_reaped true) (waiting true) (demo_execution true) (demo_served true) 0 "deployment")
    as (m1 & m & a & opts & nodes & id & ps & _ & _ & Hal & _ & _ & Hdel);
    [apply list_elem_of_here|reflexivity|right; right; left; reflexivity|reflexivity|reflexivity|].
  exists m1, a, nodes, id. split; [exact Hal|]. intros H0. apply Hdel. exact H0.
Defined.

(** In the second run the other pod of the deployment still runs on its node
    when Fluxion has cancelled the job. *)
Example sibling_runs_on_cancelled_nodes :
  mf_cancelled (w_fluxion (demo true 5)) = [7%Z] /\
  (fun p => PreFilter (p_meta p)) <$> kube_pods (Q:=Z) (w_kube (demo true 5)) !! ("default", "app-1") =
    Some (Ret (Some ["kind-worker"], mkStatus Success "Fluxion scheduler assigned node")).
Proof. vm_compute. auto. Qed.
