(* ===== verification/Attempts.v ===== *)
(** * The attempts of river

    River runs a task until its worker returns nil or cancels it, and at most
    as many times as its options say; then it discards it.  That much of river
    is assumed here of a run of the system whose steps are such attempts, and
    the hypotheses of [Progress] and [Lifecycle] become consequences: what is
    left to assume is that Fluxion answers sensibly and that fewer attempts
    fail than river allows.  A last run shows what a discarded cancel leaves
    behind. *)

From Stdlib Require Import Ascii.
From stdpp Require Import base option strings gmap numbers list relations.
From S2P Require Import Prelude GoStrings Json Api Kube Database World Mem Strategy Queue Allocation.
From S2P Require Import JobWorker UngateWorker Retry CancelWorkers TaskErrors Controller Jobspec Webhook Scheduler Pipeline Progress Lifecycle.

(** An attempt that neither completes nor cancels its task: the worker returned
    another error, or panicked. *)
Definition fails (o : outcome error) : bool :=
  match o with Ret None | Ret (Some (ErrJobCancel _)) => false | _ => true end.

Section Attempts.
Context {Q J Raw C K F R : Type}.
Context `{!DbConn C, !DbLaws C, !RiverClient R, !RiverView R, !RiverLaws R}.
Context `{!PodClient Q K, !PodView Q K, !PodLaws Q K, !FluxJobClient K, !FluxionClient F, !Quantity Q, !JobspecLib J, !Codec Q Raw}.
Abbreviation W := (World C K F R).
Implicit Types w : World C K F R.
Implicit Types p : InsertManyParams.
Abbreviation pending w := (pending_queue (w_db w)).
Abbreviation pods w := (kube_pods (Q:=Q) (w_kube w)).
Abbreviation tasks w := (river_tasks (w_river w)).

(** What river allows when the options leave it open. *)
Context (default_attempts : nat).
Definition max_attempts p : nat :=
  if (io_MaxAttempts (im_Opts p) =? 0)%Z then default_attempts else Z.to_nat (io_MaxAttempts (im_Opts p)).

(** A run of the system, and the task, by its number in river, that the worker
    of a step runs. *)
Context (run : nat -> W) (runs : nat -> option nat).

Definition result p n : outcome error := (work Q (im_Args p) (run n)).1.

(** The attempts at task [i] before step [n]. *)
Definition attempts (i n : nat) : list nat := filter (fun k => runs k = Some i) (seq 0 n).

(** What river documents: it runs the tasks it has, none of them more often
    than its options allow, and it does not leave a task before an attempt that
    did not fail or the last one that is allowed. *)
Record works_off : Prop := {
  runs_task n i : runs n = Some i ->
    exists p, tasks (run n) !! i = Some p /\ (work Q (im_Args p) (run n)).2 = run (S n);
  at_most n i p : tasks (run n) !! i = Some p -> length (attempts i n) <= max_attempts p;
  every_task n i p : tasks (run n) !! i = Some p -> exists m, n <= m /\
    ((exists k, k ∈ attempts i m /\ fails (result p k) = false) \/ length (attempts i m) = max_attempts p)
}.

Hypothesis Hrun : execution (Q:=Q) (J:=J) (Raw:=Raw) run.
Hypothesis Hriver : works_off.

Lemma tasks_grow m n : m <= n -> exists new, tasks (run n) = tasks (run m) ++ new.
Proof.
  induction 1 as [|n Hn (new & IH)]; [exists []; by rewrite app_nil_r|].
  destruct (step_tasks _ _ (Hrun n)) as (more & H). exists (new ++ more). by rewrite H, IH, app_assoc.
Qed.
Lemma task_stays m n i p : m <= n -> tasks (run m) !! i = Some p -> tasks (run n) !! i = Some p.
Proof. intros (new & ->)%tasks_grow Hi. by apply lookup_app_l_Some. Qed.
Lemma task_same m n i p p' : tasks (run m) !! i = Some p -> tasks (run n) !! i = Some p' -> p = p'.
Proof.
  intros H H'. destruct (Nat.le_ge_cases m n) as [Hle|Hle].
  - eapply task_stays in H; [|exact Hle]. congruence.
  - eapply task_stays in H'; [|exact Hle]. congruence.
Qed.

Lemma attempts_elem i n k : k ∈ attempts i n <-> k < n /\ runs k = Some i.
Proof. unfold attempts. rewrite list_elem_of_filter, elem_of_seq. naive_solver lia. Qed.

(** An attempt that did not fail has completed the task, or cancelled it: then
    the task is that of a job that asked for a reservation and cannot be
    placed. *)
Lemma attempt_ends `{!OrdinaryErrors Q C K F} i p k n :
  tasks (run n) !! i = Some p -> runs k = Some i -> fails (result p k) = false ->
  work Q (im_Args p) (run k) = (Ret None, run (S k)) \/
  exists a resp f, im_Args p = AJob a /\ answers (run k) a resp f /\ impossible a resp = true.
Proof.
  intros Hp Hk Hf. destruct (runs_task Hriver k i Hk) as (p' & Hp' & Hw). rewrite (task_same _ _ _ _ _ Hp' Hp) in Hw.
  unfold result in Hf. destruct (work Q (im_Args p) (run k)) as [o w'] eqn:E. cbn in Hf, Hw. subst w'.
  destruct o as [[[x|x|x]|]|why]; try discriminate Hf; [|by left]. right.
  apply work_cancels in E as (a & resp & f & Ha & _ & Hans & Himp). by exists a, resp, f.
Qed.

(** Fewer attempts at the tasks [p] fail than river allows. *)
Definition survives p : Prop := forall i m n, tasks (run m) !! i = Some p ->
  length (attempts i n) = max_attempts p -> exists k, k ∈ attempts i n /\ fails (result p k) = false.

Lemma task_completes `{!OrdinaryErrors Q C K F} n p :
  inserted (run n) (run (S n)) p -> survives p -> args_ok (im_Args p) ->
  exists k, n < k /\ work Q (im_Args p) (run k) = (Ret None, run (S k)).
Proof.
  intros (new & Hnew & Hin) Hsurv Hok. apply list_elem_of_lookup in Hin as [j Hj].
  set (i := length (tasks (run n)) + j).
  assert (Hi : tasks (run (S n)) !! i = Some p).
  { rewrite Hnew. unfold i. by rewrite lookup_app_r, Nat.add_sub_swap, Nat.sub_diag by lia. }
  assert (Hafter : forall k, runs k = Some i -> n < k).
  { intros k Hk. destruct (runs_task Hriver k i Hk) as (p' & Hp' & _). apply lookup_lt_Some in Hp'.
    destruct (Nat.le_gt_cases k n) as [Hle|]; [|done]. apply tasks_grow in Hle as (more & Hmore).
    assert (length (tasks (run k)) <= length (tasks (run n))) by (rewrite Hmore, length_app; lia). lia. }
  destruct (every_task Hriver (S n) i p Hi) as (m & _ & Hend).
  assert (exists k, k ∈ attempts i m /\ fails (result p k) = false) as (k & [_ Hk]%attempts_elem & Hf).
  { destruct Hend as [?|Hlen]; [done|by eapply Hsurv]. }
  exists k. split; [by apply Hafter|]. destruct (attempt_ends i p k (S n) Hi Hk Hf) as [?|(a & resp & f & Ha & _ & Himp)]; [done|].
  rewrite Ha in Hok. destruct Hok as [Hres _]. unfold impossible in Himp. by rewrite Hres in Himp.
Qed.

(** ** The hypotheses of [Progress] and [Lifecycle] *)

(** A request without a reservation gets none, and an allocation names
    Kubernetes nodes. *)
Definition sensible : Prop := forall n a resp f, answers (run n) a resp f -> ja_Reservation a = 0%Z ->
  mr_Reserved resp = false /\ in_range 64 (mr_Jobid resp) /\
  forall nodes, mr_Allocation resp <> "" -> parseNodes (mr_Allocation resp) = (nodes, None) ->
    nodes <> [] /\ Forall (fun n => node_name n = true) nodes.

(** The job task or an ungate task of the job of row [r]. *)
Definition concerns (r : PendingRow) p : Prop :=
  carries r p \/ exists u, im_Args p = AUngate u /\ ua_Name u = pr_name r /\ ua_Namespace u = pr_namespace r.

(** What the job of row [r] needs: a later cycle that succeeds while it waits,
    sensible answers of Fluxion, and fewer failing attempts at its tasks than
    river allows. *)
Record supported (r : PendingRow) : Prop := {
  supported_cycle n : r ∈ pending (run n) -> exists m, n <= m /\ cycle_succeeds (run m) (run (S m));
  supported_fluxion : sensible;
  supported_tasks n p : p ∈ tasks (run n) -> concerns r p -> survives p
}.
Definition cleanups_survive : Prop := forall n p c, p ∈ tasks (run n) -> im_Args p = ACleanup c -> survives p.

Context `{!OrdinaryErrors Q C K F}.
Hypothesis Hinv : invariant (run 0).

Lemma run_invariant n : invariant (run n).
Proof. induction n as [|n IH]; [done|]. by eapply step_invariant; [apply Hrun|]. Qed.

Lemma inserted_in n p : inserted (run n) (run (S n)) p -> p ∈ tasks (run (S n)).
Proof. intros (new & -> & Hp). apply elem_of_app. by right. Qed.

(** An inserted task that survives is run to success. *)
Lemma inserted_completes n p :
  inserted (run n) (run (S n)) p -> survives p -> exists k, n < k /\ work Q (im_Args p) (run k) = (Ret None, run (S k)).
Proof. intros Hi Hs. apply task_completes; [done|done|]. by apply (run_invariant (S n)), inserted_in. Qed.

(** River serves every job that is supported. *)
Lemma river_serves r : supported r -> served (Q:=Q) run r.
Proof.
  intros [Hcycle Hflux Htasks]. split; [done|..].
  - intros n a opts Hi Hc. pose proof (inserted_in _ _ Hi) as Hp.
    destruct (inserted_completes n _ Hi) as (k & Hk & Hw); [by eapply Htasks; [|by left]|]. exists k. split; [done|].
    cbn in Hw. pose proof Hw as (resp & f & nodes & Ha & Hne & Hn)%Work_completed.
    destruct (inv_tasks _ (run_invariant (S n)) _ Hp) as (_ & _ & [Hres _]).
    destruct (Hflux k a resp f Ha Hres) as (Hrv & Hid & Hnodes). destruct (Hnodes nodes Hne Hn) as [Hnn Hnames].
    exists nodes, (mr_Jobid resp). split; [|done]. by exists resp, f, (Ret None).
  - intros n u opts Hi Hn Hns.
    apply (inserted_completes n _ Hi), (Htasks (S n)); [by apply inserted_in|]. right. by exists u.
Qed.

Lemma river_reaps : cleanups_survive -> reaped run.
Proof. intros Hs n c opts Hi. apply (inserted_completes n _ Hi), (Hs (S n) _ c); [by apply inserted_in|done]. Qed.

(** River takes what it is given. *)
Hypothesis river_up : forall a o (r : R), (river_Insert a o r).1 = None.
Hypothesis river_many_up : forall b (r : R), (river_InsertMany b r).1 = None.
Hypothesis Hcleanups : cleanups_survive.

(** The life of a pod under river's retries: a pod that waits in the pending
    table, for which some later cycle succeeds and fewer attempts fail than
    river allows, is granted nodes by Fluxion under some id, is then stored
    with those nodes and that id, may run on the first of the nodes and
    nowhere else, and whenever a pod with that id is deleted later, Fluxion is
    asked to cancel exactly that id and does: no grant outlives its pod. *)
Theorem pod_life r n :
  supported r -> r ∈ pending (run n) -> pr_type r = JobWrappedPod -> pod_lives (Q:=Q) run r n.
Proof.
  intros Hs. apply (pod_lifecycle river_up river_many_up run (river_reaps Hcleanups) r Hrun (river_serves r Hs)).
Qed.

(** The life of a group under river's retries: the pods of a deployment,
    replica set or stateful set that were still gated are each stored with a
    node of its own position in the allocation, where alone it may run, and
    with the one id of the whole allocation; so the deletion of any one of
    them makes Fluxion give the nodes of all of them back, while the others
    still run there. *)
Theorem group_life r n kind :
  supported r -> r ∈ pending (run n) -> workload_kind (Itoa (pr_type r)) = Some kind -> known_type (pr_type r) ->
  label_text (pr_name r) = true -> label_text (pr_namespace r) = true -> group_lives (Q:=Q) run r n kind.
Proof.
  intros Hs. apply (group_lifecycle river_up river_many_up run (river_reaps Hcleanups) r Hrun (river_serves r Hs)).
Qed.
End Attempts.

(** ** Runs *)

(** A Fluxion that cannot be reached for the next [of_down] attempts, and then
    gives its grants. *)
Record OutageFluxion := mkOutage { of_down : nat; of_grants : list MatchResponse; of_cancelled : list Z }.

#[export] Instance outage_fluxion : FluxionClient OutageFluxion := {
  fluxion_NewClient f :=
    match of_down f with
    | 0 => (None, f)
    | S n => (Some (Err "connection refused"), mkOutage n (of_grants f) (of_cancelled f))
    end;
  fluxion_Match _ f :=
    match of_grants f with
    | [] => ((refusal, None), f)
    | g :: rest => ((g, None), mkOutage (of_down f) rest (of_cancelled f))
    end;
  fluxion_Cancel id f := (None, mkOutage (of_down f) (of_grants f) (of_cancelled f ++ [id]))
}.

#[export] Instance outage_errors : OrdinaryErrors Z UpConn (MemKube Z) OutageFluxion.
Proof.
  split; try done.
  - intros c e [|]; done.
  - intros f. cbn. by destruct (of_down f).
  - intros q f. cbn. by destruct (of_grants f).
  - intros ns n k. cbn. by case_match.
  - intros ns n t b k. cbn. unfold mem_pods_Patch. repeat case_match; done.
  - intros ns n t b k. cbn. by case_match.
Qed.

Abbreviation OutageWorld := (World UpConn (MemKube Z) OutageFluxion MemRiver).

Abbreviation RunStep := (step (Q:=Z) (J:=SimpleJobspec) (Raw:=MemRaw)).

(** A step that runs task [i]. *)
Lemma work_step (w : OutageWorld) p i : river_tasks (w_river w) !! i = Some p -> RunStep w (work Z (im_Args p) w).2.
Proof.
  intros Hp%list_elem_of_lookup_2. destruct p as [args opts]. apply step_handler. destruct args; cbn [work im_Args].
  - eapply handler_job; [exact Hp|apply surjective_pairing].
  - eapply handler_cleanup; [exact Hp|apply surjective_pairing].
  - eapply handler_reservation; [exact Hp|apply surjective_pairing].
  - eapply handler_ungate; [exact Hp|apply surjective_pairing].
Qed.

Lemma grants_sensible resp : resp ∈ [grant; second_grant; refusal] ->
  mr_Reserved resp = false /\ in_range 64 (mr_Jobid resp) /\
  forall nodes, mr_Allocation resp <> "" -> parseNodes (mr_Allocation resp) = (nodes, None) ->
    nodes <> [] /\ Forall (fun n => node_name n = true) nodes.
Proof.
  rewrite !elem_of_cons, elem_of_nil. intros [->|[->|[->|[]]]]; (split; [done|]; split; [unfold in_range; cbn; lia|]); intros nodes Hne Hp.
  1-2: vm_compute in Hp; injection Hp as <-; split; [done|repeat constructor].
  done.
Qed.

(** *** Scripts

    A run of nine steps, after which nothing happens: each step runs the task
    that [turns] names, among all the tasks of the run, or does something
    else.  What [works_off] and [supported] ask of such a run is checked step
    by step. *)

Tactic Notation "at_each" ident(n) tactic3(t) := do 10 (destruct n as [|n]; [t|]); lia.
(** Run the two runs [b] up to each step. *)
Ltac compute_steps n b := at_each n (destruct b; vm_compute; reflexivity).
(** The task [i] is there when it is run. *)
Ltac compute_turns n b Hi := at_each n (first [discriminate Hi | injection Hi as <-; apply Nat.ltb_lt; destruct b; vm_compute; reflexivity]).
(** The task [p], with number [i], is run at most twice, and in the end it does
    not fail. *)
Ltac compute_ends i b Hp := repeat (destruct i as [|i]; [injection Hp as <-; split;
  [split; [apply Nat.leb_le|apply Nat.ltb_lt]; vm_compute; reflexivity
  |eexists; split; [vm_compute; reflexivity|destruct b; vm_compute; reflexivity]]|]); done.
(** Every turn is that of a listed task. *)
Ltac compute_known n Hn := apply Nat.ltb_lt; do 9 (destruct n as [|n]; [first [discriminate Hn | by injection Hn as <-]|]); done.

Section Script.
Context (start : OutageWorld) (all : list InsertManyParams) (turns : list (option nat)) (act : nat -> OutageWorld -> OutageWorld).

Definition turn (n : nat) : option nat := mjoin (turns !! n).
Definition script_act (n : nat) (w : OutageWorld) : OutageWorld :=
  match turn n with
  | Some i => match all !! i with Some p => (work Z (im_Args p) w).2 | None => w end
  | None => act n w
  end.
Fixpoint script (n : nat) : OutageWorld := match n with 0 => start | S n => script_act n (script n) end.

Record scripted : Prop := {
  script_turns : length turns = 9;
  script_idle k w : act (9 + k) w = w;
  script_acts n : n < 10 -> turn n = None -> RunStep (script n) (act n (script n));
  script_inserts n : n < 10 -> river_tasks (w_river (script n)) = take (length (river_tasks (w_river (script n)))) all;
  script_grants n : n < 10 -> of_grants (w_fluxion (script n)) ⊆ [grant; second_grant];
  script_waiting i n : n < 10 -> turn n = Some i -> i < length (river_tasks (w_river (script n)));
  script_known n i : turn n = Some i -> i < length all;
  script_allows i p : all !! i = Some p -> length (attempts turn i 9) <= 2 < max_attempts 25 p /\
    exists k, last (attempts turn i 9) = Some k /\ fails (result (Q:=Z) script p k) = false
}.
Hypothesis H : scripted.

Lemma turn_late k : turn (9 + k) = None.
Proof. unfold turn. by rewrite lookup_ge_None_2 by (rewrite (script_turns H); lia). Qed.
Lemma script_late k : script (9 + k) = script 9.
Proof.
  induction k as [|k IH]; [done|]. rewrite Nat.add_succ_r. cbn [script]. unfold script_act. by rewrite turn_late, (script_idle H).
Qed.

(** What holds of the first ten worlds holds of all. *)
Lemma script_always (P : OutageWorld -> Prop) : (forall n, n < 10 -> P (script n)) -> forall n, P (script n).
Proof.
  intros HP n. destruct (Nat.lt_ge_cases n 10); [auto|]. replace n with (9 + (n - 9)) by lia. rewrite script_late. apply HP. lia.
Qed.

Lemma script_tasks n : river_tasks (w_river (script n)) = take (length (river_tasks (w_river (script n)))) all.
Proof. revert n. apply (script_always (fun w => river_tasks (w_river w) = take (length (river_tasks (w_river w))) all)), H. Qed.
Lemma script_task n i p : river_tasks (w_river (script n)) !! i = Some p -> all !! i = Some p.
Proof. rewrite script_tasks. by intros [Hp _]%lookup_take_Some. Qed.

Lemma turn_early n i : turn n = Some i -> n < 9.
Proof.
  intros Hn. destruct (Nat.lt_ge_cases n 9); [done|]. replace n with (9 + (n - 9)) in Hn by lia. by rewrite turn_late in Hn.
Qed.
Lemma script_ran n i : turn n = Some i -> exists p,
  river_tasks (w_river (script n)) !! i = Some p /\ (work Z (im_Args p) (script n)).2 = script (S n).
Proof.
  intros Hn. pose proof (turn_early _ _ Hn). destruct (lookup_lt_is_Some_2 all i) as [p Hp]; [by eapply (script_known H)|].
  exists p. split.
  - rewrite script_tasks, lookup_take_lt; [done|]. apply (script_waiting H); [lia|done].
  - cbn [script]. unfold script_act. by rewrite Hn, Hp.
Qed.

Lemma script_execution : execution (Q:=Z) (J:=SimpleJobspec) (Raw:=MemRaw) script.
Proof.
  intros n. destruct (turn n) as [i|] eqn:Hn.
  - destruct (script_ran n i Hn) as (p & Hp & <-). by eapply work_step.
  - cbn [script]. unfold script_act. rewrite Hn. destruct (Nat.lt_ge_cases n 9) as [Hlt|Hge].
    + apply (script_acts H); [lia|done].
    + replace n with (9 + (n - 9)) by lia. rewrite (script_idle H). by apply step_handler, handler_environment.
Qed.

Lemma attempts_late i n : length (attempts turn i n) <= length (attempts turn i 9).
Proof.
  apply submseteq_length, NoDup_submseteq; [apply NoDup_filter, NoDup_seq|].
  intros k [_ Hk]%attempts_elem. apply attempts_elem. split; [by eapply turn_early|done].
Qed.
Lemma script_survives p : survives (Q:=Z) 25 script turn p.
Proof.
  intros i m k Hp%script_task Hlen. apply (script_allows H) in Hp as [Hp _]. pose proof (attempts_late i k). lia.
Qed.

Lemma script_works_off : works_off (Q:=Z) 25 script turn.
Proof.
  split.
  - intros n i. apply script_ran.
  - intros n i p Hp%script_task. apply (script_allows H) in Hp as [Hp _]. pose proof (attempts_late i n). lia.
  - intros n i p Hp%script_task. apply (script_allows H) in Hp as (_ & k & (l & Hl)%last_Some & Hf).
    assert (k ∈ attempts turn i 9) as [Hk Hi]%attempts_elem by (rewrite Hl; set_solver).
    exists (n + 9). split; [lia|]. left. exists k. split; [|done]. apply attempts_elem. split; [lia|done].
Qed.

Lemma script_sensible : sensible script.
Proof.
  intros n a resp f (f1 & H1 & H2) _. apply grants_sensible.
  assert (Hg : of_grants (w_fluxion (script n)) ⊆ [grant; second_grant]).
  { apply (script_always (fun w => of_grants (w_fluxion w) ⊆ _)), H. }
  cbn in H1, H2. destruct (of_down (w_fluxion (script n))); [injection H1 as <-|discriminate H1].
  destruct (of_grants _) as [|g gs]; injection H2 as <- _; [set_solver|]. specialize (Hg g). set_solver.
Qed.

Lemma script_supported r :
  (forall n, r ∈ pending_queue (w_db (script n)) -> exists m, n <= m /\ cycle_succeeds (script m) (script (S m))) ->
  supported (Q:=Z) 25 script turn r.
Proof. intros Hc. split; [exact Hc|exact script_sensible|intros n p _ _; apply script_survives]. Qed.
End Script.

(** *** Two runs

    The object of [Progress] waits, another FluxJob is reconciled; Fluxion is
    down for the first attempt.  Then all tasks are worked off. *)
Definition life_start (group : bool) : OutageWorld :=
  mkWorld (mkUpConn 100) (mkDatabase [waiting group] [])
    (mkMemKube (<[("default", "fresh") := sample_pod "fresh" ∅ [SchedulingGateName]]> (mk_pods (w_kube gated_pair))) ∅
       {[ ("default", "fresh-pod") := fresh_job ]})
    (mkOutage 1 [grant; second_grant] []) [] false.
Definition fresh_ungate : UngateArgs := mkUngateArgs "fresh" "0" "default" ["kind-worker"; "kind-worker2"] 8.
Definition life_deleted (w : OutageWorld) : ObjectMeta :=
  default (mkMeta "" "" None) (p_meta <$> kube_pods (Q:=Z) (w_kube w) !! ("default", "app-0")).

(** The tasks, by their numbers in river, and what step [n] does. *)
Definition life_tasks (group : bool) : list InsertManyParams :=
  [mkParams (AJob fresh_task) Easy.schedule_opts; mkParams (AJob (demo_job group)) Easy.schedule_opts; clearReservationJob;
   mkParams (AUngate (demo_ungate group)) (mkInsertOpts 0 ["ungate"] "task_queue");
   mkParams (ACleanup demo_cleanup) Easy.cleanup_opts;
   mkParams (AUngate fresh_ungate) (mkInsertOpts 0 ["ungate"] "task_queue")].
Definition life_turns : list (option nat) :=
  [None; Some 1; Some 1; Some 3; None; Some 4; Some 0; Some 2; Some 5].
Definition life_act (n : nat) (w : OutageWorld) : OutageWorld :=
  match n with
  | 0 => (Reconcile the_queue "default" "fresh-pod" w).2
  | 4 => (pod_DeleteFunc the_queue (DeletedPod (life_deleted w)) w).2
  | _ => w
  end.
Abbreviation life group := (script (life_start group) (life_tasks group) life_turns life_act).
Abbreviation life_runs := (turn life_turns).

Lemma life_reconciles group : RunStep (life group 0) (life_act 0 (life group 0)).
Proof.
  apply (step_reconcile _ "default" "fresh-pod" (Reconcile the_queue "default" "fresh-pod" (life group 0)).1);
    [|apply surjective_pairing].
  intros spec k1 H. assert (E : (fluxjob_Get "default" "fresh-pod" (w_kube (life group 0))).1.1 = fresh_job)
    by (destruct group; vm_compute; reflexivity).
  rewrite H in E. cbn in E. subst spec. split; [done|by left].
Qed.

Lemma life_acts n w : n <> 0 -> RunStep w (life_act n w).
Proof.
  intros Hn. destruct n as [|[|[|[|[|n]]]]]; [done|..]; apply step_handler; [by apply handler_environment..| |by apply handler_environment].
  exact (handler_pod_deleted w (DeletedPod (life_deleted w)) _ _ (surjective_pairing _)).
Qed.

Lemma life_inserts group n : n < 10 ->
  river_tasks (w_river (life group n)) = take (length (river_tasks (w_river (life group n)))) (life_tasks group).
Proof. intros Hn. compute_steps n group. Qed.

Lemma life_grants group n : n < 10 -> of_grants (w_fluxion (life group n)) ⊆ [grant; second_grant].
Proof.
  intros Hn. cut (of_grants (w_fluxion (life group n)) = drop (if n <? 3 then 0 else if n <? 7 then 1 else 2) [grant; second_grant]).
  { intros ->. intros g. apply subseteq_drop. }
  compute_steps n group.
Qed.

Lemma life_waiting group i n :
  n < 10 -> turn life_turns n = Some i -> i < length (river_tasks (w_river (life group n))).
Proof. intros Hn Hi. compute_turns n group Hi. Qed.

Lemma life_ends group i p :
  life_tasks group !! i = Some p -> length (attempts life_runs i 9) <= 2 < max_attempts 25 p /\
    exists k, last (attempts life_runs i 9) = Some k /\ fails (result (Q:=Z) (life group) p k) = false.
Proof. intros Hp. compute_ends i group Hp. Qed.

Lemma life_scripted group : scripted (life_start group) (life_tasks group) life_turns life_act.
Proof.
  split; [done|done| |apply life_inserts|apply life_grants|apply life_waiting| |apply life_ends].
  - intros [|n] _ _; [apply life_reconciles|by apply life_acts].
  - intros n i Hn. compute_known n Hn.
Qed.

Lemma life_supported group : supported (Q:=Z) 25 (life group) life_runs (waiting group).
Proof.
  apply script_supported; [apply life_scripted|]. intros [|n] Hr.
  - exists 0. split; [done|].
    apply (cycle_succeeds_by "default" "fresh-pod"); destruct group; vm_compute; (reflexivity || discriminate).
  - exfalso. revert Hr. cut (pending_queue (w_db (life group (S n))) = []); [intros ->; apply not_elem_of_nil|].
    destruct (Nat.lt_ge_cases n 9); [compute_steps n group|].
    replace (S n) with (9 + (n - 8)) by lia. rewrite (script_late _ _ _ _ (life_scripted group)). destruct group; vm_compute; reflexivity.
Qed.

Lemma life_invariant group : invariant (life group 0).
Proof.
  split.
  - apply NoDup_singleton.
  - intros r ->%list_elem_of_singleton. destruct group; (split; [done|]); [right; right; by left|by left].
  - intros p Hp. by apply elem_of_nil in Hp.
Qed.

Lemma pod_life_witness :
  exists m1 a node nodes id (p' : Pod Z), allocates (Q:=Z) a (node :: nodes) id (life false m1) (life false (S m1)) /\
    label_get (p_meta p') FluxJobIdLabel = Some (Itoa id) /\
    ((0 <= id)%Z -> deleted_with id (life false 4) (life false 5) ->
     exists j, 4 < j /\ cancels id (life false j) (life false (S j))).
Proof.
  assert (Hup : forall a o (r : MemRiver), (river_Insert a o r).1 = None) by reflexivity.
  assert (Hmany : forall b (r : MemRiver), (river_InsertMany b r).1 = None) by reflexivity.
  assert (Hc : cleanups_survive (Q:=Z) 25 (life false) life_runs) by (intros n p c _ _; apply script_survives, life_scripted).
  destruct (pod_life (Q:=Z) 25 (life false) life_runs (script_execution _ _ _ _ (life_scripted false)) (script_works_off _ _ _ _ (life_scripted false)) (life_invariant false) Hup Hmany Hc
              (waiting false) 0 (life_supported false))
    as (m1 & m & a & opts & node & nodes & id & p & p' & _ & _ & Hal & _ & _ & _ & Hl & Hdel);
    [apply list_elem_of_here|reflexivity|].
  exists m1, a, node, nodes, id, p'. split; [exact Hal|]. split; [exact Hl|]. intros H0. apply Hdel. exact H0.
Defined.

Lemma group_life_witness :
  exists m1 a nodes id, allocates (Q:=Z) a nodes id (life true m1) (life true (S m1)) /\
    ((0 <= id)%Z -> deleted_with id (life true 4) (life true 5) ->
     exists j, 4 < j /\ cancels id (life true j) (life true (S j))).
Proof.
  assert (Hup : forall a o (r : MemRiver), (river_Insert a o r).1 = None) by reflexivity.
  assert (Hmany : forall b (r : MemRiver), (river_InsertMany b r).1 = None) by reflexivity.
  assert (Hc : cleanups_survive (Q:=Z) 25 (life true) life_runs) by (intros n p c _ _; apply script_survives, life_scripted).
  destruct (group_life (Q:=Z) 25 (life true) life_runs (script_execution _ _ _ _ (life_scripted true)) (script_works_off _ _ _ _ (life_scripted true)) (life_invariant true) Hup Hmany Hc
              (waiting true) 0 "deployment" (life_supported true))
    as (m1 & m & a & opts & nodes & id & ps & _ & _ & Hal & _ & _ & Hdel);
    [apply list_elem_of_here|reflexivity|right; right; left; reflexivity|reflexivity|reflexivity|].
  exists m1, a, nodes, id. split; [exact Hal|]. intros H0. apply Hdel. exact H0.
Defined.

(** *** A cancel that is lost *)

(** A pod that holds the allocation 7 is deleted, and Fluxion cannot be reached
    for the three attempts at the cancel. *)
Definition holder : ObjectMeta := mkMeta "app-0" "default" (Some {[ FluxJobIdLabel := "7" ]}).
Definition lost_act (n : nat) (w : OutageWorld) : OutageWorld :=
  match n with
  | 0 => (pod_DeleteFunc the_queue (DeletedPod holder) w).2
  | 1 => set_fluxion w (mkOutage 3 [] [])
  | 2 | 3 | 4 => (cleanup_Work demo_cleanup w).2
  | _ => w
  end.
Definition lost_start : OutageWorld := mkWorld (mkUpConn 100) (mkDatabase [] []) (mkMemKube ∅ ∅ ∅) (mkOutage 0 [] []) [] false.
Fixpoint lost (n : nat) : OutageWorld := match n with 0 => lost_start | S n => lost_act n (lost n) end.
Definition lost_runs (n : nat) : option nat := match n with 2 | 3 | 4 => Some 0 | _ => None end.
Definition lost_task : InsertManyParams := mkParams (ACleanup demo_cleanup) Easy.cleanup_opts.

Lemma lost_late k : lost (5 + k) = lost 5.
Proof. by induction k as [|k IH]. Qed.

Lemma lost_attempts i n : length (attempts lost_runs i n) <= 3.
Proof.
  change 3 with (length [2; 3; 4]). apply submseteq_length, NoDup_submseteq; [apply NoDup_filter, NoDup_seq|].
  intros k [_ Hk]%attempts_elem. do 5 (destruct k as [|k]; [first [discriminate Hk | set_solver]|]). done.
Qed.
Lemma lost_used_up n : length (attempts lost_runs 0 (5 + n)) = max_attempts 25 lost_task.
Proof.
  apply (Nat.le_antisymm _ 3); [apply lost_attempts|].
  apply (Nat.le_trans _ (length (attempts lost_runs 0 5))); [done|].
  apply submseteq_length, NoDup_submseteq; [apply NoDup_filter, NoDup_seq|].
  intros k [_ Hr]%attempts_elem. apply attempts_elem. split; [|done]. do 5 (destruct k as [|k]; [lia|]). done.
Qed.
Lemma lost_tasks n i p : river_tasks (w_river (lost n)) !! i = Some p -> i = 0 /\ p = lost_task.
Proof.
  assert (E : exists b : bool, river_tasks (w_river (lost n)) = if b then [lost_task] else []).
  { destruct n as [|n]; [by exists false|]. exists true. do 4 (destruct n as [|n]; [reflexivity|]).
    change (S (S (S (S (S n))))) with (5 + n). by rewrite lost_late. }
  destruct E as ([] & ->); [|by rewrite lookup_nil]. destruct i as [|i]; [by intros [= <-]|done].
Qed.

Lemma lost_execution : execution (Q:=Z) (J:=SimpleJobspec) (Raw:=MemRaw) lost.
Proof.
  intros [|[|[|[|[|n]]]]].
  - apply step_handler, (handler_pod_deleted _ (DeletedPod holder) (pod_DeleteFunc the_queue (DeletedPod holder) lost_start).1),
      surjective_pairing.
  - by apply step_handler, handler_environment.
  - apply (work_step (lost 2) lost_task 0). reflexivity.
  - apply (work_step (lost 3) lost_task 0). reflexivity.
  - apply (work_step (lost 4) lost_task 0). reflexivity.
  - change (RunStep (lost (5 + n)) (lost (5 + S n))). rewrite !lost_late. by apply step_handler, handler_environment.
Qed.

Lemma lost_works_off : works_off (Q:=Z) 25 lost lost_runs.
Proof.
  split.
  - intros n i Hn. exists lost_task. do 5 (destruct n as [|n]; [first [discriminate Hn | by injection Hn as <-]|]). done.
  - intros n i p [-> ->]%lost_tasks. apply lost_attempts.
  - intros n i p [-> ->]%lost_tasks. exists (5 + n). split; [lia|]. right. apply lost_used_up.
Qed.

(** Three failing attempts use up [MaxCancelAttempts]: the run is one of the
    system, river keeps its promises, the pod that held the allocation is gone
    and Fluxion can be reached again; but river has given the cancel up and
    the allocation is never given back. *)
Theorem cancel_lost :
  execution (Q:=Z) (J:=SimpleJobspec) (Raw:=MemRaw) lost /\ works_off (Q:=Z) 25 lost lost_runs /\
  deleted_with 7 (lost 0) (lost 1) /\
  (forall n, length (attempts lost_runs 0 (5 + n)) = max_attempts 25 lost_task) /\
  Forall (fun k => fails (result (Q:=Z) lost lost_task k) = true) [2; 3; 4] /\
  (forall n, of_down (w_fluxion (lost (5 + n))) = 0) /\ forall n, ~ cancels 7 (lost n) (lost (S n)).
Proof.
  split; [apply lost_execution|]. split; [apply lost_works_off|]. split; [by exists holder|]. split; [apply lost_used_up|].
  split; [repeat constructor|]. split; [intros n; by rewrite lost_late|].
  intros n (f1 & H1 & H2). assert (Hc : of_cancelled (w_fluxion (lost (S n))) = []).
  { do 4 (destruct n as [|n]; [reflexivity|]). change (S (S (S (S (S n))))) with (5 + n). by rewrite lost_late. }
  apply (f_equal (fun x => of_cancelled x.2)) in H2. cbn [snd] in H2. rewrite Hc in H2. by apply app_nil in H2 as [_ ?].
Qed.
