(* ===== verification/EndToEnd.v ===== *)
(** * From the admission to the cancel

    The run of a job through all components: the webhook admits the object and
    creates its FluxJob, the controller picks that FluxJob up, the queue hands
    its row to river, the job worker asks Fluxion, the ungate worker labels and
    releases the pods, the scheduler plugin lets them run on the granted nodes,
    and the deletion of a pod cancels the grant. *)

From Stdlib Require Import Ascii.
From stdpp Require Import base option strings gmap numbers list relations.
From S2P Require Import Prelude GoStrings Json Api Kube Database World Mem Strategy Queue Allocation.
From S2P Require Import JobWorker UngateWorker Retry CancelWorkers TaskErrors Controller Jobspec Webhook Scheduler Pipeline Progress Lifecycle Attempts.

Section EndToEnd.
Context {Q J Raw C K F R : Type}.
Context `{!DbConn C, !DbLaws C, !RiverClient R, !RiverView R, !RiverLaws R}.
Context `{!PodClient Q K, !PodView Q K, !PodLaws Q K, !FluxJobClient K, !FluxJobView K, !FluxJobLaws K}.
Context `{!FluxionClient F, !Quantity Q, !JobspecLib J, !Codec Q Raw, !OrdinaryErrors Q C K F}.
Abbreviation W := (World C K F R).
Implicit Types w : World C K F R.
Abbreviation pending w := (pending_queue (w_db w)).
Abbreviation Submit := (SubmitFluxJob (Q:=Q) (J:=J) (C:=C) (F:=F) (R:=R)).

(** A run of the system in which river keeps its promises. *)
Context (default_attempts : nat) (run : nat -> W) (runs : nat -> option nat).
Hypothesis Hrun : execution (Q:=Q) (J:=J) (Raw:=Raw) run.
Hypothesis Hriver : works_off (Q:=Q) default_attempts run runs.
Hypothesis Hinv : invariant (run 0).
Hypothesis river_up : forall a o (r : R), (river_Insert a o r).1 = None.
Hypothesis river_many_up : forall b (r : R), (river_InsertMany b r).1 = None.
Hypothesis Hcleanups : cleanups_survive (Q:=Q) default_attempts run runs.

(** From step [n] on the controller reconciles the FluxJob [fj], whatever its
    status has become, and [Enqueue] succeeds. *)
Definition picked_up (fj : FluxJob) (n : nat) : Prop :=
  exists m status k1 st w1, n <= m /\
    fluxjob_Get (fj_Namespace fj) (fj_Name fj) (w_kube (run m)) = ((set_status fj status, None), k1) /\
    status <> SubmitStatusSubmit /\
    Enqueue (set_status fj status) (set_kube (run m) k1) = (Ret (st, None), w1) /\
    (Reconcile the_queue (fj_Namespace fj) (fj_Name fj) (run m)).2 = run (S m).

Lemma picked_up_by fj n m status :
  let g := fluxjob_Get (fj_Namespace fj) (fj_Name fj) (w_kube (run m)) in
  n <= m -> g.1 = (set_status fj status, None) -> status <> SubmitStatusSubmit ->
  (Enqueue (set_status fj status) (set_kube (run m) g.2)).1 = Ret (JobEnqueueSuccess, None) ->
  (Reconcile the_queue (fj_Namespace fj) (fj_Name fj) (run m)).2 = run (S m) -> picked_up fj n.
Proof.
  intros g Hm Hg Hst He Hrec. exists m, status, g.2, JobEnqueueSuccess, (Enqueue (set_status fj status) (set_kube (run m) g.2)).2.
  split; [done|]. split; [rewrite <- Hg; apply surjective_pairing|]. split; [done|]. split; [|done].
  rewrite <- He. apply surjective_pairing.
Qed.

(** No FluxJob of this name is found. *)
Definition not_found (ns name : string) w : Prop := (fluxjob_Get ns name (w_kube w)).1.2 <> None.

(** The rows of the object [name]. *)
Definition supported_object (ns name : string) : Prop :=
  forall r, pr_namespace r = ns -> pr_name r = name -> supported (Q:=Q) default_attempts run runs r.

(** The row of a FluxJob that is picked up is handed to river. *)
Lemma picked_up_hands fj n :
  picked_up fj n -> supported_object (fj_Namespace fj) (fs_Name (fj_Spec fj)) ->
  exists now m, n <= m /\ hands (run m) (run (S m)) (pending_row fj now).
Proof.
  intros (m & status & k1 & st & w1 & Hm & Hg & Hst & He & Hrec) Hsup.
  destruct (Enqueue_effect (set_status fj status) (set_kube (run m) k1)) as (st' & e' & w1' & He' & (_ & _ & Hr1 & _) & _ & _ & Hok).
  rewrite He in He'. injection He' as _ <- <-. destruct (Hok eq_refl) as (now & (_ & Hp1 & _)%InsertIntoPending_inv).
  change (pending_row (set_status fj status) now) with (pending_row fj now) in Hp1. set (r := pending_row fj now) in *.
  assert (Hin : r ∈ pending w1) by (rewrite Hp1; set_solver).
  destruct (Reconcile the_queue (fj_Namespace fj) (fj_Name fj) (run m)) as [o w'] eqn:Er. cbn in Hrec. subst w'.
  destruct (Reconcile_enqueues _ _ _ _ _ _ _ Hg Hst Er) as (st2 & e2 & w2 & He2 & Hcase).
  rewrite He in He2. injection He2 as _ <- <-. destruct Hcase as [Hp Ht]. exists now.
  destruct (Schedule the_queue w1) as [o2 w3] eqn:Es. cbn [snd] in Hp, Ht.
  destruct (Schedule_hands w1 o2 w3 r Es Hin) as [Hr|(p & (new & Hnew & Hpn) & Hc)].
  - rewrite <- Hp in Hr. destruct (handed_eventually run r Hrun (river_serves _ _ _ Hrun Hriver Hinv r (Hsup r eq_refl eq_refl)) (S m) Hr)
      as (m' & Hm' & Hh). exists m'. split; [lia|done].
  - exists m. split; [done|]. exists p. split; [|done]. exists new. split; [|done]. by rewrite Ht, Hnew, Hr1.
Qed.

(** A submission that finds no FluxJob of the name creates it. *)
Lemma submitted t name ns nodes cs w w' :
  Submit t name ns nodes cs w = (Ret None, w') -> not_found ns (GetJobName t name) w ->
  exists fj, fluxjobs (w_kube w') !! (ns, GetJobName t name) = Some fj /\ fj_Namespace fj = ns /\ fj_Name fj = GetJobName t name /\
    fs_Name (fj_Spec fj) = name /\ fs_Type (fj_Spec fj) = t /\ fs_Nodes (fj_Spec fj) = nodes.
Proof.
  intros [(fj & k1 & Hg & _)|(js & yaml & _ & _ & _ & Hs)]%SubmitFluxJob_run Hnf.
  - by unfold not_found in Hnf; rewrite Hg in Hnf.
  - eexists. split; [by rewrite Hs, lookup_insert_eq|done].
Qed.

(** An admitted object is enqueued, and the answer is its encoding. *)
Lemma admitted {T} (enqueue : T -> GoM W (T * error)) (marshal : T -> goerr + Raw) req (o marked : T) m w w' t name ns nodes cs :
  (forall w, enqueue o w = (err ← Submit t name ns nodes cs; mret (marked, err)) w) ->
  answer_for enqueue marshal req o w = (Ret (PatchResponseFromRaw req m), w') ->
  Submit t name ns nodes cs w = (Ret None, w') /\ marshal marked = inr m.
Proof.
  intros Hen. unfold answer_for. intros ([o' e] & w1 & H1 & H)%bind_ret_inv. rewrite Hen in H1.
  apply submit_ret in H1 as [-> H1]. destruct e as [e|]; [done|]. destruct (marshal marked); [done|]. by injection H as <- <-.
Qed.

(** C3. The life of an admitted pod: a request that decodes to a pod the webhook
    has not seen, under a name that no FluxJob has, is answered with the pod
    gated and given to the scheduler; its FluxJob is stored; and once the
    controller picks that up, with the support of the job's tasks by river and
    Fluxion, the pod is granted nodes, stored with them, may run on the first
    of them and nowhere else, and its deletion makes Fluxion cancel the
    grant. *)
Theorem admitted_pod_life req (pod : Pod Q) m n :
  let ns := om_Namespace (p_meta pod) in
  let name := om_Name (p_meta pod) in
  first_decoded req = ObjPod req pod -> name <> "" -> is_seen (p_meta pod) = false ->
  not_found ns (GetJobName JobWrappedPod name) (run n) ->
  Handle (J:=J) req (run n) = (Ret (PatchResponseFromRaw req m), run (S n)) ->
  supported_object ns name ->
  (forall fj, fluxjobs (w_kube (run (S n))) !! (ns, GetJobName JobWrappedPod name) = Some fj -> picked_up fj (S n)) ->
  marshal_Pod (marked_pod pod) = inr m /\
  exists fj now, fluxjobs (w_kube (run (S n))) !! (ns, GetJobName JobWrappedPod name) = Some fj /\
    fj_Namespace fj = ns /\ fs_Name (fj_Spec fj) = name /\ fs_Type (fj_Spec fj) = JobWrappedPod /\ fs_Nodes (fj_Spec fj) = 1%Z /\
    pod_lives (Q:=Q) run (pending_row fj now) n.
Proof.
  intros ns name Hdec Hname Hseen Hnf Hh Hsup Hpick. rewrite Handle_refines_run in Hh. unfold Handle_spec in Hh. rewrite Hdec in Hh.
  apply (admitted _ _ _ _ _ _ _ _ _ _ _ _ _ (fun w => EnqueuePod_unseen pod w Hname Hseen)) in Hh as [Hs Hm]. split; [done|].
  destruct (submitted _ _ _ _ _ _ _ Hs Hnf) as (fj & Hfj & Hns & Hjn & Hn & Ht & Hnodes).
  destruct (picked_up_hands fj (S n) (Hpick fj Hfj)) as (now & k & Hk & Hhands); [by rewrite Hns, Hn|].
  exists fj, now. do 5 (split; [done|]). apply (pod_lives_le _ _ n k); [lia|].
  apply pod_after; try done; [by eapply river_reaps|]. eapply river_serves; [done..|]. by apply Hsup.
Qed.

(** The three workloads: type, first word of the selector, and encoding. *)
Inductive workload_request (req : Raw) (d : Workload Q) : JobWrapped -> string -> (Workload Q -> goerr + Raw) -> Prop :=
  | request_deployment : first_decoded req = ObjDeployment req d ->
      workload_request req d JobWrappedDeployment "deployment" marshal_Deployment
  | request_replicaset : first_decoded req = ObjReplicaSet req d ->
      workload_request req d JobWrappedReplicaSet "replicaset" marshal_ReplicaSet
  | request_statefulset : first_decoded req = ObjStatefulSet req d ->
      workload_request req d JobWrappedStatefulSet "statefulset" marshal_StatefulSet.

Lemma workload_answer req d t kind marshal w :
  workload_request req d t kind marshal ->
  Handle (J:=J) req w = answer_for (enqueue_workload (J:=J) t kind) marshal req d w /\
  workload_kind (Itoa t) = Some kind /\ known_type t.
Proof.
  rewrite Handle_refines_run. unfold Handle_spec.
  intros [H|H|H]; rewrite H; (split; [reflexivity|]); (split; [reflexivity|]); unfold known_type; auto 6.
Qed.

(** C5. The life of an admitted deployment, replica set or stateful set: it is
    answered with a pod template that is gated, labelled and given to the
    scheduler, its FluxJob asks for one node per replica, and once that is
    picked up every gated pod that the ungate worker finds is stored with the
    node of its own position in one grant, may run there only, and the
    deletion of any of them cancels the grant. *)
Theorem admitted_group_life req (d : Workload Q) t kind marshal m n :
  let ns := om_Namespace (wl_meta d) in
  let name := om_Name (wl_meta d) in
  workload_request req d t kind marshal -> is_seen (wl_meta d) = false -> label_text name = true -> label_text ns = true ->
  not_found ns (GetJobName t name) (run n) ->
  Handle (J:=J) req (run n) = (Ret (PatchResponseFromRaw req m), run (S n)) ->
  supported_object ns name ->
  (forall fj, fluxjobs (w_kube (run (S n))) !! (ns, GetJobName t name) = Some fj -> picked_up fj (S n)) ->
  marshal (marked_workload kind d) = inr m /\
  exists fj now, fluxjobs (w_kube (run (S n))) !! (ns, GetJobName t name) = Some fj /\
    fj_Namespace fj = ns /\ fs_Name (fj_Spec fj) = name /\ fs_Type (fj_Spec fj) = t /\ Some (fs_Nodes (fj_Spec fj)) = wl_Replicas d /\
    group_lives (Q:=Q) run (pending_row fj now) n kind.
Proof.
  intros ns name Hreq Hseen Hln Hlns Hnf Hh Hsup Hpick.
  destruct (workload_answer _ _ _ _ _ (run n) Hreq) as (Hans & Hkind & Hknown). rewrite Hans in Hh.
  destruct (wl_Replicas d) as [replicas|] eqn:Hrep.
  2:{ apply bind_ret_inv in Hh as (o & w1 & Hen & _). rewrite enqueue_workload_unseen, Hrep in Hen; done. }
  eapply (admitted _ _ _ _ (marked_workload kind d)) in Hh as [Hs Hm].
  2:{ intros w. rewrite enqueue_workload_unseen, Hrep by done. reflexivity. }
  split; [done|]. destruct (submitted _ _ _ _ _ _ _ Hs Hnf) as (fj & Hfj & Hns & Hjn & Hn & Ht & Hnodes).
  destruct (picked_up_hands fj (S n) (Hpick fj Hfj)) as (now & k & Hk & Hhands); [by rewrite Hns, Hn|].
  exists fj, now. do 4 (split; [done|]). split; [by rewrite Hnodes|]. apply (group_lives_le _ _ n k); [lia|].
  apply group_after; cbn [pending_row pr_type pr_name pr_namespace]; rewrite ?Ht, ?Hn, ?Hns; try done; [by eapply river_reaps|].
  eapply river_serves; [done..|]. by apply Hsup.
Qed.
End EndToEnd.

(** ** Two runs

    A pod, or a deployment of two pods, is admitted; the API server stores the
    pods; the FluxJob is reconciled, Fluxion is down for the first attempt and
    then grants two nodes; the pods are released, one of them is deleted, and
    the remaining tasks are worked off. *)

Definition admit_pod : Pod Z := mkPod (mkMeta "app-0" "default" None) (mkPodSpec [] "" [cpu_container 2] [] None None) (mkPodStatus [] "").
Definition admit_request (group : bool) : MemRaw := if group then RawDeployment sample_deployment else RawPod admit_pod.

(** The pods the API server stores: the answer, or two children made from the
    template of the answer. *)
Definition admit_child (name : string) : Pod Z :=
  mkPod (mkMeta name "default" (Some (labels_of (t_meta (wl_Template sample_marked)))))
        (t_spec (wl_Template sample_marked)) (mkPodStatus [] "").
Definition admit_pods (group : bool) : gmap (string * string) (Pod Z) :=
  if group then {[ ("default", "app-0") := admit_child "app-0"; ("default", "app-1") := admit_child "app-1" ]}
  else {[ ("default", "app-0") := marked_pod admit_pod ]}.

Definition admit_fluxjob (group : bool) : FluxJob :=
  set_status (if group then new_fluxjob JobWrappedDeployment "app" "default" 2 "app 2 2 0"
              else new_fluxjob JobWrappedPod "app-0" "default" 1 "app-0 1 2 0") "".
Definition admit_start : OutageWorld :=
  mkWorld (mkUpConn 100) (mkDatabase [] []) (mkMemKube ∅ ∅ ∅) (mkOutage 1 [grant] []) [] false.
Definition admit_job (group : bool) : InsertManyParams :=
  mkParams (AJob (Easy.job_args (to_JobModel (pending_row (admit_fluxjob group) 100)))) Easy.schedule_opts.
Definition admit_tasks (group : bool) : list InsertManyParams :=
  [admit_job group; clearReservationJob; mkParams (AUngate (demo_ungate group)) (mkInsertOpts 0 ["ungate"] "task_queue");
   mkParams (ACleanup demo_cleanup) Easy.cleanup_opts].
Definition admit_turns : list (option nat) := [None; None; None; Some 0; Some 0; Some 2; None; Some 3; Some 1].
Definition admit_act (group : bool) (n : nat) (w : OutageWorld) : OutageWorld :=
  match n with
  | 0 => (Handle (J:=SimpleJobspec) (admit_request group) w).2
  | 1 => set_kube w (with_pods (w_kube w) (admit_pods group))
  | 2 => (Reconcile the_queue "default" (fj_Name (admit_fluxjob group)) w).2
  | 6 => (pod_DeleteFunc the_queue (DeletedPod (life_deleted w)) w).2
  | _ => w
  end.
Abbreviation admission group := (script admit_start (admit_tasks group) admit_turns (admit_act group)).

Lemma admit_created group :
  fluxjobs (w_kube (admission group 1)) !! ("default", fj_Name (admit_fluxjob group)) = Some (admit_fluxjob group).
Proof. destruct group; vm_compute; reflexivity. Qed.

Lemma admit_reconciles group : RunStep (admission group 2) (admit_act group 2 (admission group 2)).
Proof.
  apply (step_reconcile _ "default" (fj_Name (admit_fluxjob group))
           (Reconcile the_queue "default" (fj_Name (admit_fluxjob group)) (admission group 2)).1); [|apply surjective_pairing].
  intros spec k1 H. assert (E : (fluxjob_Get "default" (fj_Name (admit_fluxjob group)) (w_kube (admission group 2))).1.1 = admit_fluxjob group)
    by (destruct group; vm_compute; reflexivity).
  rewrite H in E. cbn in E. subst spec. destruct group; (split; [done|unfold known_type; auto]).
Qed.
Lemma admit_acts group n w : n <> 2 -> RunStep w (admit_act group n w).
Proof.
  intros Hn. destruct n as [|[|[|[|[|[|[|n]]]]]]]; try (by destruct Hn); apply step_handler; try (by apply handler_environment).
  - exact (handler_webhook w (admit_request group) _ _ (surjective_pairing _)).
  - exact (handler_pod_deleted w (DeletedPod (life_deleted w)) _ _ (surjective_pairing _)).
Qed.

Lemma admit_inserts group n : n < 10 ->
  river_tasks (w_river (admission group n)) = take (length (river_tasks (w_river (admission group n)))) (admit_tasks group).
Proof. intros Hn. compute_steps n group. Qed.

Lemma admit_grants group n : n < 10 -> of_grants (w_fluxion (admission group n)) ⊆ [grant; second_grant].
Proof.
  intros Hn. cut (of_grants (w_fluxion (admission group n)) = take (if n <? 5 then 1 else 0) [grant; second_grant]).
  { intros ->. intros g. apply subseteq_take. }
  compute_steps n group.
Qed.

Lemma admit_waiting group i n :
  n < 10 -> turn admit_turns n = Some i -> i < length (river_tasks (w_river (admission group n))).
Proof. intros Hn Hi. compute_turns n group Hi. Qed.

Lemma admit_ends_well group i p :
  admit_tasks group !! i = Some p -> length (attempts (turn admit_turns) i 9) <= 2 < max_attempts 25 p /\
    exists k, last (attempts (turn admit_turns) i 9) = Some k /\ fails (result (Q:=Z) (admission group) p k) = false.
Proof. intros Hp. compute_ends i group Hp. Qed.

Lemma admit_scripted group : scripted admit_start (admit_tasks group) admit_turns (admit_act group).
Proof.
  split; [done|done| |apply admit_inserts|apply admit_grants|apply admit_waiting| |apply admit_ends_well].
  - intros n _ _. destruct (decide (n = 2)) as [->|Hn]; [apply admit_reconciles|by apply admit_acts].
  - intros n i Hn. compute_known n Hn.
Qed.

Lemma admit_supported group ns name : supported_object (Q:=Z) 25 (admission group) (turn admit_turns) ns name.
Proof.
  intros r _ _. apply script_supported; [apply admit_scripted|]. intros n Hr. exfalso. revert Hr.
  cut (pending_queue (w_db (admission group n)) = []); [intros ->; apply not_elem_of_nil|]. revert n.
  apply (script_always _ _ _ _ (admit_scripted group) (fun w => pending_queue (w_db w) = [])).
  intros n Hn. compute_steps n group.
Qed.

Lemma admit_picked_up group fj :
  fluxjobs (w_kube (admission group 1)) !! ("default", fj_Name (admit_fluxjob group)) = Some fj -> picked_up (admission group) fj 1.
Proof.
  rewrite admit_created. intros [= <-].
  apply (picked_up_by _ _ _ 2 ""); [lia|destruct group; vm_compute; reflexivity|done|destruct group; vm_compute; reflexivity|].
  by destruct group.
Qed.

Lemma admit_invariant group : invariant (admission group 0).
Proof. apply fresh_invariant. by split. Qed.

(** The pod [app-0] after its admission. *)
Lemma admitted_pod_life_witness :
  exists now m1 a node nodes id, carries (pending_row (admit_fluxjob false) now) (mkParams (AJob a) Easy.schedule_opts) /\
    allocates (Q:=Z) a (node :: nodes) id (admission false m1) (admission false (S m1)) /\
    ((0 <= id)%Z -> deleted_with id (admission false 6) (admission false 7) ->
     exists j, 6 < j /\ cancels id (admission false j) (admission false (S j))).
Proof.
  assert (Hup : forall a o (r : MemRiver), (river_Insert a o r).1 = None) by reflexivity.
  assert (Hmany : forall b (r : MemRiver), (river_InsertMany b r).1 = None) by reflexivity.
  assert (Hc : cleanups_survive (Q:=Z) 25 (admission false) (turn admit_turns)) by (intros n p c _ _; apply script_survives, admit_scripted).
  destruct (admitted_pod_life (Q:=Z) 25 (admission false) (turn admit_turns) (script_execution _ _ _ _ (admit_scripted false))
              (script_works_off _ _ _ _ (admit_scripted false)) (admit_invariant false) Hup Hmany Hc (RawPod admit_pod) admit_pod
              (RawPod (marked_pod admit_pod)) 0) as (_ & fj & now & Hfj & _ & _ & _ & _ & H).
  - reflexivity.
  - discriminate.
  - reflexivity.
  - discriminate.
  - vm_compute. reflexivity.
  - apply admit_supported.
  - apply (admit_picked_up false).
  - destruct H as (m1 & m & a & opts & node & nodes & id & p & p' & _ & Hcar & Hal & _ & _ & _ & _ & Hdel).
    assert (E : fj = admit_fluxjob false) by (pose proof (admit_created false) as E; injection (eq_trans (eq_sym Hfj) E); auto).
    subst fj. exists now, m1, a, node, nodes, id. split; [exact Hcar|]. split; [exact Hal|]. intros H0. apply Hdel. exact H0.
Defined.

(** The deployment [app] after its admission. *)
Lemma admitted_group_life_witness :
  exists now m1 a nodes id, carries (pending_row (admit_fluxjob true) now) (mkParams (AJob a) Easy.schedule_opts) /\
    allocates (Q:=Z) a nodes id (admission true m1) (admission true (S m1)) /\
    ((0 <= id)%Z -> deleted_with id (admission true 6) (admission true 7) ->
     exists j, 6 < j /\ cancels id (admission true j) (admission true (S j))).
Proof.
  assert (Hup : forall a o (r : MemRiver), (river_Insert a o r).1 = None) by reflexivity.
  assert (Hmany : forall b (r : MemRiver), (river_InsertMany b r).1 = None) by reflexivity.
  assert (Hc : cleanups_survive (Q:=Z) 25 (admission true) (turn admit_turns)) by (intros n p c _ _; apply script_survives, admit_scripted).
  destruct (admitted_group_life (Q:=Z) 25 (admission true) (turn admit_turns) (script_execution _ _ _ _ (admit_scripted true))
              (script_works_off _ _ _ _ (admit_scripted true)) (admit_invariant true) Hup Hmany Hc
              (RawDeployment sample_deployment) sample_deployment JobWrappedDeployment "deployment" marshal_Deployment
              (RawDeployment sample_marked) 0) as (_ & fj & now & Hfj & _ & _ & _ & _ & H).
  - constructor. reflexivity.
  - reflexivity.
  - reflexivity.
  - reflexivity.
  - discriminate.
  - vm_compute. reflexivity.
  - apply admit_supported.
  - apply (admit_picked_up true).
  - destruct H as (m1 & m & a & opts & nodes & id & ps & _ & Hcar & Hal & _ & _ & Hdel).
    assert (E : fj = admit_fluxjob true) by (pose proof (admit_created true) as E; injection (eq_trans (eq_sym Hfj) E); auto).
    subst fj. exists now, m1, a, nodes, id. split; [exact Hcar|]. split; [exact Hal|]. intros H0. apply Hdel. exact H0.
Defined.

(** Both runs as the theorems say: the stored pod is gated and has no node, is
    released on a granted node, and in the end the one grant has been given
    back. *)
Example admit_ends group :
  let lands n name := (fun p => (pod_gates p, PreFilter (p_meta p))) <$> kube_pods (Q:=Z) (w_kube (admission group n)) !! ("default", name) in
  lands 2 "app-0" = Some ([SchedulingGateName], Ret (None, mkStatus UnschedulableAndUnresolvable "Pod missing nodes label")) /\
  lands 6 "app-0" = Some ([], Ret (Some [if group then "kind-worker2" else "kind-worker"], mkStatus Success "Fluxion scheduler assigned node")) /\
  of_cancelled (w_fluxion (admission group 9)) = [7%Z].
Proof. destruct group; vm_compute; auto. Qed.
