(* ===== verification/Resources.v ===== *)
(** * Requests and limits of a pod: [internal/controller/resources.go]

    Sums and maxima of resource lists.  [resource.Quantity] is a class: exact
    decimal amounts with addition and comparison; a resource list is a map from
    resource names to quantities.  A Go loop over a map visits its entries
    once each in an order that is not specified: the order is a parameter, the
    loops are folds over the entries in that order, and their results are shown
    not to depend on it. *)

From stdpp Require Import base option strings gmap numbers list.
From S2P Require Import Prelude GoStrings Json Api Kube.

(** ** Quantities *)

Class QuantityOps (Q : Type) := {
  q_Add : Q -> Q -> Q;
  q_Cmp : Q -> Q -> comparison;
  q_IsZero : Q -> bool
}.

(** A quantity is an exact amount, here in the smallest unit. *)
Class QuantityLaws (Q : Type) `{!QuantityOps Q} := {
  q_amount : Q -> Z;
  q_Add_amount a b : q_amount (q_Add a b) = (q_amount a + q_amount b)%Z;
  q_Cmp_amount a b : q_Cmp a b = (q_amount a ?= q_amount b)%Z;
  q_IsZero_amount a : q_IsZero a = (q_amount a =? 0)%Z
}.

(** ** Loops over resource lists *)

(** The order in which [range] visits the entries of a map: any. *)
Class MapRange (Q : Type) := map_range : gmap string Q -> list (string * Q).
Class RangeLaws (Q : Type) `{!MapRange Q} : Prop := map_range_perm m : map_range m ≡ₚ map_to_list m.

Section Resources.
Context {Q : Type} `{!QuantityOps Q, !MapRange Q}.
Abbreviation ResourceList := (gmap string Q).

(** One iteration of [addResourceList]. *)
Definition add_entry (list : ResourceList) (e : string * Q) : ResourceList :=
  match list !! e.1 with
  | None => <[e.1 := e.2]> list
  | Some value => <[e.1 := q_Add value e.2]> list
  end.
Definition addResourceList (list new : ResourceList) : ResourceList := foldl add_entry list (map_range new).

(** One iteration of [maxResourceList]. *)
Definition max_entry (list : ResourceList) (e : string * Q) : ResourceList :=
  match list !! e.1 with
  | None => <[e.1 := e.2]> list
  | Some value => match q_Cmp e.2 value with Gt => <[e.1 := e.2]> list | _ => list end
  end.
Definition maxResourceList (list new : ResourceList) : ResourceList := foldl max_entry list (map_range new).

(** [max]: the entries of [a], each replaced by the entry of [b] that is not
    smaller, then the entries only [b] has. *)
Definition max_first (b : ResourceList) (result : ResourceList) (e : string * Q) : ResourceList :=
  match b !! e.1 with
  | Some other => match q_Cmp e.2 other with Gt => <[e.1 := e.2]> result | _ => <[e.1 := other]> result end
  | None => <[e.1 := e.2]> result
  end.
Definition max_second (result : ResourceList) (e : string * Q) : ResourceList :=
  match result !! e.1 with Some _ => result | None => <[e.1 := e.2]> result end.
Definition resource_max (a b : ResourceList) : ResourceList :=
  foldl max_second (foldl (max_first b) ∅ (map_range a)) (map_range b).

(** ** Requests *)

Definition Always : string := "Always".
Definition Infeasible : string := "Infeasible".

Definition restartable (c : Container Q) : bool :=
  match c_RestartPolicy c with Some p => bool_decide (p = Always) | None => false end.

(** The status map: the last status of a name is kept. *)
Definition container_statuses (sts : list (ContainerStatus Q)) : gmap string (ContainerStatus Q) :=
  foldl (fun m s => <[cs_Name s := s]> m) ∅ sts.

(** The requests counted for one container. *)
Definition container_requests (pod : Pod Q) (c : Container Q) : ResourceList :=
  match container_statuses (pst_ContainerStatuses (p_status pod)) !! c_Name c with
  | Some cs =>
      match cs_Resources cs with
      | Some reqs => if bool_decide (pst_Resize (p_status pod) = Infeasible) then reqs else resource_max (c_Requests c) reqs
      | None => c_Requests c
      end
  | None => c_Requests c
  end.

(** One init container: the total, the running sum of the restartable ones,
    and the peak of the init phase. *)
Definition init_step (entries : Container Q -> ResourceList)
    (st : ResourceList * ResourceList * ResourceList) (c : Container Q)
    : ResourceList * ResourceList * ResourceList :=
  let '(reqs, restartableReqs, initReqs) := st in
  if restartable c then
    let reqs := addResourceList reqs (entries c) in
    let restartableReqs := addResourceList restartableReqs (entries c) in
    (reqs, restartableReqs, maxResourceList initReqs restartableReqs)
  else
    let tmp := addResourceList (addResourceList ∅ (entries c)) restartableReqs in
    (reqs, restartableReqs, maxResourceList initReqs tmp).

Definition with_init (entries : Container Q -> ResourceList) (reqs : ResourceList) (inits : list (Container Q))
  : ResourceList :=
  let '(reqs, _, initReqs) := foldl (init_step entries) (reqs, ∅, ∅) inits in
  maxResourceList reqs initReqs.

(** [podRequests]. *)
Definition podRequests (pod : Pod Q) : ResourceList :=
  let reqs := foldl (fun reqs c => addResourceList reqs (container_requests pod c)) ∅ (ps_Containers (p_spec pod)) in
  let reqs := with_init c_Requests reqs (ps_InitContainers (p_spec pod)) in
  match ps_Overhead (p_spec pod) with
  | Some overhead => addResourceList reqs overhead
  | None => reqs
  end.

(** The overhead loop of [podLimits]: only limits that are set and not zero. *)
Definition overhead_entry (limits : ResourceList) (e : string * Q) : ResourceList :=
  match limits !! e.1 with
  | Some value => if negb (q_IsZero value) then <[e.1 := q_Add value e.2]> limits else limits
  | None => limits
  end.

(** [podLimits]. *)
Definition podLimits (pod : Pod Q) : ResourceList :=
  let limits := foldl (fun limits c => addResourceList limits (c_Limits c)) ∅ (ps_Containers (p_spec pod)) in
  let limits := with_init c_Limits limits (ps_InitContainers (p_spec pod)) in
  match ps_Overhead (p_spec pod) with
  | Some overhead => foldl overhead_entry limits (map_range overhead)
  | None => limits
  end.

(** [PodRequestsAndLimits]. *)
Definition PodRequestsAndLimits (pod : Pod Q) : ResourceList * ResourceList := (podRequests pod, podLimits pod).

(** [computeTotalRequests] of [cluster.go]. *)
Definition total_entry (total : ResourceList) (e : string * Q) : ResourceList :=
  match total !! e.1 with
  | None => <[e.1 := e.2]> total
  | Some v => <[e.1 := q_Add v e.2]> total
  end.
Definition computeTotalRequests (pods : list (Pod Q)) : ResourceList :=
  foldl (fun total pod => foldl total_entry total (map_range (PodRequestsAndLimits pod).1)) ∅ pods.
End Resources.

(** ** Folds over the entries of a map *)

(** A step that changes only the entry of its own name, by [g]. *)
Definition entrywise {Q} (step : gmap string Q -> string * Q -> gmap string Q) (g : string -> option Q -> Q -> option Q) : Prop :=
  forall m k q k', step m (k, q) !! k' = if decide (k' = k) then g k (m !! k) q else m !! k'.

(** The result of the loop, entry by entry, whatever the order of the map. *)
Lemma foldl_entrywise {Q} step (g : string -> option Q -> Q -> option Q) m (es : list (string * Q)) k :
  entrywise step g -> NoDup es.*1 ->
  foldl step m es !! k = match (list_to_map es : gmap string Q) !! k with Some q => g k (m !! k) q | None => m !! k end.
Proof.
  intros Hs. revert m. induction es as [|[k0 q0] es IH]; intros m Hnd.
  { by rewrite list_to_map_nil, lookup_empty. }
  apply NoDup_cons in Hnd as [Hn Hnd]. cbn [foldl fst snd] in *. rewrite IH, list_to_map_cons by done.
  cbn [fst snd]. rewrite (Hs m k0 q0 k). destruct (decide (k = k0)) as [->|Hk].
  - by rewrite not_elem_of_list_to_map_1, lookup_insert_eq.
  - by rewrite lookup_insert_ne.
Qed.

Lemma foldl_map_entrywise {Q} `{!MapRange Q, !RangeLaws Q} step (g : string -> option Q -> Q -> option Q) m (n : gmap string Q) k :
  entrywise step g ->
  foldl step m (map_range n) !! k = match n !! k with Some q => g k (m !! k) q | None => m !! k end.
Proof.
  intros Hs. assert (Hnd : NoDup (map_range n).*1) by (rewrite map_range_perm; apply NoDup_fst_map_to_list).
  rewrite (foldl_entrywise _ g) by done.
  by rewrite (list_to_map_proper _ _ Hnd (map_range_perm n)), list_to_map_to_list.
Qed.

Section ResourceFacts.
Context {Q : Type} `{!QuantityOps Q, !QuantityLaws Q, !MapRange Q, !RangeLaws Q}.
Abbreviation ResourceList := (gmap string Q).

(** The amount of a resource in a list, 0 when it is not named. *)
Definition amount (m : ResourceList) (k : string) : Z :=
  match m !! k with Some q => q_amount q | None => 0%Z end.
Definition nonneg (m : ResourceList) : Prop := forall k q, m !! k = Some q -> (0 <= q_amount q)%Z.

Lemma amount_empty k : amount ∅ k = 0%Z.
Proof. unfold amount. by rewrite lookup_empty. Qed.
Lemma amount_nonneg m k : nonneg m -> (0 <= amount m k)%Z.
Proof. intros Hm. unfold amount. destruct (m !! k) eqn:E; [by eapply Hm|lia]. Qed.
Lemma nonneg_empty : nonneg ∅.
Proof. intros k q. by rewrite lookup_empty. Qed.

Lemma add_entrywise : entrywise (Q:=Q) add_entry (fun _ o q => Some (match o with Some v => q_Add v q | None => q end)).
Proof.
  intros m k q k'. unfold add_entry. cbn [fst snd]. destruct (m !! k) as [v|] eqn:E;
    (destruct (decide (k' = k)) as [->|]; [by rewrite lookup_insert_eq|by rewrite lookup_insert_ne]).
Qed.

Lemma addResourceList_lookup l n k :
  addResourceList l n !! k =
  match n !! k with Some q => Some (match l !! k with Some v => q_Add v q | None => q end) | None => l !! k end.
Proof. apply (foldl_map_entrywise _ _ _ _ _ add_entrywise). Qed.

Lemma addResourceList_amount l n k : amount (addResourceList l n) k = (amount l k + amount n k)%Z.
Proof.
  unfold amount. rewrite addResourceList_lookup. destruct (n !! k) as [q|]; [|lia].
  destruct (l !! k); [by rewrite q_Add_amount|lia].
Qed.

Lemma addResourceList_nonneg l n : nonneg l -> nonneg n -> nonneg (addResourceList l n).
Proof.
  intros Hl Hn k q. rewrite addResourceList_lookup. destruct (n !! k) as [b|] eqn:En; [|by apply Hl].
  intros [= <-]. specialize (Hn k b En). destruct (l !! k) as [a|] eqn:El; [|done].
  specialize (Hl k a El). rewrite q_Add_amount. lia.
Qed.

Lemma max_entrywise : entrywise (Q:=Q) max_entry
  (fun _ o q => Some (match o with Some v => match q_Cmp q v with Gt => q | _ => v end | None => q end)).
Proof.
  intros m k q k'. unfold max_entry. cbn [fst snd]. destruct (m !! k) as [v|] eqn:E;
    [destruct (q_Cmp q v)|]; (destruct (decide (k' = k)) as [->|]; [by rewrite ?lookup_insert_eq, ?E|by rewrite ?lookup_insert_ne]).
Qed.

Lemma maxResourceList_lookup l n k :
  maxResourceList l n !! k =
  match n !! k with
  | Some q => Some (match l !! k with Some v => match q_Cmp q v with Gt => q | _ => v end | None => q end)
  | None => l !! k
  end.
Proof. apply (foldl_map_entrywise _ _ _ _ _ max_entrywise). Qed.

Lemma maxResourceList_amount l n k :
  nonneg l -> nonneg n -> amount (maxResourceList l n) k = Z.max (amount l k) (amount n k).
Proof.
  intros Hl Hn. unfold amount. rewrite maxResourceList_lookup. destruct (n !! k) as [q|] eqn:En.
  - specialize (Hn k q En). destruct (l !! k) as [v|] eqn:El; [|lia].
    rewrite q_Cmp_amount. destruct (Z.compare_spec (q_amount q) (q_amount v)); lia.
  - destruct (l !! k) as [v|] eqn:El; [|lia]. specialize (Hl k v El). lia.
Qed.

Lemma maxResourceList_nonneg l n : nonneg l -> nonneg n -> nonneg (maxResourceList l n).
Proof.
  intros Hl Hn k q. rewrite maxResourceList_lookup. destruct (n !! k) as [b|] eqn:En; [|by apply Hl].
  intros [= <-]. specialize (Hn k b En). destruct (l !! k) as [a|] eqn:El; [|done].
  specialize (Hl k a El). by destruct (q_Cmp b a).
Qed.

Lemma max_first_entrywise b : entrywise (Q:=Q) (max_first b)
  (fun k _ q => Some (match b !! k with Some o => match q_Cmp q o with Gt => q | _ => o end | None => q end)).
Proof.
  intros m k q k'. unfold max_first. cbn [fst snd]. destruct (b !! k) as [o|];
    [destruct (q_Cmp q o)|]; (destruct (decide (k' = k)) as [->|]; [by rewrite lookup_insert_eq|by rewrite lookup_insert_ne]).
Qed.
Lemma max_second_entrywise : entrywise (Q:=Q) max_second (fun _ o q => Some (default q o)).
Proof.
  intros m k q k'. unfold max_second. cbn [fst snd]. destruct (m !! k) as [v|] eqn:E;
    (destruct (decide (k' = k)) as [->|]; [by rewrite ?lookup_insert_eq, ?E|by rewrite ?lookup_insert_ne]).
Qed.

Lemma resource_max_lookup a b k :
  resource_max a b !! k =
  match a !! k, b !! k with
  | Some v, Some o => Some (match q_Cmp v o with Gt => v | _ => o end)
  | Some v, None => Some v
  | None, o => o
  end.
Proof.
  unfold resource_max. rewrite (foldl_map_entrywise _ _ _ _ _ max_second_entrywise).
  rewrite (foldl_map_entrywise _ _ _ _ _ (max_first_entrywise b)), lookup_empty.
  by destruct (a !! k), (b !! k).
Qed.

Lemma resource_max_amount a b k :
  nonneg a -> nonneg b -> amount (resource_max a b) k = Z.max (amount a k) (amount b k).
Proof.
  intros Ha Hb. unfold amount. rewrite resource_max_lookup.
  destruct (a !! k) as [v|] eqn:Ea, (b !! k) as [o|] eqn:Eb.
  - rewrite q_Cmp_amount. destruct (Z.compare_spec (q_amount v) (q_amount o)); lia.
  - specialize (Ha k v Ea). lia.
  - specialize (Hb k o Eb). lia.
  - lia.
Qed.
Lemma resource_max_nonneg a b : nonneg a -> nonneg b -> nonneg (resource_max a b).
Proof.
  intros Ha Hb k q. rewrite resource_max_lookup.
  destruct (a !! k) as [v|] eqn:Ea, (b !! k) as [o|] eqn:Eb; [|naive_solver..].
  specialize (Ha k v Ea). specialize (Hb k o Eb). destruct (q_Cmp v o); by intros [= <-].
Qed.

(** ** The Kubernetes formula *)

(** Sum of an amount over a list. *)
Definition sum_of {A} (f : A -> Z) (l : list A) : Z := foldr (fun x acc => (f x + acc)%Z) 0%Z l.

Lemma sum_of_cons {A} (f : A -> Z) x l : sum_of f (x :: l) = (f x + sum_of f l)%Z.
Proof. done. Qed.

(** The peak of the init phase, with [acc] already running: a restartable
    container stays, any other one runs on its own beside them. *)
Fixpoint init_peak (f : Container Q -> Z) (acc : Z) (inits : list (Container Q)) : Z :=
  match inits with
  | [] => 0%Z
  | c :: rest =>
      if restartable c then Z.max (acc + f c) (init_peak f (acc + f c) rest)
      else Z.max (f c + acc) (init_peak f acc rest)
  end.

(** The amount of [k] that a pod holds: its containers and the restartable init
    containers together, or the peak of the init phase if that is more. *)
Definition pod_amount (f g : Container Q -> Z) (containers inits : list (Container Q)) : Z :=
  Z.max (sum_of f containers + sum_of g (filter (fun c => restartable c) inits)) (init_peak g 0 inits).

Lemma sum_foldl (entries : Container Q -> ResourceList) reqs cs k :
  Forall (fun c => nonneg (entries c)) cs -> nonneg reqs ->
  let r := foldl (fun reqs c => addResourceList reqs (entries c)) reqs cs in
  nonneg r /\ amount r k = (amount reqs k + sum_of (fun c => amount (entries c) k) cs)%Z.
Proof.
  intros Hcs. revert reqs. induction Hcs as [|c cs Hc Hcs IH]; intros reqs Hr; cbv zeta; cbn [foldl].
  - split; [done|]. unfold sum_of. simpl. lia.
  - destruct (IH (addResourceList reqs (entries c))) as [Hn ->]; [by apply addResourceList_nonneg|].
    split; [done|]. rewrite addResourceList_amount, sum_of_cons. lia.
Qed.

Lemma init_foldl entries inits reqs rs peak k :
  Forall (fun c => nonneg (entries c)) inits -> nonneg reqs -> nonneg rs -> nonneg peak ->
  let '(reqs', _, peak') := foldl (init_step entries) (reqs, rs, peak) inits in
  nonneg reqs' /\ nonneg peak' /\
  amount reqs' k = (amount reqs k + sum_of (fun c => amount (entries c) k) (filter (fun c => restartable c) inits))%Z /\
  amount peak' k = Z.max (amount peak k) (init_peak (fun c => amount (entries c) k) (amount rs k) inits).
Proof.
  intros Hcs. revert reqs rs peak. induction Hcs as [|c cs Hc Hcs IH]; intros reqs rs peak H1 H2 H3.
  { cbn. split; [done|]. split; [done|]. pose proof (amount_nonneg peak k H3). split; lia. }
  cbn [foldl init_peak]. unfold init_step at 2. rewrite filter_cons. destruct (restartable c) eqn:Hres.
  - pose proof (addResourceList_nonneg _ _ H1 Hc) as H1'. pose proof (addResourceList_nonneg _ _ H2 Hc) as H2'.
    specialize (IH _ _ _ H1' H2' (maxResourceList_nonneg _ _ H3 H2')).
    destruct (foldl _ _ _) as [[reqs' rs'] peak']. destruct IH as (? & ? & -> & ->).
    split; [done|]. split; [done|]. rewrite maxResourceList_amount, !addResourceList_amount by done.
    rewrite decide_True, sum_of_cons by done. split; lia.
  - assert (Ht : nonneg (addResourceList (addResourceList ∅ (entries c)) rs)).
    { apply addResourceList_nonneg; [apply addResourceList_nonneg; [apply nonneg_empty|done]|done]. }
    specialize (IH _ _ _ H1 H2 (maxResourceList_nonneg _ _ H3 Ht)).
    destruct (foldl _ _ _) as [[reqs' rs'] peak']. destruct IH as (? & ? & -> & ->).
    split; [done|]. split; [done|]. rewrite maxResourceList_amount, !addResourceList_amount, amount_empty by done.
    rewrite decide_False by (intros []). split; lia.
Qed.

Lemma with_init_amount entries reqs inits k :
  Forall (fun c => nonneg (entries c)) inits -> nonneg reqs ->
  nonneg (with_init entries reqs inits) /\
  amount (with_init entries reqs inits) k =
  Z.max (amount reqs k + sum_of (fun c => amount (entries c) k) (filter (fun c => restartable c) inits))
        (init_peak (fun c => amount (entries c) k) 0 inits).
Proof.
  intros Hi Hr. unfold with_init.
  pose proof (init_foldl entries inits reqs ∅ ∅ k Hi Hr nonneg_empty nonneg_empty) as H.
  destruct (foldl _ _ _) as [[reqs' rs'] peak']. destruct H as (H1 & H2 & H3 & H4).
  split; [by apply maxResourceList_nonneg|]. rewrite maxResourceList_amount, H3, H4, amount_empty by done.
  pose proof (amount_nonneg _ k H1) as H5. rewrite H3 in H5. lia.
Qed.

(** All the amounts of a pod are non-negative. *)
Definition pod_nonneg (pod : Pod Q) : Prop :=
  Forall (fun c => nonneg (c_Requests c) /\ nonneg (c_Limits c))
         (ps_Containers (p_spec pod) ++ ps_InitContainers (p_spec pod)) /\
  Forall (fun s => forall m, cs_Resources s = Some m -> nonneg m) (pst_ContainerStatuses (p_status pod)) /\
  (forall m, ps_Overhead (p_spec pod) = Some m -> nonneg m).

Lemma container_statuses_in (sts : list (ContainerStatus Q)) n s : container_statuses sts !! n = Some s -> s ∈ sts.
Proof.
  unfold container_statuses. induction sts as [|s0 sts IH] using rev_ind;
    [cbn [foldl]; by rewrite lookup_empty|].
  rewrite foldl_app. cbn [foldl]. destruct (decide (cs_Name s0 = n)) as [<-|Hn].
  - rewrite lookup_insert_eq. intros [= ->]. set_solver.
  - rewrite lookup_insert_ne by done. intros H%IH. set_solver.
Qed.

Lemma container_requests_nonneg pod c :
  pod_nonneg pod -> c ∈ ps_Containers (p_spec pod) -> nonneg (container_requests pod c).
Proof.
  intros (Hc & Hs & _) Hin. pose proof (proj1 (Forall_forall _ _) Hc) as Hc'.
  pose proof (proj1 (Forall_forall _ _) Hs) as Hs'.
  destruct (Hc' c) as [Hr _]; [set_solver|]. unfold container_requests.
  destruct (container_statuses _ !! _) as [cs|] eqn:E; [|done]. apply container_statuses_in in E.
  destruct (cs_Resources cs) as [m|] eqn:Em; [|done]. specialize (Hs' cs E m Em).
  case_bool_decide; [done|by apply resource_max_nonneg].
Qed.

(** What a container counts for: its request, or with a resize in progress the
    larger of the request and the amount in use, or the amount in use alone
    when the resize is not feasible. *)
Lemma container_requests_amount pod c k :
  pod_nonneg pod -> c ∈ ps_Containers (p_spec pod) ->
  amount (container_requests pod c) k =
  match container_statuses (pst_ContainerStatuses (p_status pod)) !! c_Name c ≫= cs_Resources with
  | Some used => if bool_decide (pst_Resize (p_status pod) = Infeasible) then amount used k
                 else Z.max (amount (c_Requests c) k) (amount used k)
  | None => amount (c_Requests c) k
  end.
Proof.
  intros (Hc & Hs & _) Hin. pose proof (proj1 (Forall_forall _ _) Hc) as Hc'.
  pose proof (proj1 (Forall_forall _ _) Hs) as Hs'.
  destruct (Hc' c) as [Hr _]; [set_solver|]. unfold container_requests.
  destruct (container_statuses _ !! _) as [cs|] eqn:E; [|done]. apply container_statuses_in in E. cbn.
  destruct (cs_Resources cs) as [m|] eqn:Em; [|done]. specialize (Hs' cs E m Em).
  case_bool_decide; [done|by apply resource_max_amount].
Qed.

Lemma podRequests_run pod k :
  pod_nonneg pod ->
  nonneg (podRequests pod) /\
  amount (podRequests pod) k =
  (pod_amount (fun c => amount (container_requests pod c) k) (fun c => amount (c_Requests c) k)
              (ps_Containers (p_spec pod)) (ps_InitContainers (p_spec pod)) +
   match ps_Overhead (p_spec pod) with Some m => amount m k | None => 0 end)%Z.
Proof.
  intros Hp. pose proof Hp as (Hc & _ & Ho). apply Forall_app in Hc as [_ Hi].
  assert (H1 : Forall (fun c => nonneg (container_requests pod c)) (ps_Containers (p_spec pod))).
  { apply Forall_forall. intros c. by apply container_requests_nonneg. }
  destruct (sum_foldl (container_requests pod) ∅ _ k H1 nonneg_empty) as [H2 H3]. cbv zeta in H2, H3.
  unfold podRequests. set (reqs := foldl _ _ _) in *.
  destruct (with_init_amount c_Requests reqs (ps_InitContainers (p_spec pod)) k) as [H4 H5]; [|done|].
  { eapply Forall_impl; [exact Hi|]. by intros c [? _]. }
  rewrite H3, amount_empty, Z.add_0_l in H5.
  destruct (ps_Overhead (p_spec pod)) as [m|] eqn:E.
  - split; [by apply addResourceList_nonneg, Ho|]. rewrite addResourceList_amount, H5. done.
  - split; [done|]. rewrite H5. unfold pod_amount. lia.
Qed.

(** C37. The requests counted for a pod follow the Kubernetes formula, for every
    resource and for any order in which Go visits its maps: the containers and the
    restartable init containers together, or the peak of the init phase if it
    is higher, plus the overhead of the pod. *)
Theorem podRequests_formula pod k :
  pod_nonneg pod ->
  amount (podRequests pod) k =
  (pod_amount (fun c => amount (container_requests pod c) k) (fun c => amount (c_Requests c) k)
              (ps_Containers (p_spec pod)) (ps_InitContainers (p_spec pod)) +
   match ps_Overhead (p_spec pod) with Some m => amount m k | None => 0 end)%Z.
Proof. intros Hp. by apply podRequests_run. Qed.

Lemma overhead_entrywise : entrywise (Q:=Q) overhead_entry
  (fun _ o q => match o with Some v => Some (if negb (q_IsZero v) then q_Add v q else v) | None => None end).
Proof.
  intros m k q k'. unfold overhead_entry. cbn [fst snd]. destruct (m !! k) as [v|] eqn:E; [destruct (q_IsZero v)|]; simpl;
    (destruct (decide (k' = k)) as [->|]; [by rewrite ?lookup_insert_eq, ?E|by rewrite ?lookup_insert_ne]).
Qed.

(** C31. The limits of a pod follow the same formula over the limits, except that
    the overhead is added only to a limit that is set and not zero: an
    unlimited resource stays unlimited. *)
Theorem podLimits_formula pod k :
  pod_nonneg pod ->
  let base := pod_amount (fun c => amount (c_Limits c) k) (fun c => amount (c_Limits c) k)
                (ps_Containers (p_spec pod)) (ps_InitContainers (p_spec pod)) in
  amount (podLimits pod) k =
  (base + if (base =? 0)%Z then 0 else match ps_Overhead (p_spec pod) with Some m => amount m k | None => 0 end)%Z.
Proof.
  intros (Hc & _ & _). apply Forall_app in Hc as [Hc Hi].
  assert (H1 : Forall (fun c : Container Q => nonneg (c_Limits c)) (ps_Containers (p_spec pod))).
  { eapply Forall_impl; [exact Hc|]. by intros c [_ ?]. }
  destruct (sum_foldl c_Limits ∅ _ k H1 nonneg_empty) as [H2 H3]. cbv zeta in H2, H3.
  unfold podLimits. set (limits := foldl _ _ (ps_Containers _)) in *.
  destruct (with_init_amount c_Limits limits (ps_InitContainers (p_spec pod)) k) as [_ H5]; [|done|].
  { eapply Forall_impl; [exact Hi|]. by intros c [_ ?]. }
  rewrite H3, amount_empty, Z.add_0_l in H5. unfold pod_amount. rewrite <- H5. clear H3 H5.
  destruct (ps_Overhead (p_spec pod)) as [m|]; [|by destruct (_ =? _)%Z; lia].
  unfold amount at 1. rewrite (foldl_map_entrywise _ _ _ _ _ overhead_entrywise). unfold amount.
  destruct (with_init _ _ _ !! k) as [v|], (m !! k) as [q|]; simpl; try lia.
  - rewrite q_IsZero_amount. destruct (Z.eqb_spec (q_amount v) 0); simpl; [lia|]. by rewrite q_Add_amount.
  - destruct (_ =? _)%Z; lia.
Qed.

Lemma total_entry_add (total : ResourceList) e : total_entry total e = add_entry total e.
Proof. done. Qed.

(** The total over a list of pods is, for every resource, the sum of what the
    pods request. *)
Theorem computeTotalRequests_sum pods k :
  amount (computeTotalRequests pods) k = sum_of (fun pod => amount (podRequests pod) k) pods.
Proof.
  unfold computeTotalRequests.
  assert (H : forall total, amount (foldl (fun total pod => foldl total_entry total
      (map_range (PodRequestsAndLimits pod).1)) total pods) k =
      (amount total k + sum_of (fun pod => amount (podRequests pod) k) pods)%Z).
  { induction pods as [|p pods IH]; intros total; cbn [foldl]; [unfold sum_of; simpl; lia|].
    rewrite IH, sum_of_cons. change (foldl total_entry total _) with (addResourceList total (podRequests p)).
    rewrite addResourceList_amount. lia. }
  by rewrite H, amount_empty.
Qed.
End ResourceFacts.

(** Go may choose another order in every loop: with any two orders a loop gives
    the same list. *)
Lemma loops_any_order {Q} `{!QuantityOps Q} (r1 r2 : MapRange Q) l n :
  RangeLaws Q (MapRange0:=r1) -> RangeLaws Q (MapRange0:=r2) ->
  addResourceList (MapRange0:=r1) l n = addResourceList (MapRange0:=r2) l n /\
  maxResourceList (MapRange0:=r1) l n = maxResourceList (MapRange0:=r2) l n /\
  resource_max (MapRange0:=r1) l n = resource_max (MapRange0:=r2) l n.
Proof.
  intros H1 H2. split; [|split]; apply map_eq; intros k.
  - by rewrite !addResourceList_lookup.
  - by rewrite !maxResourceList_lookup.
  - by rewrite !resource_max_lookup.
Qed.

(** ** Whole numbers as quantities *)

#[export] Instance Z_QuantityOps : QuantityOps Z := {
  q_Add := Z.add; q_Cmp := Z.compare; q_IsZero z := (z =? 0)%Z
}.
#[export] Instance Z_MapRange : MapRange Z := map_to_list.
#[export] Instance Z_RangeLaws : RangeLaws Z.
Proof. by intros m. Qed.
#[export] Instance Z_QuantityLaws : QuantityLaws Z.
Proof. refine {| q_amount := fun z => z |}; done. Defined.

(** One container of 2, a restartable init container of 1, then an init
    container of 4, and an overhead of 1. *)
Definition sample_sized_pod : Pod Z :=
  let c n p := mkContainer "c" {[ "cpu" := n ]} {[ "cpu" := n ]} p in
  mkPod (mkMeta "p" "default" None)
        (mkPodSpec [] "" [c 2%Z None] [c 1%Z (Some Always); c 4%Z None] (Some {[ "cpu" := 1%Z ]}) None)
        (mkPodStatus [] "").

Lemma singleton_nonneg (z : Z) k : (0 <= z)%Z -> nonneg ({[ k := z ]} : gmap string Z).
Proof. intros Hz k' q H. apply lookup_singleton_Some in H as [_ <-]. exact Hz. Qed.

Lemma sample_sized_pod_nonneg : pod_nonneg sample_sized_pod.
Proof.
  split; [|split].
  - repeat constructor; apply singleton_nonneg; lia.
  - constructor.
  - intros m [= <-]. apply singleton_nonneg. lia.
Qed.

Lemma podRequests_formula_witness : amount (podRequests sample_sized_pod) "cpu" = 6%Z.
Proof.
  etransitivity; [exact (podRequests_formula sample_sized_pod "cpu" sample_sized_pod_nonneg)|].
  vm_compute. reflexivity.
Defined.

Lemma podLimits_formula_witness : amount (podLimits sample_sized_pod) "cpu" = 6%Z.
Proof.
  etransitivity; [exact (podLimits_formula sample_sized_pod "cpu" sample_sized_pod_nonneg)|].
  vm_compute. reflexivity.
Defined.
