(* ===== verification/Jgf.v ===== *)
(** * The JSON graph of the cluster: [pkg/jgf]

    [types.go] and [jgf.go]: a graph of vertices and edges that is only ever
    extended, with counters that give every vertex its number.  The graph is a
    value, and every method returns the graph after the call. *)

From Stdlib Require Import Ascii.
From stdpp Require Import base option strings gmap numbers list pretty.
From S2P Require Import Prelude GoStrings.

Module Jgf.

(** ** [types.go] *)

Record nodeMetadata := mkNodeMetadata {
  nm_Type : string;
  nm_Basename : string;
  nm_Name : string;
  nm_Id : Z;
  nm_Uniq_id : Z;
  nm_Rank : Z;
  nm_Exclusive : bool;
  nm_Unit : string;
  nm_Size : Z;
  nm_Paths : gmap string string
}.

Record Node := mkVertex { v_Id : string; v_Metadata : nodeMetadata }.

(** [Label], [Properties] and [Directed] are never set. *)
Record edge := mkEdge { e_Source : string; e_Relation : string; e_Target : string; e_Subsystem : string }.

Record graph := mkJGraph { jg_Nodes : list Node; jg_Edges : list edge }.

Record ResourceCounter := mkCounter { rc_counts : gmap string Z; rc_Elements : Z; rc_RootName : string }.

Record FluxJGF := mkFluxJGF { g_Graph : graph; g_NodeMap : gmap string Node; g_Resources : ResourceCounter }.

Record ResourceCount := mkCount { ct_Name : string; ct_Type : string; ct_ElementId : Z; ct_Index : Z }.

Definition NameWithIndex (r : ResourceCount) : string := ct_Name r +:+ Itoa (ct_Index r).
Definition StringElementId (r : ResourceCount) : string := Itoa (ct_ElementId r).
Definition StringResourceIndex (r : ResourceCount) : string := Itoa (ct_Index r).

(** [NextIndex]. *)
Definition NextIndex (r : ResourceCounter) : Z * ResourceCounter :=
  (rc_Elements r, mkCounter (rc_counts r) (int64 (rc_Elements r + 1)) (rc_RootName r)).

(** [NextResourceIndex]. *)
Definition NextResourceIndex (resourceType : string) (r : ResourceCounter) : Z * ResourceCounter :=
  let nextIndex := default 0%Z (rc_counts r !! resourceType) in
  (nextIndex, mkCounter (<[resourceType := int64 (nextIndex + 1)]> (rc_counts r)) (rc_Elements r) (rc_RootName r)).

(** [getCounter]: the counts are kept by name. *)
Definition getCounter (resourceName resourceType : string) (r : ResourceCounter) : ResourceCount * ResourceCounter :=
  let '(index, r) := NextResourceIndex resourceName r in
  let '(element, r) := NextIndex r in
  (mkCount resourceName resourceType element index, r).

(** ** [jgf.go] *)

Definition ClusterType : string := "cluster".
Definition NodeType : string := "node".
Definition CoreType : string := "core".
Definition SubnetType : string := "subnet".
Definition MemoryType : string := "memory".
Definition NvidiaGPU : string := "nvidiagpu".
Definition GPUType : string := "gpu".
Definition ContainsRelation : string := "contains".
Definition InRelation : string := "in".
Definition containmentKey : string := "containment".

(** [NewFluxJGF]. *)
Definition NewFluxJGF : FluxJGF :=
  mkFluxJGF (mkJGraph [] []) ∅ (mkCounter {[ "cluster" := 1%Z ]} 0 "").

(** [path.Clean] on a rooted path: the parts between slashes, without empty and
    dot parts, and with every [..] taking away the part before it. *)
Definition clean_step (out : list string) (part : string) : list string :=
  if bool_decide (part = "") || bool_decide (part = ".") then out
  else if bool_decide (part = "..") then removelast out
  else out ++ [part].
Definition Clean (path : string) : string := "/" +:+ Join "/" (foldl clean_step [] (Split path "/")).

(** [getNodePath]. *)
Definition getNodePath (root subpath : string) : string :=
  Clean (if bool_decide (subpath = "") then "/" +:+ root else "/" +:+ root +:+ "/" +:+ subpath).

(** [getContainmentPath]. *)
Definition getContainmentPath (g : FluxJGF) (subpath : string) : gmap string string :=
  {[ containmentKey := getNodePath (rc_RootName (g_Resources g)) subpath ]}.

(** [MakeEdge]: the relation it is given is not stored. *)
Definition MakeEdge (source target contains : string) (g : FluxJGF) : FluxJGF :=
  mkFluxJGF (mkJGraph (jg_Nodes (g_Graph g)) (jg_Edges (g_Graph g) ++ [mkEdge source "" target containmentKey]))
            (g_NodeMap g) (g_Resources g).

(** [MakeBidirectionalEdge]. *)
Definition MakeBidirectionalEdge (parent child : string) (g : FluxJGF) : FluxJGF :=
  MakeEdge child parent InRelation (MakeEdge parent child ContainsRelation g).

(** [makeNewNode]. *)
Definition makeNewNode (resource : ResourceCount) (subpath unit : string) (size : Z) (g : FluxJGF) : Node * FluxJGF :=
  let newNode := mkVertex (StringElementId resource)
    (mkNodeMetadata (ct_Type resource) (ct_Name resource) (NameWithIndex resource) (ct_Index resource)
                    (ct_ElementId resource) (-1) false unit size (getContainmentPath g subpath)) in
  (newNode, mkFluxJGF (mkJGraph (jg_Nodes (g_Graph g) ++ [newNode]) (jg_Edges (g_Graph g)))
                      (<[v_Id newNode := newNode]> (g_NodeMap g)) (g_Resources g)).

Definition set_resources (g : FluxJGF) (r : ResourceCounter) : FluxJGF := mkFluxJGF (g_Graph g) (g_NodeMap g) r.
Definition set_index (r : ResourceCount) (i : Z) : ResourceCount := mkCount (ct_Name r) (ct_Type r) (ct_ElementId r) i.

(** The common body of the [Make] methods below the root: count, set the index,
    put the name below [subpath]. *)
Definition make_under (name type : string) (parent : option string) (unit : string) (size index : Z) (g : FluxJGF)
  : Node * FluxJGF :=
  let '(resource, r) := getCounter name type (g_Resources g) in
  let g := set_resources g r in
  let resource := set_index resource index in
  let subpath := match parent with
                 | None => NameWithIndex resource
                 | Some p => p +:+ "/" +:+ NameWithIndex resource
                 end in
  makeNewNode resource subpath unit size g.

(** [MakeSubnet], [MakeNode], [MakeCore], [MakeMemory], [MakeGPU]. *)
Definition MakeSubnet (name : string) (index : Z) : FluxJGF -> Node * FluxJGF :=
  make_under name SubnetType None "" 1 index.
Definition MakeNode (name subpath : string) (index : Z) : FluxJGF -> Node * FluxJGF :=
  make_under name NodeType (Some subpath) "" 1 index.
Definition MakeCore (name subpath : string) (index : Z) : FluxJGF -> Node * FluxJGF :=
  make_under name CoreType (Some subpath) "" 1 index.
Definition MakeMemory (name subpath : string) (size index : Z) : FluxJGF -> Node * FluxJGF :=
  make_under name MemoryType (Some subpath) "MB" size index.
Definition MakeGPU (name subpath : string) (size index : Z) : FluxJGF -> Node * FluxJGF :=
  make_under name GPUType (Some subpath) "" size index.

(** [InitCluster]. *)
Definition InitCluster (name : string) (g : FluxJGF) : (option Node * error) * FluxJGF :=
  if (0 <? rc_Elements (g_Resources g))%Z
  then ((None, Some (Err "init can only be called for a new cluster")), g)
  else
    let r := g_Resources g in
    let g := set_resources g (mkCounter (rc_counts r) (rc_Elements r) (name +:+ "0")) in
    let '(resource, r) := getCounter name ClusterType (g_Resources g) in
    let '(n, g) := makeNewNode resource "" "" 1 (set_resources g r) in
    ((Some n, None), g).

Example init_path : nm_Paths (v_Metadata (List.hd (mkVertex "" (mkNodeMetadata "" "" "" 0 0 0 false "" 0 ∅))
    (jg_Nodes (g_Graph (InitCluster "cluster" NewFluxJGF).2)))) = {[ "containment" := "/cluster0" ]}.
Proof. vm_compute. reflexivity. Qed.
Example init_index : nm_Id (v_Metadata (List.hd (mkVertex "" (mkNodeMetadata "" "" "" 0 0 0 false "" 0 ∅))
    (jg_Nodes (g_Graph (InitCluster "cluster" NewFluxJGF).2)))) = 1%Z.
Proof. vm_compute. reflexivity. Qed.

(** ** The graph is a tree *)

(** The id of the [i]-th vertex, printed from its 64-bit counter. *)
Definition vertex_number (i : nat) : Z := int64 (Z.of_nat i).
Definition vertex_id (i : nat) : string := Itoa (vertex_number i).

(** The two edges of vertex [i + 1] and its parent. *)
Definition parent_edges (i p : nat) : list (string * string) :=
  [(vertex_id p, vertex_id (S i)); (vertex_id (S i), vertex_id p)].

Definition edge_ends (e : edge) : string * string := (e_Source e, e_Target e).

(** [par] lists the parents of the vertices after the root: the vertices are
    numbered in the order of creation, each has one parent before it, the edges
    are exactly those to and from the parents, and no vertex has a rank. *)
Record tree (par : list nat) (g : FluxJGF) : Prop := {
  tree_ids : v_Id <$> jg_Nodes (g_Graph g) = vertex_id <$> seq 0 (S (length par));
  tree_uniq : (fun n => nm_Uniq_id (v_Metadata n)) <$> jg_Nodes (g_Graph g) = vertex_number <$> seq 0 (S (length par));
  tree_elements : rc_Elements (g_Resources g) = vertex_number (S (length par));
  tree_parents i p : par !! i = Some p -> p <= i;
  tree_edges : edge_ends <$> jg_Edges (g_Graph g) = concat (imap parent_edges par);
  tree_ranks : Forall (fun n => nm_Rank (v_Metadata n) = (-1)%Z) (jg_Nodes (g_Graph g))
}.

(** One more vertex below vertex [p]. *)
Lemma tree_grow par g name type parent unit size index p :
  tree par g -> p <= length par ->
  let '(n, g') := make_under name type parent unit size index g in
  v_Id n = vertex_id (S (length par)) /\
  tree (par ++ [p]) (MakeBidirectionalEdge (vertex_id p) (v_Id n) g').
Proof.
  intros [H1 H2 H3 H4 H5 H6] Hp. unfold make_under, getCounter, NextResourceIndex, NextIndex. cbn.
  rewrite H3. split; [done|].
  split; cbn -[seq]; rewrite ?length_app; cbn [length].
  - rewrite fmap_app, H1, Nat.add_1_r, (seq_S (S (length par))), fmap_app. done.
  - rewrite fmap_app, H2, Nat.add_1_r, (seq_S (S (length par))), fmap_app. done.
  - unfold vertex_number, int64. rewrite wrap_add_l by lia. f_equal. lia.
  - intros i q [Hi|[Hi Hq]]%lookup_app_Some; [by apply H4|].
    destruct (i - length par) as [|] eqn:E; [|done]. injection Hq as <-. lia.
  - rewrite !fmap_app, H5, imap_app, concat_app, <- app_assoc. cbn.
    unfold parent_edges, edge_ends. cbn. unfold StringElementId, vertex_id. cbn.
    by rewrite Nat.add_0_r.
  - apply Forall_app. split; [done|by repeat constructor].
Qed.

Lemma tree_init name :
  exists n, (InitCluster name NewFluxJGF).1 = (Some n, None) /\ v_Id n = vertex_id 0 /\
    tree [] (InitCluster name NewFluxJGF).2.
Proof. eexists. split; [reflexivity|]. split; [done|]. split; try done. by repeat constructor. Qed.

(** Vertices have pairwise different ids, as long as the counter does not wrap. *)
Lemma tree_NoDup par g :
  tree par g -> (Z.of_nat (length par) < 2 ^ 63)%Z -> NoDup (v_Id <$> jg_Nodes (g_Graph g)).
Proof.
  intros [H1 _ _ _ _ _] Hb. rewrite H1. apply NoDup_fmap_2_strong; [|apply NoDup_seq].
  intros i j Hi%elem_of_seq Hj%elem_of_seq Hij. unfold vertex_id, vertex_number, Itoa, int64 in Hij.
  apply (inj pretty) in Hij. rewrite !wrap_id in Hij; unfold in_range; lia.
Qed.

(** Every edge joins two vertices of the graph. *)
Lemma tree_edges_closed par g e :
  tree par g -> e ∈ jg_Edges (g_Graph g) ->
  e_Source e ∈ (v_Id <$> jg_Nodes (g_Graph g)) /\ e_Target e ∈ (v_Id <$> jg_Nodes (g_Graph g)).
Proof.
  intros [H1 _ _ H4 H5 _] He. rewrite H1.
  assert (Hin : edge_ends e ∈ concat (imap parent_edges par)).
  { rewrite <- H5. by apply list_elem_of_fmap_2. }
  apply list_elem_of_In, in_concat in Hin as (l & Hl & Hin). apply list_elem_of_In in Hl, Hin.
  apply elem_of_lookup_imap in Hl as (i & p & -> & Hi).
  pose proof (H4 i p Hi) as Hp. apply lookup_lt_Some in Hi.
  assert (Hv : forall j, j <= length par -> vertex_id j ∈ (vertex_id <$> seq 0 (S (length par)))).
  { intros j Hj. apply list_elem_of_fmap_2, elem_of_seq. lia. }
  unfold parent_edges, edge_ends in Hin. apply elem_of_cons in Hin as [[= -> ->]|Hin].
  - split; apply Hv; lia.
  - apply list_elem_of_singleton in Hin as [= -> ->]. split; apply Hv; lia.
Qed.
End Jgf.
