(* ===== verification/JgfJson.v ===== *)
(** * The JSON of a graph: [ToBytes] and [ToJson] of [pkg/jgf/jgf.go]

    The members that [json.MarshalIndent] writes for the structs of
    [pkg/jgf/types.go], by their tags, and what the reader of allocations
    ([Allocation.v]) makes of them.  Fluxion answers in the format it was
    given, so this is the protocol in both directions. *)

From Stdlib Require Import Ascii.
From stdpp Require Import base option strings gmap numbers list sorting pretty.
From S2P Require Import Prelude GoStrings Json JsonEncode Jgf Allocation.

(** ** Members of the structs *)

(** The keys of a map are written in byte order. *)
Definition key_le (a b : string * json) : Prop := String.compare a.1 b.1 <> Gt.
#[export] Instance key_le_dec : RelDecision key_le.
Proof. intros a b. unfold key_le. apply _. Defined.

Definition map_json (m : gmap string string) : json :=
  JObj (merge_sort key_le ((fun kv => (kv.1, JStr kv.2)) <$> map_to_list m)).

(** A member with the [omitempty] option. *)
Definition omitempty (empty : bool) (key : string) (j : json) : list (string * json) :=
  if empty then [] else [(key, j)].

Definition metadata_json (m : Jgf.nodeMetadata) : json :=
  JObj ([("type", JStr (Jgf.nm_Type m)); ("basename", JStr (Jgf.nm_Basename m)); ("name", JStr (Jgf.nm_Name m));
         ("id", JNum (Itoa (Jgf.nm_Id m))); ("uniq_id", JNum (Itoa (Jgf.nm_Uniq_id m)))] ++
        omitempty (Jgf.nm_Rank m =? 0)%Z "rank" (JNum (Itoa (Jgf.nm_Rank m))) ++
        [("exclusive", JBool (Jgf.nm_Exclusive m)); ("unit", JStr (Jgf.nm_Unit m));
         ("size", JNum (Itoa (Jgf.nm_Size m)))] ++
        omitempty (bool_decide (Jgf.nm_Paths m = ∅)) "paths" (map_json (Jgf.nm_Paths m))).

(** [label] and [properties] are never set, and [metadata] is a struct, which
    [omitempty] does not drop. *)
Definition node_json (n : Jgf.Node) : json :=
  JObj [("id", JStr (Jgf.v_Id n)); ("metadata", metadata_json (Jgf.v_Metadata n))].

Definition edge_json (e : Jgf.edge) : json :=
  JObj ([("source", JStr (Jgf.e_Source e))] ++
        omitempty (bool_decide (Jgf.e_Relation e = "")) "relation" (JStr (Jgf.e_Relation e)) ++
        [("target", JStr (Jgf.e_Target e)); ("metadata", JObj [("subsystem", JStr (Jgf.e_Subsystem e))])]).

(** A slice that nothing was appended to is nil, which is written as [null]. *)
Definition slice_json {A} (f : A -> json) (l : list A) : json :=
  match l with [] => JNull | _ => JArr (f <$> l) end.

Definition graph_json (g : Jgf.graph) : json :=
  JObj [("nodes", slice_json node_json (Jgf.jg_Nodes g)); ("edges", slice_json edge_json (Jgf.jg_Edges g))].

(** [NodeMap] and [Resources] are tagged as not written. *)
Definition FluxJGF_json (g : Jgf.FluxJGF) : json := JObj [("graph", graph_json (Jgf.g_Graph g))].

(** [ToBytes]: no field of the structs makes [json.MarshalIndent] fail, so the
    branch that ends the process is not reached. *)
Definition ToBytes (g : Jgf.FluxJGF) : string * error := (MarshalIndent "  " (FluxJGF_json g), None).

(** [ToJson]. *)
Definition ToJson (g : Jgf.FluxJGF) : string * error := (MarshalIndent (String "009" "") (graph_json (Jgf.g_Graph g)), None).

(** ** The text is JSON for the value *)

Lemma wf_app m1 m2 : wf_json (JObj (m1 ++ m2)) <-> wf_json (JObj m1) /\ wf_json (JObj m2).
Proof. cbn. induction m1 as [|kv m1 IH]; cbn; tauto. Qed.

Lemma wf_members m : (forall kv, kv ∈ m -> wf_json kv.2) -> wf_json (JObj m).
Proof.
  cbn. induction m as [|kv m IH]; intros H; [done|]. cbn. split; [apply H; left|]. apply IH. intros. apply H. by right.
Qed.

Lemma wf_slice {A} (f : A -> json) l : (forall x, wf_json (f x)) -> wf_json (slice_json f l).
Proof.
  intros Hf. unfold slice_json. destruct l as [|x l]; [done|]. generalize (x :: l). clear x l.
  intros l. cbn. induction l; cbn; auto.
Qed.

Lemma wf_omitempty b k j : wf_json j -> wf_json (JObj (omitempty b k j)).
Proof. by destruct b; cbn. Qed.

Lemma wf_map m : wf_json (map_json m).
Proof.
  apply wf_members. intros kv Hkv. rewrite merge_sort_Permutation in Hkv.
  apply list_elem_of_fmap in Hkv as (x & -> & _). done.
Qed.

Lemma wf_node n : wf_json (node_json n).
Proof.
  cbn. split; [done|]. split; [|done]. change (wf_json (metadata_json (Jgf.v_Metadata n))).
  unfold metadata_json. rewrite !wf_app. cbn [wf_json foldr snd].
  repeat split; try apply Itoa_num_lit; apply wf_omitempty; [apply Itoa_num_lit|apply wf_map].
Qed.

Lemma wf_edge e : wf_json (edge_json e).
Proof. unfold edge_json. rewrite !wf_app. repeat split; by apply wf_omitempty. Qed.

Lemma wf_graph g : wf_json (graph_json g).
Proof. cbn. split; [apply wf_slice, wf_node|]. split; [apply wf_slice, wf_edge|done]. Qed.

Lemma two_spaces_ws s : skip_ws ("  " +:+ s) = skip_ws s.
Proof. done. Qed.

Lemma ToBytes_parses g : json_parse (ToBytes g).1 = Some (FluxJGF_json g).
Proof. apply json_parse_MarshalIndent; [apply two_spaces_ws|]. split; [apply wf_graph|done]. Qed.

Lemma ToJson_parses g : json_parse (ToJson g).1 = Some (graph_json (Jgf.g_Graph g)).
Proof. apply json_parse_MarshalIndent; [done|apply wf_graph]. Qed.

(** ** What the reader of allocations makes of it *)

Lemma first_error_None e : first_error e None = e.
Proof. by destruct e. Qed.
Lemma first_error_assoc a b c : first_error (first_error a b) c = first_error a (first_error b c).
Proof. by destruct a. Qed.

(** A struct decodes member by member. *)
Lemma dec_struct_cons {T} (field : string -> json -> T -> T * error) k v ms x :
  dec_struct field (JObj ((k, v) :: ms)) x =
  let '(x', e) := field (lower k) v x in
  let '(y, e') := dec_struct field (JObj ms) x' in (y, first_error e e').
Proof.
  cbn [dec_struct foldl]. set (step := fun (acc : T * error) (kv : string * json) => _).
  assert (Hgen : forall ms x e0, foldl step (x, e0) ms =
            let '(y, e) := foldl step (x, None) ms in (y, first_error e0 e)).
  { clear. intros ms. induction ms as [|kv ms IH]; intros x e0; cbn [foldl]; [by rewrite first_error_None|].
    unfold step at 2 4. destruct (field (lower kv.1) kv.2 x) as [x' e']. rewrite IH, (IH x' (first_error None e')).
    destruct (foldl step (x', None) ms) as [y e]. by rewrite first_error_assoc. }
  unfold step at 2. cbn [fst snd]. destruct (field (lower k) v x) as [x' e].
  rewrite Hgen. fold step.
  destruct (foldl step (x', None) ms) as [y e']. done.
Qed.

Lemma dec_struct_nil {T} (field : string -> json -> T -> T * error) x : dec_struct field (JObj []) x = (x, None).
Proof. done. Qed.

(** Evaluate the comparisons of literal member names. *)
Ltac eval_keys :=
  repeat match goal with
    | |- context [lower (String ?a ?b)] =>
        let v := eval vm_compute in (lower (String a b)) in change (lower (String a b)) with v
    | |- context [bool_decide (@eq string (String ?a ?b) (String ?c ?d))] =>
        let v := eval vm_compute in (bool_decide (@eq string (String a b) (String c d))) in
        change (bool_decide (@eq string (String a b) (String c d))) with v
    end; cbv iota.
Ltac dec_member := rewrite dec_struct_cons; eval_keys; unfold into; cbn [dec_string dec_bool].

Lemma dec_int_Itoa bits z old :
  (0 < bits)%Z -> in_range bits z -> dec_int bits (JNum (Itoa z)) old = (z, None).
Proof. intros Hb Hz. cbn. by rewrite ParseInt_Itoa_gen. Qed.

(** String members of a map, in any order. *)
Lemma foldl_dec_strings (l : list (string * string)) (m : gmap string string) :
  foldl (fun acc kv => let '(m, e) := acc in
                       let '(v, e') := dec_string kv.2 "" in (<[kv.1 := v]> m, first_error e e'))
        (m, None) ((fun kv => (kv.1, JStr kv.2)) <$> l) =
  (foldl (fun m kv => <[kv.1 := kv.2]> m) m l, None).
Proof. revert m. induction l as [|kv l IH]; intros m; [done|]. cbn. apply IH. Qed.

Lemma foldl_insert_lookup (l : list (string * string)) (m : gmap string string) k :
  NoDup l.*1 ->
  foldl (fun m kv => <[kv.1 := kv.2]> m) m l !! k = match (list_to_map l : gmap string string) !! k with Some v => Some v | None => m !! k end.
Proof.
  revert m. induction l as [|[k0 v0] l IH]; intros m Hnd; [done|]. cbn in Hnd. apply NoDup_cons in Hnd as [Hn Hnd].
  cbn [foldl fst snd list_to_map foldr uncurry]. rewrite IH by done.
  destruct (decide (k0 = k)) as [->|Hk].
  - rewrite lookup_insert_eq. rewrite not_elem_of_list_to_map_1 by done. by rewrite lookup_insert_eq.
  - by rewrite !lookup_insert_ne by done.
Qed.

Lemma dec_map_json m : dec_map (map_json m) ∅ = (m, None).
Proof.
  unfold map_json. cbn [dec_map].
  pose proof (merge_sort_Permutation key_le ((fun kv => (kv.1, JStr kv.2)) <$> map_to_list m)) as Hp.
  apply Permutation_map_inv in Hp as (l & -> & Hl).
  rewrite (foldl_dec_strings l ∅). f_equal. apply map_eq. intros k.
  assert (Hnd : NoDup l.*1) by (rewrite <- Hl; apply NoDup_fst_map_to_list).
  rewrite foldl_insert_lookup by done.
  rewrite <- (list_to_map_proper _ _ (NoDup_fst_map_to_list m) Hl), list_to_map_to_list, lookup_empty.
  by destruct (m !! k).
Qed.

(** The vertex as the reader of allocations keeps it. *)
Definition read_metadata (m : Jgf.nodeMetadata) : Metadata :=
  mkMetadata (Jgf.nm_Type m) (Jgf.nm_Id m) (Jgf.nm_Rank m) (Jgf.nm_Basename m) (Jgf.nm_Exclusive m) (Jgf.nm_Paths m).
Definition read_node (n : Jgf.Node) : Node := mkNode (Jgf.v_Id n) (read_metadata (Jgf.v_Metadata n)).
Definition read_edge (e : Jgf.edge) : Edges := mkEdges (Jgf.e_Source e) (Jgf.e_Target e).

(** The reader keeps index and rank in 32 bits. *)
Definition fits (n : Jgf.Node) : Prop :=
  in_range 32 (Jgf.nm_Id (Jgf.v_Metadata n)) /\ in_range 32 (Jgf.nm_Rank (Jgf.v_Metadata n)).

Lemma dec_metadata_json m :
  in_range 32 (Jgf.nm_Id m) -> in_range 32 (Jgf.nm_Rank m) ->
  dec_Metadata (metadata_json m) zero_Metadata = (read_metadata m, None).
Proof.
  intros Hid Hrank. unfold dec_Metadata, metadata_json, zero_Metadata, read_metadata. cbn [app].
  do 3 dec_member. dec_member. rewrite dec_int_Itoa by done. dec_member. unfold omitempty.
  assert (Hpaths : forall x, md_Paths x = ∅ ->
    dec_Metadata (JObj (if bool_decide (Jgf.nm_Paths m = ∅) then [] else [("paths", map_json (Jgf.nm_Paths m))])) x =
    (mkMetadata (md_Type x) (md_Id x) (md_Rank x) (md_Basename x) (md_Exclusive x) (Jgf.nm_Paths m), None)).
  { intros [] Hx. cbn in Hx. subst. case_bool_decide as Hp; [by rewrite Hp|]. unfold dec_Metadata. dec_member.
    cbn [md_Paths]. rewrite dec_map_json. done. }
  unfold dec_Metadata in Hpaths.
  destruct (Z.eqb_spec (Jgf.nm_Rank m) 0) as [->|Hr]; cbn [app].
  - do 3 dec_member. rewrite Hpaths by done. done.
  - dec_member. rewrite dec_int_Itoa by done. do 3 dec_member. rewrite Hpaths by done. done.
Qed.

Lemma dec_node_json n : fits n -> dec_Node (node_json n) zero_Node = (read_node n, None).
Proof.
  intros [Hid Hr]. unfold dec_Node, node_json. dec_member. dec_member. cbn [nd_Metadata zero_Node].
  by rewrite dec_metadata_json.
Qed.

Lemma dec_edge_json e : dec_Edges (edge_json e) zero_Edges = (read_edge e, None).
Proof.
  unfold dec_Edges, edge_json, omitempty. case_bool_decide; cbn [app]; dec_member; repeat dec_member; done.
Qed.

Lemma dec_slice_json {A T} (d : Dec T) (zero : T) (f : A -> json) (g : A -> T) l :
  (forall x, x ∈ l -> d (f x) zero = (g x, None)) -> dec_slice d zero (slice_json f l) [] = (g <$> l, None).
Proof.
  intros Hd. unfold slice_json. destruct l as [|x l]; [done|]. revert Hd. generalize (x :: l). clear x l.
  intros l. cbn [dec_slice]. induction l as [|x l IH]; intros Hd; [done|]. cbn [dec_elems fmap list_fmap tail].
  rewrite Hd by (apply list_elem_of_here). rewrite IH; [done|]. intros y Hy. apply Hd. by apply list_elem_of_further.
Qed.

Lemma Unmarshal_ToBytes g :
  Forall fits (Jgf.jg_Nodes (Jgf.g_Graph g)) ->
  Unmarshal (ToBytes g).1 =
  (mkAllocation (mkGraph (read_node <$> Jgf.jg_Nodes (Jgf.g_Graph g)) (read_edge <$> Jgf.jg_Edges (Jgf.g_Graph g))), None).
Proof.
  intros Hf. unfold Unmarshal. rewrite ToBytes_parses. unfold dec_Allocation, FluxJGF_json. dec_member.
  unfold dec_Graph, graph_json. cbn [al_Graph zero_Allocation]. dec_member. cbn [gr_Nodes].
  rewrite (dec_slice_json _ _ _ read_node) by (intros x Hx; apply dec_node_json; by eapply Forall_forall in Hf).
  dec_member. cbn [gr_Edges]. rewrite (dec_slice_json _ _ _ read_edge) by (intros; apply dec_edge_json). done.
Qed.

(** The names of the vertices of type node. *)
Definition vertex_names (ns : list Jgf.Node) : list string :=
  (fun n => Jgf.nm_Basename (Jgf.v_Metadata n)) <$> filter (fun n => Jgf.nm_Type (Jgf.v_Metadata n) = "node") ns.

Lemma node_names_read ns : node_names (read_node <$> ns) = vertex_names ns.
Proof.
  unfold node_names, vertex_names. induction ns as [|n ns IH]; [done|].
  cbn [fmap list_fmap]. destruct (decide (Jgf.nm_Type (Jgf.v_Metadata n) = "node")).
  - rewrite !filter_cons_True by done. cbn. by f_equal.
  - rewrite !filter_cons_False by done. done.
Qed.

(** The nodes of a graph, read from its text by [parseNodes]. *)
Lemma parseNodes_ToBytes g :
  Forall fits (Jgf.jg_Nodes (Jgf.g_Graph g)) ->
  parseNodes (ToBytes g).1 = (first_occurrences (vertex_names (Jgf.jg_Nodes (Jgf.g_Graph g))), None).
Proof.
  intros Hf. unfold parseNodes. rewrite Unmarshal_ToBytes by done. cbn [al_Graph gr_Nodes].
  destruct (parse_loop_inv (read_node <$> Jgf.jg_Nodes (Jgf.g_Graph g))) as [-> _]. by rewrite node_names_read.
Qed.
