(* ===== verification/Cluster.v ===== *)
(** * The graph of the cluster: [internal/controller/cluster.go]

    The controller lists the nodes of the cluster and what their pods request,
    builds the graph of zones, nodes, GPUs, cores and memory that is left, and
    gives it to Fluxion.  The Kubernetes client, the files and Fluxion are
    services over an abstract state. *)

From Stdlib Require Import Ascii.
From stdpp Require Import base option strings gmap numbers list.
From S2P Require Import Prelude GoStrings Json Api Kube Jobspec Resources Allocation Jgf JgfJson.

Section Types.
Context (Q : Type).

(** The parts of a [corev1.Node] the program reads. *)
Record KubeNode := mkKubeNode {
  kn_Name : string;
  kn_Labels : gmap string string;
  kn_Unschedulable : bool;
  kn_Allocatable : gmap string Q
}.
End Types.
Arguments mkKubeNode {Q}. Arguments kn_Name {Q} _. Arguments kn_Labels {Q} _.
Arguments kn_Unschedulable {Q} _. Arguments kn_Allocatable {Q} _.

(** [Quantity.MilliValue]. *)
Class MilliQuantity (Q : Type) := q_MilliValue : Q -> Z.

(** The client set, the selector parser, the files and Fluxion.  Pods are listed
    in a namespace, or in all of them for the empty one, by a field selector. *)
Class ClusterClient (Q K : Type) := {
  rest_InClusterConfig : K -> error * K;
  cluster_NewForConfig : K -> error * K;
  nodes_List : K -> (list (KubeNode Q) * error) * K;
  fields_ParseSelector : string -> goerr + string;
  pods_ListField : string -> string -> K -> (list (Pod Q) * error) * K;
  os_Create : string -> K -> error * K;
  file_Write : string -> string -> K -> error * K;
  os_ReadFile : string -> K -> (string * error) * K;
  fluxion_Init : string -> string -> K -> error * K
}.

Definition defaultClusterName : string := "cluster".
Definition controlPlaneLabel : string := "node-role.kubernetes.io/control-plane".
Definition zoneLabel : string := "topology.kubernetes.io/zone".
Definition KubernetesJsonGraphFormat : string := "/kubecluster.json".

(** ** Building the graph *)

(** The graph, the lookup of subnets by zone, and the counter of subnets. *)
Record ClusterGraph := mkClusterGraph {
  cg_graph : Jgf.FluxJGF;
  cg_subnets : gmap string Jgf.Node;
  cg_subnetCounter : Z
}.

(** [count] vertices below [parent], made by [mk] from their index. *)
Definition add_children (mk : Z -> Jgf.FluxJGF -> Jgf.Node * Jgf.FluxJGF) (parent : string) (count : Z)
    (g : Jgf.FluxJGF) : Jgf.FluxJGF :=
  foldl (fun g index => let '(n, g) := mk (Z.of_nat index) g in Jgf.MakeBidirectionalEdge parent (Jgf.v_Id n) g)
        g (seq 0 (Z.to_nat count)).

Section Cluster.
Context {Q : Type} `{!Quantity Q, !QuantityOps Q, !MapRange Q, !MilliQuantity Q}.

(** Nodes that are left out: the control plane, nodes with the skip label, and
    nodes that are cordoned. *)
Definition skipped (skipLabel : string) (node : KubeNode Q) : bool :=
  bool_decide (is_Some (kn_Labels node !! controlPlaneLabel)) ||
  (negb (bool_decide (skipLabel = "")) && bool_decide (is_Some (kn_Labels node !! skipLabel))) ||
  kn_Unschedulable node.

(** A missing quantity counts as zero. *)
Definition milli (m : gmap string Q) (k : string) : Z := match m !! k with Some q => q_MilliValue q | None => 0%Z end.
Definition value (m : gmap string Q) (k : string) : Z := match m !! k with Some q => q_Value q | None => 0%Z end.

(** [availCpu], [availMem] and [fractionMem]: whole cores and GiB that the
    running pods leave; Go's division rounds to zero, its shift rounds down. *)
Definition availCpu (node : KubeNode Q) (pods : list (Pod Q)) : Z :=
  Z.quot (int64 (milli (kn_Allocatable node) "cpu" - milli (computeTotalRequests pods) "cpu")) 1000.
Definition availMem (node : KubeNode Q) (pods : list (Pod Q)) : Z :=
  int64 (value (kn_Allocatable node) "memory" - value (computeTotalRequests pods) "memory").
Definition fractionMem (node : KubeNode Q) (pods : list (Pod Q)) : Z := Z.shiftr (availMem node pods) 30.
Definition gpus (node : KubeNode Q) : Z := value (kn_Allocatable node) "nvidia.com/gpu".

(** The rest of one iteration, after the pods of the node are known.  The
    lookup of subnets is read, but nothing is ever stored in it. *)
Definition add_node (clusterNode : Jgf.Node) (nodeCount : nat) (node : KubeNode Q) (pods : list (Pod Q))
    (st : ClusterGraph) : ClusterGraph :=
  let subnetName := default "" (kn_Labels node !! zoneLabel) in
  let '(subnetNode, st) :=
    match cg_subnets st !! subnetName with
    | Some n => (n, st)
    | None =>
        let '(n, g) := Jgf.MakeSubnet subnetName (cg_subnetCounter st) (cg_graph st) in
        (n, mkClusterGraph (Jgf.MakeBidirectionalEdge (Jgf.v_Id clusterNode) (Jgf.v_Id n) g)
                           (cg_subnets st) (int64 (cg_subnetCounter st + 1)))
    end in
  let subnet := Jgf.nm_Name (Jgf.v_Metadata subnetNode) in
  let '(computeNode, g) := Jgf.MakeNode (kn_Name node) subnet (Z.of_nat nodeCount) (cg_graph st) in
  let g := Jgf.MakeBidirectionalEdge (Jgf.v_Id subnetNode) (Jgf.v_Id computeNode) g in
  let subpath := subnet +:+ "/" +:+ Jgf.nm_Name (Jgf.v_Metadata computeNode) in
  let parent := Jgf.v_Id computeNode in
  let g := add_children (Jgf.MakeGPU Jgf.NvidiaGPU subpath 1) parent (gpus node) g in
  let g := add_children (Jgf.MakeCore Jgf.CoreType subpath) parent (availCpu node pods) g in
  let g := add_children (Jgf.MakeMemory Jgf.MemoryType subpath 1024) parent (fractionMem node pods) g in
  mkClusterGraph g (cg_subnets st) (cg_subnetCounter st).

Context {K : Type} `{!ClusterClient Q K}.

(** A call to a service. *)
Definition call {A} (f : K -> A * K) : GoM K A := fun k => let '(a, k') := f k in (Ret a, k').

(** The loop over the nodes, from number [nodeCount]. *)
Fixpoint cluster_loop (skipLabel : string) (clusterNode : Jgf.Node) (nodeCount : nat) (nodes : list (KubeNode Q))
    (st : ClusterGraph) : GoM K (goerr + ClusterGraph) :=
  match nodes with
  | [] => mret (inr st)
  | node :: rest =>
      if skipped skipLabel node then cluster_loop skipLabel clusterNode (S nodeCount) rest st else
      let selection := "spec.nodeName=" +:+ kn_Name node +:+ ",status.phase!=Succeeded,status.phase!=Failed" in
      match fields_ParseSelector selection with
      | inl e => mret (inl e)
      | inr fieldselector =>
          '(pods, err) ← call (pods_ListField (Q:=Q) "" fieldselector);
          match err with
          | Some e => mret (inl e)
          | None => cluster_loop skipLabel clusterNode (S nodeCount) rest (add_node clusterNode nodeCount node pods st)
          end
      end
  end.

(** [WriteJGF] of [jgf.go]: a file error ends the process. *)
Definition WriteJGF (path : string) (g : Jgf.FluxJGF) : GoM K error :=
  let '(encoded, err) := ToBytes g in
  match err with
  | Some _ => mret err
  | None =>
      err ← call (os_Create path);
      match err with Some _ => panic "log.Fatalf" | None =>
      err ← call (file_Write path encoded);
      match err with Some _ => panic "log.Fatalf" | None => mret None end
      end
  end.

(** The graph of these nodes. *)
Definition cluster_graph (skipLabel : string) (nodes : list (KubeNode Q)) : GoM K (goerr + Jgf.FluxJGF) :=
  let '((clusterNode, err), g) := Jgf.InitCluster defaultClusterName Jgf.NewFluxJGF in
  match clusterNode, err with
  | Some clusterNode, None =>
      r ← cluster_loop skipLabel clusterNode 0 nodes (mkClusterGraph g ∅ 0);
      match r with inl e => mret (inl e) | inr st => mret (inr (cg_graph st)) end
  | _, Some e => mret (inl e)
  | None, None => panic "unreachable"
  end.

(** [createInClusterJGF]. *)
Definition createInClusterJGF (filename skipLabel : string) : GoM K error :=
  err ← call (rest_InClusterConfig (Q:=Q));
  match err with Some _ => mret err | None =>
  err ← call (cluster_NewForConfig (Q:=Q));
  match err with Some _ => mret err | None =>
  '(nodes, err) ← call (nodes_List (Q:=Q));
  match err with Some _ => mret err | None =>
  r ← cluster_graph skipLabel nodes;
  match r with
  | inl e => mret (Some e)
  | inr g => WriteJGF filename g
  end end end end.

(** [InitFluxion]; [Fluxion] says whether the reconciler has a client: a call
    on a nil interface panics. *)
Definition InitFluxion (Fluxion : bool) (policy : string) : GoM K error :=
  err ← createInClusterJGF KubernetesJsonGraphFormat "";
  match err with Some _ => mret err | None =>
  '(graph, err) ← call (os_ReadFile (Q:=Q) KubernetesJsonGraphFormat);
  match err with Some _ => mret err | None =>
  if Fluxion then call (fluxion_Init (Q:=Q) policy graph) else panic "nil pointer dereference"
  end end.
End Cluster.

Lemma call_ret {K A} (f : K -> A * K) k a k' : call f k = (Ret a, k') -> f k = (a, k').
Proof. unfold call. destruct (f k). by intros [= <- <-]. Qed.

(** ** The result *)

Section ClusterFacts.
Context {Q : Type} `{!Quantity Q, !QuantityOps Q, !MapRange Q, !MilliQuantity Q}.

(** A vertex as its type, basename and index. *)
Definition describe (n : Jgf.Node) : string * string * Z :=
  (Jgf.nm_Type (Jgf.v_Metadata n), Jgf.nm_Basename (Jgf.v_Metadata n), Jgf.nm_Id (Jgf.v_Metadata n)).
Definition vertices (g : Jgf.FluxJGF) : list (string * string * Z) := describe <$> Jgf.jg_Nodes (Jgf.g_Graph g).

(** [count] vertices of one type and name, numbered from 0. *)
Definition numbered (type name : string) (count : Z) : list (string * string * Z) :=
  (fun i => (type, name, Z.of_nat i)) <$> seq 0 (Z.to_nat count).

Lemma make_under_vertices name type parent unit size index g p :
  vertices (Jgf.MakeBidirectionalEdge p (Jgf.v_Id (Jgf.make_under name type parent unit size index g).1)
              (Jgf.make_under name type parent unit size index g).2) =
  vertices g ++ [(type, name, index)].
Proof. unfold vertices. cbn. by rewrite fmap_app. Qed.

(** [add_children] for a maker of the [Make] family. *)
Lemma add_children_spec name type parent unit size pid count g par p :
  let mk i := Jgf.make_under name type parent unit size i in
  Jgf.tree par g -> p <= length par -> pid = Jgf.vertex_id p ->
  (exists par', Jgf.tree par' (add_children mk pid count g) /\ length par <= length par') /\
  vertices (add_children mk pid count g) = vertices g ++ numbered type name count.
Proof.
  intros mk Ht Hp ->. unfold add_children, numbered. induction (Z.to_nat count) as [|n IH].
  { cbn. rewrite app_nil_r. eauto. }
  rewrite seq_S, foldl_app, fmap_app. cbn [foldl fmap list_fmap]. destruct IH as [(par' & Ht' & Hl) Hv].
  set (g' := foldl _ _ _) in *. cbn [Nat.add].
  pose proof (Jgf.tree_grow par' g' name type parent unit size (Z.of_nat n) p Ht' ltac:(lia)) as H.
  destruct (mk (Z.of_nat n) g') as [v g''] eqn:E. unfold mk in E. rewrite E in H. destruct H as [Hid Htr].
  split; [eexists; split; [exact Htr|]; rewrite length_app; simpl; lia|].
  pose proof (make_under_vertices name type parent unit size (Z.of_nat n) g' (Jgf.vertex_id p)) as Hm.
  rewrite E in Hm. cbn [fst snd] in Hm. by rewrite Hm, Hv, <- app_assoc.
Qed.

(** The vertices that one node adds: a subnet of its own, the node, its GPUs,
    and the cores and memory that are left. *)
Definition node_vertices (counter : Z) (nodeCount : nat) (node : KubeNode Q) (pods : list (Pod Q))
  : list (string * string * Z) :=
  [(Jgf.SubnetType, default "" (kn_Labels node !! zoneLabel), counter);
   (Jgf.NodeType, kn_Name node, Z.of_nat nodeCount)] ++
  numbered Jgf.GPUType Jgf.NvidiaGPU (gpus node) ++
  numbered Jgf.CoreType Jgf.CoreType (availCpu node pods) ++
  numbered Jgf.MemoryType Jgf.MemoryType (fractionMem node pods).

(** The state between two nodes. *)
Definition cluster_inv (clusterNode : Jgf.Node) (st : ClusterGraph) : Prop :=
  Jgf.v_Id clusterNode = Jgf.vertex_id 0 /\ cg_subnets st = ∅ /\ exists par, Jgf.tree par (cg_graph st).

(** One vertex below a known one. *)
Lemma grow_one name type parent unit size index g par p :
  Jgf.tree par g -> p <= length par ->
  let r := Jgf.make_under name type parent unit size index g in
  Jgf.v_Id r.1 = Jgf.vertex_id (S (length par)) /\
  Jgf.tree (par ++ [p]) (Jgf.MakeBidirectionalEdge (Jgf.vertex_id p) (Jgf.v_Id r.1) r.2).
Proof.
  intros Ht Hp. pose proof (Jgf.tree_grow par g name type parent unit size index p Ht Hp) as H.
  by destruct (Jgf.make_under name type parent unit size index g).
Qed.

Lemma add_node_spec clusterNode nodeCount (node : KubeNode Q) pods st :
  cluster_inv clusterNode st ->
  cluster_inv clusterNode (add_node clusterNode nodeCount node pods st) /\
  cg_subnetCounter (add_node clusterNode nodeCount node pods st) = int64 (cg_subnetCounter st + 1) /\
  vertices (cg_graph (add_node clusterNode nodeCount node pods st)) =
    vertices (cg_graph st) ++ node_vertices (cg_subnetCounter st) nodeCount node pods.
Proof.
  intros (Hc & Hs & par & Ht). unfold add_node. rewrite Hs, lookup_empty. cbv zeta.
  set (zone := default "" _).
  destruct (grow_one zone Jgf.SubnetType None "" 1 (cg_subnetCounter st) (cg_graph st) par 0 Ht ltac:(lia)) as [Hid1 Ht1].
  pose proof (make_under_vertices zone Jgf.SubnetType None "" 1 (cg_subnetCounter st) (cg_graph st) (Jgf.vertex_id 0)) as Hv1.
  unfold Jgf.MakeSubnet. destruct (Jgf.make_under zone _ _ _ _ _ _) as [sn g1]. cbn [fst snd] in *.
  cbn [cg_graph cg_subnets cg_subnetCounter]. rewrite Hc in *. set (g2 := Jgf.MakeBidirectionalEdge _ _ g1) in *.
  set (subnet := Jgf.nm_Name _).
  assert (Hp2 : S (length par) <= length (par ++ [0])) by (rewrite length_app; simpl; lia).
  destruct (grow_one (kn_Name node) Jgf.NodeType (Some subnet) "" 1 (Z.of_nat nodeCount) g2 _ _ Ht1 Hp2) as [Hid2 Ht2].
  pose proof (make_under_vertices (kn_Name node) Jgf.NodeType (Some subnet) "" 1 (Z.of_nat nodeCount) g2
                (Jgf.vertex_id (S (length par)))) as Hv2.
  unfold Jgf.MakeNode. destruct (Jgf.make_under (kn_Name node) _ _ _ _ _ _) as [cn g3]. cbn [fst snd] in *.
  rewrite Hid1. set (g4 := Jgf.MakeBidirectionalEdge _ _ g3) in *. set (sub := subnet +:+ _).
  set (par2 := (par ++ [0]) ++ [S (length par)]) in *. set (i := S (length (par ++ [0]))) in *.
  assert (Hp3 : i <= length par2) by (subst i par2; rewrite !length_app; simpl; lia).
  destruct (add_children_spec Jgf.NvidiaGPU Jgf.GPUType (Some sub) "" 1 (Jgf.v_Id cn) (gpus node) g4 par2 i Ht2 Hp3 Hid2)
    as [(par3 & Ht3 & Hl3) Hv3].
  destruct (add_children_spec Jgf.CoreType Jgf.CoreType (Some sub) "" 1 (Jgf.v_Id cn) (availCpu node pods) _ par3 i
              Ht3 ltac:(lia) Hid2) as [(par4 & Ht4 & Hl4) Hv4].
  destruct (add_children_spec Jgf.MemoryType Jgf.MemoryType (Some sub) "MB" 1024 (Jgf.v_Id cn) (fractionMem node pods) _
              par4 i Ht4 ltac:(lia) Hid2) as [(par5 & Ht5 & Hl5) Hv5].
  split; [|split; [done|]].
  - split; [done|]. split; [done|]. exists par5. exact Ht5.
  - etransitivity; [exact Hv5|]. rewrite Hv4, Hv3, Hv2, Hv1. unfold node_vertices.
    by rewrite <- !app_assoc.
Qed.

(** The nodes that are not left out, with their numbers. *)
Fixpoint eligible (skipLabel : string) (nodeCount : nat) (nodes : list (KubeNode Q)) : list (nat * KubeNode Q) :=
  match nodes with
  | [] => []
  | node :: rest =>
      if skipped skipLabel node then eligible skipLabel (S nodeCount) rest
      else (nodeCount, node) :: eligible skipLabel (S nodeCount) rest
  end.

(** The vertices of nodes with their pods, from subnet number [counter]. *)
Fixpoint graph_vertices (counter : Z) (l : list ((nat * KubeNode Q) * list (Pod Q))) : list (string * string * Z) :=
  match l with
  | [] => []
  | ((i, node), pods) :: rest => node_vertices counter i node pods ++ graph_vertices (int64 (counter + 1)) rest
  end.

Context {K : Type} `{!ClusterClient Q K}.

(** [pod_listing k l k']: from [k] to [k'] the pods of the nodes of [l] were
    listed, one node after the other, and each node stands in [l] with what the
    cluster answered for it: the pods of all namespaces on the node of that name
    that have neither succeeded nor failed. *)
Inductive pod_listing : K -> list ((nat * KubeNode Q) * list (Pod Q)) -> K -> Prop :=
  | listing_none k : pod_listing k [] k
  | listing_node i node pods l k k1 k' sel :
      fields_ParseSelector ("spec.nodeName=" +:+ kn_Name node +:+ ",status.phase!=Succeeded,status.phase!=Failed") = inr sel ->
      pods_ListField "" sel k = ((pods, None), k1) ->
      pod_listing k1 l k' ->
      pod_listing k (((i, node), pods) :: l) k'.

Lemma cluster_loop_spec skipLabel clusterNode nodeCount nodes st (k : K) st' k' :
  cluster_inv clusterNode st ->
  cluster_loop skipLabel clusterNode nodeCount nodes st k = (Ret (inr st'), k') ->
  cluster_inv clusterNode st' /\
  exists l, fst <$> l = eligible skipLabel nodeCount nodes /\ pod_listing k l k' /\
    vertices (cg_graph st') = vertices (cg_graph st) ++ graph_vertices (cg_subnetCounter st) l.
Proof.
  revert nodeCount st k. induction nodes as [|node nodes IH]; intros nodeCount st k Hinv H; cbn [cluster_loop eligible] in *.
  { injection H as <- <-. split; [done|]. exists []. cbn. rewrite app_nil_r. by repeat constructor. }
  destruct (skipped skipLabel node); [by eapply IH|].
  destruct (fields_ParseSelector _) as [e|sel] eqn:Esel; [done|].
  apply bind_ret_inv in H as ([pods [e|]] & k1 & Hp%call_ret & H); [done|].
  destruct (add_node_spec clusterNode nodeCount node pods st Hinv) as (Hinv' & Hc & Hv).
  destruct (IH _ _ _ Hinv' H) as (Hinv'' & l & Hl & Hk & Hv'). split; [done|].
  exists (((nodeCount, node), pods) :: l). split; [by rewrite fmap_cons, Hl|]. split; [by econstructor|].
  rewrite Hv', Hv, Hc. cbn [graph_vertices]. by rewrite <- app_assoc.
Qed.

Lemma cluster_graph_spec skipLabel nodes (k : K) g k' :
  cluster_graph skipLabel nodes k = (Ret (inr g), k') ->
  (exists par, Jgf.tree par g) /\
  exists l, fst <$> l = eligible skipLabel 0 nodes /\ pod_listing k l k' /\
    vertices g = (Jgf.ClusterType, defaultClusterName, 1%Z) :: graph_vertices 0 l.
Proof.
  unfold cluster_graph. destruct (Jgf.tree_init defaultClusterName) as (n & Hn & Hid & Ht).
  destruct (Jgf.InitCluster defaultClusterName Jgf.NewFluxJGF) as [[cn e] g0] eqn:E. cbn [fst snd] in *.
  injection Hn as -> ->. intros (r & k1 & Hl & H)%bind_ret_inv. destruct r as [e|st]; [done|]. injection H as <- <-.
  assert (Hinv : cluster_inv n (mkClusterGraph g0 ∅ 0)) by (split; [done|]; split; [done|]; by exists []).
  destruct (cluster_loop_spec _ _ _ _ _ _ _ _ Hinv Hl) as ((_ & _ & Htr) & l & Hel & Hk & Hv).
  split; [done|]. exists l. do 2 (split; [done|]). rewrite Hv. vm_compute in E. injection E as _ <-. done.
Qed.

(** C28. The graph given to Fluxion is a tree rooted at the cluster: its vertices are
    numbered in the order of creation, each but the first has exactly one
    parent before it, the edges are exactly the two between each vertex and its
    parent, they join vertices of the graph, and the ids are pairwise different
    as long as the 64-bit counter does not wrap. *)
Theorem cluster_graph_tree skipLabel nodes (k : K) g k' :
  cluster_graph skipLabel nodes k = (Ret (inr g), k') ->
  exists par, Jgf.tree par g /\
    ((Z.of_nat (length par) < 2 ^ 63)%Z -> NoDup (Jgf.v_Id <$> Jgf.jg_Nodes (Jgf.g_Graph g))) /\
    (forall e, e ∈ Jgf.jg_Edges (Jgf.g_Graph g) ->
       Jgf.e_Source e ∈ (Jgf.v_Id <$> Jgf.jg_Nodes (Jgf.g_Graph g)) /\
       Jgf.e_Target e ∈ (Jgf.v_Id <$> Jgf.jg_Nodes (Jgf.g_Graph g))).
Proof.
  intros [[par Ht] _]%cluster_graph_spec. exists par. split; [done|].
  split; [by apply Jgf.tree_NoDup|]. intros e. by apply (Jgf.tree_edges_closed par).
Qed.

Lemma filter_numbered type name count :
  type <> Jgf.NodeType -> filter (fun x => x.1.1 = Jgf.NodeType) (numbered type name count) = [].
Proof.
  intros Hne. unfold numbered. induction (seq 0 _) as [|i l IH]; [done|].
  cbn [fmap list_fmap]. by rewrite filter_cons_False.
Qed.

(** The vertices of type node, as name and index. *)
Definition node_type_vertices (g : Jgf.FluxJGF) : list (string * Z) :=
  (fun x => (x.1.2, x.2)) <$> filter (fun x => x.1.1 = Jgf.NodeType) (vertices g).

Lemma filter_node_vertices counter i (node : KubeNode Q) pods :
  filter (fun x => x.1.1 = Jgf.NodeType) (node_vertices counter i node pods) =
  [(Jgf.NodeType, kn_Name node, Z.of_nat i)].
Proof.
  unfold node_vertices. rewrite !filter_app, !filter_numbered by done.
  by rewrite filter_cons_False, filter_cons_True, filter_nil by done.
Qed.

Lemma cluster_node_vertices skipLabel nodes (k : K) g k' :
  cluster_graph skipLabel nodes k = (Ret (inr g), k') ->
  node_type_vertices g = (fun e => (kn_Name e.2, Z.of_nat e.1)) <$> eligible skipLabel 0 nodes.
Proof.
  intros [_ (l & Hl & _ & Hv)]%cluster_graph_spec. unfold node_type_vertices.
  rewrite Hv, <- Hl, filter_cons_False by done. generalize 0%Z. clear.
  induction l as [|[[i node] pods] l IH]; intros c; [done|]. cbn [graph_vertices].
  rewrite filter_app, filter_node_vertices, fmap_app, IH. done.
Qed.

(** C27. The graph holds, below the cluster vertex and node by node in the order of
    the listing, for every node that is not left out: a subnet vertex of its
    own (also when its zone has been seen before), the node under its
    Kubernetes name, its GPUs, and one vertex per whole core and GiB that is
    left by the pods the cluster listed for that very node, in all namespaces
    and without those that succeeded or failed.  In particular the vertices of
    type node are exactly the eligible nodes, with their positions in the
    listing. *)
Theorem cluster_graph_contents skipLabel nodes (k : K) g k' :
  cluster_graph skipLabel nodes k = (Ret (inr g), k') ->
  (exists l, fst <$> l = eligible skipLabel 0 nodes /\ pod_listing k l k' /\
     vertices g = (Jgf.ClusterType, defaultClusterName, 1%Z) :: graph_vertices 0 l) /\
  node_type_vertices g = (fun e => (kn_Name e.2, Z.of_nat e.1)) <$> eligible skipLabel 0 nodes.
Proof.
  intros H. split; [|by eapply cluster_node_vertices]. by apply cluster_graph_spec in H as [_ ?].
Qed.

Lemma vertex_names_eq (g : Jgf.FluxJGF) : vertex_names (Jgf.jg_Nodes (Jgf.g_Graph g)) = (node_type_vertices g).*1.
Proof.
  unfold vertex_names, node_type_vertices, vertices. rewrite <- list_fmap_compose.
  induction (Jgf.jg_Nodes (Jgf.g_Graph g)) as [|n ns IH]; [done|]. cbn [fmap list_fmap].
  destruct (decide (Jgf.nm_Type (Jgf.v_Metadata n) = "node")).
  - rewrite !filter_cons_True by done. cbn. by f_equal.
  - by rewrite !filter_cons_False.
Qed.

Lemma tree_fits par g :
  Jgf.tree par g -> Forall (fun x => in_range 32 x.2) (vertices g) -> Forall fits (Jgf.jg_Nodes (Jgf.g_Graph g)).
Proof.
  intros Ht Hr. apply Forall_forall. intros n Hn. split.
  - rewrite Forall_forall in Hr. apply (Hr (describe n)). by apply list_elem_of_fmap_2.
  - pose proof (Jgf.tree_ranks _ _ Ht) as H. rewrite Forall_forall in H. rewrite H by done. unfold in_range. lia.
Qed.

Lemma first_occurrences_id l : NoDup l -> first_occurrences l = l.
Proof.
  induction l as [|x l IH] using rev_ind; [done|]. intros (Hl & Hx & _)%NoDup_app.
  rewrite first_occurrences_snoc, IH by done. rewrite decide_False; [done|].
  intros Hin. apply (Hx x Hin). apply list_elem_of_here.
Qed.

(** C29. The format is understood in both directions: reading the text of the graph
    given to Fluxion the way a worker reads an allocation gives back the
    Kubernetes names of the eligible nodes, each once and in the order of the
    listing, and as they are when the names are pairwise different (as in a
    cluster), provided the indices of the vertices fit the 32 bits of the
    reader. *)
Theorem cluster_graph_roundtrip skipLabel nodes (k : K) g k' :
  cluster_graph skipLabel nodes k = (Ret (inr g), k') ->
  Forall (fun x => in_range 32 x.2) (vertices g) ->
  let names := (fun e => kn_Name e.2) <$> eligible skipLabel 0 nodes in
  parseNodes (ToBytes g).1 = (first_occurrences names, None) /\
  (NoDup names -> parseNodes (ToBytes g).1 = (names, None)).
Proof.
  intros Hg Hr names. pose proof Hg as [[par Ht] _]%cluster_graph_spec. pose proof Hg as Hn%cluster_node_vertices.
  assert (Heq : parseNodes (ToBytes g).1 = (first_occurrences names, None)).
  { rewrite parseNodes_ToBytes by by eapply tree_fits. rewrite vertex_names_eq, Hn, <- list_fmap_compose. done. }
  split; [done|]. intros Hnd. by rewrite Heq, first_occurrences_id.
Qed.

(** C36. A node never offers more than it has left: with requests and capacities
    that are in range, the cores and GiB of its vertices fit in the allocatable
    amount minus what its pods request, and an overcommitted node offers
    none. *)
Theorem capacity_bounds (node : KubeNode Q) pods :
  let cpu := (milli (kn_Allocatable node) "cpu" - milli (computeTotalRequests pods) "cpu")%Z in
  let mem := (value (kn_Allocatable node) "memory" - value (computeTotalRequests pods) "memory")%Z in
  in_range 64 cpu -> in_range 64 mem ->
  (Z.of_nat (length (numbered Jgf.CoreType Jgf.CoreType (availCpu node pods))) * 1000 <= Z.max 0 cpu)%Z /\
  (Z.of_nat (length (numbered Jgf.MemoryType Jgf.MemoryType (fractionMem node pods))) * 2 ^ 30 <= Z.max 0 mem)%Z.
Proof.
  intros cpu mem Hc Hm. unfold numbered. rewrite !length_fmap, !length_seq.
  unfold fractionMem, availCpu, availMem. fold cpu mem. unfold int64. rewrite !wrap_id by (done || lia).
  split.
  - destruct (Z.le_gt_cases 0 cpu) as [Hpos|Hneg].
    + rewrite Z.quot_div_nonneg by lia. pose proof (Z.mul_div_le cpu 1000). lia.
    + assert (Z.quot cpu 1000 <= 0)%Z; [|lia].
      replace cpu with (- (- cpu))%Z by lia. rewrite Z.quot_opp_l, Z.quot_div_nonneg by lia.
      pose proof (Z.div_pos (- cpu) 1000). lia.
  - rewrite Z.shiftr_div_pow2 by lia. pose proof (Z.mul_div_le mem (2 ^ 30)).
    destruct (Z.le_gt_cases 0 mem); [lia|]. pose proof (Z.div_lt_upper_bound mem (2 ^ 30) 0). lia.
Qed.
End ClusterFacts.

(** ** Files *)

(** What the file of a path holds, when there is one. *)
Class FileView (K : Type) := file_content : string -> K -> option string.

(** The file operations as documented, where they succeed: [os.Create] leaves an
    empty file, [WriteString] appends, [os.ReadFile] returns the content.
    Reading and talking to Fluxion leave the content alone. *)
Class FileLaws (Q K : Type) `{!ClusterClient Q K, !FileView K} : Prop := {
  create_ok path (k k1 : K) : os_Create (Q:=Q) path k = (None, k1) -> file_content path k1 = Some "";
  write_ok path data s (k k1 : K) :
    file_Write (Q:=Q) path data k = (None, k1) -> file_content path k = Some s -> file_content path k1 = Some (s +:+ data);
  read_ok path s (k k1 : K) : os_ReadFile (Q:=Q) path k = ((s, None), k1) -> file_content path k = Some s;
  read_keeps path (k : K) : file_content path (os_ReadFile (Q:=Q) path k).2 = file_content path k;
  init_keeps policy data path (k : K) : file_content path (fluxion_Init (Q:=Q) policy data k).2 = file_content path k
}.

(** ** Handing the graph to Fluxion *)

Section InitFacts.
Context {Q K : Type} `{!Quantity Q, !QuantityOps Q, !MapRange Q, !MilliQuantity Q, !ClusterClient Q K}.
Context `{!FileView K, !FileLaws Q K}.

(** A start that succeeds, call by call. *)
Lemma InitFluxion_run Fluxion policy (k k' : K) :
  InitFluxion (Q:=Q) Fluxion policy k = (Ret None, k') ->
  exists nodes k1 k2 g k3 k4,
    nodes_List (Q:=Q) k1 = ((nodes, None), k2) /\ cluster_graph (Q:=Q) "" nodes k2 = (Ret (inr g), k3) /\
    file_content KubernetesJsonGraphFormat k4 = Some (ToBytes g).1 /\
    fluxion_Init (Q:=Q) policy (ToBytes g).1 k4 = (None, k').
Proof.
  unfold InitFluxion, createInClusterJGF. intros (e & k5 & H & H1)%bind_ret_inv.
  destruct e as [e|]; [done|].
  apply bind_ret_inv in H as ([e|] & k6 & _ & H); [done|].
  apply bind_ret_inv in H as ([e|] & k1 & _ & H); [done|].
  apply bind_ret_inv in H as ([nodes [e|]] & k2 & Hn & H); [done|].
  apply bind_ret_inv in H as ([e|g] & k3 & Hg & H); [done|].
  unfold WriteJGF in H. destruct (ToBytes g) as [data [e|]] eqn:He; [done|].
  apply bind_ret_inv in H as ([e|] & k7 & Hc & H); [done|].
  apply bind_ret_inv in H as ([e|] & k8 & Hw & H); [done|]. injection H as <-.
  apply bind_ret_inv in H1 as ([s [e|]] & k9 & Hr & Hi); [done|]. destruct Fluxion; [|done].
  apply call_ret in Hn, Hc, Hw, Hr, Hi. pose proof (write_ok _ _ _ _ _ Hw (create_ok _ _ _ Hc)) as Hd.
  pose proof (read_ok _ _ _ _ Hr) as Hs. change ("" +:+ data) with data in Hd. rewrite Hd in Hs. injection Hs as <-.
  pose proof (read_keeps KubernetesJsonGraphFormat k8) as Hk. rewrite Hr, Hd in Hk.
  exists nodes, k1, k2, g, k3, k9. by rewrite He.
Qed.

(** When the start of the controller succeeds, Fluxion has been initialised
    with the policy and exactly the encoding of the graph built from the
    listing of the nodes. *)
Theorem InitFluxion_sends_graph Fluxion policy (k k' : K) :
  InitFluxion (Q:=Q) Fluxion policy k = (Ret None, k') ->
  exists nodes k1 k2 g k3 k4,
    nodes_List (Q:=Q) k1 = ((nodes, None), k2) /\ cluster_graph (Q:=Q) "" nodes k2 = (Ret (inr g), k3) /\
    fluxion_Init (Q:=Q) policy (ToBytes g).1 k4 = (None, k').
Proof.
  intros (nodes & k1 & k2 & g & k3 & k4 & Hn & Hg & _ & Hi)%InitFluxion_run. by exists nodes, k1, k2, g, k3, k4.
Qed.
End InitFacts.

(** ** A cluster in memory *)

#[export] Instance Z_Milli : MilliQuantity Z := fun z => (z * 1000)%Z.

(** Nodes, the running pods by node, the file, and the graphs Fluxion was given. *)
Record MemCluster := mkMemCluster {
  mcl_nodes : list (KubeNode Z);
  mcl_pods : gmap string (list (Pod Z));
  mcl_file : string;
  mcl_inits : list (string * string)
}.

(** The node that a field selector of the controller names. *)
Definition selected_node (sel : string) : option string :=
  n ← strip "spec.nodeName=" sel;
  guard (String.length ",status.phase!=Succeeded,status.phase!=Failed" <= String.length n);;
  Some (String.substring 0 (String.length n - String.length ",status.phase!=Succeeded,status.phase!=Failed") n).

#[export] Instance mem_cluster : ClusterClient Z MemCluster := {
  rest_InClusterConfig k := (None, k);
  cluster_NewForConfig k := (None, k);
  nodes_List k := ((mcl_nodes k, None), k);
  fields_ParseSelector s := inr s;
  pods_ListField _ sel k := ((default [] (n ← selected_node sel; mcl_pods k !! n), None), k);
  os_Create _ k := (None, mkMemCluster (mcl_nodes k) (mcl_pods k) "" (mcl_inits k));
  file_Write _ d k := (None, mkMemCluster (mcl_nodes k) (mcl_pods k) (mcl_file k +:+ d) (mcl_inits k));
  os_ReadFile _ k := ((mcl_file k, None), k);
  fluxion_Init p g k := (None, mkMemCluster (mcl_nodes k) (mcl_pods k) (mcl_file k) (mcl_inits k ++ [(p, g)]))
}.
#[export] Instance mem_file : FileView MemCluster := fun _ k => Some (mcl_file k).
#[export] Instance mem_files : FileLaws Z MemCluster.
Proof.
  split; [by intros path k k1 [= <-]|by intros path data s k k1 [= <-] [= <-]|by intros path s k k1 [= <- <-]|done|done].
Qed.

Definition worker (name : string) : KubeNode Z :=
  mkKubeNode name {[ zoneLabel := "z" ]} false (<["memory" := (2 * 2 ^ 30)%Z]> {[ "cpu" := 3%Z ]}).
Definition control : KubeNode Z := mkKubeNode "c" {[ controlPlaneLabel := "" ]} false ∅.
Definition small_cluster : MemCluster :=
  mkMemCluster [control; worker "a"; worker "b"]
               {[ "a" := [mkPod (mkMeta "p" "default" None)
                      (mkPodSpec [] "" [mkContainer "c" {[ "cpu" := 1%Z ]} ∅ None] [] None None) (mkPodStatus [] "")] ]}
               "" [].

Definition small_graph : outcome (goerr + Jgf.FluxJGF) * MemCluster :=
  cluster_graph "" (mcl_nodes small_cluster) small_cluster.
Definition the_graph : Jgf.FluxJGF :=
  match small_graph.1 with Ret (inr g) => g | _ => Jgf.NewFluxJGF end.

Lemma small_graph_ok : cluster_graph "" (mcl_nodes small_cluster) small_cluster = (Ret (inr the_graph), small_cluster).
Proof. vm_compute. reflexivity. Defined.

Lemma cluster_graph_tree_witness : exists par, Jgf.tree par the_graph.
Proof. destruct (cluster_graph_tree _ _ _ _ _ small_graph_ok) as (par & H & _). by exists par. Defined.

(** Two workers of one zone have two subnets, and the one with a running pod has
    a core less. *)
Lemma cluster_graph_contents_witness :
  node_type_vertices the_graph = [("a", 1%Z); ("b", 2%Z)] /\
  length (filter (fun x => x.1.1 = Jgf.SubnetType) (vertices the_graph)) = 2 /\
  length (filter (fun x => x.1.1 = Jgf.CoreType) (vertices the_graph)) = 5.
Proof.
  split; [|vm_compute; by split].
  etransitivity; [exact (proj2 (cluster_graph_contents _ _ _ _ _ small_graph_ok))|]. vm_compute. reflexivity.
Defined.

Lemma capacity_bounds_witness :
  (Z.of_nat (length (numbered Jgf.CoreType Jgf.CoreType (availCpu (worker "a") (default [] (mcl_pods small_cluster !! "a"))))) * 1000
     <= Z.max 0 2000)%Z.
Proof.
  refine (proj1 (capacity_bounds (worker "a") (default [] (mcl_pods small_cluster !! "a")) _ _)); vm_compute; split; congruence.
Defined.

Lemma InitFluxion_sends_graph_witness :
  exists nodes k2 g k3 k4, cluster_graph (Q:=Z) (K:=MemCluster) "" nodes k2 = (Ret (inr g), k3) /\
    fluxion_Init (Q:=Z) "first" (ToBytes g).1 k4 = (None, (InitFluxion (Q:=Z) true "first" small_cluster).2).
Proof.
  assert (Hi : InitFluxion (Q:=Z) true "first" small_cluster = (Ret None, (InitFluxion (Q:=Z) true "first" small_cluster).2))
    by (vm_compute; reflexivity).
  destruct (InitFluxion_sends_graph (Q:=Z) true "first" small_cluster _ Hi) as (nodes & k1 & k2 & g & k3 & k4 & H1 & H2 & H3).
  exists nodes, k2, g, k3, k4. split; [exact H2|exact H3].
Defined.

Lemma cluster_graph_roundtrip_witness : parseNodes (ToBytes the_graph).1 = (["a"; "b"], None).
Proof.
  refine (proj2 (cluster_graph_roundtrip _ _ _ _ _ small_graph_ok _) _).
  - let v := eval vm_compute in (vertices the_graph) in
    assert (E : vertices the_graph = v) by (vm_compute; reflexivity); rewrite E.
    repeat (apply Forall_cons; split; [unfold in_range; cbn; lia|]). by apply Forall_nil.
  - change (NoDup ["a"; "b"]). repeat (apply NoDup_cons; split; [set_solver|]). apply NoDup_nil_2.
Defined.
