(* ===== verification/ResourceText.v ===== *)
(** * Resources as text: the second half of [internal/controller/resources.go]

    [ExtractContainerResourceValue] reads one resource of a container as text,
    in units of a divisor.  The division is in floating point ([Float.v]). *)

From stdpp Require Import base option strings gmap numbers list.
From S2P Require Import Prelude GoStrings Json Api Kube Jobspec Resources Float Cluster.

(** [corev1.ResourceFieldSelector]. *)
Record ResourceFieldSelector (Q : Type) := mkSelector { fs_Resource : string; fs_Divisor : Q }.
Arguments mkSelector {Q}. Arguments fs_Resource {Q} _. Arguments fs_Divisor {Q} _.

(** [resource.Quantity{}] and [resource.MustParse("1")]. *)
Class QuantityLiterals (Q : Type) := { q_zero : Q; q_one : Q }.

Class LiteralLaws (Q : Type) `{!Quantity Q, !MilliQuantity Q, !QuantityLiterals Q} : Prop := {
  zero_Value : q_Value (q_zero : Q) = 0%Z;
  zero_MilliValue : q_MilliValue (q_zero : Q) = 0%Z;
  one_Value : q_Value (q_one : Q) = 1%Z;
  one_MilliValue : q_MilliValue (q_one : Q) = 1000%Z
}.

(** [strings.HasPrefix] and [strings.TrimPrefix]. *)
Definition HasPrefix (s prefix : string) : bool := String.prefix prefix s.
Definition TrimPrefix (s prefix : string) : string := default s (strip prefix s).

(** [IsHugePageResourceName]. *)
Definition IsHugePageResourceName (name : string) : bool := HasPrefix name "hugepages-".

(** [IsStandardContainerResourceName]. *)
Definition standardContainerResources : gset string := {[ "cpu"; "memory"; "ephemeral-storage" ]}.
Definition IsStandardContainerResourceName (str : string) : bool :=
  bool_decide (str ∈ standardContainerResources) || IsHugePageResourceName str.

Section ResourceText.
Context {Q : Type} `{!Quantity Q, !MilliQuantity Q, !QuantityOps Q, !QuantityLiterals Q}.

(** What the platform makes of a [float64] that no [int64] holds. *)
Context (undef : Z).

(** [convertResourceCPUToString]. *)
Definition convertResourceCPUToString (cpu divisor : Q) : string * error :=
  let c := ceil_quotient undef (q_MilliValue cpu) (q_MilliValue divisor) in (Itoa c, None).

(** [convertResourceMemoryToString], [convertResourceHugePagesToString] and
    [convertResourceEphemeralStorageToString] have this one body. *)
Definition convertResourceMemoryToString (memory divisor : Q) : string * error :=
  let m := ceil_quotient undef (q_Value memory) (q_Value divisor) in (Itoa m, None).
Definition convertResourceHugePagesToString (hugePages divisor : Q) : string * error :=
  let m := ceil_quotient undef (q_Value hugePages) (q_Value divisor) in (Itoa m, None).
Definition convertResourceEphemeralStorageToString (ephemeralStorage divisor : Q) : string * error :=
  let m := ceil_quotient undef (q_Value ephemeralStorage) (q_Value divisor) in (Itoa m, None).

(** [ResourceList.Name] and its shorthands: a missing entry is the zero
    quantity. *)
Definition resource_Name (l : gmap string Q) (name : string) : Q := default q_zero (l !! name).

(** [ExtractContainerResourceValue]. *)
Definition ExtractContainerResourceValue (fs : ResourceFieldSelector Q) (container : Container Q) : string * error :=
  let divisor := match q_Cmp q_zero (fs_Divisor fs) with Eq => q_one | _ => fs_Divisor fs end in
  let limits := resource_Name (c_Limits container) in
  let requests := resource_Name (c_Requests container) in
  let r := fs_Resource fs in
  if bool_decide (r = "limits.cpu") then convertResourceCPUToString (limits "cpu") divisor
  else if bool_decide (r = "limits.memory") then convertResourceMemoryToString (limits "memory") divisor
  else if bool_decide (r = "limits.ephemeral-storage")
    then convertResourceEphemeralStorageToString (limits "ephemeral-storage") divisor
  else if bool_decide (r = "requests.cpu") then convertResourceCPUToString (requests "cpu") divisor
  else if bool_decide (r = "requests.memory") then convertResourceMemoryToString (requests "memory") divisor
  else if bool_decide (r = "requests.ephemeral-storage")
    then convertResourceEphemeralStorageToString (requests "ephemeral-storage") divisor
  else
    if HasPrefix r "requests." && IsHugePageResourceName (TrimPrefix r "requests.")
    then convertResourceHugePagesToString (requests (TrimPrefix r "requests.")) divisor
    else if HasPrefix r "limits." && IsHugePageResourceName (TrimPrefix r "limits.")
    then convertResourceHugePagesToString (limits (TrimPrefix r "limits.")) divisor
    else ("", Some (Err ("Unsupported container resource : " +:+ r))).
End ResourceText.

(** ** The text is the ceiling of the quotient *)

Section ResourceTextFacts.
Context {Q : Type} `{!Quantity Q, !MilliQuantity Q, !QuantityOps Q, !QuantityLiterals Q}.
Context `{!LiteralLaws Q, !QuantityLaws Q}.

(** CPU is counted in thousandths, everything else in units. *)
Definition counted (name : string) (q : Q) : Z :=
  if decide (name = "cpu") then q_MilliValue q else q_Value q.

(** The list a selector names. *)
Definition selected (limits : bool) (c : Container Q) : gmap string Q := if limits then c_Limits c else c_Requests c.
Definition selector_prefix (limits : bool) : string := if limits then "limits." else "requests.".

(** The divisor in use: zero counts as one. *)
Definition divisor_of (fs : ResourceFieldSelector Q) : Q :=
  match q_Cmp q_zero (fs_Divisor fs) with Eq => q_one | _ => fs_Divisor fs end.

Lemma strip_app p s : strip p (p +:+ s) = Some s.
Proof.
  induction p as [|a p IH]; [done|]. rewrite string_app_cons. cbn [strip expect].
  by rewrite bool_decide_eq_true_2.
Qed.

Lemma TrimPrefix_app p s : TrimPrefix (p +:+ s) p = s.
Proof. unfold TrimPrefix. by rewrite strip_app. Qed.

Lemma HasPrefix_split s p : HasPrefix s p = true -> exists t, s = p +:+ t.
Proof.
  unfold HasPrefix. revert s. induction p as [|a p IH]; intros s Hp; [by exists s|].
  destruct s as [|b s]; [done|]. simpl in Hp. destruct (Ascii.ascii_dec a b) as [->|]; [|done].
  destruct (IH s Hp) as [t ->]. by exists t.
Qed.

(** The dispatch by resource name, as one equation. *)
Lemma Extract_eq undef fs c limits name :
  fs_Resource fs = selector_prefix limits +:+ name ->
  ExtractContainerResourceValue undef fs c =
  if IsStandardContainerResourceName name
  then (Itoa (ceil_quotient undef (counted name (resource_Name (selected limits c) name)) (counted name (divisor_of fs))), None)
  else ("", Some (Err ("Unsupported container resource : " +:+ fs_Resource fs))).
Proof.
  intros Hr. unfold ExtractContainerResourceValue, IsStandardContainerResourceName, counted. rewrite Hr.
  assert (Hc : forall b t, bool_decide (selector_prefix limits +:+ name = selector_prefix b +:+ t) =
                           bool_decide (limits = b) && bool_decide (name = t)).
  { intros b t. destruct limits, b; cbn [selector_prefix]; try (apply bool_decide_eq_false_2; done).
    all: apply bool_decide_ext; split; [by intros H%(inj (String.app _))|by intros ->]. }
  pose proof (Hc true "cpu") as E1. pose proof (Hc true "memory") as E2.
  pose proof (Hc true "ephemeral-storage") as E3. pose proof (Hc false "cpu") as E4.
  pose proof (Hc false "memory") as E5. pose proof (Hc false "ephemeral-storage") as E6.
  change (selector_prefix true +:+ "cpu") with "limits.cpu" in E1.
  change (selector_prefix true +:+ "memory") with "limits.memory" in E2.
  change (selector_prefix true +:+ "ephemeral-storage") with "limits.ephemeral-storage" in E3.
  change (selector_prefix false +:+ "cpu") with "requests.cpu" in E4.
  change (selector_prefix false +:+ "memory") with "requests.memory" in E5.
  change (selector_prefix false +:+ "ephemeral-storage") with "requests.ephemeral-storage" in E6.
  rewrite E1, E2, E3, E4, E5, E6. clear E1 E2 E3 E4 E5 E6 Hc.
  destruct (decide (name = "cpu")) as [->|H1]; [by destruct limits|].
  destruct (decide (name = "memory")) as [->|H2]; [by destruct limits|].
  destruct (decide (name = "ephemeral-storage")) as [->|H3]; [by destruct limits|].
  rewrite (bool_decide_eq_false_2 (name = "cpu")), (bool_decide_eq_false_2 (name = "memory")),
    (bool_decide_eq_false_2 (name = "ephemeral-storage")), !andb_false_r by done.
  rewrite (bool_decide_eq_false_2 (name ∈ standardContainerResources)) by (unfold standardContainerResources; rewrite !elem_of_union, !elem_of_singleton; tauto).
  destruct limits; cbn [selector_prefix]; rewrite ?TrimPrefix_app; unfold HasPrefix at 1 2; rewrite ?prefix_app.
  - change (String.prefix "requests." ("limits." +:+ name)) with false. cbn [andb orb].
    by destruct (IsHugePageResourceName name).
  - change (String.prefix "limits." ("requests." +:+ name)) with false. cbn [andb orb].
    by destruct (IsHugePageResourceName name).
Qed.

(** A name without either prefix is not supported. *)
Lemma Extract_other undef fs c :
  (forall limits name, fs_Resource fs <> selector_prefix limits +:+ name) ->
  ExtractContainerResourceValue undef fs c = ("", Some (Err ("Unsupported container resource : " +:+ fs_Resource fs))).
Proof.
  intros Hn. unfold ExtractContainerResourceValue.
  assert (Hp : forall b, HasPrefix (fs_Resource fs) (selector_prefix b) = false).
  { intros b. destruct (HasPrefix _ _) eqn:E; [|done]. apply HasPrefix_split in E as [t Ht]. by destruct (Hn b t). }
  rewrite (Hp true : HasPrefix (fs_Resource fs) "limits." = false),
    (Hp false : HasPrefix (fs_Resource fs) "requests." = false).
  do 3 (rewrite bool_decide_eq_false_2; [|intros E; by eapply (Hn true), E]).
  do 3 (rewrite bool_decide_eq_false_2; [|intros E; by eapply (Hn false), E]).
  done.
Qed.

(** The amount a selector asks for, and the unit it asks for it in. *)
Lemma counted_divisor fs name :
  counted name (divisor_of fs) =
  if (q_amount (fs_Divisor fs) =? q_amount q_zero)%Z
  then (if decide (name = "cpu") then 1000%Z else 1%Z) else counted name (fs_Divisor fs).
Proof.
  unfold divisor_of. rewrite q_Cmp_amount, Z.eqb_sym.
  destruct (Z.compare_spec (q_amount q_zero) (q_amount (fs_Divisor fs))) as [E|E|E];
    destruct (Z.eqb_spec (q_amount q_zero) (q_amount (fs_Divisor fs))); try lia; [|done..].
  unfold counted. destruct (decide _); [apply one_MilliValue|apply one_Value].
Qed.

Lemma counted_entry (l : gmap string Q) name :
  counted name (resource_Name l name) = match l !! name with Some q => counted name q | None => 0%Z end.
Proof.
  unfold resource_Name. destruct (l !! name); [done|]. cbn. unfold counted.
  destruct (decide _); [apply zero_MilliValue|apply zero_Value].
Qed.

(** C38. The text of a container's resource is the exact ceiling of its amount
    divided by the divisor, with a zero divisor counting as one and CPU counted
    in thousandths, for every standard resource and every huge page size in
    requests and in limits, as long as amount and divisor are below 2^53; a
    missing entry gives 0; every name that is not the name of a standard
    resource or huge page size behind one of the two prefixes is an error that
    repeats it. *)
Theorem ExtractContainerResourceValue_ceil undef (fs : ResourceFieldSelector Q) (c : Container Q) :
  (forall limits name, fs_Resource fs = selector_prefix limits +:+ name -> IsStandardContainerResourceName name = true ->
   let amount := match selected limits c !! name with Some q => counted name q | None => 0%Z end in
   let unit := if (q_amount (fs_Divisor fs) =? q_amount q_zero)%Z
               then (if decide (name = "cpu") then 1000%Z else 1%Z) else counted name (fs_Divisor fs) in
   (0 <= amount < 2 ^ 53)%Z -> (0 < unit < 2 ^ 53)%Z ->
   ExtractContainerResourceValue undef fs c = (Itoa (- (- amount / unit)), None)) /\
  ((forall limits name, fs_Resource fs = selector_prefix limits +:+ name -> IsStandardContainerResourceName name = false) ->
   ExtractContainerResourceValue undef fs c = ("", Some (Err ("Unsupported container resource : " +:+ fs_Resource fs)))).
Proof.
  split.
  - intros limits name Hr Hs amount unit Ha Hu. rewrite (Extract_eq undef fs c limits name Hr), Hs.
    rewrite counted_divisor, counted_entry. by rewrite ceil_quotient_exact.
  - intros Hn. destruct (HasPrefix (fs_Resource fs) "limits.") eqn:El; [|destruct (HasPrefix (fs_Resource fs) "requests.") eqn:Er].
    + apply HasPrefix_split in El as [t Ht]. by rewrite (Extract_eq undef fs c true t Ht), (Hn true t Ht).
    + apply HasPrefix_split in Er as [t Ht]. by rewrite (Extract_eq undef fs c false t Ht), (Hn false t Ht).
    + apply Extract_other. intros [] name E; rewrite E in El, Er; [clear Er; rename El into Er|]; unfold HasPrefix in Er; cbn [selector_prefix] in Er; by rewrite prefix_app in Er.
Qed.
End ResourceTextFacts.

(** ** Instances *)

#[export] Instance Z_literals : QuantityLiterals Z := { q_zero := 0%Z; q_one := 1%Z }.
#[export] Instance Z_literal_laws : LiteralLaws Z.
Proof. by split. Qed.

Definition half_gib : Container Z :=
  mkContainer "c" {[ "cpu" := 3%Z; "memory" := (2 ^ 29 + 1)%Z ]} {[ "hugepages-2Mi" := 8%Z ]} None.

Lemma ExtractContainerResourceValue_ceil_witness :
  ExtractContainerResourceValue 0 (mkSelector "requests.memory" (2 ^ 20)%Z) half_gib = ("513", None) /\
  ExtractContainerResourceValue 0 (mkSelector "requests.cpu" 0%Z) half_gib = ("3", None) /\
  ExtractContainerResourceValue 0 (mkSelector "limits.hugepages-2Mi" 3%Z) half_gib = ("3", None) /\
  ExtractContainerResourceValue 0 (mkSelector "cpu" 0%Z) half_gib = ("", Some (Err "Unsupported container resource : cpu")).
Proof.
  split; [|split; [|split]].
  - refine (eq_trans (proj1 (ExtractContainerResourceValue_ceil 0 (mkSelector "requests.memory" (2 ^ 20)%Z) half_gib) false "memory" eq_refl eq_refl _ _) _);
      [vm_compute; split; congruence|vm_compute; split; congruence|vm_compute; reflexivity].
  - refine (eq_trans (proj1 (ExtractContainerResourceValue_ceil 0 (mkSelector "requests.cpu" 0%Z) half_gib) false "cpu" eq_refl eq_refl _ _) _);
      [vm_compute; split; congruence|vm_compute; split; congruence|vm_compute; reflexivity].
  - refine (eq_trans (proj1 (ExtractContainerResourceValue_ceil 0 (mkSelector "limits.hugepages-2Mi" 3%Z) half_gib) true "hugepages-2Mi" eq_refl eq_refl _ _) _);
      [vm_compute; split; congruence|vm_compute; split; congruence|vm_compute; reflexivity].
  - refine (proj2 (ExtractContainerResourceValue_ceil 0 (mkSelector "cpu" 0%Z) half_gib) _).
    intros [] name E; discriminate E.
Defined.

(** Above 2^53 the amount itself is rounded: 2^53 + 1 bytes are shown as 2^53. *)
Example large_amount_rounded :
  ExtractContainerResourceValue 0 (mkSelector "requests.memory" 1%Z)
    (mkContainer "c" {[ "memory" := (2 ^ 53 + 1)%Z ]} ∅ None) = (Itoa (2 ^ 53), None).
Proof. vm_compute. reflexivity. Qed.
