(* ===== verification/Proto.v ===== *)
(** * The messages of the external service: [pkg/service-grpc/service.pb.go]

    The four messages that protoc generated from [service.proto] with their
    accessors, the raw descriptor that the generated code registers, and the
    tables that tie Go types to it.  The descriptor is bytes; a reader of the
    documented wire format turns them into what they describe, and a writer of
    the same format gives the messages a concrete encoding.  Left out of the
    structs is the bookkeeping of the protobuf runtime ([state], [sizeCache],
    [unknownFields]). *)

From Stdlib Require Import Ascii.
From stdpp Require Import base option strings gmap numbers list.
From S2P Require Import Prelude GoStrings.

(** ** Messages *)

Record GroupRequest := mkGroupRequest { gq_Group : string }.
Record GroupResponse := mkGroupResponse { gr_Name : string; gr_Size : Z }.
Record ResourceRequest := mkResourceRequest { }.
Record ResourceResponse := mkResourceResponse { rr_Graph : string }.

(** A pointer to a message may be nil; the accessors allow that. *)
Definition GroupRequest_GetGroup (x : option GroupRequest) : string :=
  match x with Some x => gq_Group x | None => "" end.
Definition GroupResponse_GetName (x : option GroupResponse) : string :=
  match x with Some x => gr_Name x | None => "" end.
Definition GroupResponse_GetSize (x : option GroupResponse) : Z :=
  match x with Some x => gr_Size x | None => 0 end.
Definition ResourceResponse_GetGraph (x : option ResourceResponse) : string :=
  match x with Some x => rr_Graph x | None => "" end.

(** The Go types of the messages, and a value of each. *)
Inductive msgType := TGroupRequest | TGroupResponse | TResourceRequest | TResourceResponse.
#[export] Instance msgType_eq_dec : EqDecision msgType.
Proof. solve_decision. Defined.
Definition message (t : msgType) : Type :=
  match t with
  | TGroupRequest => GroupRequest
  | TGroupResponse => GroupResponse
  | TResourceRequest => ResourceRequest
  | TResourceResponse => ResourceResponse
  end.

(** [Reset], and what [new] allocates: the zero value. *)
Definition GroupRequest_Reset (x : GroupRequest) : GroupRequest := mkGroupRequest "".
Definition GroupResponse_Reset (x : GroupResponse) : GroupResponse := mkGroupResponse "" 0.
Definition ResourceRequest_Reset (x : ResourceRequest) : ResourceRequest := mkResourceRequest.
Definition ResourceResponse_Reset (x : ResourceResponse) : ResourceResponse := mkResourceResponse "".
Definition new (t : msgType) : message t :=
  match t with
  | TGroupRequest => mkGroupRequest ""
  | TGroupResponse => mkGroupResponse "" 0
  | TResourceRequest => mkResourceRequest
  | TResourceResponse => mkResourceResponse ""
  end.

(** The [protobuf] tags of the struct fields: wire kind, number, name. *)
Inductive wire_kind := Kbytes | Kvarint.
Definition GroupRequest_tags : list (wire_kind * Z * string) := [(Kbytes, 1%Z, "group")].
Definition GroupResponse_tags : list (wire_kind * Z * string) := [(Kbytes, 1%Z, "name"); (Kvarint, 2%Z, "size")].
Definition ResourceRequest_tags : list (wire_kind * Z * string) := [].
Definition ResourceResponse_tags : list (wire_kind * Z * string) := [(Kbytes, 1%Z, "graph")].
Definition struct_tags (t : msgType) : list (wire_kind * Z * string) :=
  match t with
  | TGroupRequest => GroupRequest_tags
  | TGroupResponse => GroupResponse_tags
  | TResourceRequest => ResourceRequest_tags
  | TResourceResponse => ResourceResponse_tags
  end.

(** ** The tables of the generated code *)

(** [file_pkg_service_grpc_service_proto_rawDesc]. *)
Definition rawDesc : list Z :=
  [10; 30; 112; 107; 103; 47; 115; 101; 114; 118; 105; 99; 101; 45; 103; 114;
   112; 99; 47; 115; 101; 114; 118; 105; 99; 101; 46; 112; 114; 111; 116; 111;
   18; 7; 115; 101; 114; 118; 105; 99; 101; 34; 36; 10; 12; 71; 114; 111;
   117; 112; 82; 101; 113; 117; 101; 115; 116; 18; 20; 10; 5; 103; 114; 111;
   117; 112; 24; 1; 32; 1; 40; 9; 82; 5; 103; 114; 111; 117; 112; 34;
   55; 10; 13; 71; 114; 111; 117; 112; 82; 101; 115; 112; 111; 110; 115; 101;
   18; 18; 10; 4; 110; 97; 109; 101; 24; 1; 32; 1; 40; 9; 82; 4;
   110; 97; 109; 101; 18; 18; 10; 4; 115; 105; 122; 101; 24; 2; 32; 1;
   40; 3; 82; 4; 115; 105; 122; 101; 34; 17; 10; 15; 82; 101; 115; 111;
   117; 114; 99; 101; 82; 101; 113; 117; 101; 115; 116; 34; 40; 10; 16; 82;
   101; 115; 111; 117; 114; 99; 101; 82; 101; 115; 112; 111; 110; 115; 101; 18;
   20; 10; 5; 103; 114; 97; 112; 104; 24; 1; 32; 1; 40; 9; 82; 5;
   103; 114; 97; 112; 104; 50; 218; 1; 10; 21; 69; 120; 116; 101; 114; 110;
   97; 108; 80; 108; 117; 103; 105; 110; 83; 101; 114; 118; 105; 99; 101; 18;
   69; 10; 12; 71; 101; 116; 82; 101; 115; 111; 117; 114; 99; 101; 115; 18;
   24; 46; 115; 101; 114; 118; 105; 99; 101; 46; 82; 101; 115; 111; 117; 114;
   99; 101; 82; 101; 113; 117; 101; 115; 116; 26; 25; 46; 115; 101; 114; 118;
   105; 99; 101; 46; 82; 101; 115; 111; 117; 114; 99; 101; 82; 101; 115; 112;
   111; 110; 115; 101; 34; 0; 18; 61; 10; 10; 76; 105; 115; 116; 71; 114;
   111; 117; 112; 115; 18; 21; 46; 115; 101; 114; 118; 105; 99; 101; 46; 71;
   114; 111; 117; 112; 82; 101; 113; 117; 101; 115; 116; 26; 22; 46; 115; 101;
   114; 118; 105; 99; 101; 46; 71; 114; 111; 117; 112; 82; 101; 115; 112; 111;
   110; 115; 101; 34; 0; 18; 59; 10; 8; 71; 101; 116; 71; 114; 111; 117;
   112; 18; 21; 46; 115; 101; 114; 118; 105; 99; 101; 46; 71; 114; 111; 117;
   112; 82; 101; 113; 117; 101; 115; 116; 26; 22; 46; 115; 101; 114; 118; 105;
   99; 101; 46; 71; 114; 111; 117; 112; 82; 101; 115; 112; 111; 110; 115; 101;
   34; 0; 66; 59; 90; 57; 103; 105; 116; 104; 117; 98; 46; 99; 111; 109;
   47; 99; 111; 110; 118; 101; 114; 103; 101; 100; 45; 99; 111; 109; 112; 117;
   116; 105; 110; 103; 47; 102; 108; 117; 120; 110; 101; 116; 101; 115; 47; 112;
   107; 103; 47; 115; 101; 114; 118; 105; 99; 101; 45; 103; 114; 112; 99; 98;
   6; 112; 114; 111; 116; 111; 51]%Z.

(** [file_pkg_service_grpc_service_proto_goTypes]. *)
Definition goTypes : list msgType := [TGroupRequest; TGroupResponse; TResourceRequest; TResourceResponse].

(** [file_pkg_service_grpc_service_proto_depIdxs]: the input types of the
    methods, their output types, then the starts of the sub-lists. *)
Definition depIdxs : list Z := [2; 0; 0; 3; 1; 1; 3; 0; 0; 0; 0]%Z.

(** The message counts given to the type builder. *)
Definition NumEnums : nat := 0.
Definition NumMessages : nat := 4.
Definition NumExtensions : nat := 0.
Definition NumServices : nat := 1.

(** The second result of each [Descriptor] method: the path of the message in
    the file. *)
Definition GroupRequest_Descriptor : list Z := [0%Z].
Definition GroupResponse_Descriptor : list Z := [1%Z].
Definition ResourceRequest_Descriptor : list Z := [2%Z].
Definition ResourceResponse_Descriptor : list Z := [3%Z].
Definition Descriptor_path (t : msgType) : list Z :=
  match t with
  | TGroupRequest => GroupRequest_Descriptor
  | TGroupResponse => GroupResponse_Descriptor
  | TResourceRequest => ResourceRequest_Descriptor
  | TResourceResponse => ResourceResponse_Descriptor
  end.

(** ** The wire format *)

Section Wire.
Local Open Scope Z_scope.

(** Base 128, least significant group first. *)
Fixpoint get_varint (bs : list Z) : option (Z * list Z) :=
  match bs with
  | [] => None
  | b :: rest =>
      if b <? 128 then Some (b, rest)
      else '(v, rest) ← get_varint rest; Some (b - 128 + 128 * v, rest)
  end.
Fixpoint put_varint (fuel : nat) (n : Z) : list Z :=
  match fuel with
  | O => []
  | S fuel => if n <? 128 then [n] else (n mod 128 + 128) :: put_varint fuel (n / 128)
  end.

Inductive wire := Varint (n : Z) | Bytes (bs : list Z).

Definition get_field (bs : list Z) : option (Z * wire * list Z) :=
  '(key, bs) ← get_varint bs;
  match key mod 8 with
  | 0 => '(n, bs) ← get_varint bs; Some (key / 8, Varint n, bs)
  | 2 => '(len, bs) ← get_varint bs;
         if len <=? Z.of_nat (length bs)
         then Some (key / 8, Bytes (take (Z.to_nat len) bs), drop (Z.to_nat len) bs) else None
  | _ => None
  end.
Fixpoint get_fields (fuel : nat) (bs : list Z) : option (list (Z * wire)) :=
  match bs, fuel with
  | [], _ => Some []
  | _, O => None
  | _, S fuel => '(num, w, bs) ← get_field bs; fs ← get_fields fuel bs; Some ((num, w) :: fs)
  end.
(** Every field takes a byte, so the length is enough fuel. *)
Definition fields (bs : list Z) : option (list (Z * wire)) := get_fields (length bs) bs.

(** A varint of 64 bits takes ten bytes at most. *)
Definition put_field (num : Z) (w : wire) : list Z :=
  match w with
  | Varint n => put_varint 10 (8 * num) ++ put_varint 10 n
  | Bytes bs => put_varint 10 (8 * num + 2) ++ put_varint 10 (Z.of_nat (length bs)) ++ bs
  end.
Definition put_fields (fs : list (Z * wire)) : list Z := f ← fs; put_field f.1 f.2.
End Wire.

(** ** Writing and reading back *)

Section WireFacts.
Local Open Scope Z_scope.

Lemma get_put_varint fuel n rest :
  0 <= n < 128 ^ Z.of_nat (S fuel) -> get_varint (put_varint (S fuel) n ++ rest) = Some (n, rest).
Proof.
  revert n. induction fuel as [|fuel IH]; intros n Hn; cbn [put_varint] in *;
    (destruct (Z.ltb_spec n 128) as [Hlt|Hge]; cbn [app get_varint]; [by rewrite (proj2 (Z.ltb_lt _ _) Hlt)|]).
  - change (128 ^ Z.of_nat 1) with 128 in Hn. lia.
  - pose proof (Z.mod_pos_bound n 128). destruct (Z.ltb_spec (n mod 128 + 128) 128); [lia|].
    rewrite IH.
    + cbn. f_equal. f_equal. pose proof (Z.div_mod n 128). lia.
    + rewrite Nat2Z.inj_succ, Z.pow_succ_r in Hn by lia.
      split; [apply Z.div_pos; lia|apply Z.div_lt_upper_bound; lia].
Qed.

Lemma put_varint_length fuel n : (0 < length (put_varint (S fuel) n))%nat.
Proof. cbn [put_varint]. destruct (n <? 128); cbn [length]; lia. Qed.

(** What a field may hold: a number of 64 bits, or fewer than 2^64 bytes. *)
Definition wire_ok (w : wire) : Prop :=
  match w with Varint n => 0 <= n < 2 ^ 64 | Bytes bs => Z.of_nat (length bs) < 2 ^ 64 end.
Definition field_ok (f : Z * wire) : Prop := 1 <= f.1 < 2 ^ 29 /\ wire_ok f.2.

Lemma get_put_field num w rest :
  field_ok (num, w) -> get_field (put_field num w ++ rest) = Some (num, w, rest).
Proof.
  assert (H29 : 2 ^ 29 = 536870912) by reflexivity. assert (H64 : 2 ^ 64 = 18446744073709551616) by reflexivity.
  assert (H10 : 128 ^ Z.of_nat 10 = 1180591620717411303424) by reflexivity.
  intros [Hnum Hw]. cbn [fst snd] in *. unfold get_field. destruct w as [n|bs]; cbn [put_field wire_ok] in *.
  - rewrite <- app_assoc, get_put_varint by lia. cbn [mbind option_bind].
    replace (8 * num) with (num * 8) by lia. rewrite Z.mod_mul, Z.div_mul by lia.
    by rewrite get_put_varint by lia.
  - rewrite <- !app_assoc, get_put_varint by lia. cbn [mbind option_bind].
    replace (8 * num + 2) with (2 + num * 8) by lia. rewrite Z.mod_add, Z.div_add by lia.
    change (2 mod 8) with 2. change (2 / 8) with 0. cbn iota. rewrite get_put_varint by lia. cbn [mbind option_bind].
    rewrite length_app. destruct (Z.leb_spec (Z.of_nat (length bs)) (Z.of_nat (length bs + length rest))); [|lia].
    rewrite Nat2Z.id, take_app_length, drop_app_length. by rewrite Z.add_0_l.
Qed.

Lemma put_field_length num w : (0 < length (put_field num w))%nat.
Proof.
  destruct w; cbn [put_field]; rewrite !length_app;
    match goal with |- context [length (put_varint 10 ?x)] => pose proof (put_varint_length 9 x) end; lia.
Qed.

(** Reading what was written gives the fields back. *)
Lemma fields_put_fields fs : Forall field_ok fs -> fields (put_fields fs) = Some fs.
Proof.
  intros Hok. unfold fields.
  assert (H : forall fuel, (length (put_fields fs) <= fuel)%nat -> get_fields fuel (put_fields fs) = Some fs); [|by apply H].
  induction Hok as [|[num w] fs Hf _ IH]; intros fuel Hlen; [by destruct fuel|].
  change (put_fields ((num, w) :: fs)) with (put_field num w ++ put_fields fs) in *.
  pose proof (put_field_length num w). rewrite length_app in Hlen. destruct fuel as [|fuel]; [lia|].
  assert (E : get_fields (S fuel) (put_field num w ++ put_fields fs) =
    ('(num, w, bs) ← get_field (put_field num w ++ put_fields fs); fs ← get_fields fuel bs; Some ((num, w) :: fs))).
  { destruct (put_field num w); [simpl in *; lia|done]. }
  rewrite E, get_put_field by done. cbn [mbind option_bind]. rewrite IH by lia. done.
Qed.

(** ** The encoding of the messages *)

Fixpoint bytes (s : string) : list Z :=
  match s with EmptyString => [] | String c s => Z.of_N (N_of_ascii c) :: bytes s end.
Fixpoint text (bs : list Z) : string :=
  match bs with [] => "" | b :: bs => String (ascii_of_N (Z.to_N b)) (text bs) end.
Lemma text_bytes s : text (bytes s) = s.
Proof. induction s as [|c s IH]; [done|]. cbn. by rewrite N2Z.id, ascii_N_embedding, IH. Qed.

(** Fields with their zero value are not written. *)
Definition string_field (num : Z) (s : string) : list (Z * wire) :=
  if bool_decide (s = "") then [] else [(num, Bytes (bytes s))].
Definition int64_field (num n : Z) : list (Z * wire) :=
  if n =? 0 then [] else [(num, Varint (n mod 2 ^ 64))].
Definition to_fields (t : msgType) : message t -> list (Z * wire) :=
  match t with
  | TGroupRequest => fun m => string_field 1 (gq_Group m)
  | TGroupResponse => fun m => string_field 1 (gr_Name m) ++ int64_field 2 (gr_Size m)
  | TResourceRequest => fun _ => []
  | TResourceResponse => fun m => string_field 1 (rr_Graph m)
  end.
(** A field the message does not have is skipped. *)
Definition set_field (t : msgType) : message t -> Z * wire -> message t :=
  match t with
  | TGroupRequest => fun m f => match f with (1, Bytes b) => mkGroupRequest (text b) | _ => m end
  | TGroupResponse => fun m f =>
      match f with
      | (1, Bytes b) => mkGroupResponse (text b) (gr_Size m)
      | (2, Varint n) => mkGroupResponse (gr_Name m) (int64 n)
      | _ => m
      end
  | TResourceRequest => fun m _ => m
  | TResourceResponse => fun m f => match f with (1, Bytes b) => mkResourceResponse (text b) | _ => m end
  end.

Definition encode (t : msgType) (m : message t) : list Z := put_fields (to_fields t m).
Definition decode (t : msgType) (bs : list Z) : option (message t) := foldl (set_field t) (new t) <$> fields bs.

(** A message that fits the format: texts shorter than 2^64 bytes and a size
    of 64 bits, as every Go value is. *)
Definition message_ok (t : msgType) : message t -> Prop :=
  match t with
  | TGroupRequest => fun m => Z.of_nat (length (bytes (gq_Group m))) < 2 ^ 64
  | TGroupResponse => fun m => Z.of_nat (length (bytes (gr_Name m))) < 2 ^ 64 /\ in_range 64 (gr_Size m)
  | TResourceRequest => fun _ => True
  | TResourceResponse => fun m => Z.of_nat (length (bytes (rr_Graph m))) < 2 ^ 64
  end.

Lemma string_field_ok num s :
  1 <= num < 2 ^ 29 -> Z.of_nat (length (bytes s)) < 2 ^ 64 -> Forall field_ok (string_field num s).
Proof. intros Hn Hs. unfold string_field. case_bool_decide; repeat constructor; apply Hn || apply Hs. Qed.
Lemma int64_field_ok num n : 1 <= num < 2 ^ 29 -> Forall field_ok (int64_field num n).
Proof.
  intros Hn. unfold int64_field. destruct (n =? 0); repeat constructor; try apply Hn; cbn;
    apply Z.mod_pos_bound; reflexivity.
Qed.
Lemma int64_mod n : in_range 64 n -> int64 (n mod 2 ^ 64) = n.
Proof.
  intros Hn. unfold int64. rewrite <- (wrap_id 64 n) at 2 by done. unfold wrap.
  rewrite <- (Zplus_mod_idemp_l n). done.
Qed.

(** Decoding an encoded message gives the message. *)
Lemma decode_encode t (m : message t) : message_ok t m -> decode t (encode t m) = Some m.
Proof.
  intros Hok. unfold decode, encode. rewrite fields_put_fields.
  - destruct t, m; cbn in *; f_equal; unfold string_field, int64_field.
    + case_bool_decide; subst; cbn; by rewrite ?text_bytes.
    + destruct Hok as [_ Hs]. destruct (Z.eqb_spec gr_Size0 0) as [->|Hz]; case_bool_decide; subst; cbn;
        rewrite ?text_bytes, ?int64_mod by done; done.
    + case_bool_decide; subst; cbn; by rewrite ?text_bytes.
  - destruct t, m; cbn [to_fields message_ok gq_Group gr_Name gr_Size rr_Graph] in *; try done.
    1,3: apply string_field_ok; [lia|done].
    apply Forall_app. destruct Hok. split; [apply string_field_ok; [lia|done]|apply int64_field_ok; lia].
Qed.
End WireFacts.

(** ** What the raw descriptor describes *)

Record FieldDesc := mkFieldDesc { fl_name : string; fl_number : Z; fl_type : Z }.
Record MsgDesc := mkMsgDesc { md_name : string; md_fields : list FieldDesc }.
Record MethodDesc := mkMethodDesc { mt_name : string; mt_input : string; mt_output : string }.
Record SvcDesc := mkSvcDesc { sd_name : string; sd_methods : list MethodDesc }.
Record FileDesc := mkFileDesc {
  fd_name : string;
  fd_package : string;
  fd_messages : list MsgDesc;
  fd_services : list SvcDesc;
  fd_go_package : string;
  fd_syntax : string
}.

Section Descriptors.
Local Open Scope Z_scope.

(** The fields of [descriptor.proto] by number: the last value of a single
    field, all values of a repeated one. *)
Definition all_bytes (num : Z) (fs : list (Z * wire)) : list (list Z) :=
  omap (fun f => match f with (n, Bytes b) => if n =? num then Some b else None | _ => None end) fs.
Definition one_text (num : Z) (fs : list (Z * wire)) : string :=
  default "" (text <$> last (all_bytes num fs)).
Definition one_int (num : Z) (fs : list (Z * wire)) : Z :=
  default 0 (last (omap (fun f => match f with (n, Varint v) => if n =? num then Some v else None | _ => None end) fs)).

Definition read_field (bs : list Z) : option FieldDesc :=
  fs ← fields bs; Some (mkFieldDesc (one_text 1 fs) (one_int 3 fs) (one_int 5 fs)).
Definition read_message (bs : list Z) : option MsgDesc :=
  fs ← fields bs; ls ← mapM read_field (all_bytes 2 fs); Some (mkMsgDesc (one_text 1 fs) ls).
Definition read_method (bs : list Z) : option MethodDesc :=
  fs ← fields bs; Some (mkMethodDesc (one_text 1 fs) (one_text 2 fs) (one_text 3 fs)).
Definition read_service (bs : list Z) : option SvcDesc :=
  fs ← fields bs; ms ← mapM read_method (all_bytes 2 fs); Some (mkSvcDesc (one_text 1 fs) ms).
Definition read_file (bs : list Z) : option FileDesc :=
  fs ← fields bs;
  ms ← mapM read_message (all_bytes 4 fs);
  ss ← mapM read_service (all_bytes 6 fs);
  opts ← mapM fields (all_bytes 8 fs);
  Some (mkFileDesc (one_text 1 fs) (one_text 2 fs) ms ss (default "" (one_text 11 <$> last opts)) (one_text 12 fs)).

(** The types of the descriptor that the messages use: 9 is string, 3 is
    int64. *)
Definition kind_of (type : Z) : option wire_kind :=
  if type =? 9 then Some Kbytes else if type =? 3 then Some Kvarint else None.
Definition tag_of (f : FieldDesc) : option (wire_kind * Z * string) :=
  k ← kind_of (fl_type f); Some (k, fl_number f, fl_name f).

(** The input and output type of method [i], through the dependency indexes:
    the sub-lists start at the entries after the last type. *)
Definition method_count : nat := 3.
Definition input_type (i : nat) : option msgType :=
  start ← depIdxs !! (2 * method_count + 1)%nat; j ← depIdxs !! (Z.to_nat start + i)%nat; goTypes !! Z.to_nat j.
Definition output_type (i : nat) : option msgType :=
  start ← depIdxs !! (2 * method_count)%nat; j ← depIdxs !! (Z.to_nat start + i)%nat; goTypes !! Z.to_nat j.
End Descriptors.

(** The Go type names the message. *)
Definition type_name (t : msgType) : string :=
  match t with
  | TGroupRequest => "GroupRequest"
  | TGroupResponse => "GroupResponse"
  | TResourceRequest => "ResourceRequest"
  | TResourceResponse => "ResourceResponse"
  end.

Definition service_file : FileDesc :=
  mkFileDesc "pkg/service-grpc/service.proto" "service"
    [mkMsgDesc "GroupRequest" [mkFieldDesc "group" 1 9];
     mkMsgDesc "GroupResponse" [mkFieldDesc "name" 1 9; mkFieldDesc "size" 2 3];
     mkMsgDesc "ResourceRequest" [];
     mkMsgDesc "ResourceResponse" [mkFieldDesc "graph" 1 9]]
    [mkSvcDesc "ExternalPluginService"
       [mkMethodDesc "GetResources" ".service.ResourceRequest" ".service.ResourceResponse";
        mkMethodDesc "ListGroups" ".service.GroupRequest" ".service.GroupResponse";
        mkMethodDesc "GetGroup" ".service.GroupRequest" ".service.GroupResponse"]]
    "github.com/converged-computing/fluxnetes/pkg/service-grpc" "proto3".

(** The bytes are the descriptor of [service.proto], but for the Go package,
    which is that of another repository. *)
Lemma rawDesc_file : read_file rawDesc = Some service_file.
Proof. vm_compute. reflexivity. Qed.
