(* ===== verification/Service.v ===== *)
(** * The service for external plugins: [pkg/service/service.go]

    Two endpoints whose answers are empty, and one that returns the text of the
    graph file that the start of the controller wrote. *)

From stdpp Require Import base option strings gmap numbers list.
From S2P Require Import Prelude GoStrings Proto Kube Jobspec Resources Allocation Jgf JgfJson Cluster.

Section Service.
Context {Q K : Type} `{!ClusterClient Q K}.

(** [GetGroup] and [ListGroups]. *)
Definition GetGroup (in_ : option GroupRequest) : GoM K (option GroupResponse * error) :=
  let emptyResponse := mkGroupResponse "" 0 in
  mret (Some emptyResponse, None).
Definition ListGroups (in_ : option GroupRequest) : GoM K (option GroupResponse * error) :=
  let emptyResponse := mkGroupResponse "" 0 in
  mret (Some emptyResponse, None).

(** [GetResources]. *)
Definition GetResources (in_ : option ResourceRequest) : GoM K (option ResourceResponse * error) :=
  let emptyResponse := mkResourceResponse "" in
  '(jgf, err) ← call (os_ReadFile (Q:=Q) KubernetesJsonGraphFormat);
  match err with
  | Some _ => mret (Some emptyResponse, err)
  | None => mret (Some (mkResourceResponse jgf), None)
  end.
End Service.

Section ServiceFacts.
Context {Q K : Type} `{!Quantity Q, !QuantityOps Q, !MapRange Q, !MilliQuantity Q, !ClusterClient Q K}.

Context `{!FileView K, !FileLaws Q K}.

(** The endpoint returns the content of the graph file, or the error of reading
    it with an empty answer. *)
Lemma GetResources_content request text (k : K) :
  file_content KubernetesJsonGraphFormat k = Some text ->
  (GetResources (Q:=Q) request k).1 =
  match (os_ReadFile (Q:=Q) KubernetesJsonGraphFormat k).1.2 with
  | None => Ret (Some (mkResourceResponse text), None)
  | Some e => Ret (Some (mkResourceResponse ""), Some e)
  end.
Proof.
  intros Hc. unfold GetResources. rewrite run_bind. unfold call.
  destruct (os_ReadFile KubernetesJsonGraphFormat k) as [[s [e|]] k1] eqn:E; [done|].
  pose proof (read_ok _ _ _ _ E) as Hs. rewrite Hc in Hs. by injection Hs as ->.
Qed.

Lemma GetResources_keeps request (k : K) :
  file_content KubernetesJsonGraphFormat (GetResources (Q:=Q) request k).2 = file_content KubernetesJsonGraphFormat k.
Proof.
  rewrite <- (read_keeps (Q:=Q) KubernetesJsonGraphFormat k). unfold GetResources. rewrite run_bind. unfold call.
  by destruct (os_ReadFile KubernetesJsonGraphFormat k) as [[s [e|]] k1].
Qed.

(** C30. The resource endpoint answers with the graph the scheduler works on: after
    a successful start of the controller, and after any number of requests, a
    request returns the very text Fluxion was initialised with, which is the
    encoding of the graph of the listed nodes; the only other answer is an empty
    one with the error of reading the file. *)
Theorem GetResources_serves_graph Fluxion policy request (k k' : K) :
  InitFluxion (Q:=Q) Fluxion policy k = (Ret None, k') ->
  exists nodes k1 k2 g k3 k4,
    nodes_List (Q:=Q) k1 = ((nodes, None), k2) /\ cluster_graph (Q:=Q) "" nodes k2 = (Ret (inr g), k3) /\
    fluxion_Init (Q:=Q) policy (ToBytes g).1 k4 = (None, k') /\
    forall n, let k5 := Nat.iter n (fun k => (GetResources (Q:=Q) request k).2) k' in
    (GetResources (Q:=Q) request k5).1 =
      match (os_ReadFile (Q:=Q) KubernetesJsonGraphFormat k5).1.2 with
      | None => Ret (Some (mkResourceResponse (ToBytes g).1), None)
      | Some e => Ret (Some (mkResourceResponse ""), Some e)
      end.
Proof.
  intros (nodes & k1 & k2 & g & k3 & k4 & Hn & Hg & Hc & Hi)%InitFluxion_run.
  exists nodes, k1, k2, g, k3, k4. do 3 (split; [done|]). intros n k5. apply GetResources_content. subst k5.
  induction n as [|n IH]; [|by rewrite Nat.iter_succ, GetResources_keeps].
  pose proof (init_keeps policy (ToBytes g).1 KubernetesJsonGraphFormat k4) as Hf. by rewrite Hi, Hc in Hf.
Qed.

(** An error of the file is passed on with an empty answer. *)
Lemma GetResources_error request (k : K) s e k1 :
  os_ReadFile (Q:=Q) KubernetesJsonGraphFormat k = ((s, Some e), k1) ->
  GetResources (Q:=Q) request k = (Ret (Some (mkResourceResponse ""), Some e), k1).
Proof. intros Hr. unfold GetResources. rewrite run_bind. unfold call. by rewrite Hr. Qed.
End ServiceFacts.

Lemma GetResources_serves_graph_witness :
  exists g, (GetResources (Q:=Z) None
    (Nat.iter 2 (fun k => (GetResources (Q:=Z) None k).2) (InitFluxion (Q:=Z) true "first" small_cluster).2)).1 =
    Ret (Some (mkResourceResponse (ToBytes g).1), None).
Proof.
  assert (Hi : InitFluxion (Q:=Z) true "first" small_cluster =
               (Ret None, (InitFluxion (Q:=Z) true "first" small_cluster).2)) by (vm_compute; reflexivity).
  destruct (GetResources_serves_graph (Q:=Z) true "first" None small_cluster _ Hi)
    as (nodes & k1 & k2 & g & k3 & k4 & _ & _ & _ & H).
  exists g. exact (H 2).
Defined.
