(* ===== verification/Transport.v ===== *)
(** * The stubs of the external service: [pkg/service-grpc/service_grpc.pb.go]

    The client stubs, the handlers the server runs, the table that registers
    them, and the server that implements nothing, as protoc generated them.
    The gRPC library carries the calls: a connection and the wire format are
    classes.  A call is served by the handler of its name or fails on the way.
    The theorems compose stub, table, handler and endpoint: a client gets what
    the endpoint of [service.go] returns, or an error.  The program itself
    registers no such server; these are the parts a plugin would link. *)

From Stdlib Require Import Ascii.
From stdpp Require Import base option strings gmap numbers list.
From S2P Require Import Prelude GoStrings Proto Kube Jobspec Resources Allocation Jgf JgfJson Cluster Service.

(** A value of type [interface{}]: nil, or a typed pointer to a message. *)
Inductive any := ANil | APtr (t : msgType) (m : option (message t)).
Arguments APtr _ _ : clear implicits.

(** The type assertion to a message pointer. *)
Definition as_ptr (t : msgType) (a : any) : option (option (message t)) :=
  match a with
  | ANil => None
  | APtr t' m =>
      match decide (t' = t) with
      | left E => Some (eq_rect t' (fun t => option (message t)) m t E)
      | right _ => None
      end
  end.
Lemma as_ptr_same t m : as_ptr t (APtr t m) = Some m.
Proof. destruct t; reflexivity. Qed.

Section Transport.
Context {K : Type}.

(** [ExternalPluginServiceServer]. *)
Record ExternalPluginServiceServer := mkServer {
  srv_GetResources : option ResourceRequest -> GoM K (option ResourceResponse * error);
  srv_ListGroups : option GroupRequest -> GoM K (option GroupResponse * error);
  srv_GetGroup : option GroupRequest -> GoM K (option GroupResponse * error)
}.

(** [UnimplementedExternalPluginServiceServer]. *)
Definition unimplemented (method : string) : goerr :=
  Err ("rpc error: code = Unimplemented desc = method " +:+ method +:+ " not implemented").
Definition UnimplementedExternalPluginServiceServer : ExternalPluginServiceServer := {|
  srv_GetResources _ := mret (None, Some (unimplemented "GetResources"));
  srv_ListGroups _ := mret (None, Some (unimplemented "ListGroups"));
  srv_GetGroup _ := mret (None, Some (unimplemented "GetGroup"))
|}.

(** What the library gives a handler: a decoder that fills the request, and an
    interceptor or none. *)
Definition decoder : Type := forall t : msgType, message t -> GoM K (message t * error).
Definition UnaryHandler : Type := any -> GoM K (any * error).
Record UnaryServerInfo := mkInfo { info_Server : option ExternalPluginServiceServer; info_FullMethod : string }.
Definition UnaryServerInterceptor : Type := any -> UnaryServerInfo -> UnaryHandler -> GoM K (any * error).

(** [srv.(ExternalPluginServiceServer)]; [None] is a value of another type. *)
Definition assert_server (srv : option ExternalPluginServiceServer) : GoM K ExternalPluginServiceServer :=
  match srv with
  | Some s => mret s
  | None => panic "interface conversion: interface {} is not service_grpc.ExternalPluginServiceServer"
  end.

(** The body that protoc repeats for every method. *)
Definition unary_handler (tin tout : msgType) (FullMethod : string)
    (method : ExternalPluginServiceServer -> option (message tin) -> GoM K (option (message tout) * error))
    (srv : option ExternalPluginServiceServer) (dec : decoder) (interceptor : option UnaryServerInterceptor) : GoM K (any * error) :=
  '(in_, err) ← dec tin (new tin);
  match err with Some _ => mret (ANil, err) | None =>
  match interceptor with
  | None => s ← assert_server srv; '(r, e) ← method s (Some in_); mret (APtr tout r, e)
  | Some interceptor =>
      let info := mkInfo srv FullMethod in
      let handler := fun req =>
        s ← assert_server srv;
        match as_ptr tin req with
        | Some req => '(r, e) ← method s req; mret (APtr tout r, e)
        | None => panic "interface conversion: interface {} is not the request type"
        end in
      interceptor (APtr tin (Some in_)) info handler
  end end.

Definition _ExternalPluginService_GetResources_Handler :=
  unary_handler TResourceRequest TResourceResponse "/service.ExternalPluginService/GetResources" srv_GetResources.
Definition _ExternalPluginService_ListGroups_Handler :=
  unary_handler TGroupRequest TGroupResponse "/service.ExternalPluginService/ListGroups" srv_ListGroups.
Definition _ExternalPluginService_GetGroup_Handler :=
  unary_handler TGroupRequest TGroupResponse "/service.ExternalPluginService/GetGroup" srv_GetGroup.

(** [ExternalPluginService_ServiceDesc]. *)
Record ServiceDesc := mkServiceDesc {
  ServiceName : string;
  Methods : list (string * (option ExternalPluginServiceServer -> decoder -> option UnaryServerInterceptor -> GoM K (any * error)));
  Metadata : string
}.
Definition ExternalPluginService_ServiceDesc : ServiceDesc := {|
  ServiceName := "service.ExternalPluginService";
  Methods := [("GetResources", _ExternalPluginService_GetResources_Handler);
              ("ListGroups", _ExternalPluginService_ListGroups_Handler);
              ("GetGroup", _ExternalPluginService_GetGroup_Handler)];
  Metadata := "pkg/service-grpc/service.proto"
|}.

(** [RegisterExternalPluginServiceServer], over any registrar. *)
Definition RegisterExternalPluginServiceServer {Reg : Type}
    (RegisterService : ServiceDesc -> ExternalPluginServiceServer -> Reg -> Reg)
    (s : Reg) (srv : ExternalPluginServiceServer) : Reg :=
  RegisterService ExternalPluginService_ServiceDesc srv s.

(** ** The client *)

(** [grpc.ClientConnInterface]: a unary call fills the response it is given. *)
Class ClientConn := Invoke : string -> forall tin, option (message tin) -> forall tout, message tout -> GoM K (message tout * error).
Context `{!ClientConn}.

Definition client_call (method : string) (tin : msgType) (in_ : option (message tin)) (tout : msgType)
  : GoM K (option (message tout) * error) :=
  '(out, err) ← Invoke method tin in_ tout (new tout);
  match err with
  | Some _ => mret (None, err)
  | None => mret (Some out, None)
  end.

(** The methods of [externalPluginServiceClient]. *)
Definition client_GetResources (in_ : option ResourceRequest) : GoM K (option ResourceResponse * error) :=
  client_call "/service.ExternalPluginService/GetResources" TResourceRequest in_ TResourceResponse.
Definition client_ListGroups (in_ : option GroupRequest) : GoM K (option GroupResponse * error) :=
  client_call "/service.ExternalPluginService/ListGroups" TGroupRequest in_ TGroupResponse.
Definition client_GetGroup (in_ : option GroupRequest) : GoM K (option GroupResponse * error) :=
  client_call "/service.ExternalPluginService/GetGroup" TGroupRequest in_ TGroupResponse.
End Transport.

Arguments ExternalPluginServiceServer K : clear implicits.
Arguments ServiceDesc K : clear implicits.
Arguments ClientConn K : clear implicits.
Arguments decoder K : clear implicits.
Arguments UnaryServerInterceptor K : clear implicits.

(** ** The library, as documented *)

(** The wire format: what was marshalled unmarshals to the same message, and
    no bytes are the message of zero values. *)
Class WireCodec := {
  marshal t : message t -> list Z;
  unmarshal t : list Z -> option (message t)
}.
Class WireLaws `{!WireCodec} : Prop := {
  unmarshal_marshal t m : message_ok t m -> unmarshal t (marshal t m) = Some m;
  unmarshal_nil t : unmarshal t [] = Some (new t)
}.

#[export] Instance proto_codec : WireCodec := { marshal := encode; unmarshal := decode }.
#[export] Instance proto_laws : WireLaws.
Proof. split; [apply decode_encode|by intros []]. Qed.

Section Connections.
Context {K : Type} `{!WireCodec}.

(** The error a client sees for an error of the server. *)
Context (status_of : goerr -> goerr).

Definition wire_ptr (t : msgType) (m : option (message t)) : list Z :=
  match m with Some m => marshal t m | None => [] end.
Definition received (bs : list Z) : decoder K := fun t m =>
  match unmarshal t bs with
  | Some m => mret (m, None)
  | None => mret (m, Some (Err "rpc error: code = Internal desc = grpc: error unmarshalling request"))
  end.

(** A unary call that reaches a handler of a server without interceptors: the
    request arrives as its bytes, the response comes back as its bytes. *)
Definition serve (handler : option (ExternalPluginServiceServer K) -> decoder K -> option (UnaryServerInterceptor K) -> GoM K (any * error))
    (srv : ExternalPluginServiceServer K) (tin : msgType) (in_ : option (message tin)) (tout : msgType) (out : message tout)
  : GoM K (message tout * error) :=
  '(resp, err) ← handler (Some srv) (received (wire_ptr tin in_)) None;
  match err, resp with
  | Some e, _ => mret (out, Some (status_of e))
  | None, ANil => mret (out, Some (Err "rpc error: code = Internal desc = grpc: error while marshaling"))
  | None, APtr t m =>
      match unmarshal tout (wire_ptr t m) with
      | Some m => mret (m, None)
      | None => mret (out, Some (Err "rpc error: code = Internal desc = grpc: failed to unmarshal the received message"))
      end
  end.

(** The connection leads to a server on which [desc] is registered with [srv]:
    a call of [/service/method] runs the handler of that name, or it fails: no
    connection, a deadline, a message over the size limit. *)
Class Connected `{!ClientConn K} (desc : ServiceDesc K) (srv : ExternalPluginServiceServer K) : Prop :=
  invoke_registered method handler tin in_ tout out (k : K) :
    NoDup (fst <$> Methods desc) -> (method, handler) ∈ Methods desc ->
    let r := Invoke ("/" +:+ ServiceName desc +:+ "/" +:+ method) tin in_ tout out k in
    r = serve handler srv tin in_ tout out k \/ exists out' e k', r = (Ret (out', Some e), k').

(** What a client makes of the result of an endpoint. *)
Definition relay {t} (m : GoM K (option (message t) * error)) : GoM K (option (message t) * error) :=
  '(r, e) ← m;
  match e with
  | Some e => mret (None, Some (status_of e))
  | None => mret (Some (default (new t) r), None)
  end.

Context `{!WireLaws, !ClientConn K}.
Context (srv : ExternalPluginServiceServer K) `{!Connected ExternalPluginService_ServiceDesc srv}.

Definition request_ok t (m : option (message t)) : Prop := match m with Some m => message_ok t m | None => True end.
Lemma unmarshal_ptr t m : request_ok t m -> unmarshal t (wire_ptr t m) = Some (default (new t) m).
Proof. destruct m; cbn; [apply unmarshal_marshal|intros _; apply unmarshal_nil]. Qed.

(** The client has this answer, or none and an error. *)
Definition answers {t : msgType} (r r' : outcome (option (message t) * error) * K) : Prop :=
  r = r' \/ exists e k', r = (Ret (None, Some e), k').

(** A handler without interceptor runs the method on the decoded request. *)
Lemma handler_run tin tout full method (dec : decoder K) m (k k1 : K) :
  dec tin (new tin) k = (Ret (m, None), k1) ->
  unary_handler tin tout full method (Some srv) dec None k =
  let '(o, k2) := method srv (Some m) k1 in
  (match o with Ret (r, e) => Ret (APtr tout r, e) | Panic why => Panic why end, k2).
Proof.
  intros Hd. unfold unary_handler. rewrite run_bind, Hd. cbn iota beta.
  change (assert_server (Some srv)) with (mret srv : GoM K (ExternalPluginServiceServer K)).
  rewrite GoM_left_id, run_bind. by destruct (method srv (Some m) k1) as [[[r e]|why] k2].
Qed.

(** One method: stub, table, handler, endpoint. *)
Lemma call_served name full tin tout method (in_ : option (message tin)) (k : K) :
  (name, unary_handler tin tout full method) ∈ Methods ExternalPluginService_ServiceDesc ->
  request_ok tin in_ ->
  (forall r k', method srv (Some (default (new tin) in_)) k = (Ret (r, None), k') -> request_ok tout r) ->
  answers (client_call ("/" +:+ ServiceName (K:=K) ExternalPluginService_ServiceDesc +:+ "/" +:+ name) tin in_ tout k)
    (relay (method srv (Some (default (new tin) in_))) k).
Proof.
  intros Hin Hreq Hresp. unfold client_call, relay.
  assert (Hnd : NoDup (fst <$> Methods (K:=K) ExternalPluginService_ServiceDesc))
    by (apply (bool_decide_unpack _); vm_compute; exact I).
  rewrite run_bind. destruct (invoke_registered _ _ tin in_ tout (new tout) k Hnd Hin) as [->|(out' & e & k' & ->)];
    [left|by right; exists e, k'].
  unfold serve. rewrite run_bind.
  rewrite (handler_run _ _ _ _ _ (default (new tin) in_) k k), run_bind
    by (unfold received; by rewrite unmarshal_ptr).
  destruct (method srv (Some (default (new tin) in_)) k) as [[[r [e|]]|why] k'] eqn:E; [done| |done].
  cbn iota beta. by rewrite unmarshal_ptr by by eapply Hresp.
Qed.
End Connections.

(** ** The tables agree *)

(** The generated tables agree with each other: the raw descriptor is readable
    and describes, in the order of the Go types, exactly their messages with
    the names, numbers and wire kinds of their struct tags; its one service
    has the name and the methods, in order, of the table the server registers;
    and the dependency indexes give every method the request and response type
    that the descriptor names. *)
Lemma generated_tables_agree {K : Type} :
  exists fd svc, read_file rawDesc = Some fd /\ fd_services fd = [svc] /\
    length (fd_messages fd) = NumMessages /\ length (fd_services fd) = NumServices /\
    Forall2 (fun t d => md_name d = type_name t /\ mapM tag_of (md_fields d) = Some (struct_tags t)) goTypes (fd_messages fd) /\
    (forall i t, goTypes !! i = Some t -> Descriptor_path t = [Z.of_nat i]) /\
    Metadata (K:=K) ExternalPluginService_ServiceDesc = fd_name fd /\
    ServiceName (K:=K) ExternalPluginService_ServiceDesc = fd_package fd +:+ "." +:+ sd_name svc /\
    (fst <$> Methods (K:=K) ExternalPluginService_ServiceDesc) = (mt_name <$> sd_methods svc) /\
    forall i m, sd_methods svc !! i = Some m ->
      exists tin tout, input_type i = Some tin /\ output_type i = Some tout /\
        mt_input m = "." +:+ fd_package fd +:+ "." +:+ type_name tin /\
        mt_output m = "." +:+ fd_package fd +:+ "." +:+ type_name tout.
Proof.
  exists service_file, (default (mkSvcDesc "" []) (head (fd_services service_file))).
  split; [apply rawDesc_file|]. do 3 (split; [reflexivity|]). split; [repeat constructor|]. split.
  { intros [|[|[|[|i]]]] t [= <-]; reflexivity. }
  do 3 (split; [reflexivity|]). intros [|[|[|i]]] m [= <-]; eexists _, _; repeat split; reflexivity.
Qed.

(** The Go package of the descriptor is not the one of [service.proto]. *)
Example go_package_of_fluxnetes :
  fd_go_package <$> read_file rawDesc = Some "github.com/converged-computing/fluxnetes/pkg/service-grpc".
Proof. by rewrite rawDesc_file. Qed.

(** ** The service behind its client *)

Section Endpoints.
Context {Q K : Type} `{!Quantity Q, !QuantityOps Q, !MapRange Q, !MilliQuantity Q, !ClusterClient Q K}.

(** [ExternalService] overrides every method of the server it embeds. *)
Definition ExternalService : ExternalPluginServiceServer K := {|
  srv_GetResources := GetResources (Q:=Q);
  srv_ListGroups := ListGroups;
  srv_GetGroup := GetGroup
|}.

Context `{!WireCodec, !WireLaws, !ClientConn K} (status_of : goerr -> goerr).
Context `{!Connected status_of ExternalPluginService_ServiceDesc ExternalService}.

Lemma client_GetResources_run req (k : K) :
  request_ok TResourceRequest req ->
  (forall s k1, os_ReadFile (Q:=Q) KubernetesJsonGraphFormat k = ((s, None), k1) -> (Z.of_nat (length (bytes s)) < 2 ^ 64)%Z) ->
  answers (t:=TResourceResponse) (client_GetResources req k)
    (relay (t:=TResourceResponse) status_of (GetResources (Q:=Q) (Some (default mkResourceRequest req))) k).
Proof.
  intros Hreq Hs.
  refine (call_served status_of ExternalService "GetResources" "/service.ExternalPluginService/GetResources"
            TResourceRequest TResourceResponse srv_GetResources req k ltac:(apply list_elem_of_here) Hreq _).
  intros r k'. cbn. unfold GetResources. rewrite run_bind. unfold call.
  destruct (os_ReadFile (Q:=Q) KubernetesJsonGraphFormat k) as [[s [e|]] k1] eqn:E; [done|].
  intros [= <- <-]. cbn. by eapply Hs.
Qed.

(** A client gets what the endpoints return, or an error: over a connection to a
    server on which the generated table is registered, a call of a stub that is
    served reaches the endpoint of its own name with the request the caller gave.  The group endpoints answer
    with an empty group and no error; the resource endpoint with the text of
    the graph file, and when the file cannot be read the client has no answer
    and the error of the file. *)
Theorem client_gets_endpoints (k : K) :
  (forall req, request_ok TGroupRequest req ->
     answers (t:=TGroupResponse) (client_ListGroups req k) (Ret (Some (mkGroupResponse "" 0), None), k)) /\
  (forall req, request_ok TGroupRequest req ->
     answers (t:=TGroupResponse) (client_GetGroup req k) (Ret (Some (mkGroupResponse "" 0), None), k)) /\
  (forall req s k1, os_ReadFile (Q:=Q) KubernetesJsonGraphFormat k = ((s, None), k1) -> (Z.of_nat (length (bytes s)) < 2 ^ 64)%Z ->
     answers (t:=TResourceResponse) (client_GetResources req k) (Ret (Some (mkResourceResponse s), None), k1)) /\
  (forall req s e k1, os_ReadFile (Q:=Q) KubernetesJsonGraphFormat k = ((s, Some e), k1) ->
     answers (t:=TResourceResponse) (client_GetResources req k) (Ret (None, Some (status_of e)), k1)).
Proof.
  assert (Hok : forall r k', (Ret (Some (mkGroupResponse "" 0), @None goerr), k) = (Ret (r, None), k') ->
    request_ok TGroupResponse r) by by intros r k' [= <- <-].
  split; [|split; [|split]].
  - intros req Hreq. refine (call_served status_of ExternalService "ListGroups" "/service.ExternalPluginService/ListGroups"
      TGroupRequest TGroupResponse srv_ListGroups req k _ Hreq Hok). apply list_elem_of_further, list_elem_of_here.
  - intros req Hreq. refine (call_served status_of ExternalService "GetGroup" "/service.ExternalPluginService/GetGroup"
      TGroupRequest TGroupResponse srv_GetGroup req k _ Hreq Hok). do 2 apply list_elem_of_further. apply list_elem_of_here.
  - intros req s k1 Hr Hs. destruct (client_GetResources_run req k) as [->|Hf]; [by destruct req| | |by right].
    + intros s' k1'. rewrite Hr. by intros [= <- <-].
    + left. unfold relay, GetResources. rewrite run_bind, run_bind. unfold call. by rewrite Hr.
  - intros req s e k1 Hr. destruct (client_GetResources_run req k) as [->|Hf]; [by destruct req|by rewrite Hr| |by right].
    left. unfold relay, GetResources. rewrite run_bind, run_bind. unfold call. by rewrite Hr.
Qed.

Context `{!FileView K, !FileLaws Q K}.

(** A client never reads another graph than the scheduler works on: after a
    successful start of the controller, the resource stub of a client returns
    the very text Fluxion was initialised with, which is the encoding of the
    graph of the listed nodes, or no answer and an error. *)
Theorem client_reads_graph Fluxion policy req (k k' : K) :
  InitFluxion (Q:=Q) Fluxion policy k = (Ret None, k') ->
  exists nodes k1 k2 g k3 k4,
    nodes_List (Q:=Q) k1 = ((nodes, None), k2) /\ cluster_graph (Q:=Q) "" nodes k2 = (Ret (inr g), k3) /\
    fluxion_Init (Q:=Q) policy (ToBytes g).1 k4 = (None, k') /\
    ((Z.of_nat (length (bytes (ToBytes g).1)) < 2 ^ 64)%Z ->
     (client_GetResources req k').1 = Ret (Some (mkResourceResponse (ToBytes g).1), None) \/
     exists e, (client_GetResources req k').1 = Ret (None, Some e)).
Proof.
  intros (nodes & k1 & k2 & g & k3 & k4 & Hn & Hg & Hc & Hi)%InitFluxion_run.
  exists nodes, k1, k2, g, k3, k4. do 3 (split; [done|]). intros Hlen.
  pose proof (init_keeps policy (ToBytes g).1 KubernetesJsonGraphFormat k4) as Hf. rewrite Hi, Hc in Hf. cbn [snd] in Hf.
  destruct (proj2 (proj2 (client_gets_endpoints k'))) as [Hok Herr].
  destruct (os_ReadFile (Q:=Q) KubernetesJsonGraphFormat k') as [[s [e|]] k6] eqn:E.
  - right. destruct (Herr req _ _ _ eq_refl) as [->|(e' & k'' & ->)]; eauto.
  - pose proof (read_ok _ _ _ _ E) as Hs. rewrite Hf in Hs. injection Hs as <-.
    destruct (Hok req _ _ eq_refl Hlen) as [->|(e' & k'' & ->)]; eauto.
Qed.
End Endpoints.

(** ** An in-memory connection *)

(** A server with no interceptor that finds the handler by its full name. *)
Definition mem_invoke (srv : ExternalPluginServiceServer MemCluster) : ClientConn MemCluster := fun path tin in_ tout out =>
  match List.find (fun m => bool_decide (path = "/" +:+ ServiceName (K:=MemCluster) ExternalPluginService_ServiceDesc +:+ "/" +:+ m.1))
          (Methods ExternalPluginService_ServiceDesc) with
  | Some (_, handler) => serve id handler srv tin in_ tout out
  | None => mret (out, Some (unimplemented path))
  end.

Lemma mem_connected srv : Connected (K:=MemCluster) (ClientConn0:=mem_invoke srv) id ExternalPluginService_ServiceDesc srv.
Proof.
  intros method handler tin in_ tout out k _ Hin. left. cbn in Hin.
  repeat (apply elem_of_cons in Hin as [[= -> ->]|Hin]; [reflexivity|]). by apply elem_of_nil in Hin.
Qed.

Definition mem_service : ExternalPluginServiceServer MemCluster := ExternalService (Q:=Z).
#[local] Instance mem_conn : ClientConn MemCluster := mem_invoke mem_service.
#[local] Instance mem_service_connected : Connected id ExternalPluginService_ServiceDesc mem_service := mem_connected mem_service.

(** A connection that refuses large messages is one as well. *)
Definition limited (size : nat) (conn : ClientConn MemCluster) : ClientConn MemCluster := fun path tin in_ tout out k =>
  let r := conn path tin in_ tout out k in
  match r with
  | (Ret (m, None), k') =>
      if decide (size < length (marshal tout m)) then (Ret (out, Some (Err "rpc error: code = ResourceExhausted")), k') else r
  | _ => r
  end.
Lemma limited_connected size conn srv :
  Connected (K:=MemCluster) (ClientConn0:=conn) id ExternalPluginService_ServiceDesc srv ->
  Connected (K:=MemCluster) (ClientConn0:=limited size conn) id ExternalPluginService_ServiceDesc srv.
Proof.
  intros Hc method handler tin in_ tout out k Hnd Hin r. pose proof (Hc method handler tin in_ tout out k Hnd Hin) as H.
  subst r. unfold Invoke, limited in *. cbv zeta in H. destruct (conn _ _ _ _ _ _) as [[[m [e|]]|w] k'] eqn:E; [done| |done].
  destruct (decide _); [|done]. right. by eexists _, _, _.
Qed.

Lemma client_gets_endpoints_witness :
  answers (t:=TGroupResponse) (client_GetGroup (Some (mkGroupRequest "group")) small_cluster)
    (Ret (Some (mkGroupResponse "" 0), None), small_cluster).
Proof.
  refine (proj1 (proj2 (client_gets_endpoints (Q:=Z) id small_cluster)) (Some (mkGroupRequest "group")) _). reflexivity.
Defined.

(** Over the connection in memory the client has the text, over one that carries
    no more than 4000 bytes an error. *)
Example client_reads_graph_run :
  (client_GetResources None (InitFluxion (Q:=Z) true "first" small_cluster).2).1 =
    Ret (Some (mkResourceResponse (ToBytes the_graph).1), None) /\
  (client_GetResources (H:=limited 4000 mem_conn) None (InitFluxion (Q:=Z) true "first" small_cluster).2).1 =
    Ret (None, Some (Err "rpc error: code = ResourceExhausted")).
Proof. split; vm_compute; reflexivity. Qed.

(** A server that implements nothing answers every call with an error. *)
Example unimplemented_server :
  (@client_GetGroup MemCluster (mem_invoke UnimplementedExternalPluginServiceServer) None small_cluster).1 =
  Ret (None, Some (unimplemented "GetGroup")).
Proof. vm_compute. reflexivity. Qed.
