(* ===== verification/Flags.v ===== *)
(** * The command line of the manager: the flags of [cmd/manager/main.go]

    The seven flags of the program, parsed the way Go's [flag] package does,
    with [strconv.ParseBool] and [strconv.ParseInt] in base 0 for their values.
    Libraries register flags of their own on the same command line (logging,
    [kubeconfig]): a parameter that says which names are taken and which values
    they accept. *)

From Stdlib Require Import Ascii.
From stdpp Require Import base option strings numbers list pretty.
From S2P Require Import Prelude GoStrings.

(** ** Values *)

(** [strconv.ParseBool]. *)
Definition ParseBool (s : string) : option bool :=
  if bool_decide (s ∈ ["1"; "t"; "T"; "TRUE"; "true"; "True"]) then Some true
  else if bool_decide (s ∈ ["0"; "f"; "F"; "FALSE"; "false"; "False"]) then Some false
  else None.
Definition FormatBool (b : bool) : string := if b then "true" else "false".

(** [lower(c)] of [strconv]: [c | 0x20]. *)
Definition lower (c : ascii) : Z := Z.lor (Z.of_N (N_of_ascii c)) 32.

(** The value of a digit or a letter. *)
Definition digit36 (c : ascii) : option Z :=
  match digit_of c with
  | Some d => Some d
  | None => let l := lower c in if ((97 <=? l) && (l <=? 122))%Z then Some (l - 97 + 10)%Z else None
  end.

(** The loop of [strconv.ParseUint] called with base 0: [base] is the base of
    the prefix, underscores are passed over and remembered. *)
Fixpoint parse_digits0 (base maxVal n : Z) (under : bool) (s : string) : Z * option num_error * bool :=
  match s with
  | "" => (n, None, under)
  | String c s' =>
      if bool_decide (c = "_"%char) then parse_digits0 base maxVal n true s' else
      match digit36 c with
      | None => (0%Z, Some ErrSyntax, under)
      | Some d =>
          if (base <=? d)%Z then (0%Z, Some ErrSyntax, under)
          else if (maxVal <? n * base + d)%Z then (maxVal, Some ErrRange, under)
          else parse_digits0 base maxVal (n * base + d) under s'
      end
  end.

(** [underscoreOK] after the sign and the base prefix: an underscore stands
    between digits, the prefix counting as one.  [i] is the last class seen:
    ["^"] at the start, ["0"] a digit, ["_"], or ["!"] anything else. *)
Fixpoint underscore_scan (hex : bool) (i : ascii) (s : string) : bool :=
  match s with
  | "" => negb (bool_decide (i = "_"%char))
  | String c s' =>
      if bool_decide (is_Some (digit_of c)) || (hex && (97 <=? lower c)%Z && (lower c <=? 102)%Z)
      then underscore_scan hex "0"%char s'
      else if bool_decide (c = "_"%char) then bool_decide (i = "0"%char) && underscore_scan hex "_"%char s'
      else negb (bool_decide (i = "_"%char)) && underscore_scan hex "!"%char s'
  end.

(** The base that the prefix of a number gives, and what follows it; a lone
    zero, or one before digits, is octal. *)
Definition base_prefix (s : string) : Z * string :=
  match s with
  | String z (String c (String d rest)) =>
      if negb (bool_decide (z = "0"%char)) then (10%Z, s)
      else if (lower c =? 98)%Z then (2%Z, String d rest)
      else if (lower c =? 111)%Z then (8%Z, String d rest)
      else if (lower c =? 120)%Z then (16%Z, String d rest)
      else (8%Z, String c (String d rest))
  | String z rest => if bool_decide (z = "0"%char) then (8%Z, rest) else (10%Z, s)
  | "" => (10%Z, s)
  end.

Definition underscoreOK (s : string) : bool :=
  match s with
  | String z (String c rest) =>
      if bool_decide (z = "0"%char) && ((lower c =? 98) || (lower c =? 111) || (lower c =? 120))%Z
      then underscore_scan (lower c =? 120)%Z "0"%char rest
      else underscore_scan false "^"%char s
  | _ => underscore_scan false "^"%char s
  end.

(** [strconv.ParseUint(s, 0, bits)]. *)
Definition ParseUint0 (bits : Z) (s : string) : Z * option num_error :=
  match s with
  | "" => (0%Z, Some ErrSyntax)
  | _ =>
      let '(base, digits) := base_prefix s in
      let '(n, err, under) := parse_digits0 base (2 ^ bits - 1) 0 false digits in
      match err with
      | Some _ => (n, err)
      | None => if under && negb (underscoreOK s) then (0%Z, Some ErrSyntax) else (n, None)
      end
  end.

(** [strconv.ParseInt(s, 0, bits)]. *)
Definition ParseInt0 (s : string) (bits : Z) : Z * option num_error :=
  match s with
  | "" => (0%Z, Some ErrSyntax)
  | String c rest =>
      let neg := bool_decide (c = "-"%char) in
      let body := if bool_decide (c = "-"%char) || bool_decide (c = "+"%char) then rest else s in
      let '(un, err) := ParseUint0 bits body in
      match err with
      | Some ErrSyntax => (0%Z, Some ErrSyntax)
      | _ =>
          let cutoff := (2 ^ (bits - 1))%Z in
          if negb neg && (cutoff <=? un)%Z then ((cutoff - 1)%Z, Some ErrRange)
          else if neg && (cutoff <? un)%Z then ((- cutoff)%Z, Some ErrRange)
          else ((if neg then - un else un)%Z, None)
      end
  end.

Example ParseInt0_ex1 : ParseInt0 "-0x1_f" 64 = ((-31)%Z, None).
Proof. vm_compute. reflexivity. Qed.
Example ParseInt0_ex2 : ParseInt0 "010" 64 = (8%Z, None).
Proof. vm_compute. reflexivity. Qed.
Example ParseInt0_ex3 : ParseInt0 "1__0" 64 = (0%Z, Some ErrSyntax).
Proof. vm_compute. reflexivity. Qed.
Example ParseInt0_ex4 : ParseInt0 "0b" 64 = (0%Z, Some ErrSyntax).
Proof. vm_compute. reflexivity. Qed.
Example ParseInt0_ex5 : ParseInt0 "0" 64 = (0%Z, None).
Proof. vm_compute. reflexivity. Qed.

(** ** The flags *)

(** The variables of [main] that flags set. *)
Record Options := mkOptions {
  metricsAddr : string;
  probeAddr : string;
  policy : string;
  enableLeaderElection : bool;
  jobDuration : Z;
  secureMetrics : bool;
  enableHTTP2 : bool
}.

Definition default_options : Options := mkOptions "0" ":8081" "" false 0 true false.

(** What a command-line argument is to the parser. *)
Inductive argument :=
  | NotFlag
  | Terminator
  | BadSyntax
  | AFlag (name : string) (value : option string).

(** Cut at the first equals sign. *)
Fixpoint cut_equals (s : string) : string * option string :=
  match s with
  | "" => ("", None)
  | String c s' =>
      if bool_decide (c = "="%char) then ("", Some s')
      else let '(name, value) := cut_equals s' in (String c name, value)
  end.

(** The name after the minus signs. *)
Definition named (s : string) : argument :=
  match s with
  | "" => BadSyntax
  | String c _ =>
      if bool_decide (c = "-"%char) || bool_decide (c = "="%char) then BadSyntax
      else let '(name, value) := cut_equals s in AFlag name value
  end.
Definition classify (s : string) : argument :=
  match s with
  | String c1 (String c2 rest) =>
      if negb (bool_decide (c1 = "-"%char)) then NotFlag
      else if bool_decide (c2 = "-"%char)
           then match rest with "" => Terminator | _ => named rest end
           else named (String c2 rest)
  | _ => NotFlag
  end.

Section Parse.
(** The flags that libraries register: whether they are boolean, and the values
    they accept. *)
Context (other : string -> option (bool * (string -> bool))).

Definition set_bool (value : string) (k : bool -> Options) : option Options := k <$> ParseBool value.

(** [flag.Value.Set] of the flag called [name]; [None] is an error. *)
Definition set_flag (name value : string) (o : Options) : option Options :=
  let '(mkOptions m p pol le d s h) := o in
  if bool_decide (name = "metrics-bind-address") then Some (mkOptions value p pol le d s h)
  else if bool_decide (name = "health-probe-bind-address") then Some (mkOptions m value pol le d s h)
  else if bool_decide (name = "policy") then Some (mkOptions m p value le d s h)
  else if bool_decide (name = "leader-elect") then set_bool value (fun b => mkOptions m p pol b d s h)
  else if bool_decide (name = "duration") then
    match ParseInt0 value 64 with (v, None) => Some (mkOptions m p pol le v s h) | (_, Some _) => None end
  else if bool_decide (name = "metrics-secure") then set_bool value (fun b => mkOptions m p pol le d b h)
  else if bool_decide (name = "enable-http2") then set_bool value (fun b => mkOptions m p pol le d s b)
  else match other name with Some (_, accepts) => if accepts value then Some o else None | None => None end.

(** Whether the flag is defined, and whether it is boolean. *)
Definition flag_is_bool (name : string) : option bool :=
  if bool_decide (name ∈ ["metrics-bind-address"; "health-probe-bind-address"; "policy"; "duration"]) then Some false
  else if bool_decide (name ∈ ["leader-elect"; "metrics-secure"; "enable-http2"]) then Some true
  else fst <$> other name.

(** [flag.Parse] leaves the options and the remaining arguments, or ends the
    process: 0 when help was asked for, 2 on any other error. *)
Inductive parsed := Parsed (o : Options) (rest : list string) | ParseExit (code : Z).

Fixpoint parse (args : list string) (o : Options) : parsed :=
  match args with
  | [] => Parsed o []
  | s :: rest =>
      match classify s with
      | NotFlag => Parsed o args
      | Terminator => Parsed o rest
      | BadSyntax => ParseExit 2
      | AFlag name value =>
          match flag_is_bool name with
          | None => if bool_decide (name = "help") || bool_decide (name = "h") then ParseExit 0 else ParseExit 2
          | Some true =>
              match set_flag name (default "true" value) o with Some o => parse rest o | None => ParseExit 2 end
          | Some false =>
              match value, rest with
              | Some v, _ => match set_flag name v o with Some o => parse rest o | None => ParseExit 2 end
              | None, v :: rest => match set_flag name v o with Some o => parse rest o | None => ParseExit 2 end
              | None, [] => ParseExit 2
              end
          end
      end
  end.
End Parse.

(** ** Printing and parsing *)

(** Texts of decimal digits that do not start with a zero are read as by
    [ParseInt] in base 10. *)
Fixpoint decimal_text (s : string) : bool :=
  match s with "" => true | String c s' => bool_decide (is_Some (digit_of c)) && decimal_text s' end.

Lemma parse_digits0_decimal maxVal s : forall n,
  decimal_text s = true -> parse_digits0 10 maxVal n false s = (parse_digits maxVal n s, false).
Proof.
  induction s as [|c s IH]; intros n Hs; [done|]. cbn [decimal_text] in Hs.
  apply andb_true_iff in Hs as [[d Hd]%bool_decide_eq_true Hs]. cbn [parse_digits0 parse_digits].
  rewrite bool_decide_eq_false_2 by by intros ->. unfold digit36. rewrite Hd.
  assert (d < 10)%Z by (unfold digit_of in Hd; repeat case_match; simplify_eq; lia).
  destruct (Z.leb_spec 10 d); [lia|]. destruct (_ <? _)%Z; [done|]. by apply IH.
Qed.

Lemma pretty_N_go_decimal (x : N) : forall s, decimal_text s = true -> decimal_text (pretty_N_go x s) = true.
Proof.
  induction (N.lt_wf_0 x) as [x _ IH]; intros s Hs. destruct (decide (x = 0)%N) as [->|Hx]; [done|].
  rewrite pretty_N_go_step by lia. apply IH; [apply N.div_lt; lia|]. cbn [decimal_text].
  rewrite digit_of_pretty by (apply N.mod_lt; lia). rewrite bool_decide_eq_true_2 by eauto. done.
Qed.

Lemma pretty_N_go_head (x : N) : forall s, (x <> 0)%N -> exists c t, pretty_N_go x s = String c t /\ c <> "0"%char.
Proof.
  induction (N.lt_wf_0 x) as [x _ IH]; intros s Hx. rewrite pretty_N_go_step by lia.
  destruct (decide (x `div` 10 = 0)%N) as [Hz|Hz].
  - rewrite Hz, pretty_N_go_0. eexists _, _. split; [done|]. apply N.div_small_iff in Hz; [|lia].
    rewrite N.mod_small by done. destruct x as [|p]; [done|].
    do 4 (destruct p as [p|p|]; try (exfalso; lia); try done).
  - apply IH; [apply N.div_lt; lia|done].
Qed.

Lemma ParseUint0_pretty bits (n : N) : (0 <= bits)%Z -> ParseUint0 bits (pretty n) = ParseUint bits (pretty n).
Proof.
  intros Hb. unfold pretty, pretty_N. destruct (decide (n = 0)%N) as [->|Hn].
  { unfold ParseUint0, ParseUint. set (maxVal := (2 ^ bits - 1)%Z). assert (0 <= maxVal)%Z.
    { pose proof (Z.pow_pos_nonneg 2 bits). unfold maxVal. lia. }
    change (base_prefix "0") with (8%Z, ""). cbn [parse_digits0 parse_digits]. change (digit_of "0") with (Some 0%Z).
    cbv iota. change (0 * 10 + 0)%Z with 0%Z. destruct (Z.ltb_spec maxVal 0); [lia|done]. }
  destruct (pretty_N_go_head n "" Hn) as (c & t & E & Hc).
  pose proof (pretty_N_go_decimal n "" eq_refl) as Hd. rewrite E in *.
  unfold ParseUint0, ParseUint. assert (base_prefix (String c t) = (10%Z, String c t)) as ->.
  { unfold base_prefix. rewrite (bool_decide_eq_false_2 _ Hc). by destruct t as [|? [|? ?]]. }
  rewrite parse_digits0_decimal by done. by destruct (parse_digits _ _ _) as [v [e|]].
Qed.

Lemma ParseInt0_Itoa z bits : (0 < bits)%Z -> in_range bits z -> ParseInt0 (Itoa z) bits = (z, None).
Proof.
  intros Hb Hz. rewrite <- (ParseInt_Itoa_gen bits z Hb Hz). unfold Itoa.
  assert (Hpos : forall n : N, ParseInt0 (pretty n) bits = ParseInt (pretty n) bits).
  { intros n. pose proof (ParseUint0_pretty bits n ltac:(lia)) as Hu. destruct (pretty n) as [|c s] eqn:E; [done|].
    apply pretty_N_not_sign in E as [Hm Hp]. unfold ParseInt0, ParseInt.
    rewrite (bool_decide_eq_false_2 _ Hm), (bool_decide_eq_false_2 _ Hp). cbn [orb]. cbv iota. by rewrite Hu. }
  destruct z as [|p|p]; [apply (Hpos 0%N)|apply (Hpos (Npos p))|].
  change (pretty (Z.neg p)) with (String "-" (pretty (Npos p))). unfold ParseInt0, ParseInt.
  change (bool_decide ("-"%char = "-"%char)) with true. cbn [orb]. cbv iota. by rewrite ParseUint0_pretty by lia.
Qed.

Lemma ParseBool_Format b : ParseBool (FormatBool b) = Some b.
Proof. by destruct b. Qed.

(** A command line that sets every option. *)
Definition print_options (o : Options) : list string :=
  ["--metrics-bind-address=" +:+ metricsAddr o; "--health-probe-bind-address=" +:+ probeAddr o;
   "--policy=" +:+ policy o; "--leader-elect=" +:+ FormatBool (enableLeaderElection o);
   "--duration=" +:+ Itoa (jobDuration o); "--metrics-secure=" +:+ FormatBool (secureMetrics o);
   "--enable-http2=" +:+ FormatBool (enableHTTP2 o)].

Section Facts.
Context (other : string -> option (bool * (string -> bool))).

(** One flag with its value in the same argument. *)
Lemma parse_flag arg name v rest o o' :
  classify arg = AFlag name (Some v) -> is_Some (flag_is_bool other name) -> set_flag other name v o = Some o' ->
  parse other (arg :: rest) o = parse other rest o'.
Proof. intros Hc [b Hb] Hs. cbn [parse]. rewrite Hc, Hb. destruct b; cbn; by rewrite Hs. Qed.

(** C35. Every setting of the manager can be given on its command line: parsing the
    flags written for any options gives back exactly these options, whatever
    was set before and whatever flags the libraries add, for addresses and
    policies of any content. *)
Theorem parse_print_options o o0 :
  in_range 64 (jobDuration o) -> parse other (print_options o) o0 = Parsed o [].
Proof.
  intros Hd. destruct o as [m p pol le d s h], o0 as [m0 p0 pol0 le0 d0 s0 h0]. cbn in Hd.
  unfold print_options. cbn [metricsAddr probeAddr policy enableLeaderElection jobDuration secureMetrics enableHTTP2].
  rewrite (parse_flag _ "metrics-bind-address" m _ _ (mkOptions m p0 pol0 le0 d0 s0 h0)) by (done || by eexists).
  rewrite (parse_flag _ "health-probe-bind-address" p _ _ (mkOptions m p pol0 le0 d0 s0 h0)) by (done || by eexists).
  rewrite (parse_flag _ "policy" pol _ _ (mkOptions m p pol le0 d0 s0 h0)) by (done || by eexists).
  rewrite (parse_flag _ "leader-elect" (FormatBool le) _ _ (mkOptions m p pol le d0 s0 h0))
    by (done || (by eexists) || by destruct le).
  rewrite (parse_flag _ "duration" (Itoa d) _ _ (mkOptions m p pol le d s0 h0)); [|done|by eexists|].
  2:{ unfold set_flag. rewrite ParseInt0_Itoa by done. done. }
  rewrite (parse_flag _ "metrics-secure" (FormatBool s) _ _ (mkOptions m p pol le d s h0))
    by (done || (by eexists) || by destruct s).
  rewrite (parse_flag _ "enable-http2" (FormatBool h) _ _ (mkOptions m p pol le d s h))
    by (done || (by eexists) || by destruct h).
  done.
Qed.
End Facts.

(** ** Flags that are not given *)

Section Frame.
Context (other : string -> option (bool * (string -> bool))).

(** The argument is a flag called [name]. *)
Definition names_flag (name arg : string) : bool :=
  match classify arg with AFlag n _ => bool_decide (n = name) | _ => false end.

Lemma set_flag_http2 name v o o' :
  name <> "enable-http2" -> set_flag other name v o = Some o' -> enableHTTP2 o' = enableHTTP2 o.
Proof.
  intros Hn. unfold set_flag, set_bool. destruct o as [m p pol le d s h].
  repeat case_bool_decide; try done; try (by intros [= <-]);
    try (destruct (ParseBool v); by intros [= <-]); repeat case_match; by intros [= <-].
Qed.
Lemma set_flag_secure name v o o' :
  name <> "metrics-secure" -> set_flag other name v o = Some o' -> secureMetrics o' = secureMetrics o.
Proof.
  intros Hn. unfold set_flag, set_bool. destruct o as [m p pol le d s h].
  repeat case_bool_decide; try done; try (by intros [= <-]);
    try (destruct (ParseBool v); by intros [= <-]); repeat case_match; by intros [= <-].
Qed.

(** What only the flag called [flag] sets stays when no argument names it. *)
Lemma parse_frame {A} (get : Options -> A) flag :
  (forall name v o o', name <> flag -> set_flag other name v o = Some o' -> get o' = get o) ->
  forall args o o' rest, parse other args o = Parsed o' rest ->
    Forall (fun a => names_flag flag a = false) args -> get o' = get o.
Proof.
  intros Hget args. remember (length args) as n eqn:Hn. assert (Hle : length args <= n) by lia. clear Hn.
  revert args Hle. induction n as [|n IH]; intros [|s args] Hle o o' rest Hp Ha; cbn in Hle; try lia;
    try by injection Hp as <- _. apply Forall_cons in Ha as [Hs Ha]. cbn [parse] in Hp. unfold names_flag in Hs.
  destruct (classify s) as [| | |name value]; try done; try by injection Hp as <- _.
  apply bool_decide_eq_false in Hs.
  assert (Hstep : forall v args', length args' <= n -> Forall (fun a => names_flag flag a = false) args' ->
    match set_flag other name v o with Some o1 => parse other args' o1 | None => ParseExit 2 end = Parsed o' rest ->
    get o' = get o).
  { intros v args' Hl Ha' H. destruct (set_flag other name v o) as [o1|] eqn:E; [|done].
    rewrite (IH args' Hl o1 o' rest H Ha'). by eapply Hget. }
  destruct (flag_is_bool other name) as [[|]|]; [by eapply Hstep, Hp; [lia|]| |by repeat case_match].
  destruct value as [v|]; [by eapply Hstep, Hp; [lia|]|]. destruct args as [|v args]; [done|].
  apply Forall_cons in Ha as [_ Ha]. cbn in Hle. eapply Hstep, Hp; [lia|done].
Qed.
End Frame.

Definition no_other (name : string) : option (bool * (string -> bool)) := None.

Lemma parse_print_options_witness :
  parse no_other (print_options (mkOptions ":8443" ":8081" "fcfs=x" true (-60) false true)) default_options =
    Parsed (mkOptions ":8443" ":8081" "fcfs=x" true (-60) false true) [].
Proof.
  apply (parse_print_options no_other (mkOptions ":8443" ":8081" "fcfs=x" true (-60) false true) default_options).
  unfold in_range. cbn. lia.
Defined.

(** The two forms of an argument, and the exits. *)
Example parse_ex1 :
  parse no_other ["-policy"; "fcfs"; "--leader-elect"; "--duration=0x10"; "--"; "-x"] default_options =
    Parsed (mkOptions "0" ":8081" "fcfs" true 16 true false) ["-x"].
Proof. vm_compute. reflexivity. Qed.
Example parse_ex2 : parse no_other ["-policy"] default_options = ParseExit 2.
Proof. vm_compute. reflexivity. Qed.
Example parse_ex3 : parse no_other ["--leader-elect=maybe"] default_options = ParseExit 2.
Proof. vm_compute. reflexivity. Qed.
Example parse_ex4 : parse no_other ["-h"] default_options = ParseExit 0.
Proof. vm_compute. reflexivity. Qed.
Example parse_ex5 : parse no_other ["-leader-elect"; "false"] default_options =
  Parsed (mkOptions "0" ":8081" "" true 0 true false) ["false"].
Proof. vm_compute. reflexivity. Qed.
