(* ===== verification/Manager.v ===== *)
(** * The manager process: [cmd/manager/main.go]

    The settings that [main] makes of the command line, the wiring of queue,
    Fluxion client, controller, webhook and informer, and how the process ends.
    Controller-runtime and the Kubernetes and Fluxion clients are libraries
    outside the repository: a class over an abstract state; the run of the
    manager between start and stop is a parameter of [main]. *)

From Stdlib Require Import Ascii.
From stdpp Require Import base option strings gmap numbers list relations.
From S2P Require Import Prelude GoStrings Json Api Kube Database World Mem Strategy Queue JobWorker.
From S2P Require Import UngateWorker CancelWorkers Controller Jobspec Webhook Pipeline Resources Cluster Flags.

(** ** Settings *)

Section Settings.
(** The fields of [tls.Config] that the program does not touch. *)
Context {T : Type}.

Record tls_Config := mkTLSConfig { tls_NextProtos : list string; tls_rest : T }.

(** [disableHTTP2], and the options for both servers. *)
Definition disableHTTP2 (c : tls_Config) : tls_Config := mkTLSConfig ["http/1.1"] (tls_rest c).
Definition tlsOpts (o : Options) : list (tls_Config -> tls_Config) := if enableHTTP2 o then [] else [disableHTTP2].

(** A server applies its options in order. *)
Definition configure (opts : list (tls_Config -> tls_Config)) (c : tls_Config) : tls_Config :=
  foldl (fun c opt => opt c) c opts.

Inductive filter_provider := WithAuthenticationAndAuthorization.

(** [metricsserver.Options] and [ctrl.Options]. *)
Record MetricsOptions := mkMetricsOptions {
  BindAddress : string;
  SecureServing : bool;
  metrics_TLSOpts : list (tls_Config -> tls_Config);
  FilterProvider : option filter_provider
}.
Record ManagerOptions := mkManagerOptions {
  Scheme : list string;
  Metrics : MetricsOptions;
  webhook_TLSOpts : list (tls_Config -> tls_Config);
  HealthProbeBindAddress : string;
  LeaderElection : bool;
  LeaderElectionID : string
}.

(** [init]: the kinds of client-go, here one entry, and those of the API group
    are added to the scheme. *)
Definition scheme : list string := AddToScheme ["clientgoscheme"].

Definition metricsServerOptions (o : Options) : MetricsOptions :=
  mkMetricsOptions (metricsAddr o) (secureMetrics o) (tlsOpts o)
    (if secureMetrics o then Some WithAuthenticationAndAuthorization else None).
Definition manager_options (o : Options) : ManagerOptions :=
  mkManagerOptions scheme (metricsServerOptions o) (tlsOpts o) (probeAddr o) (enableLeaderElection o)
    "b321c34b.converged-computing.org".

(** C34. The servers of the manager are closed by default: unless the command line
    names the flag that enables it, neither the metrics server nor the webhook
    server offers HTTP/2, whatever their configuration was before; and unless
    it names the flag for it, metrics are served over HTTPS and only to
    authorised users. *)
Theorem servers_closed_by_default other args o rest :
  parse other args default_options = Parsed o rest ->
  (Forall (fun a => names_flag "enable-http2" a = false) args ->
   forall c, tls_NextProtos (configure (webhook_TLSOpts (manager_options o)) c) = ["http/1.1"] /\
             tls_NextProtos (configure (metrics_TLSOpts (Metrics (manager_options o))) c) = ["http/1.1"]) /\
  (Forall (fun a => names_flag "metrics-secure" a = false) args ->
   SecureServing (Metrics (manager_options o)) = true /\
   FilterProvider (Metrics (manager_options o)) = Some WithAuthenticationAndAuthorization).
Proof.
  intros Hp. split; intros Ha.
  - pose proof (parse_frame other enableHTTP2 _ (set_flag_http2 other) _ _ _ _ Hp Ha) as Hh.
    intros c. cbn. unfold tlsOpts. by rewrite Hh.
  - pose proof (parse_frame other secureMetrics _ (set_flag_secure other) _ _ _ _ Hp Ha) as Hs.
    cbn. by rewrite Hs.
Qed.
End Settings.

Lemma servers_closed_by_default_witness :
  tls_NextProtos (configure (webhook_TLSOpts (manager_options (T:=unit)
    (mkOptions "0" ":8081" "fcfs" true 0 true false))) (mkTLSConfig ["h2"] tt)) = ["http/1.1"].
Proof.
  refine (proj1 (proj1 (servers_closed_by_default no_other ["--leader-elect"; "--policy"; "fcfs"]
    (mkOptions "0" ":8081" "fcfs" true 0 true false) [] _) _ _)); [vm_compute; reflexivity|].
  repeat (apply Forall_cons; split; [vm_compute; reflexivity|]). apply Forall_nil. exact I.
Defined.

(** ** Wiring *)

(** What [main] calls of controller-runtime, the clients and the operating
    system.  [lib_fluxion_NewClient] says whether it returned a client. *)
Class ManagerLib (T L : Type) := {
  lib_GetConfig : L -> error * L;
  lib_NewManager : ManagerOptions (T:=T) -> L -> error * L;
  lib_HTTPClientFor : L -> error * L;
  lib_RESTClientForGVK : string * string * string -> L -> error * L;
  lib_fluxion_NewClient : string -> L -> (bool * error) * L;
  lib_fluxion_Close : L -> L;
  lib_ControllerComplete : string -> L -> error * L;
  lib_Getenv : string -> L -> string;
  lib_RegisterWebhook : string -> L -> L;
  lib_NewForConfig : L -> error * L;
  lib_RunPodInformer : L -> L;
  lib_AddHealthzCheck : string -> L -> error * L;
  lib_AddReadyzCheck : string -> L -> error * L;
  lib_pool_Close : L -> L
}.

(** The world of the queue, the cluster as the start of the controller sees it,
    and the libraries. *)
Record Host (W N L : Type) := mkHost { h_world : W; h_cluster : N; h_lib : L }.
Arguments mkHost {W N L}. Arguments h_world {W N L} _. Arguments h_cluster {W N L} _. Arguments h_lib {W N L} _.

(** How the process ends: [os.Exit], or never: it waits on a channel that
    nobody closes.  A panic is the third way. *)
Inductive ending := Exited (code : Z) | Blocked.

Section Main.
Context {T L Q N C K F R : Type}.
Context `{!ManagerLib T L, !Quantity Q, !QuantityOps Q, !MapRange Q, !MilliQuantity Q, !ClusterClient Q N, !DbConn C, !RiverClient R}.
Abbreviation W := (World C K F R).
Abbreviation H := (Host W N L).

Definition on_world {A} (m : GoM W A) : GoM H A :=
  fun h => let '(a, w) := m (h_world h) in (a, mkHost w (h_cluster h) (h_lib h)).
Definition on_cluster {A} (m : GoM N A) : GoM H A :=
  fun h => let '(a, n) := m (h_cluster h) in (a, mkHost (h_world h) n (h_lib h)).
Definition on_lib {A} (f : L -> A * L) : GoM H A :=
  fun h => let '(a, l) := f (h_lib h) in (Ret a, mkHost (h_world h) (h_cluster h) l).
Definition do_lib (f : L -> L) : GoM H unit := on_lib (fun l => (tt, f l)).

(** [FluxJobReconciler], with the fields that code reads; [r_Fluxion] says
    whether there is a client. *)
Record FluxJobReconciler := mkReconciler {
  r_Queue : option (Queue C K F R);
  r_Fluxion : bool;
  r_Duration : Z
}.
Definition NewFluxJobReconciler (queue : option (Queue C K F R)) (fluxCli : bool) : FluxJobReconciler :=
  mkReconciler queue fluxCli 0.
Definition SetDuration (r : FluxJobReconciler) (duration : Z) : FluxJobReconciler :=
  mkReconciler (r_Queue r) (r_Fluxion r) duration.

(** [SetupWithManager]. *)
Definition SetupWithManager (r : FluxJobReconciler) : GoM H error := on_lib (lib_ControllerComplete "FluxJob").

(** [SetupEvents]: its handler is [pod_DeleteFunc]. *)
Definition SetupEvents (r : FluxJobReconciler) : GoM H error :=
  err ← on_lib lib_NewForConfig;
  match err with
  | Some _ => mret err
  | None => _ ← do_lib lib_RunPodInformer; mret None
  end.

(** [defer f()] around the rest of [main]: it runs when the rest panics;
    [os.Exit] does not run it, and a process that waits forever neither. *)
Definition deferred {A} (f : L -> L) (m : GoM H A) : GoM H A :=
  fun h => match m h with
           | (Ret a, h') => (Ret a, h')
           | (Panic why, h') => (Panic why, mkHost (h_world h') (h_cluster h') (f (h_lib h')))
           end.

(** The flags of the libraries, and [mgr.Start]: the run of the controller, the
    webhook server and the informer until a signal or an error. *)
Context (other : string -> option (bool * (string -> bool))).
Context (Start : FluxJobReconciler -> H -> error * H).

(** The end of [main]: the manager runs, the queue is stopped, and the process
    waits for the background context. *)
Definition run_manager (r : FluxJobReconciler) : GoM H ending :=
  match r_Queue r with
  | None => panic "nil pointer dereference"
  | Some q =>
      deferred lib_pool_Close
       (err ← (fun h => let '(e, h') := Start r h in (Ret e, h'));
        match err with
        | Some _ => mret (Exited 1)
        | None => _ ← on_world Stop; mret Blocked
        end)
  end.

(** The part between the client of Fluxion and the start. *)
Definition register (r : FluxJobReconciler) : GoM H ending :=
  err ← SetupWithManager r;
  match err with Some _ => mret (Exited 1) | None =>
  enabled ← gets (fun h : H => negb (bool_decide (lib_Getenv "ENABLE_WEBHOOKS" (h_lib h) = "false")));
  _ ← (if enabled : bool then do_lib (lib_RegisterWebhook "/mutate-v1-sidecar") else mret tt);
  _ ← SetupEvents r;
  err ← on_lib (lib_AddHealthzCheck "healthz");
  match err with Some _ => mret (Exited 1) | None =>
  err ← on_lib (lib_AddReadyzCheck "readyz");
  match err with Some _ => mret (Exited 1) | None =>
  run_manager r
  end end end.

(** The rest of [main], with the queue that [NewQueue] returned. *)
Definition launch (o : Options) (queue : option (Queue C K F R)) : GoM H ending :=
  '(fluxCli, _) ← on_lib (lib_fluxion_NewClient "127.0.0.1:4242");
  let reconciler := SetDuration (NewFluxJobReconciler queue fluxCli) (jobDuration o) in
  _ ← on_cluster (InitFluxion (r_Fluxion reconciler) (policy o));
  if negb fluxCli then panic "nil pointer dereference"
  else deferred lib_fluxion_Close (register reconciler).

(** [main]. *)
Definition main (args : list string) : GoM H ending :=
  match parse other args default_options with
  | ParseExit code => mret (Exited code)
  | Parsed o _ =>
      err ← on_lib lib_GetConfig;
      match err with Some _ => mret (Exited 1) | None =>
      err ← on_lib (lib_NewManager (manager_options o));
      match err with Some _ => mret (Exited 1) | None =>
      _ ← on_lib lib_HTTPClientFor;
      _ ← on_lib (lib_RESTClientForGVK ("", "v1", "Pod"));
      '(queue, _) ← on_world (NewQueue Easy.EasyBackfill);
      launch o queue
      end end
  end.
End Main.
Arguments FluxJobReconciler : clear implicits.

(** ** How the process ends *)

Section MainFacts.
Context {T L Q N C K F R : Type}.
Context `{!ManagerLib T L, !Quantity Q, !QuantityOps Q, !MapRange Q, !MilliQuantity Q, !ClusterClient Q N, !DbConn C, !RiverClient R}.
Abbreviation Hst := (Host (World C K F R) N L).
Context (other : string -> option (bool * (string -> bool))).
Implicit Types h : Hst.
Implicit Types start : FluxJobReconciler C K F R -> Hst -> error * Hst.

Abbreviation program start := (main (T:=T) (Q:=Q) other start).

(** A call of the setup that ends the process when it fails. *)
Definition startup_error (o : Options) : Prop :=
  exists (l : L) e, (lib_GetConfig l).1 = Some e \/ (lib_NewManager (manager_options o) l).1 = Some e \/
    (lib_ControllerComplete "FluxJob" l).1 = Some e \/
    (lib_AddHealthzCheck "healthz" l).1 = Some e \/ (lib_AddReadyzCheck "readyz" l).1 = Some e.

Lemma on_lib_eq {A} (f : L -> A * L) h :
  on_lib f h = (Ret (f (h_lib h)).1, mkHost (h_world h) (h_cluster h) (f (h_lib h)).2).
Proof. unfold on_lib. by destruct (f (h_lib h)). Qed.

(** Computations that do not panic. *)
Definition no_panic {A} (m : GoM (World C K F R) A) : Prop := forall w, exists a w', m w = (Ret a, w').
Lemma no_panic_ret {A} (a : A) : no_panic (mret a).
Proof. intros w. by exists a, w. Qed.
Lemma no_panic_bind {A B} (m : GoM _ A) (f : A -> GoM _ B) : no_panic m -> (forall a, no_panic (f a)) -> no_panic (m ≫= f).
Proof. intros Hm Hf w. destruct (Hm w) as (a & w1 & E). destruct (Hf a w1) as (b & w2 & E2). exists b, w2. by rewrite run_bind, E. Qed.
Lemma no_panic_on_conn {A} (f : C -> A * C) : no_panic (on_conn f).
Proof. intros w. rewrite on_conn_eq. eauto. Qed.
Lemma no_panic_on_river {A} (f : R -> A * R) : no_panic (on_river f).
Proof. intros w. rewrite on_river_eq. eauto. Qed.

(** Creating the queue may fail, but does not panic. *)
Lemma NewQueue_returns : no_panic (NewQueue Easy.EasyBackfill).
Proof.
  unfold NewQueue. repeat first [apply no_panic_ret | apply no_panic_on_conn | apply no_panic_on_river
                                | apply no_panic_bind; [|intros ?] | case_match].
Qed.


(** [register] fails in one of its calls or comes to the manager, whatever
    starting it does. *)
Lemma register_cases o r h :
  (startup_error o /\ exists h', forall start, register (T:=T) start r h = (Ret (Exited 1), h')) \/
  exists h1, forall start, register (T:=T) start r h = run_manager start r h1.
Proof.
  unfold register, SetupWithManager, SetupEvents, do_lib.
  destruct (lib_ControllerComplete "FluxJob" (h_lib h)) as [e l1] eqn:E1.
  assert (Hr : forall (f : error -> GoM Hst ending), (on_lib (lib_ControllerComplete "FluxJob") ≫= f) h =
    f e (mkHost (h_world h) (h_cluster h) l1)) by (intros f; by rewrite run_bind, on_lib_eq, E1).
  destruct e as [e|].
  { left. split; [exists (h_lib h), e; rewrite E1; auto|]. eexists. intros start. by rewrite Hr. }
  set (h1 := mkHost (h_world h) (h_cluster h) l1) in *.
  set (b := negb (bool_decide (lib_Getenv "ENABLE_WEBHOOKS" (h_lib h1) = "false"))).
  set (l2 := if b then lib_RegisterWebhook "/mutate-v1-sidecar" l1 else l1).
  set (l3 := match lib_NewForConfig l2 with (Some _, l) => l | (None, l) => lib_RunPodInformer l end).
  assert (Hs : forall start, register (T:=T) start r h =
    (err ← on_lib (lib_AddHealthzCheck "healthz");
     match err with Some _ => mret (Exited 1) | None =>
     err ← on_lib (lib_AddReadyzCheck "readyz");
     match err with Some _ => mret (Exited 1) | None => run_manager start r end end) (mkHost (h_world h) (h_cluster h) l3)).
  { intros start. unfold register, SetupWithManager, SetupEvents, do_lib. rewrite Hr, run_bind.
    change (gets _ h1) with (Ret b, h1). cbn iota beta. rewrite run_bind.
    assert (Hb : (if b then on_lib (fun l => (tt, lib_RegisterWebhook "/mutate-v1-sidecar" l)) else mret tt) h1 =
                 (Ret tt, mkHost (h_world h) (h_cluster h) l2)) by (subst l2; by destruct b).
    rewrite Hb, run_bind, run_bind, on_lib_eq. subst l3. cbn [h_world h_cluster h_lib fst snd].
    by destruct (lib_NewForConfig l2) as [[e|] l]. }
  clearbody l3. unfold register, SetupWithManager, SetupEvents, do_lib in Hs.
  destruct (lib_AddHealthzCheck "healthz" l3) as [[e|] l4] eqn:E4.
  { left. split; [exists l3, e; rewrite E4; auto 6|]. eexists. intros start. rewrite Hs, run_bind, on_lib_eq. cbn [h_lib]. by rewrite E4. }
  destruct (lib_AddReadyzCheck "readyz" l4) as [[e|] l5] eqn:E5.
  { left. split; [exists l4, e; rewrite E5; auto 6|]. eexists. intros start.
    rewrite Hs, run_bind, on_lib_eq. cbn [h_lib]. rewrite E4. cbn [fst snd]. rewrite run_bind, on_lib_eq. cbn [h_lib]. by rewrite E5. }
  right. eexists. intros start.
  rewrite Hs, run_bind, on_lib_eq. cbn [h_lib]. rewrite E4. cbn [fst snd]. rewrite run_bind, on_lib_eq. cbn [h_lib]. by rewrite E5.
Qed.

(** The part of [main] before the queue is asked for, and after. *)
Lemma setup_cases args h o rest :
  parse other args default_options = Parsed o rest ->
  (startup_error o /\ exists h', forall start, program start args h = (Ret (Exited 1), h')) \/
  exists queue e w' h', NewQueue Easy.EasyBackfill (h_world h) = (Ret (queue, e), w') /\
    forall start, program start args h = launch (T:=T) (Q:=Q) start o queue h'.
Proof.
  intros Hp. destruct (lib_GetConfig (h_lib h)) as [[e|] l1] eqn:E1.
  { left. split; [exists (h_lib h), e; rewrite E1; auto|]. eexists. intros start.
    unfold main. rewrite Hp, run_bind, on_lib_eq, E1. done. }
  destruct (lib_NewManager (manager_options o) l1) as [[e|] l2] eqn:E2.
  { left. split; [exists l1, e; rewrite E2; auto|]. eexists. intros start.
    unfold main. rewrite Hp, run_bind, on_lib_eq, E1. cbn [fst snd]. rewrite run_bind, on_lib_eq. cbn [h_lib]. by rewrite E2. }
  right. destruct (NewQueue_returns (h_world h)) as ([queue e] & w' & Hq). exists queue, e, w'. eexists. split; [done|].
  intros start. unfold main. rewrite Hp, run_bind, on_lib_eq, E1. cbn [fst snd].
  rewrite run_bind, on_lib_eq. cbn [h_lib]. rewrite E2. cbn [fst snd].
  rewrite run_bind, on_lib_eq, run_bind, on_lib_eq, run_bind. unfold on_world. cbn [h_world]. by rewrite Hq.
Qed.

(** With a client of Fluxion that takes the graph, the rest is [register]. *)
Lemma launch_cases o queue h :
  (exists why h', (forall start, launch (T:=T) (Q:=Q) start o queue h = (Panic why, h')) /\
     ((exists l, (lib_fluxion_NewClient "127.0.0.1:4242" l).1.1 = false) \/
      exists b n why, (InitFluxion (Q:=Q) b (policy o) n).1 = Panic why)) \/
  exists h', forall start, launch (T:=T) (Q:=Q) start o queue h =
    deferred lib_fluxion_Close (register (T:=T) start (mkReconciler queue true (jobDuration o))) h'.
Proof.
  destruct (lib_fluxion_NewClient "127.0.0.1:4242" (h_lib h)) as [[cli e] l1] eqn:E1.
  destruct (InitFluxion (Q:=Q) cli (policy o) (h_cluster h)) as [[e2|why] n] eqn:E2.
  - destruct cli.
    + right. eexists. intros start. unfold launch. rewrite run_bind, on_lib_eq, E1. cbn [fst snd].
      rewrite run_bind. unfold on_cluster. cbn [h_cluster r_Fluxion SetDuration NewFluxJobReconciler]. by rewrite E2.
    + left. do 2 eexists. split; [|left; exists (h_lib h); by rewrite E1].
      intros start. unfold launch. rewrite run_bind, on_lib_eq, E1. cbn [fst snd].
      rewrite run_bind. unfold on_cluster. cbn [h_cluster r_Fluxion SetDuration NewFluxJobReconciler]. by rewrite E2.
  - left. do 2 eexists. split; [|right; exists cli, (h_cluster h), why; by rewrite E2].
    intros start. unfold launch. rewrite run_bind, on_lib_eq, E1. cbn [fst snd].
    rewrite run_bind. unfold on_cluster. cbn [h_cluster r_Fluxion SetDuration NewFluxJobReconciler]. by rewrite E2.
Qed.


(** C32. The manager does not run without its queue: when the queue cannot be created
    (no database, or river does not start) the error is only logged, and the
    process then ends, by an exit or by a panic on the missing queue, before
    the manager is started: what a start would do makes no difference. *)
Theorem main_needs_queue args h e w' :
  NewQueue Easy.EasyBackfill (h_world h) = (Ret (None, e), w') ->
  (forall s1 s2, program s1 args h = program s2 args h) /\
  (forall start h', program start args h <> (Ret Blocked, h')).
Proof.
  intros Hq. assert (exists a h', a <> Ret Blocked /\ forall start, program start args h = (a, h')) as (a & h' & Ha & H).
  { destruct (parse other args default_options) as [o rest|code] eqn:Ep.
    2:{ exists (Ret (Exited code)), h. split; [done|]. intros start. unfold main. by rewrite Ep. }
    destruct (setup_cases args h o rest Ep) as [(_ & h' & H)|(queue & e1 & w1 & h5 & Hq1 & Hm)]; [by exists (Ret (Exited 1)), h'|].
    rewrite Hq in Hq1. injection Hq1 as <- <- <-.
    destruct (launch_cases o None h5) as [(why & h' & Hl & _)|[h6 Hl]].
    { exists (Panic why), h'. split; [done|]. intros start. by rewrite Hm. }
    destruct (register_cases o (mkReconciler None true (jobDuration o)) h6) as [[_ [h' Hr]]|[h7 Hr]].
    - exists (Ret (Exited 1)), h'. split; [done|]. intros start. rewrite Hm, Hl. unfold deferred. by rewrite Hr.
    - eexists (Panic _), _. split; [done|]. intros start. rewrite Hm, Hl. unfold deferred. by rewrite Hr. }
  split; [intros s1 s2; by rewrite !H|intros start h'']. rewrite H. by intros [= ->].
Qed.
End MainFacts.

(** ** The queue over the life of the process *)

Section MainInvariant.
Context {T L Q J Raw N C K F R : Type}.
Context `{!ManagerLib T L, !QuantityOps Q, !MapRange Q, !MilliQuantity Q, !ClusterClient Q N}.
Context `{!DbConn C, !DbLaws C, !RiverClient R, !RiverView R, !RiverLaws R}.
Context `{!PodClient Q K, !FluxJobClient K, !FluxionClient F, !Quantity Q, !JobspecLib J, !Codec Q Raw}.
Abbreviation Hst := (Host (World C K F R) N L).
Context (other : string -> option (bool * (string -> bool))).
Implicit Types h : Hst.

(** Creating, starting and stopping the river client inserts no task. *)
Hypothesis river_create : forall ws qs (r : R), river_tasks (river_NewClient ws qs r).2 = river_tasks r.
Hypothesis river_start : forall r : R, river_tasks (river_Start r).2 = river_tasks r.
Hypothesis river_stop : forall r : R, river_tasks (river_Stop r).2 = river_tasks r.

(** While the manager runs, the components take steps. *)
Context (Start : FluxJobReconciler C K F R -> Hst -> error * Hst).
Hypothesis start_steps : forall r h,
  r_Queue r = Some the_queue -> rtc (step (Q:=Q) (J:=J) (Raw:=Raw)) (h_world h) (h_world (Start r h).2).

(** [m] preserves the invariant of the queue, also when it panics. *)
Definition keeps {A} (m : GoM Hst A) : Prop := forall h, invariant (h_world h) -> invariant (h_world (m h).2).

Lemma keeps_ret {A} (a : A) : keeps (mret a).
Proof. by intros h. Qed.
Lemma keeps_panic {A} why : keeps (panic (A:=A) why).
Proof. by intros h. Qed.
Lemma keeps_gets {A} (f : Hst -> A) : keeps (gets f).
Proof. by intros h. Qed.
Lemma keeps_bind {A B} (m : GoM Hst A) (k : A -> GoM Hst B) : keeps m -> (forall a, keeps (k a)) -> keeps (m ≫= k).
Proof.
  intros Hm Hk h Hi. rewrite run_bind. specialize (Hm h Hi). destruct (m h) as [[a|why] h1]; [|done]. by apply Hk.
Qed.
Lemma keeps_on_lib {A} (f : L -> A * L) : keeps (on_lib f).
Proof. intros h Hi. unfold on_lib. by destruct (f (h_lib h)). Qed.
Lemma keeps_on_cluster {A} (m : GoM N A) : keeps (on_cluster m).
Proof. intros h Hi. unfold on_cluster. by destruct (m (h_cluster h)). Qed.
Lemma keeps_on_world {A} (m : GoM (World C K F R) A) : maintains invariant m -> keeps (on_world m).
Proof. intros Hm h Hi. unfold on_world. specialize (Hm _ Hi). by destruct (m (h_world h)). Qed.
Lemma keeps_deferred {A} (f : L -> L) (m : GoM Hst A) : keeps m -> keeps (deferred f m).
Proof. intros Hm h Hi. specialize (Hm h Hi). unfold deferred. by destruct (m h) as [[a|why] h1]. Qed.

(** Calls that leave the tasks alone. *)
Lemma maintains_on_river {A} (f : R -> A * R) :
  (forall r, river_tasks (f r).2 = river_tasks r) -> maintains (C:=C) (K:=K) (F:=F) invariant (on_river f).
Proof. intros Hf w Hw. rewrite on_river_eq. by apply (framed w); [|apply Hf|..]. Qed.

Lemma NewQueue_maintains : maintains invariant (NewQueue (C:=C) (K:=K) (F:=F) (R:=R) Easy.EasyBackfill).
Proof.
  unfold NewQueue. maintains_walk; try (apply maintains_on_river; auto).
Qed.

Lemma NewQueue_queue w queue e w' :
  NewQueue (C:=C) (K:=K) (F:=F) (R:=R) Easy.EasyBackfill w = (Ret (queue, e), w') -> queue = None \/ queue = Some the_queue.
Proof.
  unfold NewQueue. intros (e1 & w1 & _ & H)%bind_ret_inv. destruct e1; [injection H as <- _; auto|].
  apply bind_ret_inv in H as ([ws e2] & w2 & _ & H). destruct e2; [injection H as <- _; auto|].
  apply bind_ret_inv in H as (e3 & w3 & _ & H). destruct e3; [injection H as <- _; auto|].
  apply bind_ret_inv in H as (e4 & w4 & _ & H). destruct e4; [injection H as <- _; auto|].
  cbn in H. injection H as <- _. auto.
Qed.

Lemma run_manager_keeps r : r_Queue r = None \/ r_Queue r = Some the_queue -> keeps (run_manager Start r).
Proof.
  unfold run_manager. intros [->|Hq]; [apply keeps_panic|]. rewrite Hq. apply keeps_deferred, keeps_bind.
  - intros h Hi. pose proof (start_steps r h Hq) as Hs. destruct (Start r h) as [e h']. cbn in *.
    eapply reachable_invariant; [exact Hs|exact Hi].
  - intros [e|]; [apply keeps_ret|]. apply keeps_bind; [|intros; apply keeps_ret].
    apply keeps_on_world, maintains_on_river, river_stop.
Qed.

Lemma register_keeps r : r_Queue r = None \/ r_Queue r = Some the_queue -> keeps (register (T:=T) Start r).
Proof.
  intros Hq. unfold register, SetupWithManager, SetupEvents, do_lib.
  repeat first [apply keeps_ret | apply keeps_on_lib | apply keeps_gets | by apply run_manager_keeps
               | apply keeps_bind; [|intros ?] | case_match].
Qed.

(** From the first instruction of [main] to its end, whether it exits, panics or
    waits: if the queue is empty before, no two pending rows share a name and
    namespace afterwards, and every task that was inserted has a registered
    worker, a queue that is served, and arguments its worker knows. *)
Theorem main_tasks_served args h o h' p :
  fresh (h_world h) -> main (T:=T) (Q:=Q) other Start args h = (o, h') ->
  pending_unique (w_db (h_world h')) /\ (p ∈ river_tasks (w_river (h_world h')) -> task_ok p).
Proof.
  intros Hf Hm. assert (Hi : invariant (h_world h')); [|by destruct Hi; auto].
  assert (Hk : invariant (h_world (main (T:=T) (Q:=Q) other Start args h).2)); [|by rewrite Hm in Hk].
  apply fresh_invariant in Hf. clear Hm. revert h Hf. change (keeps (main (T:=T) (Q:=Q) other Start args)).
  unfold main, launch. destruct (parse other args default_options) as [opts rest|code]; [|apply keeps_ret].
  do 2 (apply keeps_bind; [apply keeps_on_lib|intros [e|]]; [apply keeps_ret|]).
  do 2 (apply keeps_bind; [apply keeps_on_lib|intros _]).
  intros h Hi. rewrite run_bind. pose proof (keeps_on_world _ NewQueue_maintains h Hi) as Hq.
  unfold on_world in *. destruct (NewQueue Easy.EasyBackfill (h_world h)) as [[[queue e]|why] w1] eqn:E; [|done].
  apply NewQueue_queue in E. revert Hq. cbn [snd]. generalize (mkHost w1 (h_cluster h) (h_lib h)).
  match goal with |- forall h1, _ -> invariant (h_world (?m h1).2) => change (keeps m) end.
  apply keeps_bind; [apply keeps_on_lib|]. intros [cli e1]. apply keeps_bind; [apply keeps_on_cluster|]. intros _.
  destruct cli; [|apply keeps_panic]. by apply keeps_deferred, register_keeps.
Qed.
End MainInvariant.

(** ** Runs with libraries in memory *)

(** The calls that fail, the value of the environment variable, and the calls
    made so far. *)
Record MemLib := mkMemLib { ml_fails : list string; ml_webhooks : string; ml_log : list string }.

Definition mem_log (name : string) (l : MemLib) : MemLib := mkMemLib (ml_fails l) (ml_webhooks l) (ml_log l ++ [name]).
Definition mem_call (name : string) (l : MemLib) : error * MemLib :=
  (if bool_decide (name ∈ ml_fails l) then Some (Err name) else None, mem_log name l).

#[export] Instance mem_lib : ManagerLib unit MemLib := {
  lib_GetConfig := mem_call "config";
  lib_NewManager _ := mem_call "manager";
  lib_HTTPClientFor := mem_call "http";
  lib_RESTClientForGVK _ := mem_call "rest";
  lib_fluxion_NewClient _ l := let '(e, l) := mem_call "fluxion" l in ((bool_decide (e = None), e), l);
  lib_fluxion_Close := mem_log "close fluxion";
  lib_ControllerComplete name := mem_call ("controller " +:+ name);
  lib_Getenv _ := ml_webhooks;
  lib_RegisterWebhook path := mem_log ("webhook " +:+ path);
  lib_NewForConfig := mem_call "clientset";
  lib_RunPodInformer := mem_log "informer";
  lib_AddHealthzCheck := mem_call;
  lib_AddReadyzCheck := mem_call;
  lib_pool_Close := mem_log "close pool"
}.

(** A database that cannot be reached. *)
Record DownConn := mkDownConn {}.
#[export] Instance down_conn : DbConn DownConn := {
  pool_New c := (Some (Err "no such host"), c);
  db_fate c := (Refused (Err "no such host"), c);
  db_now _ := 0%Z;
  db_order _ l := l
}.

Definition idle_host {C} (c : C) (env : string) : Host (MemWorld C) MemCluster MemLib :=
  mkHost (mkWorld c (mkDatabase [] []) (mkMemKube ∅ ∅ {[ ("default", "fresh-pod") := fresh_job ]}) (mkMemFluxion [] []) [] false)
         small_cluster (mkMemLib [] env []).
Definition idle_start {C} (r : FluxJobReconciler C (MemKube Z) MemFluxion MemRiver) (h : Host (MemWorld C) MemCluster MemLib)
  : error * Host (MemWorld C) MemCluster MemLib := (None, h).

(** A whole run: what is set up, in order; without webhooks, the same but one. *)
Example main_log :
  let run env := main (T:=unit) (Q:=Z) no_other idle_start [] (idle_host (mkUpConn 100) env) in
  (run "").1 = Ret Blocked /\
  ml_log (h_lib (run "").2) =
    ["config"; "manager"; "http"; "rest"; "fluxion"; "controller FluxJob"; "webhook /mutate-v1-sidecar";
     "clientset"; "informer"; "healthz"; "readyz"] /\
  ml_log (h_lib (run "false").2) =
    ["config"; "manager"; "http"; "rest"; "fluxion"; "controller FluxJob"; "clientset"; "informer"; "healthz"; "readyz"].
Proof. vm_compute. auto. Qed.

(** Without a database the deferred close of the Fluxion client still runs. *)
Example main_crash :
  let r := main (T:=unit) (Q:=Z) no_other idle_start [] (idle_host mkDownConn "") in
  (exists why, r.1 = Panic why) /\ last (ml_log (h_lib r.2)) = Some "close fluxion".
Proof. vm_compute. eauto. Qed.

(** An error of the manager ends the process with 1, and the queue is not
    stopped. *)
Example main_error :
  (main (T:=unit) (Q:=Z) no_other (fun _ h => (Some (Err "lost the lease"), h)) [] (idle_host (mkUpConn 100) "")).1 = Ret (Exited 1).
Proof. vm_compute. reflexivity. Qed.

Lemma main_needs_queue_witness :
  main (T:=unit) (Q:=Z) no_other idle_start [] (idle_host mkDownConn "") =
  main (T:=unit) (Q:=Z) no_other (fun _ h => (Some (Err "signal"), h)) [] (idle_host mkDownConn "").
Proof.
  assert (E : NewQueue Easy.EasyBackfill (h_world (idle_host mkDownConn "")) =
    (Ret (None, Some (Err "no such host")), h_world (idle_host mkDownConn ""))) by reflexivity.
  exact (proj1 (main_needs_queue (T:=unit) (Q:=Z) no_other [] (idle_host mkDownConn "") _ _ E) _ _).
Defined.

(** The manager reconciles the FluxJob of the host, if the webhook made it. *)
Definition webhook_made (fj : FluxJob) : bool :=
  negb (fs_Reservation (fj_Spec fj)) && bool_decide (fs_Type (fj_Spec fj) = JobWrappedPod).
Definition start_once (r : FluxJobReconciler UpConn (MemKube Z) MemFluxion MemRiver) (h : Host MemoryWorld MemCluster MemLib)
  : error * Host MemoryWorld MemCluster MemLib :=
  match mk_fluxjobs (w_kube (h_world h)) !! ("default", "fresh-pod") with
  | Some spec =>
      if webhook_made spec
      then (None, mkHost (Reconcile the_queue "default" "fresh-pod" (h_world h)).2 (h_cluster h) (h_lib h))
      else (None, h)
  | None => (None, h)
  end.

Lemma start_once_steps r h :
  r_Queue r = Some the_queue -> rtc (step (Q:=Z) (J:=SimpleJobspec) (Raw:=MemRaw)) (h_world h) (h_world (start_once r h).2).
Proof.
  intros _. unfold start_once. destruct (mk_fluxjobs (w_kube (h_world h)) !! _) as [spec|] eqn:E; [|done].
  destruct (webhook_made spec) eqn:Hm; [|done]. cbn [snd h_world].
  apply rtc_once, (step_reconcile _ "default" "fresh-pod" (Reconcile the_queue "default" "fresh-pod" (h_world h)).1);
    [|apply surjective_pairing].
  intros spec' k1 Hg. cbn in Hg. rewrite E in Hg. injection Hg as <- _.
  apply andb_true_iff in Hm as [Hr%negb_true_iff Ht%bool_decide_eq_true]. split; [done|]. rewrite Ht. by left.
Qed.

Definition process : outcome ending * Host MemoryWorld MemCluster MemLib :=
  main (T:=unit) (Q:=Z) no_other start_once [] (idle_host (mkUpConn 100) "").

Lemma main_tasks_served_witness :
  pending_unique (w_db (h_world process.2)) /\ task_ok (mkParams (AJob fresh_task) Easy.schedule_opts).
Proof.
  assert (Hf : fresh (h_world (idle_host (mkUpConn 100) ""))) by (split; reflexivity).
  assert (Hc : forall ws qs (r : MemRiver), river_tasks (river_NewClient ws qs r).2 = river_tasks r) by done.
  assert (Hb : forall r : MemRiver, river_tasks (river_Start r).2 = river_tasks r) by done.
  assert (He : forall r : MemRiver, river_tasks (river_Stop r).2 = river_tasks r) by done.
  destruct (main_tasks_served (T:=unit) (Q:=Z) (J:=SimpleJobspec) (Raw:=MemRaw) no_other Hc Hb He start_once start_once_steps []
    (idle_host (mkUpConn 100) "") process.1 process.2 (mkParams (AJob fresh_task) Easy.schedule_opts) Hf
    (surjective_pairing _)) as [H1 H2].
  split; [exact H1|]. apply H2. vm_compute. apply list_elem_of_here.
Defined.
