(* ===== verification/Group.v ===== *)
(** * Pod groups: [pkg/fluxqueue/group/group.go] and [labels.go]

    Names, sizes and durations of pod groups, read from labels and the pod
    spec. *)

From Stdlib Require Import Ascii.
From stdpp Require Import base option strings gmap numbers list.
From S2P Require Import Prelude GoStrings Json Api Kube World JobWorker.

Definition PodGroupLabel : string := "fluxnetes.group-name".
Definition PodGroupSizeLabel : string := "fluxnetes.group-size".

(** [PodGroup]. *)
Record PodGroup := mkPodGroup { pg_Name : string; pg_Size : Z; pg_Timestamp : Z; pg_Duration : Z }.

Section Group.
Context {Q : Type}.

(** [GetPodGroupLabel]: a missing label reads as the empty string. *)
Definition GetPodGroupLabel (pod : Pod Q) : string := default "" (pod_label pod PodGroupLabel).

(** [GetPodGroupName]. *)
Definition GetPodGroupName (pod : Pod Q) : string :=
  let groupName := GetPodGroupLabel pod in
  if bool_decide (groupName = "")
  then "fluxnetes-group-" +:+ om_Namespace (p_meta pod) +:+ "-" +:+ om_Name (p_meta pod)
  else groupName.

(** [GetPodGroupFullName]. *)
Definition GetPodGroupFullName (pod : Pod Q) : string := om_Namespace (p_meta pod) +:+ "/" +:+ GetPodGroupName pod.

(** [GetPodGroupSize]: a missing label is written as 1, which panics on a nil
    label map. The pod after the call, and the size or the error. *)
Definition GetPodGroupSize (pod : Pod Q) : outcome (Pod Q * (num_error + Z)) :=
  let parse (pod : Pod Q) groupSize :=
    match ParseInt groupSize 32 with
    | (_, Some e) => Ret (pod, inl e)
    | (size, None) => Ret (pod, inr (int32 size))
    end in
  match pod_label pod PodGroupSizeLabel with
  | Some groupSize => parse pod groupSize
  | None =>
      match om_Labels (p_meta pod) with
      | None => Panic "assignment to entry in nil map"
      | Some l => parse (set_pod_labels pod (<[PodGroupSizeLabel := "1"]> l)) "1"
      end
  end.

(** [GetPodGroupDuration]; the error is always nil. *)
Definition GetPodGroupDuration (pod : Pod Q) : Z * error :=
  match ps_ActiveDeadlineSeconds (p_spec pod) with
  | Some d => if (0 <? d)%Z then (d, None) else (0%Z, None)
  | None => (0%Z, None)
  end.

(** [GetPodCreationTimestamp], for a timestamp that is zero or a time and the
    clock; a [MicroTime] holds the time as it is. *)
Definition GetPodCreationTimestamp (CreationTimestamp : option Z) (now : Z) : Z :=
  match CreationTimestamp with
  | Some t => t
  | None => now
  end.

(** The payload of [AddDeadline]; its last brace is missing. *)
Definition deadline_payload : string := dq "{'spec': {'activeDeadlineSeconds': 3600}".

(** [AddDeadline]: nothing for a deadline that is nil or positive.  Reading the
    configuration of the cluster is an argument. *)
Definition AddDeadline {C K F R} `{!PodClient Q K} (InClusterConfig : GoM (World C K F R) error) (pod : Pod Q)
  : GoM (World C K F R) error :=
  match ps_ActiveDeadlineSeconds (p_spec pod) with
  | None => mret None
  | Some d =>
      if (0 <? d)%Z then mret None else
      err ← InClusterConfig;
      match err with Some _ => mret err | None =>
      err ← on_kube (kube_NewForConfig (Q:=Q));
      match err with Some _ => mret err | None =>
      on_kube (pods_Patch (Q:=Q) (om_Namespace (p_meta pod)) (om_Name (p_meta pod)) MergePatchType deadline_payload)
      end end
  end.

(** The size of a group is the number in its label if that fits 32 bits, and 1,
    which is then also written to the pod, if there is no label. *)
Theorem GetPodGroupSize_result (pod : Pod Q) :
  (forall n, in_range 32 n -> pod_label pod PodGroupSizeLabel = Some (Itoa n) -> GetPodGroupSize pod = Ret (pod, inr n)) /\
  (forall l, om_Labels (p_meta pod) = Some l -> l !! PodGroupSizeLabel = None ->
     GetPodGroupSize pod = Ret (set_pod_labels pod (<[PodGroupSizeLabel := "1"]> l), inr 1%Z)) /\
  (om_Labels (p_meta pod) = None -> exists why, GetPodGroupSize pod = Panic why) /\
  (forall pod' size, GetPodGroupSize pod = Ret (pod', inr size) -> in_range 32 size).
Proof.
  unfold GetPodGroupSize. split; [|split; [|split]].
  - intros n Hn ->. rewrite ParseInt_Itoa_gen by done. unfold int32. by rewrite wrap_id.
  - intros l Hl Hk. unfold pod_label, label_get. by rewrite Hl, Hk.
  - intros Hl. unfold pod_label, label_get. rewrite Hl. by eexists.
  - intros pod' size H. repeat case_match; simplify_eq; by apply wrap_range.
Qed.

(** The deadline patch is never valid JSON. *)
Lemma deadline_payload_invalid : json_parse deadline_payload = None.
Proof. vm_compute. reflexivity. Qed.
End Group.
